(* ===== verification/_CoqProject ===== *)
-Q . S2P
Prelude.v
StdContainers.v
StringFacts.v
Doubles.v
Diagnostics.v
MutatorKind.v
IR.v
Compat.v
SourceLocation.v
Irm.v
Mutator.v
Samples.v
MutationPoint.v
Reachable.v
LogicalMutators.v
Mutators.v
MutatorsFactory.v
CallTree.v
Instrumentation.v
Executor.v
Filters.v
Bitcode.v
Preparation.v
MutantExecution.v
ClangAST.v
ASTSearch.v
CompilationDatabase.v
Driver.v
JunkDetection.v
Sandbox.v
Pipes.v
SourceManager.v
SourceContext.v
Reporters.v
SQLiteReporter.v
OriginalTests.v
SharedMapping.v
Program.v
TestFinders.v
Toolchain.v
NativeRunner.v
MutatedProgram.v
CLIOptions.v
GeneratedDocs.v
DynamicLibraries.v
Loading.v
ASTStorage.v
ASTFinder.v
Run.v
Metrics.v
Progress.v
Validator.v
Main.v
