(* ===== verification/Prelude.v ===== *)
(** * Mull, verified: a model of the mutation testing tool and its properties

    Mull takes a program as LLVM bitcode with its tests, finds the places where
    the code can be mutated and that the tests reach, builds one mutated copy of
    a function per place, and runs the tests on every copy in a sandbox.  A
    mutant no test notices has survived.  This library models the tool's own
    logic and proves what makes its verdicts meaningful.  All paths below are
    under src/; "File.v" is a file of this library.

    ** How the program is put together

    mull-cxx (tools/driver-cxx/driver-cxx.cpp) turns its options into a
    configuration, extracts the bitcode embedded in an executable, finds the
    executable's dynamic libraries, reads the compilation flags recorded in the
    bitcode, builds the [Program], puts the filters together, searches the
    sources when asked to, runs the driver and writes the reports.
    [mull::Driver] (lib/Driver.cpp) chains the stages of a run:
    - number the functions of the bitcode files and compile them instrumented,
      so that every function reports being entered and left
      (lib/Instrumentation, lib/Toolchain with its object cache);
    - find the tests (lib/TestFrameworks), run each original test in a sandbox
      (lib/Sandbox), and read the functions it reached, with their distance
      from the test, off the tree of first calls
      (lib/Instrumentation/DynamicCallTree.cpp);
    - merge the reached functions (lib/ReachableFunction.cpp), drop functions
      and instructions by the filters (lib/Filters), search what is left with
      the selected mutators (lib/Mutators, chosen by
      lib/Mutators/MutatorsFactory.cpp), which yields mutation points
      (lib/MutationPoint.cpp);
    - drop points by path, by debug information, and by comparison with the
      sources (lib/JunkDetection and lib/AST, on clang's syntax trees);
    - per bitcode file, clone the mutated functions, aim the originals through
      trampolines and mutate the clones
      (lib/Bitcode.cpp, lib/Parallelization/Tasks/MutantPreparationTasks.cpp);
    - compile again, and run the tests that reach a point with its trampoline
      aimed at its mutant (lib/Parallelization/Tasks/MutantExecutionTask.cpp).
    Every stage hands its items to [TaskExecutor]
    (include/mull/Parallelization/TaskExecutor.h), which spreads them over
    threads.  The reporters (lib/Reporters) read the [Result].

    ** Files

    - Prelude.v: [outcome], the effect of C++ code that can end the process
      ([Exit]) or do what a program must not ([Abort]: a failed assertion, an
      uncaught exception, undefined behaviour such as a null dereference or
      signed overflow); loops over fallible steps; machine integers; automation.
      StdContainers.v: [std::map] and [std::set] as sorted lists.
      StringFacts.v: strings.
    - Diagnostics.v: lib/Diagnostics/Diagnostics.cpp; the output is a log.
    - MutatorKind.v, Irm.v, Mutator.v: the kinds of mutators, the low-level
      mutations (a git submodule: a parameter), the mutator classes with their
      data.  Mutators.v: [getMutations] and [applyMutation] of each class but
      the two of LogicalMutators.v, which recognise [&&] and [||] in the
      control flow.  MutatorsFactory.v: groups, registry, selection.
    - IR.v, SourceLocation.v: what mull looks at of an LLVM module and its
      debug information.  Compat.v: the layer over LLVM 9 and the version
      shown.  MutationPoint.v: addresses and points.
      Reachable.v: functions under test and the interfaces of the filters.
      Samples.v: concrete inputs for the witnesses.
    - CallTree.v, Instrumentation.v: the callbacks, the array they fill and the
      tree read off it; the numbering of functions.
    - Executor.v: threads as an interleaving step relation.  Progress.v: the
      thread that polls their counters and prints the bar.  Doubles.v: the
      arithmetic on [double] of the bar and of the mutation score, and how far
      it rounds.
    - Filters.v: the path filter with its cache, the debug information filter.
    - Bitcode.v: the points of a bitcode file and the preparation of mutants.
      MutantExecution.v: trampolines as memory cells, the run of the mutants.
    - ClangAST.v, ASTSearch.v, CompilationDatabase.v, JunkDetection.v: the
      comparison with the sources.
      ASTStorage.v: the parsed sources.  ASTFinder.v: the search over all the
      files of a program, by several tasks.
    - Driver.v: the configuration and the stages from the reached functions to
      the runs of the mutants, each a relation.  Preparation.v: the phases of
      [normalRunMutations] over all bitcode files.  OriginalTests.v: the task
      that runs the original tests.  SharedMapping.v: the array of callbacks
      mapped into the parent and its workers.  Run.v: [Driver::Run] from the loaded
      program to the result, and [IDEDiagnostics].
    - Sandbox.v: the three sandboxes, a step relation over the worker, its
      pipes, the timer or the watchdog, and the parent.  Pipes.v: the
      descriptors behind those pipes, and the system calls that can fail.
    - Program.v, Loading.v: the registries of a program; bitcode and object
      files, and the flags recorded in them.  TestFinders.v: the finders of
      tests.  Toolchain.v: the object cache on disk, the compilation tasks, the
      runtime overrides, the symbols handed to the JIT.  NativeRunner.v: what
      the worker does of a test, up to its exit status.  MutatedProgram.v: the
      compiler, the clone of a bitcode file, and the program loaded with its
      trampolines.
    - SourceManager.v, SourceContext.v, Reporters.v, SQLiteReporter.v: lines of
      source files, the lines shown around a position, the report on the
      terminal, as JSON, in a database.  Metrics.v: the clock readings and the
      table made of them, which is [TimeReporter]'s report.
    - CLIOptions.v, GeneratedDocs.v, DynamicLibraries.v, Main.v: the options of
      mull-cxx and what becomes of them, the reference files generated from
      them, the dynamic libraries of an executable, and [main].  Validator.v:
      the internal tool mutator-validator.

    ** State and operations

    A class with state is a [Record]; a method that changes it takes and
    returns the record.  Objects that are shared by pointer are entries of a
    store with an identity: mutation points ([Bitcode.Store]), nodes of the
    call tree, trampolines ([MutantExecution.Memory]), functions, blocks and
    instructions of a module.  Definitions keep the names of the C++
    functions; where two classes share a name, the class is a prefix.  A stage
    run by threads is a relation between inputs and the results some
    interleaving can produce ([Executor.execute]).  Signed arithmetic goes
    through [int_op], which fails on overflow; unsigned arithmetic wraps.

    ** What is proved

    - The verdicts: every run of a mutant sees its own mutation and no other,
      and fail-fast changes no verdict (MutantExecution.v); preparing a bitcode
      file changes the functions with points and nothing else, and each clone is
      the original with the point's mutation (Bitcode.v).
    - The mutators: the points found are exactly those the low-level mutations
      allow, identifiers tell points apart, an address leads back to its
      instruction, a point can be replayed in a clone (Mutators.v,
      MutationPoint.v); the mutations of [&&] and [||] change the value computed
      as they say, in an executable semantics of the control flow
      (LogicalMutators.v); the selection of mutators (MutatorsFactory.v).
    - The reachable functions: the numbering agrees with the callbacks, and the
      functions and distances read off the array are those of the sequence of
      calls the program made (Instrumentation.v, CallTree.v, Reachable.v).
    - Concurrency: the batches partition the input, and every interleaving of
      the threads gives the sequential result (Executor.v), which carries over
      to the stages of the driver (Driver.v); the progress reporter counts up
      and stops with the threads (Progress.v); the cache of the path filter is
      transparent, but outlives a change of the filter (Filters.v).
    - The sources: the junk detector keeps a point exactly when the source has
      the node; the search among declarations loses nothing; range visitors
      find a smallest expression; the hash of positions is injective where it
      does not overflow (JunkDetection.v, ASTSearch.v); flags are parsed alike
      in either spelling (CompilationDatabase.v).
    - Whole runs: what the result of [Driver::Run] holds comes from a selected
      mutator, passed every filter that is asked, and carries exactly the passing
      tests that reach it (Run.v); from the command line on, a mutant reported is of the
      selection, in a selected file, and confirmed by the sources when these are
      looked at (Main.v).  Preparing all files phase by phase is preparing each
      (Preparation.v); an original test contributes the functions below its body
      (OriginalTests.v).
    - The sandbox: every run ends, with the worker's status and output or timed
      out; a full pipe is a time-out (Sandbox.v).  When mull has its
      standard descriptors, the pipes are wired as the model of the sandbox
      takes them to be, whatever system call fails (Pipes.v).  What a worker
      writes to the shared array the parent reads, and each test leaves behind
      the pages that unmapping with the wrong length leaves (SharedMapping.v).
    - Loading: the registries of a program, embedded bitcode named by digest,
      libraries read off an ELF file as they were encoded (Program.v, Loading.v,
      DynamicLibraries.v); tests found are tests registered (TestFinders.v);
      each source is parsed once (ASTStorage.v).
    - Compilation through the cache gives the objects compiling gives, and the
      offset symbols resolve (Toolchain.v).  The program loaded has a cell per
      trampoline, each aimed at the original function (MutatedProgram.v); a test
      that is not timed out has failed exactly when its driver function returned
      something but zero (NativeRunner.v).
    - The reports agree with the results: a mutant is killed exactly when a test
      did not pass, every point is listed once, every row refers to rows that
      are there, the averages are averages (Reporters.v, SQLiteReporter.v,
      Metrics.v); the score printed is within one of the exact percentage.
    - Several theorems state what the code does where it departs from its
      intention: the texts of one mutator, the shadowing of the boundary
      mutators in the AST search, the assertion in [mutationExists] and on
      points in headers, the recursion on [int a = a;], the stale cache of the
      path filter, the instruction filters that the mutators of [&&] and [||] do
      not ask, the pipe nobody reads, the same bitcode embedded twice, the
      average of a negative sum, the validator that validates nothing.

    ** Bounds and fuel

    Recursion that is not structural carries fuel, and a theorem shows that a
    stated amount is enough: the depth of nested groups of mutators
    ([expansion_depth] in MutatorsFactory.v), the number of functions for the
    call tree, the length of the list for the binary search, the number of
    variables met for the test of constants.  There, too little fuel is the
    overflow of the C++ stack.  [int] and [unsigned] are 32 bits wide.

    ** What is not modelled

    Code outside the repository is a parameter with its documented behaviour as
    hypotheses: LLVM's paths ([LLVMPath]), names ([LLVMNames]) and mangling
    ([Mangler]), the low-level mutations ([LibIrm], [IrmContract]), regular
    expressions ([Regex]), hashing ([Hasher]), clang's parser and the file system
    ([FileSystem]), object files ([ObjectFormat]), SQLite ([SQLite]); functions
    that stand for LLVM's parsers of bitcode, object files, debug information and
    command lines, its verifier and its code generator, for clang's parser and
    traversal, for json11's printer, for the extractor of embedded bitcode and
    for the clock.  What the machine code does is the [ExecutionResult] or the
    array of callbacks a sandboxed run leaves.
    Simplifications: the loading of embedded bitcode and the original tests are
    run by one task each (their tasks are modelled; with more of them the results
    are those of Executor.v and only the order of messages changes); a watchdog's
    kill takes effect at once; writing files succeeds; the executors'
    progress lines are left out of the composed runs; the metrics are not threaded through the run,
    whose result does not depend on them.
    Not modelled: LLVMCompatibility for the other versions of LLVM (a build
    compiles one of them), the parsing of LLVM's own command line and the choice
    of the target machine, which only call LLVM. *)

From stdpp Require Import base list strings gmap pretty.
From Stdlib Require Import ZArith Lia Bool.

(** ** Outcomes

    What a call of the program can do: return a value, terminate the process
    with [exit(code)], or reach a point the program must never reach: a failed
    [assert], an exception nobody catches, undefined behaviour. *)
Inductive outcome (A : Type) : Type :=
  | Ok (a : A)
  | Exit (code : Z)
  | Abort (why : string).
Arguments Ok {A} a.
Arguments Exit {A} code.
Arguments Abort {A} why%_string_scope.

Declare Scope mull_scope.
Delimit Scope mull_scope with mull.
Open Scope mull_scope.

#[global] Instance outcome_ret : MRet outcome := fun A a => Ok a.
#[global] Instance outcome_bind : MBind outcome := fun A B f m =>
  match m with
  | Ok a => f a
  | Exit c => Exit c
  | Abort w => Abort w
  end.

(** [assert(b)] of a build with assertions enabled. *)
Definition require (b : bool) (why : string) : outcome unit :=
  if b then Ok tt else Abort why.

Definition of_option {A} (why : string) (o : option A) : outcome A :=
  match o with
  | Some a => Ok a
  | None => Abort why
  end.

Definition is_ok {A} (m : outcome A) : bool :=
  match m with Ok _ => true | _ => false end.

Notation "'assert!' b 'because' w ; k" := (mbind (M:=outcome) (fun _ : unit => k) (require b w))
  (at level 100, b at level 50, w at level 50, k at level 200, right associativity) : mull_scope.

(** The value of a computation that succeeds. *)
Definition ok_or {A} (a : A) (o : outcome A) : A := match o with Ok a => a | _ => a end.

Lemma ok_or_Ok {A} (a : A) o : is_ok o = true -> o = Ok (ok_or a o).
Proof. by destruct o. Qed.

Lemma bind_Ok {A B} (m : outcome A) (f : A -> outcome B) (b : B) :
  (m ≫= f) = Ok b <-> exists a, m = Ok a /\ f a = Ok b.
Proof.
  destruct m as [a|c|w]; simpl; split.
  - intros H. by exists a.
  - intros (a' & [= ->] & H). exact H.
  - intros H; discriminate H.
  - intros (a' & H & _); discriminate H.
  - intros H; discriminate H.
  - intros (a' & H & _); discriminate H.
Qed.

Lemma require_Ok (b : bool) w : require b w = Ok tt <-> b = true.
Proof. by destruct b. Qed.

Lemma require_true b w : b = true -> require b w = Ok tt.
Proof. by intros ->. Qed.

(** Running a fallible step over a list, left to right, threading a state. *)
Fixpoint fold_outcome {A S} (f : S -> A -> outcome S) (s : S) (l : list A) : outcome S :=
  match l with
  | [] => Ok s
  | a :: l' => f s a ≫= fun s' => fold_outcome f s' l'
  end.

Lemma fold_outcome_app {A S} (f : S -> A -> outcome S) s l1 l2 :
  fold_outcome f s (l1 ++ l2) = (fold_outcome f s l1 ≫= fun s' => fold_outcome f s' l2).
Proof.
  revert s. induction l1 as [|a l1 IH]; intros s; simpl; [done|].
  destruct (f s a); simpl; auto.
Qed.

(** An invariant of every successful step holds of the whole loop. *)
Lemma fold_outcome_inv {A S} (P : S -> Prop) (f : S -> A -> outcome S) l s s' :
  (forall t a t', a ∈ l -> P t -> f t a = Ok t' -> P t') ->
  P s -> fold_outcome f s l = Ok s' -> P s'.
Proof.
  revert s. induction l as [|a l IH]; simpl; intros s Hstep HP Hrun.
  - by simplify_eq.
  - apply bind_Ok in Hrun as (t & Ht & Hrun).
    eapply (IH t); [|eapply Hstep; eauto; by left|done].
    intros; eapply Hstep; eauto; by right.
Qed.

(** A loop that keeps an invariant indexed by the items done goes through. *)
Lemma fold_outcome_progress {A S} (P : list A -> S -> Prop) (f : S -> A -> outcome S) l s :
  P [] s ->
  (forall done x rest t, l = done ++ x :: rest -> P done t ->
     exists t', f t x = Ok t' /\ P (done ++ [x]) t') ->
  exists s', fold_outcome f s l = Ok s' /\ P l s'.
Proof.
  intros H0 Hstep.
  enough (Hgen : forall rest done t, l = done ++ rest -> P done t ->
    exists s', fold_outcome f t rest = Ok s' /\ P l s') by exact (Hgen l [] s eq_refl H0).
  induction rest as [|x rest IH]; intros dn t Hl HP.
  - exists t. split; [done|]. by rewrite Hl, app_nil_r.
  - destruct (Hstep dn x rest t Hl HP) as (t' & Ht & HP').
    destruct (IH (dn ++ [x]) t') as (s' & Hs' & HPl); [by rewrite <-app_assoc|done|].
    exists s'. split; [|done]. cbn. by rewrite Ht.
Qed.

(** Two loops that run side by side keep a relation between their states. *)
Lemma fold_outcome_sim {A S T} (R : S -> T -> Prop) (f : S -> A -> outcome S) (g : T -> A -> outcome T) l : forall s t s',
  (forall a s t s', a ∈ l -> R s t -> f s a = Ok s' -> exists t', g t a = Ok t' /\ R s' t') ->
  R s t -> fold_outcome f s l = Ok s' -> exists t', fold_outcome g t l = Ok t' /\ R s' t'.
Proof.
  induction l as [|a l IH]; intros s t s' Hstep HR Hrun; [injection Hrun as <-; by exists t|].
  apply bind_Ok in Hrun as (s1 & Hs & Hrun). destruct (Hstep a s t s1) as (t1 & Ht & HR1); [by left|done..|].
  destruct (IH s1 t1 s') as (t' & Hrun' & HR'); [intros; eapply Hstep; eauto; by right|done..|].
  exists t'. split; [|done]. cbn. by rewrite Ht.
Qed.

Lemma fold_outcome_ext {A S} (f g : S -> A -> outcome S) l : forall s,
  (forall s a, a ∈ l -> f s a = g s a) -> fold_outcome f s l = fold_outcome g s l.
Proof.
  induction l as [|a l IH]; intros s Hfg; [done|]. cbn. rewrite (Hfg s a) by by left.
  destruct (g s a); [|done..]. apply IH. intros; apply Hfg; by right.
Qed.

(** ** Machine integers

    [int] is 32 bits wide on every platform mull builds for. *)
Definition int_min : Z := -2147483648.
Definition int_max : Z := 2147483647.
Definition in_int (z : Z) : bool := (int_min <=? z)%Z && (z <=? int_max)%Z.

(** Conversion to [int] and to [uint32_t]: modular. *)
Definition to_uint32 (z : Z) : Z := (z mod 4294967296)%Z.
Definition to_int (z : Z) : Z := ((z + 2147483648) mod 4294967296 - 2147483648)%Z.

Lemma to_int_id z : in_int z = true -> to_int z = z.
Proof.
  unfold in_int, to_int, int_min, int_max. intros H.
  apply andb_prop in H as [H1%Z.leb_le H2%Z.leb_le].
  rewrite Z.mod_small; lia.
Qed.

Lemma to_uint32_id z : (0 <= z < 4294967296)%Z -> to_uint32 z = z.
Proof. unfold to_uint32. intros. by rewrite Z.mod_small. Qed.

Lemma in_int_spec z : in_int z = true <-> (int_min <= z <= int_max)%Z.
Proof. unfold in_int. rewrite andb_true_iff, Z.leb_le, Z.leb_le. tauto. Qed.

(** Signed arithmetic: overflow is undefined. *)
Definition int_op (z : Z) : outcome Z :=
  if in_int z then Ok z else Abort "signed integer overflow".

Lemma int_op_Ok z : in_int z = true -> int_op z = Ok z.
Proof. unfold int_op. by intros ->. Qed.

Lemma int_op_overflow z : (int_max < z)%Z -> int_op z = Abort "signed integer overflow".
Proof.
  intros Hz. unfold int_op. destruct (in_int z) eqn:E; [|done]. apply in_int_spec in E. lia.
Qed.

(** [long] and [long long] are 64 bits wide. *)
Definition long_min : Z := -9223372036854775808.
Definition long_max : Z := 9223372036854775807.
Definition long_op (z : Z) : outcome Z :=
  if (long_min <=? z)%Z && (z <=? long_max)%Z then Ok z else Abort "signed integer overflow".

Lemma long_op_Ok z : (long_min <= z <= long_max)%Z -> long_op z = Ok z.
Proof. unfold long_op. intros [H1%Z.leb_le H2%Z.leb_le]. by rewrite H1, H2. Qed.

Lemma long_op_inv z z' : long_op z = Ok z' -> z' = z /\ (long_min <= z <= long_max)%Z.
Proof.
  unfold long_op. destruct (Z.leb_spec long_min z), (Z.leb_spec z long_max); cbn; try done. by intros [= <-].
Qed.

(** Conversions between 64-bit types: modular. *)
Definition to_uint64 (z : Z) : Z := (z mod 18446744073709551616)%Z.
Definition to_int64 (z : Z) : Z := ((z + 9223372036854775808) mod 18446744073709551616 - 9223372036854775808)%Z.

Lemma to_uint64_id z : (0 <= z < 18446744073709551616)%Z -> to_uint64 z = z.
Proof. unfold to_uint64. intros. by rewrite Z.mod_small. Qed.

Lemma to_int64_id z : (long_min <= z <= long_max)%Z -> to_int64 z = z.
Proof. unfold to_int64, long_min, long_max. intros. rewrite Z.mod_small; lia. Qed.

(** [std::to_string] of an integer. *)
Definition to_string (z : Z) : string := pretty z.

(** ** Booleans and propositions *)
Ltac bool_to_prop :=
  repeat match goal with
  | H : (_ && _)%bool = true |- _ => apply andb_true_iff in H as [? ?]
  | H : (_ || _)%bool = false |- _ => apply orb_false_iff in H as [? ?]
  | H : negb _ = true |- _ => apply negb_true_iff in H
  | H : negb _ = false |- _ => apply negb_false_iff in H
  | H : bool_decide _ = true |- _ => apply bool_decide_eq_true in H
  | H : bool_decide _ = false |- _ => apply bool_decide_eq_false in H
  | H : Z.leb _ _ = true |- _ => apply Z.leb_le in H
  | H : Z.ltb _ _ = true |- _ => apply Z.ltb_lt in H
  | H : Z.leb _ _ = false |- _ => apply Z.leb_gt in H
  | H : Z.ltb _ _ = false |- _ => apply Z.ltb_ge in H
  | H : Z.eqb _ _ = true |- _ => apply Z.eqb_eq in H
  | H : Z.eqb _ _ = false |- _ => apply Z.eqb_neq in H
  | H : String.eqb _ _ = true |- _ => apply String.eqb_eq in H
  | H : String.eqb _ _ = false |- _ => apply String.eqb_neq in H
  | H : Nat.eqb _ _ = true |- _ => apply Nat.eqb_eq in H
  | H : Nat.eqb _ _ = false |- _ => apply Nat.eqb_neq in H
  end.

(** Case analysis on the [match] or [if] in the goal or a hypothesis, keeping
    the equation. *)
Ltac case_on t := let E := fresh "E" in destruct t eqn:E.
Ltac break :=
  match goal with
  | |- context [match ?x with _ => _ end] => case_on x
  | H : context [match ?x with _ => _ end] |- _ => case_on x
  end.

(** ** Lists *)

(** [std::find_if]: the first element satisfying the test. *)
Fixpoint find_first {A} (p : A -> bool) (l : list A) : option A :=
  match l with
  | [] => None
  | a :: l' => if p a then Some a else find_first p l'
  end.

Lemma find_first_Some {A} (p : A -> bool) l a :
  find_first p l = Some a -> a ∈ l /\ p a = true.
Proof.
  induction l as [|b l IH]; simpl; [done|].
  destruct (p b) eqn:E; intros H.
  - simplify_eq. split; [by left|done].
  - apply IH in H as [? ?]. split; [by right|done].
Qed.

Lemma find_first_None {A} (p : A -> bool) l :
  find_first p l = None <-> forall a, a ∈ l -> p a = false.
Proof.
  induction l as [|b l IH]; simpl; [split; [intros _ a Ha; by apply not_elem_of_nil in Ha|done]|].
  destruct (p b) eqn:E; split.
  - done.
  - intros H. rewrite (H b) in E; [done|by left].
  - intros H a Ha. apply elem_of_cons in Ha as [->|Ha]; [done|]. by apply IH.
  - intros H. apply IH. intros a Ha. apply H. by right.
Qed.

Lemma find_first_app {A} (p : A -> bool) l1 l2 :
  find_first p (l1 ++ l2) =
  match find_first p l1 with Some a => Some a | None => find_first p l2 end.
Proof. induction l1 as [|a l1 IH]; simpl; [done|]. by destruct (p a). Qed.

(** [existsb]/[forallb] against membership. *)
Lemma existsb_elem {A} (p : A -> bool) l :
  existsb p l = true <-> exists a, a ∈ l /\ p a = true.
Proof. rewrite existsb_exists. by setoid_rewrite <-list_elem_of_In. Qed.

Lemma forallb_elem {A} (p : A -> bool) l :
  forallb p l = true <-> forall a, a ∈ l -> p a = true.
Proof. rewrite forallb_forall. by setoid_rewrite <-list_elem_of_In. Qed.

(** A pointwise task distributes over concatenation. *)
Lemma concat_map_app {A B} (f : A -> list B) l1 l2 :
  concat (map f (l1 ++ l2)) = concat (map f l1) ++ concat (map f l2).
Proof. by rewrite map_app, concat_app. Qed.

Lemma elem_of_concat_map {A B} (f : A -> list B) l b :
  b ∈ concat (map f l) <-> exists a, a ∈ l /\ b ∈ f a.
Proof.
  induction l as [|a l IH]; simpl.
  - split; [intros H; by apply not_elem_of_nil in H|intros (a & H & _); by apply not_elem_of_nil in H].
  - rewrite elem_of_app, IH. split.
    + intros [H|(a' & ? & ?)]; [exists a; split; [by left|done]|exists a'; split; [by right|done]].
    + intros (a' & [->|H]%elem_of_cons & Hb); [by left|right; eauto].
Qed.

Lemma filter_map_filter {A B} (p : A -> bool) (f : A -> B) (l : list A) :
  map f (List.filter p l) = concat (map (fun a => if p a then [f a] else []) l).
Proof. induction l as [|a l IH]; simpl; [done|]. by destruct (p a); simpl; rewrite IH. Qed.

Create HintDb mull discriminated.
Create Rewrite HintDb mull_rw.
#[export] Hint Resolve require_true to_int_id int_op_Ok : mull.
#[export] Hint Rewrite @find_first_app @concat_map_app @fold_outcome_app : mull_rw.
