(* ===== verification/StdContainers.v ===== *)
(** * Ordered containers of the C++ standard library

    [std::map] and [std::set] iterate in the order of their keys, and that
    order reaches the program's output: the mutators are created in the order
    of a [std::set<std::string>], functions are cloned in the order of a
    [std::map<llvm::Function *, _>].  A map is therefore a list of bindings
    kept sorted, a set a sorted list.  ([std::unordered_map], which the
    program only queries, is stdpp's [gmap] in the files that use it.) *)

From stdpp Require Import base list strings sets.
From Stdlib Require Import Lia OrdersEx Sorted.
From S2P Require Import Prelude.

(** What a key type owes its container: a strict total order that is decided
    by a boolean function. *)
Class OrdKey (K : Type) := {
  key_lt : K -> K -> bool;
  key_lt_irrefl k : key_lt k k = false;
  key_lt_trans a b c : key_lt a b = true -> key_lt b c = true -> key_lt a c = true;
  key_lt_total a b : key_lt a b = false -> key_lt b a = false -> a = b
}.

(** [std::less<std::string>]: lexicographic on the bytes. *)
#[global] Program Instance string_OrdKey : OrdKey string :=
  {| key_lt := String.ltb |}.
Next Obligation.
  intros k. unfold String.ltb.
  destruct (String.compare k k) eqn:E; [done| |done].
  exfalso. exact (StrictOrder_Irreflexive (R:=String_as_OT.lt) k E).
Qed.
Next Obligation.
  intros a b c. unfold String.ltb. intros H1 H2.
  assert (E : String_as_OT.lt a c).
  { transitivity b.
    - change (String.compare a b = Lt). by destruct (String.compare a b).
    - change (String.compare b c = Lt). by destruct (String.compare b c). }
  unfold String_as_OT.lt in E. change (String_as_OT.compare a c) with (String.compare a c) in E.
  by rewrite E.
Qed.
Next Obligation.
  intros a b. unfold String.ltb. rewrite (String.compare_antisym b a).
  destruct (String.compare a b) eqn:E; simpl; intros; try done.
  by apply String.compare_eq_iff.
Qed.

(** Pointers compare by address. *)
#[global] Program Instance nat_OrdKey : OrdKey nat := {| key_lt := Nat.ltb |}.
Next Obligation. intros k. apply Nat.ltb_irrefl. Qed.
Next Obligation. intros a b c. rewrite !Nat.ltb_lt. lia. Qed.
Next Obligation. intros a b. rewrite !Nat.ltb_ge. lia. Qed.

Lemma key_lt_asym `{OrdKey K} a b : key_lt a b = true -> key_lt b a = false.
Proof.
  intros H1. destruct (key_lt b a) eqn:H2; [|done].
  pose proof (key_lt_trans _ _ _ H1 H2) as H3. by rewrite key_lt_irrefl in H3.
Qed.

(** ** std::map *)
Section OrdMap.
Context `{OrdKey K} {V : Type}.
Implicit Types m : list (K * V).

(** [m.find(k)] *)
Fixpoint omap_find (k : K) m : option V :=
  match m with
  | [] => None
  | (k', v) :: m' =>
      if key_lt k k' then None
      else if key_lt k' k then omap_find k m' else Some v
  end.

(** [m[k] = v] *)
Fixpoint omap_assign (k : K) (v : V) m : list (K * V) :=
  match m with
  | [] => [(k, v)]
  | (k', v') :: m' =>
      if key_lt k k' then (k, v) :: m
      else if key_lt k' k then (k', v') :: omap_assign k v m' else (k, v) :: m'
  end.

(** [m.insert({k, v})], [m.emplace(k, v)]: an existing binding stays. *)
Definition omap_insert (k : K) (v : V) m : list (K * V) :=
  match omap_find k m with
  | Some _ => m
  | None => omap_assign k v m
  end.

(** [m.erase(k)] *)
Fixpoint omap_erase (k : K) m : list (K * V) :=
  match m with
  | [] => []
  | (k', v') :: m' =>
      if key_lt k k' then m
      else if key_lt k' k then (k', v') :: omap_erase k m' else m'
  end.

(** [m[k]] used in place: the default value when the key is new. *)
Definition omap_update (d : V) (f : V -> V) (k : K) m : list (K * V) :=
  omap_assign k (f (default d (omap_find k m))) m.

Definition omap_keys m : list K := map fst m.

Definition key_rel (a b : K) : Prop := key_lt a b = true.
Definition omap_wf m : Prop := StronglySorted key_rel (omap_keys m).

Lemma omap_find_assign_eq k v m : omap_find k (omap_assign k v m) = Some v.
Proof.
  induction m as [|[k' v'] m IH]; simpl.
  - by rewrite key_lt_irrefl.
  - destruct (key_lt k k') eqn:E1; simpl.
    + by rewrite key_lt_irrefl.
    + destruct (key_lt k' k) eqn:E2; simpl.
      * by rewrite E1, E2.
      * by rewrite key_lt_irrefl.
Qed.

Lemma omap_find_assign_ne k k0 v m :
  k <> k0 -> omap_find k0 (omap_assign k v m) = omap_find k0 m.
Proof.
  intros Hne. induction m as [|[k' v'] m IH]; simpl.
  - destruct (key_lt k0 k) eqn:E1; [done|]. destruct (key_lt k k0) eqn:E2; [done|].
    by pose proof (key_lt_total _ _ E1 E2).
  - destruct (key_lt k k') eqn:E1; simpl.
    + destruct (key_lt k0 k) eqn:E2.
      * by rewrite (key_lt_trans _ _ _ E2 E1).
      * destruct (key_lt k k0) eqn:E3; [done|]. by pose proof (key_lt_total _ _ E2 E3).
    + destruct (key_lt k' k) eqn:E2; simpl; [by rewrite IH|].
      pose proof (key_lt_total _ _ E1 E2) as <-.
      destruct (key_lt k0 k) eqn:E3; [done|]. destruct (key_lt k k0) eqn:E4; [done|].
      by pose proof (key_lt_total _ _ E3 E4).
Qed.

Lemma omap_find_update_eq d (f : V -> V) k m : omap_find k (omap_update d f k m) = Some (f (default d (omap_find k m))).
Proof. apply omap_find_assign_eq. Qed.

Lemma omap_find_update_ne d (f : V -> V) k k0 m : k <> k0 -> omap_find k0 (omap_update d f k m) = omap_find k0 m.
Proof. apply omap_find_assign_ne. Qed.

Lemma omap_keys_assign k v m k0 :
  k0 ∈ omap_keys (omap_assign k v m) <-> k0 = k \/ k0 ∈ omap_keys m.
Proof.
  unfold omap_keys. induction m as [|[k' v'] m IH]; simpl.
  - rewrite list_elem_of_singleton. set_solver.
  - destruct (key_lt k k') eqn:E1; simpl; [set_solver|].
    destruct (key_lt k' k) eqn:E2; simpl.
    + rewrite !elem_of_cons, IH. set_solver.
    + pose proof (key_lt_total _ _ E1 E2) as ->. rewrite !elem_of_cons. set_solver.
Qed.

Lemma omap_wf_assign k v m : omap_wf m -> omap_wf (omap_assign k v m).
Proof.
  unfold omap_wf. induction m as [|[k' v'] m IH]; simpl; intros Hwf.
  - by repeat constructor.
  - apply StronglySorted_inv in Hwf as Hinv. destruct Hinv as [Hs Hall].
    destruct (key_lt k k') eqn:E1; simpl.
    + constructor; [done|]. constructor; [done|].
      eapply Forall_impl; [exact Hall|]. intros c Hc. eapply key_lt_trans; eauto.
    + destruct (key_lt k' k) eqn:E2; simpl.
      * constructor; [by apply IH|]. apply Forall_forall. intros c Hc.
        apply (omap_keys_assign k v m c) in Hc as [->|Hc]; [done|].
        rewrite Forall_forall in Hall. by apply Hall.
      * pose proof (key_lt_total _ _ E1 E2) as ->. by constructor.
Qed.

Lemma omap_wf_insert k v m : omap_wf m -> omap_wf (omap_insert k v m).
Proof. unfold omap_insert. destruct (omap_find k m); auto using omap_wf_assign. Qed.

Lemma omap_find_elem k v m : omap_find k m = Some v -> (k, v) ∈ m.
Proof.
  induction m as [|[k' v'] m IH]; simpl; [done|].
  destruct (key_lt k k') eqn:E1; [done|]. destruct (key_lt k' k) eqn:E2; intros Hf.
  - right. auto.
  - pose proof (key_lt_total _ _ E1 E2) as ->. simplify_eq. by left.
Qed.

Lemma omap_elem_find k v m : omap_wf m -> (k, v) ∈ m -> omap_find k m = Some v.
Proof.
  unfold omap_wf. induction m as [|[k' v'] m IH]; simpl; intros Hwf Hin.
  - by apply not_elem_of_nil in Hin.
  - apply StronglySorted_inv in Hwf as [Hs Hall].
    apply elem_of_cons in Hin as [[= -> ->]|Hin]; [by rewrite key_lt_irrefl|].
    rewrite Forall_forall in Hall.
    assert (Hk : key_lt k' k = true).
    { apply Hall. apply list_elem_of_fmap. exists (k, v). split; [done|exact Hin]. }
    rewrite (key_lt_asym _ _ Hk), Hk. auto.
Qed.

Lemma omap_find_erase_eq k m : omap_wf m -> omap_find k (omap_erase k m) = None.
Proof.
  unfold omap_wf. induction m as [|[k' v'] m IH]; simpl; [done|].
  intros [Hs Hall]%StronglySorted_inv.
  destruct (key_lt k k') eqn:E1; simpl; [by rewrite E1|].
  destruct (key_lt k' k) eqn:E2; simpl; [rewrite E1, E2; auto|].
  pose proof (key_lt_total _ _ E1 E2) as ->.
  destruct (omap_find k' m) as [v|] eqn:Ef; [|done].
  apply omap_find_elem in Ef. rewrite Forall_forall in Hall.
  assert (Hk : key_lt k' k' = true).
  { apply Hall. apply list_elem_of_fmap. exists (k', v). by split. }
  by rewrite key_lt_irrefl in Hk.
Qed.

Lemma omap_find_erase_ne k k0 m :
  omap_wf m -> k <> k0 -> omap_find k0 (omap_erase k m) = omap_find k0 m.
Proof.
  unfold omap_wf. intros Hwf Hne. induction m as [|[k' v'] m IH]; simpl; [done|].
  simpl in Hwf. apply StronglySorted_inv in Hwf as [Hs Hall].
  destruct (key_lt k k') eqn:E1; simpl; [done|].
  destruct (key_lt k' k) eqn:E2; simpl; [by rewrite IH|].
  pose proof (key_lt_total _ _ E1 E2) as ->. rewrite Forall_forall in Hall.
  destruct (key_lt k0 k') eqn:E3.
  - destruct (omap_find k0 m) as [v|] eqn:Ef; [|done].
    apply omap_find_elem in Ef.
    assert (Hk : key_lt k' k0 = true).
    { apply Hall. apply list_elem_of_fmap. exists (k0, v). by split. }
    pose proof (key_lt_asym _ _ Hk). congruence.
  - destruct (key_lt k' k0) eqn:E4; [done|].
    by pose proof (key_lt_total _ _ E3 E4).
Qed.

Lemma omap_wf_erase k m : omap_wf m -> omap_wf (omap_erase k m).
Proof.
  unfold omap_wf. induction m as [|[k' v'] m IH]; simpl; [done|].
  intros Hwf. apply StronglySorted_inv in Hwf as Hinv. destruct Hinv as [Hs Hall].
  destruct (key_lt k k') eqn:E1; simpl; [done|].
  destruct (key_lt k' k) eqn:E2; simpl; [|done].
  constructor; [auto|]. apply Forall_forall. intros c Hc.
  rewrite Forall_forall in Hall. apply Hall.
  clear -Hc. revert Hc. unfold omap_keys. induction m as [|[a b] m IH]; simpl; [done|].
  destruct (key_lt k a); simpl; [done|]. destruct (key_lt a k); simpl; set_solver.
Qed.

(** In a sorted map the bindings after the first are of other keys. *)
Lemma omap_find_cons k0 k v m :
  omap_wf ((k, v) :: m) ->
  omap_find k0 ((k, v) :: m) = if key_lt k0 k || key_lt k k0 then omap_find k0 m else Some v.
Proof.
  intros Hwf. cbn [omap_find]. destruct (key_lt k0 k) eqn:E1; cbn [orb]; [|by destruct (key_lt k k0)].
  destruct (omap_find k0 m) as [w|] eqn:E; [|done]. apply omap_find_elem in E.
  apply StronglySorted_inv in Hwf as [_ Hall]. rewrite List.Forall_forall in Hall.
  assert (Hin : key_rel k k0).
  { apply Hall. apply list_elem_of_In. unfold omap_keys. apply list_elem_of_fmap. by exists (k0, w). }
  apply key_lt_asym in E1. unfold key_rel in Hin. congruence.
Qed.

Lemma omap_find_fresh k v m : omap_wf ((k, v) :: m) -> omap_find k m = None.
Proof.
  intros [_ Hall]%StronglySorted_inv. rewrite List.Forall_forall in Hall.
  destruct (omap_find k m) as [w|] eqn:E; [|done]. apply omap_find_elem in E.
  assert (Hin : key_rel k k).
  { apply Hall. apply list_elem_of_In. unfold omap_keys. apply list_elem_of_fmap. by exists (k, w). }
  unfold key_rel in Hin. by rewrite key_lt_irrefl in Hin.
Qed.

Lemma omap_wf_tail k v m : omap_wf ((k, v) :: m) -> omap_wf m.
Proof. intros [Hwf _]%StronglySorted_inv. done. Qed.

Lemma omap_wf_nil : omap_wf [].
Proof. constructor. Qed.
End OrdMap.

Lemma omap_find_insert {V} (m : list (string * V)) (name : string) (v : V) (k : string) :
  omap_find k (omap_insert name v m) =
  match omap_find k m with Some w => Some w | None => if String.eqb name k then Some v else None end.
Proof.
  unfold omap_insert. destruct (String.eqb_spec name k) as [<-|Hne].
  - destruct (omap_find name m) eqn:E; [by rewrite E|]. by rewrite omap_find_assign_eq.
  - destruct (omap_find name m) eqn:E; [by destruct (omap_find k m)|].
    rewrite omap_find_assign_ne by auto. by destruct (omap_find k m).
Qed.

(** ** std::set *)
Section OrdSet.
Context `{OrdKey K}.
Implicit Types s : list K.

(** [s.insert(k)] *)
Fixpoint oset_insert (k : K) s : list K :=
  match s with
  | [] => [k]
  | k' :: s' =>
      if key_lt k k' then k :: s
      else if key_lt k' k then k' :: oset_insert k s' else s
  end.

Definition oset_wf s : Prop := StronglySorted key_rel s.

Lemma elem_of_oset_insert k s k0 : k0 ∈ oset_insert k s <-> k0 = k \/ k0 ∈ s.
Proof.
  induction s as [|k' s IH]; simpl; [set_solver|].
  destruct (key_lt k k') eqn:E1; [set_solver|].
  destruct (key_lt k' k) eqn:E2; [rewrite !elem_of_cons, IH; set_solver|].
  pose proof (key_lt_total _ _ E1 E2) as ->. set_solver.
Qed.

Lemma oset_wf_insert k s : oset_wf s -> oset_wf (oset_insert k s).
Proof.
  unfold oset_wf. induction s as [|k' s IH]; simpl; intros Hwf; [by repeat constructor|].
  apply StronglySorted_inv in Hwf as Hinv. destruct Hinv as [Hs Hall].
  destruct (key_lt k k') eqn:E1.
  - constructor; [done|]. constructor; [done|].
    eapply Forall_impl; [exact Hall|]. intros c Hc. eapply key_lt_trans; eauto.
  - destruct (key_lt k' k) eqn:E2; [|done].
    constructor; [auto|]. apply Forall_forall. intros c Hc.
    apply elem_of_oset_insert in Hc as [->|Hc]; [done|].
    rewrite Forall_forall in Hall. auto.
Qed.

Lemma oset_wf_NoDup s : oset_wf s -> NoDup s.
Proof.
  unfold oset_wf. induction s as [|k s IH]; intros Hwf; [constructor|].
  apply StronglySorted_inv in Hwf as [Hs Hall]. constructor; [|auto].
  intros Hin. rewrite Forall_forall in Hall. apply Hall in Hin.
  unfold key_rel in Hin. by rewrite key_lt_irrefl in Hin.
Qed.

(** Two sets with the same elements iterate alike. *)
Lemma oset_ext s1 s2 :
  oset_wf s1 -> oset_wf s2 -> (forall k, k ∈ s1 <-> k ∈ s2) -> s1 = s2.
Proof.
  unfold oset_wf. revert s2. induction s1 as [|a s1 IH]; intros [|b s2] H1 H2 Hext.
  - done.
  - exfalso. apply (not_elem_of_nil b), Hext. by left.
  - exfalso. apply (not_elem_of_nil a), Hext. by left.
  - apply StronglySorted_inv in H1 as [Hs1 Ha]. apply StronglySorted_inv in H2 as [Hs2 Hb].
    rewrite Forall_forall in Ha, Hb. unfold key_rel in *.
    assert (a = b) as ->.
    { destruct (proj1 (elem_of_cons _ _ _) (proj1 (Hext a) (list_elem_of_here _ _))) as [|Hin]; [done|].
      destruct (proj1 (elem_of_cons _ _ _) (proj2 (Hext b) (list_elem_of_here _ _))) as [|Hin']; [done|].
      pose proof (key_lt_asym _ _ (Hb _ Hin)). rewrite (Ha _ Hin') in *. congruence. }
    f_equal. apply IH; [done|done|]. intros k. split; intros Hk.
    + destruct (proj1 (elem_of_cons _ _ _) (proj1 (Hext k) (list_elem_of_further _ _ _ Hk))) as [->|]; [|done].
      specialize (Ha _ Hk). by rewrite key_lt_irrefl in Ha.
    + destruct (proj1 (elem_of_cons _ _ _) (proj2 (Hext k) (list_elem_of_further _ _ _ Hk))) as [->|]; [|done].
      specialize (Hb _ Hk). by rewrite key_lt_irrefl in Hb.
Qed.
End OrdSet.

#[export] Hint Resolve omap_wf_assign omap_wf_insert omap_wf_erase omap_wf_nil oset_wf_insert : mull.
