(* ===== verification/StringFacts.v ===== *)
(** * Strings: the facts the identifiers and names of the program rest on *)

From stdpp Require Import base list strings pretty.
From Stdlib Require Import ZArith Lia Ascii Bool.
From S2P Require Import Prelude.

(** ** Characters of a string *)
Fixpoint str_all (p : ascii -> bool) (s : string) : bool :=
  match s with
  | EmptyString => true
  | String c s' => p c && str_all p s'
  end.

(** The character does not occur. *)
Definition lacks (c : ascii) (s : string) : bool := str_all (fun c' => negb (Ascii.eqb c c')) s.

Lemma str_all_app p s1 s2 : str_all p (s1 +:+ s2) = str_all p s1 && str_all p s2.
Proof. induction s1 as [|c s1 IH]; simpl; [done|]. by rewrite IH, andb_assoc. Qed.

Lemma str_all_impl (p q : ascii -> bool) s :
  (forall c, p c = true -> q c = true) -> str_all p s = true -> str_all q s = true.
Proof.
  intros Hpq. induction s as [|c s IH]; simpl; [done|].
  intros [H1 H2]%andb_true_iff. by rewrite (Hpq _ H1), IH.
Qed.

(** Cutting at the first delimiter is unambiguous. *)
Lemma cut_inj c a1 b1 a2 b2 :
  lacks c a1 = true -> lacks c a2 = true ->
  a1 +:+ String c b1 = a2 +:+ String c b2 -> a1 = a2 /\ b1 = b2.
Proof.
  unfold lacks. revert a2. induction a1 as [|x a1 IH]; intros [|y a2]; simpl; intros H1 H2 Heq.
  - by simplify_eq.
  - simplify_eq. rewrite Ascii.eqb_refl in H2. done.
  - simplify_eq. rewrite Ascii.eqb_refl in H1. done.
  - simplify_eq. apply andb_true_iff in H1 as [_ H1]. apply andb_true_iff in H2 as [_ H2].
    destruct (IH a2) as [-> ->]; auto.
Qed.

Lemma string_app_assoc (s1 s2 s3 : string) : (s1 +:+ s2) +:+ s3 = s1 +:+ (s2 +:+ s3).
Proof. induction s1 as [|c s1 IH]; [done|]. by apply (f_equal (String c)). Qed.

Lemma string_app_nil_r (s : string) : s +:+ "" = s.
Proof. induction s as [|c s IH]; [done|]. by apply (f_equal (String c)). Qed.

Lemma string_app_inj_l (s s1 s2 : string) : s +:+ s1 = s +:+ s2 -> s1 = s2.
Proof. induction s as [|c s IH]; simpl; intros; simplify_eq; auto. Qed.

Lemma string_length_app (s1 s2 : string) :
  String.length (s1 +:+ s2) = String.length s1 + String.length s2.
Proof. induction s1 as [|c s1 IH]; simpl; [done|]. by rewrite IH. Qed.

(** [s.substr(0, n)] of a string that starts with [n] known characters. *)
Lemma substring_app_l (s1 s2 : string) :
  String.substring 0 (String.length s1) (s1 +:+ s2) = s1.
Proof. induction s1 as [|c s1 IH]; simpl; [by destruct s2|]. by rewrite IH. Qed.

(** The part in the middle of a string, by its place and length. *)
Lemma substring_skip (s1 s : string) k n : String.substring (String.length s1 + k) n (s1 +:+ s) = String.substring k n s.
Proof. induction s1 as [|c s1 IH]; [done|]. exact IH. Qed.

Lemma substring_mid (s1 s2 s3 : string) k n :
  k = String.length s1 -> n = String.length s2 -> String.substring k n (s1 +:+ s2 +:+ s3) = s2.
Proof.
  intros -> ->. rewrite <-(Nat.add_0_r (String.length s1)), substring_skip. apply substring_app_l.
Qed.

Lemma string_concat_cons (s : string) l : String.concat "" (s :: l) = s +:+ String.concat "" l.
Proof. destruct l; [symmetry; apply string_app_nil_r|done]. Qed.

Lemma string_app_inj_r (s1 s2 s : string) : s1 +:+ s = s2 +:+ s -> s1 = s2.
Proof.
  intros Heq.
  assert (Hlen : String.length s1 = String.length s2).
  { apply (f_equal String.length) in Heq. rewrite !string_length_app in Heq. lia. }
  rewrite <-(substring_app_l s1 s), <-(substring_app_l s2 s). by rewrite Heq, Hlen.
Qed.

(** [s.find(t) != npos] *)
Definition contains (t s : string) : bool :=
  match String.index 0 t s with Some _ => true | None => false end.

Lemma substring_prefix n (s : string) : exists b, s = String.substring 0 n s +:+ b.
Proof.
  revert n. induction s as [|c s IH]; intros n; [exists ""; by destruct n|].
  destruct n as [|n]; [by exists (String c s)|]. destruct (IH n) as [b Hb]. exists b.
  change (String c s = String c (String.substring 0 n s +:+ b)). by rewrite <-Hb.
Qed.

Lemma substring_split m n (s : string) : exists a b, s = a +:+ String.substring m n s +:+ b.
Proof.
  revert m. induction s as [|c s IH]; intros m; [exists "", ""; by destruct m, n|]. destruct m as [|m].
  - destruct (substring_prefix n (String c s)) as [b Hb]. by exists "", b.
  - destruct (IH m) as (a & b & Hs). exists (String c a), b.
    change (String c s = String c (a +:+ String.substring m n s +:+ b)). by rewrite <-Hs.
Qed.

(** [find] tells whether the text occurs. *)
Lemma contains_spec t s : contains t s = true <-> exists a b, s = a +:+ t +:+ b.
Proof.
  unfold contains. split.
  - destruct (String.index 0 t s) as [m|] eqn:E; [|done]. intros _. apply String.index_correct1 in E.
    destruct (substring_split m (String.length t) s) as (a & b & Hs). exists a, b. by rewrite E in Hs.
  - intros (a & b & ->). destruct (String.index 0 t (a +:+ t +:+ b)) as [m|] eqn:E; [done|]. exfalso.
    destruct (decide (t = "")) as [->|Hne]; [by destruct a, b|].
    apply (String.index_correct3 _ (String.length a) _ _ E Hne); [lia|by apply substring_mid].
Qed.

Lemma prefix_spec t s : String.prefix t s = true <-> exists b, s = t +:+ b.
Proof.
  revert s. induction t as [|c t IH]; intros s; [split; [by exists s|by destruct s]|].
  destruct s as [|c' s]; cbn; [by split; [|intros []]|].
  destruct (ascii_dec c c') as [->|Hne].
  - rewrite IH. split; intros [b Hb]; exists b; [by rewrite Hb|by injection Hb].
  - split; [done|]. intros [b Hb]. by injection Hb as ->.
Qed.

(** ** Decimal numerals *)
Definition digit_or_minus (c : ascii) : bool :=
  existsb (Ascii.eqb c) ["0"; "1"; "2"; "3"; "4"; "5"; "6"; "7"; "8"; "9"; "-"]%char.

Lemma pretty_N_char_digit x : digit_or_minus (pretty_N_char x) = true.
Proof. unfold pretty_N_char. by repeat case_match. Qed.

Lemma pretty_N_go_digits x s :
  str_all digit_or_minus s = true -> str_all digit_or_minus (pretty_N_go x s) = true.
Proof.
  revert s. induction (N.lt_wf_0 x) as [x _ IH]; intros s Hs.
  assert (x = 0 \/ 0 < x)%N as [->|?] by lia; [by rewrite pretty_N_go_0|].
  rewrite pretty_N_go_step by done. apply IH; [by apply N.div_lt|].
  cbn [str_all]. by rewrite pretty_N_char_digit, Hs.
Qed.

Lemma pretty_N_digits (x : N) : str_all digit_or_minus (pretty x) = true.
Proof. unfold pretty, pretty_N. case_decide; [done|]. by apply pretty_N_go_digits. Qed.

Lemma to_string_digits z : str_all digit_or_minus (to_string z) = true.
Proof.
  unfold to_string. destruct z as [|p|p].
  - done.
  - apply (pretty_N_digits (Npos p)).
  - change (pretty (Zneg p)) with ("-" +:+ pretty (Npos p)).
    rewrite str_all_app. by rewrite pretty_N_digits.
Qed.

Lemma to_string_lacks_underscore z : lacks "_"%char (to_string z) = true.
Proof.
  eapply str_all_impl; [|apply to_string_digits].
  intros c. unfold digit_or_minus. cbn [existsb].
  rewrite !orb_true_iff, !Ascii.eqb_eq, negb_true_iff, Ascii.eqb_neq.
  intuition (subst; discriminate).
Qed.

Lemma to_string_inj z1 z2 : to_string z1 = to_string z2 -> z1 = z2.
Proof. apply pretty_Z_inj. Qed.

(** The last character of a numeral is a digit. *)
Definition is_digit (c : ascii) : bool :=
  existsb (Ascii.eqb c) ["0"; "1"; "2"; "3"; "4"; "5"; "6"; "7"; "8"; "9"]%char.

Fixpoint ends_with (p : ascii -> bool) (s : string) : bool :=
  match s with
  | EmptyString => false
  | String c EmptyString => p c
  | String _ s' => ends_with p s'
  end.

Lemma ends_with_app p s1 s2 : ends_with p s2 = true -> ends_with p (s1 +:+ s2) = true.
Proof.
  intros Hs. induction s1 as [|c s1 IH]; [done|].
  change (ends_with p (String c (s1 +:+ s2)) = true). cbn [ends_with].
  revert IH. generalize (s1 +:+ s2). intros [|c' t]; [done|]. auto.
Qed.

Lemma ends_with_cons p c s : ends_with p s = true -> ends_with p (String c s) = true.
Proof. intros Hs. destruct s; done. Qed.

(** Cutting after the last character of a class is unambiguous. *)
Lemma cut_last_inj (p : ascii -> bool) a1 b1 a2 b2 :
  ends_with p a1 = true -> ends_with p a2 = true ->
  str_all (fun c => negb (p c)) b1 = true -> str_all (fun c => negb (p c)) b2 = true ->
  a1 +:+ b1 = a2 +:+ b2 -> a1 = a2 /\ b1 = b2.
Proof.
  assert (Hno : forall a b, ends_with p a = true -> str_all (fun c => negb (p c)) (a +:+ b) = true -> False).
  { induction a as [|c a IH]; intros b He Ha; [done|].
    change (str_all (fun c => negb (p c)) (String c (a +:+ b)) = true) in Ha.
    cbn [str_all] in Ha. apply andb_true_iff in Ha as [Hc Ha].
    destruct a as [|c' a]; [cbn in He; by rewrite He in Hc|]. by apply (IH b). }
  revert a2. induction a1 as [|x a1 IH]; [done|]. intros [|y a2]; [done|].
  intros H1 H2 Hb1 Hb2 Heq. change (String x (a1 +:+ b1) = String y (a2 +:+ b2)) in Heq.
  injection Heq as -> Heq.
  destruct a1 as [|x' a1], a2 as [|y' a2]; cbn [ends_with] in H1, H2.
  - done.
  - exfalso. apply (Hno (String y' a2) b2); [done|]. by rewrite <-Heq.
  - exfalso. apply (Hno (String x' a1) b1); [done|]. by rewrite Heq.
  - destruct (IH (String y' a2)) as [-> ->]; auto.
Qed.

Lemma pretty_N_char_is_digit x : is_digit (pretty_N_char x) = true.
Proof. unfold pretty_N_char. by repeat case_match. Qed.

Lemma pretty_N_go_ends x s :
  ends_with is_digit s = true -> ends_with is_digit (pretty_N_go x s) = true.
Proof.
  revert s. induction (N.lt_wf_0 x) as [x _ IH]; intros s Hs.
  assert (x = 0 \/ 0 < x)%N as [->|?] by lia; [by rewrite pretty_N_go_0|].
  rewrite pretty_N_go_step by done. apply IH; [by apply N.div_lt|]. by apply ends_with_cons.
Qed.

Lemma pretty_N_ends (x : N) : ends_with is_digit (pretty x) = true.
Proof.
  unfold pretty, pretty_N. case_decide; [done|].
  rewrite pretty_N_go_step by lia.
  assert (H0 : ends_with is_digit (String (pretty_N_char (x `mod` 10)) "") = true)
    by apply pretty_N_char_is_digit.
  by apply pretty_N_go_ends.
Qed.

Lemma to_string_ends z : ends_with is_digit (to_string z) = true.
Proof.
  unfold to_string. destruct z as [|p|p].
  - done.
  - apply (pretty_N_ends (Npos p)).
  - change (pretty (Zneg p)) with ("-" +:+ pretty (Npos p)). apply ends_with_app, pretty_N_ends.
Qed.

(** ** C strings *)

Definition nul : ascii := "000"%char.

Definition newline : ascii := "010"%char.

(** The string the source writes as a newline in quotes. *)
Definition eol : string := String newline "".

(** The part of a buffer before its first null character. *)
Fixpoint c_string (s : string) : string :=
  match s with
  | EmptyString => ""
  | String c s' => if Ascii.eqb c "000" then "" else String c (c_string s')
  end.

Lemma c_string_lacks s : lacks nul s = true -> c_string s = s.
Proof.
  induction s as [|c s IH]; [done|]. change (lacks nul (String c s)) with (negb (Ascii.eqb nul c) && lacks nul s).
  intros [Hc Hs]%andb_true_iff. cbn [c_string]. rewrite Ascii.eqb_sym. apply negb_true_iff in Hc. unfold nul in Hc.
  by rewrite Hc, IH.
Qed.

#[export] Hint Resolve to_string_lacks_underscore : mull.
#[export] Hint Rewrite string_app_assoc string_app_nil_r string_length_app : mull_rw.
