(* ===== verification/Doubles.v ===== *)
(** * Arithmetic on [double]

    The progress bar and the mutation score are quotients of counts, computed in
    double precision and truncated.  The arithmetic is that of IEEE 754 as the
    Standard Library specifies it ([SpecFloat]); conversions to an integer type
    drop the fraction and are undefined out of its range. *)

From stdpp Require Import base list strings.
From Stdlib Require Import ZArith Lia Bool SpecFloat.
From S2P Require Import Prelude.
#[local] Open Scope Z_scope.

Definition double_of_size (z : Z) : spec_float := binary_normalize 53 1024 z 0 false.

Definition integer_of_double (max : Z) (why : string) (x : spec_float) : outcome Z :=
  let checked z := if (0 <=? z)%Z && (z <=? max)%Z then Ok z else Abort why in
  match x with
  | S754_zero _ => Ok 0%Z
  | S754_finite s m e =>
      let magnitude := if Z.leb 0 e then (Zpos m * 2 ^ e)%Z else (Zpos m / 2 ^ (- e))%Z in
      checked (if s then (- magnitude)%Z else magnitude)
  | _ => Abort why
  end.

(** [uint(x)] *)
Definition uint_of_double : spec_float -> outcome Z := integer_of_double 4294967295 "out of the range of unsigned".

(** [size_t(x)] *)
Definition size_of_double : spec_float -> outcome Z := integer_of_double 18446744073709551615 "out of the range of size_t".

(** ** Rounding normal numbers *)
Abbreviation round := (binary_round_aux 53 1024 false).

(** The mantissas of normal numbers. *)
Definition normal (m : Z) : Prop := 2 ^ 52 <= m < 2 ^ 53.

Lemma Zdigits2_log2 m : 0 < m -> Zdigits2 m = Z.log2 m + 1.
Proof.
  destruct m as [|p|p]; [lia| |lia]. intros _. cbn [Zdigits2].
  assert (H : forall p, Zpos (digits2_pos p) = Z.log2 (Zpos p) + 1); [|apply H]. clear p.
  induction p as [p IH|p IH|]; cbn [digits2_pos]; [..|done]; rewrite Pos2Z.inj_succ, IH.
  - rewrite (Pos2Z.inj_xI p), Z.log2_succ_double by lia. lia.
  - rewrite (Pos2Z.inj_xO p), Z.log2_double by lia. lia.
Qed.

Lemma digits_between m k : 0 < k -> 2 ^ (k - 1) <= m < 2 ^ k -> Zdigits2 m = k.
Proof.
  intros Hk [Hlo Hhi]. assert (0 < m) by (pose proof (Z.pow_pos_nonneg 2 (k - 1) ltac:(lia) ltac:(lia)); lia).
  rewrite Zdigits2_log2 by done. rewrite (Z.log2_unique m (k - 1)); [lia|lia|]. replace (Z.succ (k - 1)) with k by lia. done.
Qed.

(** Shifting out zeros loses nothing. *)
Lemma iter_shr_exact n : forall m, 0 < m ->
  iter_pos shr_1 n (Build_shr_record (m * 2 ^ Zpos n) false false) = Build_shr_record m false false.
Proof.
  assert (Hone : forall m, 0 < m -> shr_1 (Build_shr_record (m * 2) false false) = Build_shr_record m false false).
  { intros m Hm. destruct m as [|p|p]; [lia| |lia]. by rewrite Z.mul_comm. }
  induction n as [n IH|n IH|]; intros m Hm; cbn [iter_pos].
  - replace (m * 2 ^ Zpos n~1) with (m * 2 ^ Zpos n * 2 ^ Zpos n * 2)
      by (replace (Zpos n~1) with (Zpos n + Zpos n + 1) by lia; rewrite !Z.pow_add_r by lia; ring).
    rewrite Hone by (pose proof (Z.pow_pos_nonneg 2 (Zpos n) ltac:(lia) ltac:(lia)); nia).
    rewrite IH by (pose proof (Z.pow_pos_nonneg 2 (Zpos n) ltac:(lia) ltac:(lia)); nia). by apply IH.
  - replace (m * 2 ^ Zpos n~0) with (m * 2 ^ Zpos n * 2 ^ Zpos n)
      by (replace (Zpos n~0) with (Zpos n + Zpos n) by lia; rewrite Z.pow_add_r by lia; ring).
    rewrite IH by (pose proof (Z.pow_pos_nonneg 2 (Zpos n) ltac:(lia) ltac:(lia)); nia). by apply IH.
  - by apply Hone.
Qed.

(** Within these exponents nothing is subnormal and nothing overflows. *)
Definition moderate (e : Z) : Prop := -900 <= e <= 900.

Lemma shr_fexp_exact m k e :
  normal m -> 0 <= k -> moderate (e + k) ->
  shr_fexp 53 1024 (m * 2 ^ k) e loc_Exact = (Build_shr_record m false false, e + k).
Proof.
  intros [Hlo Hhi] Hk He. unfold shr_fexp, moderate in *. cbn [shr_record_of_loc].
  rewrite (digits_between (m * 2 ^ k) (53 + k)).
  2: lia.
  2: { replace (53 + k - 1) with (52 + k) by lia. rewrite !Z.pow_add_r by lia. pose proof (Z.pow_pos_nonneg 2 k ltac:(lia) Hk). nia. }
  unfold fexp, emin. replace (Z.max (53 + k + e - 53) (3 - 1024 - 53) - e) with k by lia.
  destruct k as [|n|n]; [|by cbn [shr]; rewrite iter_shr_exact by lia|lia]. cbn [shr]. by rewrite Z.mul_1_r, Z.add_0_r.
Qed.

(** A number that fits is not changed. *)
Lemma round_exact m k e :
  normal m -> 0 <= k -> moderate (e + k) -> round (m * 2 ^ k) e loc_Exact = S754_finite false (Z.to_pos m) (e + k).
Proof.
  intros Hm Hk He. unfold binary_round_aux. rewrite shr_fexp_exact by done. cbn [shr_m loc_of_shr_record round_nearest_even].
  replace m with (m * 2 ^ 0) at 1 by lia. rewrite shr_fexp_exact by (try done; unfold moderate in *; lia).
  rewrite Z.add_0_r. cbn [shr_m]. unfold normal, moderate in *. destruct m as [|p|p]; [lia| |lia].
  by rewrite (proj2 (Z.leb_le _ _)) by lia.
Qed.

(** The last step of rounding: a mantissa that became [2 ^ 53] is halved. *)
Lemma finish_round q e :
  2 ^ 52 <= q <= 2 ^ 53 -> moderate e -> moderate (e + 1) ->
  exists m k, normal m /\ 0 <= k /\ m * 2 ^ k = q /\
    (let '(mrs, e') := shr_fexp 53 1024 q e loc_Exact in
     match shr_m mrs with
     | 0 => S754_zero false
     | Zpos m => if Z.leb e' (1024 - 53) then S754_finite false m e' else S754_infinity false
     | _ => S754_nan
     end) = S754_finite false (Z.to_pos m) (e + k).
Proof.
  intros Hq He He1.
  assert (Hex : exists m k, normal m /\ 0 <= k /\ m * 2 ^ k = q /\ moderate (e + k)).
  { destruct (Z.eq_dec q (2 ^ 53)) as [->|Hne].
    - exists (2 ^ 52), 1. by repeat (split; [unfold normal; lia|]).
    - exists q, 0. rewrite Z.add_0_r, Z.mul_1_r. by repeat (split; [unfold normal; lia|]). }
  destruct Hex as (m & k & Hm & Hk & Heq & Hmod). exists m, k. repeat (split; [done|]). rewrite <-Heq, shr_fexp_exact by done.
  cbn [shr_m]. unfold normal, moderate in *. destruct m as [|p|p]; [lia| |lia]. by rewrite (proj2 (Z.leb_le _ _)) by lia.
Qed.

Lemma round_record q l :
  let mrs := shr_record_of_loc q l in q <= round_nearest_even (shr_m mrs) (loc_of_shr_record mrs) <= q + 1.
Proof. destruct l as [|[]]; cbn; [lia|destruct (Z.even q)|..]; lia. Qed.

Lemma round_shifted q l :
  0 < q -> let mrs := shr_1 (shr_record_of_loc q l) in
  q / 2 <= round_nearest_even (shr_m mrs) (loc_of_shr_record mrs) <= q / 2 + 1.
Proof.
  intros Hq. assert (Hm : shr_m (shr_1 (shr_record_of_loc q l)) = q / 2).
  { rewrite <-Z.div2_div. destruct q as [|[p|p|]|p]; [lia| | | |lia]; by destruct l as [|[]]. }
  cbv zeta. rewrite Hm. destruct (loc_of_shr_record _) as [|[]]; cbn; [lia|destruct (Z.even (q / 2))|..]; lia.
Qed.

(** A quotient of two mantissas, rounded: it stays below the power of two above
    it. *)
Lemma round_below q l e b :
  2 ^ 52 <= q < 2 ^ b -> (b = 53 \/ b = 54) -> -800 <= e <= 800 ->
  exists m k, normal m /\ 0 <= k /\ m * 2 ^ k <= 2 ^ b /\ q - 1 <= m * 2 ^ k <= q + 2 /\
    round q e l = S754_finite false (Z.to_pos m) (e + k).
Proof.
  intros Hq Hb He. unfold binary_round_aux. destruct (Z_lt_le_dec q (2 ^ 53)) as [Hlt|Hge].
  - unfold shr_fexp at 1. rewrite (digits_between q 53) by lia. unfold fexp, emin.
    replace (Z.max (53 + e - 53) (3 - 1024 - 53) - e) with 0 by lia. cbn [shr].
    pose proof (round_record q l) as Hr. cbv zeta in Hr. set (r := round_nearest_even _ _) in *.
    destruct (finish_round r e) as (m & k & Hm & Hk & Heq & ->); [lia|unfold moderate; lia..|].
    exists m, k. split; [done|]. split; [done|]. rewrite Heq. split; [destruct Hb as [->| ->]; lia|]. split; [lia|done].
  - assert (b = 54) as -> by (destruct Hb as [->| ->]; lia). unfold shr_fexp at 1. rewrite (digits_between q 54) by lia. unfold fexp, emin.
    replace (Z.max (54 + e - 53) (3 - 1024 - 53) - e) with 1 by lia. cbn [shr iter_pos].
    pose proof (round_shifted q l ltac:(lia)) as Hr. cbv zeta in Hr. set (r := round_nearest_even _ _) in *.
    assert (2 ^ 52 <= q / 2 < 2 ^ 53) by (split; [apply Z.div_le_lower_bound|apply Z.div_lt_upper_bound]; lia).
    destruct (finish_round r (e + 1)) as (m & k & Hm & Hk & Heq & ->); [lia|unfold moderate; lia..|].
    pose proof (Z.div_mod q 2 ltac:(lia)). pose proof (Z.mod_pos_bound q 2 ltac:(lia)).
    exists m, (k + 1). split; [done|]. split; [lia|].
    rewrite Z.pow_add_r by lia. replace (m * (2 ^ k * 2 ^ 1)) with (m * 2 ^ k * 2) by ring.
    split; [lia|]. split; [lia|f_equal; lia].
Qed.

(** ** Counts and their quotients *)

Lemma iter_xO p n : Zpos (Pos.iter xO p n) = Zpos p * 2 ^ Zpos n.
Proof.
  induction n as [|n IH] using Pos.peano_ind; [cbn; lia|].
  rewrite Pos.iter_succ, Pos2Z.inj_succ, Z.pow_succ_r by lia. change (Zpos (Pos.iter xO p n)~0) with (2 * Zpos (Pos.iter xO p n)).
  rewrite IH. ring.
Qed.

Lemma shl_align_zeros p k : 0 <= k -> shl_align p 0 (- k) = (Z.to_pos (Zpos p * 2 ^ k), - k).
Proof.
  intros Hk. unfold shl_align. rewrite Z.sub_0_r. destruct k as [|n|n]; [|by cbn [Z.opp]; rewrite <-iter_xO|lia].
  cbn [Z.opp]. by rewrite Z.mul_1_r.
Qed.

(** A count below [2 ^ 53] is a double. *)
Lemma double_of_count c :
  0 < c < 2 ^ 53 ->
  exists m k, normal m /\ 0 <= k <= 52 /\ m = c * 2 ^ k /\ double_of_size c = S754_finite false (Z.to_pos m) (- k).
Proof.
  intros Hc. pose proof (Z.log2_spec c ltac:(lia)) as Hlog. assert (Hd : Z.log2 c <= 52) by (apply Z.lt_succ_r, Z.log2_lt_pow2; lia).
  pose proof (Z.log2_nonneg c) as Hn. set (d := Z.log2 c) in *. exists (c * 2 ^ (52 - d)), (52 - d).
  assert (Hm : normal (c * 2 ^ (52 - d))).
  { unfold normal. replace 53 with (52 - d + Z.succ d) by lia. replace 52 with (52 - d + d) at 1 by lia.
    rewrite !Z.pow_add_r by lia. pose proof (Z.pow_pos_nonneg 2 (52 - d) ltac:(lia) ltac:(lia)). nia. }
  split; [done|]. split; [lia|]. split; [done|].
  unfold double_of_size, binary_normalize. destruct c as [|p|p]; [lia| |lia]. unfold binary_round.
  change (Zpos (digits2_pos p)) with (Zdigits2 (Zpos p)). rewrite Zdigits2_log2 by lia. fold d. unfold fexp, emin.
  replace (Z.max (d + 1 + 0 - 53) (3 - 1024 - 53)) with (- (52 - d)) by lia. rewrite shl_align_zeros by lia.
  unfold normal in Hm. rewrite Z2Pos.id by lia. pose proof (round_exact (Zpos p * 2 ^ (52 - d)) 0 (- (52 - d))) as Hr.
  rewrite Z.mul_1_r, Z.add_0_r in Hr. apply Hr; [done|lia|unfold moderate; lia].
Qed.

Lemma scaled_le c t k1 k2 : 0 < c <= t -> 0 <= k1 -> 0 <= k2 -> normal (c * 2 ^ k1) -> normal (t * 2 ^ k2) -> k2 <= k1.
Proof.
  intros Hc Hk1 Hk2 [Hlo _] [_ Hhi]. destruct (Z_le_gt_dec k2 k1) as [|Hgt]; [done|exfalso].
  replace k2 with (k1 + 1 + (k2 - k1 - 1)) in Hhi by lia. rewrite !Z.pow_add_r in Hhi by lia.
  pose proof (Z.pow_pos_nonneg 2 (k2 - k1 - 1) ltac:(lia) ltac:(lia)). pose proof (Z.pow_pos_nonneg 2 k1 ltac:(lia) ltac:(lia)).
  set (u := 2 ^ k1) in *. set (v := 2 ^ (k2 - k1 - 1)) in *. assert (H1 : c * u <= t * u) by nia.
  assert (H2 : t * u * 2 * 1 <= t * u * 2 * v) by (apply Z.mul_le_mono_nonneg_l; nia). lia.
Qed.

(** Below a power of two, a normal mantissa leaves little room. *)
Lemma normal_room m k b : normal m -> 0 <= k -> m * 2 ^ k <= 2 ^ b -> k <= b - 52 /\ m <= 2 ^ (b - k).
Proof.
  intros [Hlo _] Hk Hle. pose proof (Z.pow_pos_nonneg 2 k ltac:(lia) Hk).
  assert (Hb : k + 52 <= b). { apply (Z.pow_le_mono_r_iff 2); [lia|..]; [|rewrite Z.pow_add_r by lia; nia].
    destruct (Z_lt_le_dec b 0) as [Hneg|]; [|done]. rewrite (Z.pow_neg_r 2 b Hneg) in Hle. nia. }
  split; [lia|]. apply (Z.mul_le_mono_pos_r _ _ (2 ^ k)); [done|]. rewrite <-Z.pow_add_r by lia. by replace (b - k + k) with b by lia.
Qed.

(** The quotient, without what the mantissas were scaled by. *)
Lemma unscale_close m k e c t u q r :
  0 <= k -> 0 <= e -> 0 < t -> 0 < u -> 0 <= r < t * u -> q - 1 <= m * 2 ^ k <= q + 2 ->
  c * 2 ^ (e + k) * u = t * u * q + r ->
  c * 2 ^ e - 2 * t <= m * t <= c * 2 ^ e + 2 * t.
Proof.
  intros Hk He Ht Hu Hr Hm Heq. rewrite Z.pow_add_r in Heq by lia. pose proof (Z.pow_pos_nonneg 2 k ltac:(lia) Hk).
  set (v := 2 ^ k) in *. set (w := c * 2 ^ e) in *. assert (Hw : w * v * u = t * u * q + r) by (unfold w; lia).
  assert (Hlo : t * q * u <= w * v * u < (t * q + t) * u) by nia.
  assert (Hbounds : t * q <= w * v < t * q + t) by nia. split; nia.
Qed.

(** The quotient of two counts, the first not the larger one, is at most 1, and
    within two units of its last place of the true one. *)
Lemma quotient_le_1 c t :
  0 < c <= t -> t < 2 ^ 53 ->
  exists m e, normal m /\ 52 <= e <= 900 /\ m <= 2 ^ e /\ (c = t -> m = 2 ^ 52 /\ e = 52) /\
    c * 2 ^ e - 2 * t <= m * t <= c * 2 ^ e + 2 * t /\
    SFdiv 53 1024 (double_of_size c) (double_of_size t) = S754_finite false (Z.to_pos m) (- e).
Proof.
  intros Hc Ht. destruct (double_of_count c) as (m1 & k1 & Hm1 & Hk1 & E1 & ->); [lia|].
  destruct (double_of_count t) as (m2 & k2 & Hm2 & Hk2 & E2 & ->); [lia|].
  unfold normal in *. cbn [SFdiv xorb]. unfold SFdiv_core_binary. rewrite !Z2Pos.id by lia.
  rewrite (digits_between m1 53), (digits_between m2 53) by lia. unfold fexp, emin.
  replace (Z.min (Z.max (53 + - k1 - (53 + - k2) - 53) (3 - 1024 - 53)) (- k1 - - k2)) with (k2 - k1 - 53) by lia.
  replace (- k1 - - k2 - (k2 - k1 - 53)) with 53 by lia. cbv iota. rewrite Z.shiftl_mul_pow2 by lia.
  pose proof (Z_div_mod (m1 * 2 ^ 53) m2 ltac:(lia)) as Hdiv. destruct (Z.div_eucl (m1 * 2 ^ 53) m2) as [q r]. destruct Hdiv as [Hdiv Hr].
  assert (Hk : k2 <= k1) by (apply (scaled_le c t); unfold normal; lia).
  destruct (Z.eq_dec c t) as [->|Hne].
  - assert (k1 = k2) as -> by (apply Z.le_antisymm; [apply (scaled_le t t); unfold normal; lia|done]).
    assert (Hm : m1 = m2) by lia. rewrite Hm in Hdiv. assert (Hq : q = 2 ^ 53 /\ r = 0).
    { apply (Z.div_mod_unique m2); [lia|left; lia|]. by rewrite <-Hdiv, Z.add_0_r. }
    destruct Hq as [-> ->].
    exists (2 ^ 52), 52. split; [unfold normal; lia|]. split; [lia|]. split; [lia|]. split; [done|]. split; [lia|].
    replace (k2 - k2 - 53) with (-53) by lia. replace (new_location m2 0) with loc_Exact.
    { change (2 ^ 53) with (2 ^ 52 * 2 ^ 1). by rewrite round_exact. }
    unfold new_location, new_location_even, new_location_odd. by destruct (Z.even m2).
  - set (b := if Z.eqb k1 k2 then 53 else 54).
    assert (Hq : 2 ^ 52 <= q < 2 ^ b).
    { split; [nia|]. unfold b. destruct (Z.eqb_spec k1 k2) as [->|]; [|nia].
      assert (m1 < m2) by (rewrite E1, E2; apply Z.mul_lt_mono_pos_r; [apply Z.pow_pos_nonneg|]; lia). nia. }
    destruct (round_below q (new_location m2 r) (k2 - k1 - 53) b) as (m & k & Hm & Hkk & Hle & Hclose & ->);
      [done|unfold b; destruct (Z.eqb k1 k2); lia|lia|].
    destruct (normal_room m k b Hm Hkk Hle) as [Hroom Hup]. exists m, (k1 - k2 + 53 - k).
    assert (Hb : b <= k1 - k2 + 53) by (unfold b; destruct (Z.eqb_spec k1 k2); lia).
    split; [done|]. split; [lia|]. split; [apply (Z.le_trans _ _ _ Hup); apply Z.pow_le_mono_r; lia|].
    split; [done|]. split; [|f_equal; lia].
    apply (unscale_close m k (k1 - k2 + 53 - k) c t (2 ^ k2) q r); [lia|lia|lia|apply Z.pow_pos_nonneg; lia|lia|lia|].
    rewrite <-E2, <-Hdiv, E1. replace (k1 - k2 + 53 - k + k) with (k1 - k2 + 53) by lia.
    rewrite <-!Z.mul_assoc, <-!Z.pow_add_r by lia. do 2 f_equal. lia.
Qed.

(** A share of [scale], a power of two, truncated: at most [scale], which is
    reached by the whole. *)
Lemma share_le c t j :
  0 < c <= t -> t < 2 ^ 53 -> 0 <= j <= 50 ->
  exists s, size_of_double (SFmul 53 1024 (SFdiv 53 1024 (double_of_size c) (double_of_size t)) (double_of_size (2 ^ j))) = Ok s /\
    0 <= s <= 2 ^ j /\ (c = t -> s = 2 ^ j).
Proof.
  intros Hc Ht Hj. destruct (quotient_le_1 c t Hc Ht) as (m & e & Hm & He & Hle & Hwhole & _ & ->).
  pose proof (Z.pow_pos_nonneg 2 j ltac:(lia) ltac:(lia)) as Hpos.
  assert (Hscale : double_of_size (2 ^ j) = S754_finite false (Z.to_pos (2 ^ 52)) (j - 52)).
  { assert (Hall : forallb (fun n => match double_of_size (2 ^ Z.of_nat n) with
        S754_finite false m e => Pos.eqb m (Z.to_pos (2 ^ 52)) && Z.eqb e (Z.of_nat n - 52) | _ => false end) (seq 0 51) = true)
      by (vm_compute; reflexivity).
    pose proof (proj1 (forallb_elem _ _) Hall (Z.to_nat j)) as Hone. cbv beta in Hone. rewrite Z2Nat.id in Hone by lia.
    destruct (double_of_size (2 ^ j)) as [|[]| |[] m' e']; try (by discriminate Hone; apply elem_of_seq; lia);
      (specialize (Hone ltac:(apply elem_of_seq; lia)); try discriminate Hone).
    apply andb_true_iff in Hone as [->%Pos.eqb_eq ->%Z.eqb_eq]. done. }
  rewrite Hscale. cbn [SFmul xorb]. unfold normal in Hm. rewrite Pos2Z.inj_mul, !Z2Pos.id by lia.
  rewrite round_exact by (unfold normal, moderate; lia). unfold size_of_double, integer_of_double.
  replace (- e + (j - 52) + 52) with (- (e - j)) by lia. rewrite (proj2 (Z.leb_gt 0 (- (e - j)))) by lia. rewrite Z.opp_involutive, Z2Pos.id by lia.
  assert (Hs : 0 <= m / 2 ^ (e - j) <= 2 ^ j).
  { split; [apply Z.div_pos; [lia|]; apply Z.pow_pos_nonneg; lia|]. apply Z.div_le_upper_bound; [apply Z.pow_pos_nonneg; lia|].
    rewrite <-Z.pow_add_r by lia. by replace (e - j + j) with e by lia. }
  assert (Hmax : 2 ^ j <= 2 ^ 50) by (apply Z.pow_le_mono_r; lia).
  exists (m / 2 ^ (e - j)). split; [|split; [done|]].
  - by rewrite (proj2 (Z.leb_le _ _)), (proj2 (Z.leb_le _ _)) by lia.
  - intros [-> ->]%Hwhole. replace 52 with (52 - j + j) at 1 by lia. rewrite Z.pow_add_r, Z.mul_comm by lia.
    apply Z.div_mul. pose proof (Z.pow_pos_nonneg 2 (52 - j) ltac:(lia) ltac:(lia)). lia.
Qed.

(** ** Percentages *)

Lemma shr_1_m r : 0 <= shr_m r -> shr_m (shr_1 r) = shr_m r / 2.
Proof. destruct r as [[|[p|p|]|p] a b]; cbn [shr_m shr_1]; intros H; try lia; rewrite <-Z.div2_div; reflexivity. Qed.

Lemma iter_shr_m n : forall r, 0 <= shr_m r -> shr_m (iter_pos shr_1 n r) = shr_m r / 2 ^ Zpos n /\ 0 <= shr_m (iter_pos shr_1 n r).
Proof.
  assert (Hone : forall r, 0 <= shr_m r -> shr_m (shr_1 r) = shr_m r / 2 /\ 0 <= shr_m (shr_1 r)).
  { intros r Hr. rewrite shr_1_m by done. split; [done|]. apply Z.div_pos; lia. }
  assert (Hpow : forall n, 0 < 2 ^ Zpos n) by (intros; apply Z.pow_pos_nonneg; lia).
  induction n as [n IH|n IH|]; intros r Hr; cbn [iter_pos].
  - destruct (Hone r Hr) as [E1 H1]. destruct (IH _ H1) as [E2 H2]. destruct (IH _ H2) as [E3 H3]. split; [|done].
    rewrite E3, E2, E1, !Z.div_div by (pose proof (Hpow n); lia). f_equal.
    replace (Zpos n~1) with (1 + Zpos n + Zpos n) by lia. rewrite !Z.pow_add_r by lia. ring.
  - destruct (IH _ Hr) as [E2 H2]. destruct (IH _ H2) as [E3 H3]. split; [|done].
    rewrite E3, E2, Z.div_div by (pose proof (Hpow n); lia). f_equal. replace (Zpos n~0) with (Zpos n + Zpos n) by lia. by rewrite Z.pow_add_r by lia.
  - by apply Hone.
Qed.

Lemma nearest_even_close m l : m <= round_nearest_even m l <= m + 1.
Proof. destruct l as [|[]]; cbn; [lia|destruct (Z.even m)|..]; lia. Qed.

(** Rounding a product of two mantissas moves it by less than a unit. *)
Lemma round_product P E n :
  (n = 52 \/ n = 53) -> 2 ^ (n + 52) <= P < 2 ^ (n + 53) -> -1000 <= E <= 700 -> moderate (E + n) -> moderate (E + n + 1) ->
  exists m k, normal m /\ 0 <= k <= 1 /\ P - 2 ^ n <= m * 2 ^ (k + n) <= P + 2 ^ n /\
    round P E loc_Exact = S754_finite false (Z.to_pos m) (E + n + k).
Proof.
  intros Hn HP HE Hm1 Hm2. unfold binary_round_aux, shr_fexp at 1. rewrite (digits_between P (n + 53)).
  2: lia. 2: { by replace (n + 53 - 1) with (n + 52) by lia. }
  unfold fexp, emin, moderate in *. replace (Z.max (n + 53 + E - 53) (3 - 1024 - 53) - E) with n by lia.
  destruct n as [|pn|pn]; [lia| |lia]. cbn [shr shr_record_of_loc].
  destruct (iter_shr_m pn (Build_shr_record P false false)) as [Hshr _]; [cbn; lia|]. cbn [shr_m] in Hshr.
  set (mrs := iter_pos shr_1 pn _) in *. rewrite Hshr.
  pose proof (nearest_even_close (P / 2 ^ Zpos pn) (loc_of_shr_record mrs)) as Hr. set (r := round_nearest_even _ _) in *.
  assert (Hpow : 0 < 2 ^ Zpos pn) by (apply Z.pow_pos_nonneg; lia).
  rewrite !(Z.pow_add_r 2 (Zpos pn)) in HP by lia.
  assert (Hq : 2 ^ 52 <= P / 2 ^ Zpos pn < 2 ^ 53) by (split; [apply Z.div_le_lower_bound|apply Z.div_lt_upper_bound]; lia).
  destruct (finish_round r (E + Zpos pn)) as (m & k & Hm & Hk & Heq & ->); [lia|done|done|].
  assert (Hk1 : k <= 1).
  { destruct Hm as [Hlo _]. destruct (Z_le_gt_dec k 1) as [|Hgt]; [done|]. exfalso.
    pose proof (Z.pow_le_mono_r 2 2 k ltac:(lia) ltac:(lia)). nia. }
  exists m, k. split; [done|]. split; [lia|]. split; [|done].
  pose proof (Z.div_mod P (2 ^ Zpos pn) ltac:(lia)). pose proof (Z.mod_pos_bound P (2 ^ Zpos pn) ltac:(lia)).
  rewrite Z.pow_add_r, Z.mul_assoc, Heq by lia. nia.
Qed.

(** The two roundings together. *)
Lemma percentage_bounds m m' e g k n c t :
  (n = 52 \/ n = 53) -> 0 <= k <= 1 -> 0 < m -> 0 < m' -> 52 <= e -> 0 < t < 2 ^ 42 -> g + k + n = e + 46 /\ 0 < g ->
  c * 2 ^ e - 2 * t <= m * t <= c * 2 ^ e + 2 * t ->
  m * (100 * 2 ^ 46) - 2 ^ n <= m' * 2 ^ (k + n) <= m * (100 * 2 ^ 46) + 2 ^ n ->
  0 <= m' / 2 ^ g /\ m' / 2 ^ g * t <= 100 * c /\ 100 * c <= (m' / 2 ^ g + 1) * t.
Proof.
  intros Hn Hk Hm0 Hm0' He Ht [Hg Hgpos] Hm Hm'. assert (Hpow : 0 < 2 ^ g) by (apply Z.pow_pos_nonneg; lia).
  pose proof (Z.div_mod m' (2 ^ g) ltac:(lia)) as Hdiv. pose proof (Z.mod_pos_bound m' (2 ^ g) Hpow) as Hmod.
  assert (Hs : 0 <= m' / 2 ^ g) by (apply Z.div_pos; lia). set (s := m' / 2 ^ g) in *.
  assert (HP : 2 ^ g * 2 ^ (k + n) = 2 ^ e * 2 ^ 46) by (rewrite <-!Z.pow_add_r by lia; f_equal; lia).
  assert (Hkn : 0 < 2 ^ (k + n)) by (apply Z.pow_pos_nonneg; lia).
  assert (H2n : 2 ^ n <= 128 * 2 ^ 46) by (destruct Hn as [->| ->]; lia).
  assert (He52 : 2 ^ 52 <= 2 ^ e) by (apply Z.pow_le_mono_r; lia).
  set (G := 2 ^ g) in *. set (K := 2 ^ (k + n)) in *. set (W := 2 ^ e) in *.
  assert (Hlo : s * W <= 100 * m + 128).
  { assert (s * G * K <= m' * K) by nia. assert (s * (W * 2 ^ 46) <= m * (100 * 2 ^ 46) + 128 * 2 ^ 46) by (rewrite <-HP; nia). nia. }
  assert (Hhi : 100 * m - 128 < (s + 1) * W).
  { assert (m' * K < (s + 1) * G * K) by nia. assert (m * (100 * 2 ^ 46) - 128 * 2 ^ 46 < (s + 1) * (W * 2 ^ 46)) by (rewrite <-HP; nia). nia. }
  split; [done|]. split.
  - assert (s * t * W < (100 * c + 1) * W) by nia. nia.
  - assert ((100 * c - 1) * W < (s + 1) * t * W) by nia. nia.
Qed.

(** A share in percent, truncated after two roundings: below the percentage
    rounded down by one at most, and never above it, as long as the whole is
    small enough to tell neighbouring shares apart. *)
Lemma percentage_close c t :
  0 <= c <= t -> 0 < t < 2 ^ 42 ->
  exists s, uint_of_double (SFmul 53 1024 (SFdiv 53 1024 (double_of_size c) (double_of_size t)) (double_of_size 100)) = Ok s /\
    0 <= s /\ s * t <= 100 * c /\ 100 * c <= (s + 1) * t.
Proof.
  intros Hc Ht. assert (H100 : double_of_size 100 = S754_finite false (Z.to_pos (100 * 2 ^ 46)) (-46)) by (vm_compute; reflexivity).
  destruct (Z.eq_dec c 0) as [->|Hne].
  { destruct (double_of_count t) as (m & k & _ & _ & _ & ->); [lia|]. exists 0. rewrite H100. split; [reflexivity|lia]. }
  destruct (quotient_le_1 c t) as (m & e & Hm & He & Hle & _ & Hclose & ->); [lia..|].
  rewrite H100. cbn [SFmul xorb]. unfold normal in Hm. rewrite Pos2Z.inj_mul, !Z2Pos.id by lia.
  set (P := m * (100 * 2 ^ 46)).
  assert (HP : 2 ^ 104 <= P < 2 ^ 106) by (unfold P; lia).
  assert (Hn : exists n, (n = 52 \/ n = 53) /\ 2 ^ (n + 52) <= P < 2 ^ (n + 53)).
  { destruct (Z_lt_le_dec P (2 ^ 105)); [exists 52|exists 53]; (split; [auto|]);
      [change (52 + 52) with 104|change (53 + 52) with 105]; [change (52 + 53) with 105|change (53 + 53) with 106]; lia. }
  destruct Hn as (n & Hn & Hbounds).
  destruct (round_product P (- e + -46) n Hn Hbounds) as (m' & k & Hm' & Hk & HR & ->); [lia|unfold moderate; lia..|].
  unfold normal in Hm'. unfold uint_of_double, integer_of_double. set (g := e + 46 - n - k).
  replace (- e + -46 + n + k) with (- g) by (unfold g; lia).
  assert (Hg : 0 < g) by (unfold g; lia). rewrite (proj2 (Z.leb_gt 0 (- g))) by lia. rewrite Z.opp_involutive, Z2Pos.id by lia.
  destruct (percentage_bounds m m' e g k n c t) as (Hs0 & Hlo & Hhi); [done|lia|lia|lia|lia|lia|unfold g; lia|done|done|].
  exists (m' / 2 ^ g). split; [|done]. rewrite (proj2 (Z.leb_le 0 _)), (proj2 (Z.leb_le _ 4294967295)) by nia. done.
Qed.

(** The whole is a hundred percent. *)
Lemma percentage_whole t :
  0 < t < 2 ^ 42 ->
  uint_of_double (SFmul 53 1024 (SFdiv 53 1024 (double_of_size t) (double_of_size t)) (double_of_size 100)) = Ok 100.
Proof.
  intros Ht. destruct (quotient_le_1 t t) as (m & e & _ & _ & _ & Hwhole & _ & ->); [lia..|].
  destruct (Hwhole eq_refl) as [-> ->]. vm_compute. reflexivity.
Qed.
