(* ===== verification/Diagnostics.v ===== *)
(** * Diagnostics (lib/Diagnostics/Diagnostics.cpp)

    The object every component reports to.  Its state is the three flags of the
    class and, standing for the process's standard output, the list of events
    written so far, oldest first.  [warning] in strict mode and [error] call
    [exit(1)], so reporting is an effect that can end the process: [D A] is the
    type of a computation that may report, and the components that report are
    written in it. *)

From stdpp Require Import base list strings.
From S2P Require Import Prelude.

Inductive LogEvent :=
  | LogInfo (message : string)
  | LogWarn (message : string)
  | LogError (message : string)
  | LogDebug (message : string)
  | RawProgress (message : string)
  | RawNewline
  (** what other components print, past this object *)
  | StandardOutput (text : string).

Record Diagnostics := mkDiagnostics {
  seenProgress : bool;
  debugModeEnabled : bool;
  strictModeEnabled : bool;
  out : list LogEvent
}.

(** Computations that report. *)
Definition D (A : Type) : Type := Diagnostics -> outcome A * Diagnostics.

#[global] Instance D_ret : MRet D := fun A a d => (Ok a, d).
#[global] Instance D_bind : MBind D := fun A B f m d =>
  match m d with
  | (Ok a, d') => f a d'
  | (Exit c, d') => (Exit c, d')
  | (Abort w, d') => (Abort w, d')
  end.

Definition lift {A} (o : outcome A) : D A := fun d => (o, d).
Definition d_exit {A} (code : Z) : D A := fun d => (Exit code, d).
Definition d_modify (f : Diagnostics -> Diagnostics) : D unit := fun d => (Ok tt, f d).
Definition d_get : D Diagnostics := fun d => (Ok d, d).

Fixpoint d_iter {A} (f : A -> D unit) (l : list A) : D unit :=
  match l with
  | [] => mret tt
  | a :: l' => f a ≫= fun _ => d_iter f l'
  end.

Fixpoint d_fold {A S} (f : S -> A -> D S) (s : S) (l : list A) : D S :=
  match l with
  | [] => mret s
  | a :: l' => f s a ≫= fun s' => d_fold f s' l'
  end.

Definition newDiagnostics : Diagnostics := mkDiagnostics false false false [].

Definition write (e : LogEvent) (d : Diagnostics) : Diagnostics :=
  mkDiagnostics (seenProgress d) (debugModeEnabled d) (strictModeEnabled d) (out d ++ [e]).

Definition set_seenProgress (b : bool) (d : Diagnostics) : Diagnostics :=
  mkDiagnostics b (debugModeEnabled d) (strictModeEnabled d) (out d).

Definition enableDebugMode : D unit :=
  d_modify (fun d => mkDiagnostics (seenProgress d) true (strictModeEnabled d) (out d)).

Definition enableStrictMode : D unit :=
  d_modify (fun d => mkDiagnostics (seenProgress d) (debugModeEnabled d) true (out d)).

(** Ends the progress line, if one is open. *)
Definition prepare : D unit :=
  d ← d_get;
  if seenProgress d then d_modify (fun d => set_seenProgress false (write RawNewline d))
  else mret tt.

Definition info (message : string) : D unit :=
  _ ← prepare; d_modify (write (LogInfo message)).

Definition strictMessage : string :=
  "Strict Mode enabled: warning messages are treated as fatal errors. Exiting now.".
Definition errorMessage : string :=
  "Error messages are treated as fatal errors. Exiting now.".

Definition warning (message : string) : D unit :=
  _ ← prepare;
  _ ← d_modify (write (LogWarn message));
  d ← d_get;
  if strictModeEnabled d then
    _ ← d_modify (write (LogWarn strictMessage)); d_exit 1
  else mret tt.

Definition error {A} (message : string) : D A :=
  _ ← prepare;
  _ ← d_modify (write (LogError message));
  _ ← d_modify (write (LogError errorMessage));
  d_exit 1.

Definition progress (message : string) : D unit :=
  _ ← d_modify (set_seenProgress true);
  d_modify (write (RawProgress message)).

Definition debug (message : string) : D unit :=
  d ← d_get;
  if negb (debugModeEnabled d) then mret tt
  else _ ← prepare; d_modify (write (LogDebug message)).

(** ** The monad *)

Lemma D_bind_run {A B} (m : D A) (f : A -> D B) d :
  (m ≫= f) d = match m d with
               | (Ok a, d') => f a d'
               | (Exit c, d') => (Exit c, d')
               | (Abort w, d') => (Abort w, d')
               end.
Proof. done. Qed.

Lemma D_bind_Ok {A B} (m : D A) (f : A -> D B) d b d' :
  (m ≫= f) d = (Ok b, d') -> exists a d1, m d = (Ok a, d1) /\ f a d1 = (Ok b, d').
Proof. rewrite D_bind_run. destruct (m d) as [[a| |] d1]; [|done..]. intros Hf. by exists a, d1. Qed.

Lemma lift_Ok {A} (o : outcome A) d a d' : lift o d = (Ok a, d') -> o = Ok a /\ d' = d.
Proof. by intros [= -> ->]. Qed.

Ltac run_d H :=
  unfold mbind, D_bind, mret, D_ret, d_modify, d_exit, d_get, lift in H; cbn beta iota zeta in H.

(** ** The log *)

Lemma lift_bind {A B} (o : outcome A) (f : A -> D B) d :
  (lift o ≫= f) d = match o with Ok a => f a d | Exit c => (Exit c, d) | Abort why => (Abort why, d) end.
Proof. by destruct o. Qed.

(** Appending to the log. *)
Definition logged (d : Diagnostics) (events : list LogEvent) : Diagnostics :=
  mkDiagnostics (seenProgress d) (debugModeEnabled d) (strictModeEnabled d) (out d ++ events).

Lemma logged_app d l1 l2 : logged (logged d l1) l2 = logged d (l1 ++ l2).
Proof. unfold logged. cbn. by rewrite app_assoc. Qed.

Lemma logged_nil d : logged d [] = d.
Proof. destruct d. unfold logged. cbn. by rewrite app_nil_r. Qed.

(** No progress line is open. *)
Lemma info_logged d message : seenProgress d = false -> info message d = (Ok tt, logged d [LogInfo message]).
Proof. intros Hs. unfold info, prepare, d_get, mbind, D_bind. rewrite Hs. done. Qed.

(** A warning, outside strict mode. *)
Lemma warning_logged d message :
  seenProgress d = false -> strictModeEnabled d = false -> warning message d = (Ok tt, logged d [LogWarn message]).
Proof. intros Hs Hst. unfold warning, prepare, d_get, d_modify, mbind, D_bind. rewrite Hs. cbn. by rewrite Hst. Qed.

Lemma d_fold_app {A S} (f : S -> A -> D S) s l1 l2 : forall d,
  d_fold f s (l1 ++ l2) d = (s' ← d_fold f s l1; d_fold f s' l2) d.
Proof.
  revert s. induction l1 as [|a l1 IH]; intros s d; [done|]. cbn [d_fold app]. rewrite !D_bind_run.
  destruct (f s a d) as [[s'| |] d']; [|done..]. by rewrite IH.
Qed.

(** A computation that ends the process ends what follows. *)
Lemma D_bind_exit {A B} (m : D A) (f : A -> D B) c d : (m d).1 = Exit c -> ((m ≫= f) d).1 = Exit c.
Proof. rewrite D_bind_run. destruct (m d) as [[]]; cbn; congruence. Qed.

Lemma error_exits {A} message d : (@error A message d).1 = Exit 1.
Proof. unfold error. rewrite D_bind_run. unfold prepare, d_get, d_modify. rewrite D_bind_run. by destruct (seenProgress d). Qed.

(** The warnings written so far. *)
Definition warnings (d : Diagnostics) : list string :=
  concat (map (fun e => match e with LogWarn m => [m] | _ => [] end) (out d)).

Lemma warning_lenient m d :
  strictModeEnabled d = false ->
  exists d', warning m d = (Ok tt, d') /\ strictModeEnabled d' = false /\
             warnings d' = warnings d ++ [m].
Proof.
  destruct d as [sp db st o]; cbn [strictModeEnabled]. intros ->.
  unfold warning, prepare, mbind, D_bind, d_get, d_modify, d_exit, mret, D_ret; cbn.
  destruct sp; cbn; eexists; (split; [reflexivity|]); (split; [reflexivity|]);
    unfold warnings; cbn; rewrite !map_app, !concat_app; cbn; by rewrite ?app_nil_r.
Qed.

Lemma warning_strict m d :
  strictModeEnabled d = true -> exists d', warning m d = (Exit 1, d').
Proof.
  destruct d as [sp db st o]; cbn [strictModeEnabled]. intros ->.
  unfold warning, prepare, mbind, D_bind, d_get, d_modify, d_exit, mret, D_ret; cbn. destruct sp; cbn; by eexists.
Qed.

(** ** The operations of the class, as one type, and the states they reach *)
Inductive DiagOp :=
  | OpDebugMode | OpStrictMode
  | OpInfo (m : string) | OpWarning (m : string) | OpError (m : string)
  | OpProgress (m : string) | OpDebug (m : string).

Definition run_op (o : DiagOp) : D unit :=
  match o with
  | OpDebugMode => enableDebugMode
  | OpStrictMode => enableStrictMode
  | OpInfo m => info m
  | OpWarning m => warning m
  | OpError m => error m
  | OpProgress m => progress m
  | OpDebug m => debug m
  end.

(** Whether the output ends inside a progress line. *)
Definition open_line (l : list LogEvent) : bool :=
  match last l with Some (RawProgress _) => true | _ => false end.

(** A log line starts on a line of its own: no log record directly follows
    progress output, and a line is ended only when one is open. *)
Fixpoint tidy (opened : bool) (l : list LogEvent) : bool :=
  match l with
  | [] => true
  | RawProgress _ :: l' => tidy true l'
  | RawNewline :: l' => opened && tidy false l'
  | _ :: l' => negb opened && tidy false l'
  end.

Definition ends_open (opened : bool) (l : list LogEvent) : bool :=
  match l with [] => opened | _ => open_line l end.

Lemma open_line_snoc l e :
  open_line (l ++ [e]) = match e with RawProgress _ => true | _ => false end.
Proof. unfold open_line. by rewrite last_snoc. Qed.

Lemma tidy_snoc o l e :
  tidy o (l ++ [e]) =
  tidy o l && match e with
              | RawProgress _ => true
              | RawNewline => ends_open o l
              | _ => negb (ends_open o l)
              end.
Proof.
  revert o. induction l as [|x l IH]; intros o; simpl.
  - destruct e; simpl; by rewrite ?andb_true_r.
  - assert (Hends : forall o', (match x with RawProgress _ => true | _ => false end) = o' ->
        ends_open o' l = ends_open o (x :: l)).
    { intros o' <-. unfold ends_open. destruct l as [|y l]; [by destruct x|].
      unfold open_line. by rewrite last_cons_cons. }
    destruct x; simpl; rewrite IH; rewrite (Hends _ eq_refl); by rewrite ?andb_assoc.
Qed.

Definition diag_inv (d : Diagnostics) : Prop :=
  tidy false (out d) = true /\ seenProgress d = ends_open false (out d).

Lemma ends_open_snoc o l e :
  ends_open o (l ++ [e]) = match e with RawProgress _ => true | _ => false end.
Proof.
  unfold ends_open. destruct (l ++ [e]) eqn:E; [by destruct l|].
  rewrite <-E. apply open_line_snoc.
Qed.

(** [prepare] leaves the invariant and closes the line. *)
Lemma prepare_run d :
  diag_inv d ->
  exists d', prepare d = (Ok tt, d') /\ diag_inv d' /\ seenProgress d' = false /\
    strictModeEnabled d' = strictModeEnabled d /\ debugModeEnabled d' = debugModeEnabled d /\
    exists l, out d' = out d ++ l /\ (l = [] \/ l = [RawNewline]).
Proof.
  intros [Ht Hs]. unfold prepare, d_get. simpl. rewrite D_bind_run.
  destruct (seenProgress d) eqn:E; simpl.
  - eexists. split; [reflexivity|]. simpl. unfold diag_inv. simpl.
    rewrite tidy_snoc, ends_open_snoc, Ht, <-Hs. eauto 10.
  - exists d. unfold diag_inv. rewrite Ht, <-Hs, E. repeat split; auto.
    exists []. rewrite app_nil_r. auto.
Qed.

Lemma diag_inv_write_log d e :
  diag_inv d -> seenProgress d = false ->
  (match e with RawProgress _ | RawNewline => false | _ => true end) = true ->
  diag_inv (write e d) /\ seenProgress (write e d) = false.
Proof.
  intros [Ht Hs] Hf He. unfold diag_inv, write; simpl.
  rewrite tidy_snoc, ends_open_snoc, Ht, <-Hs, Hf. by destruct e.
Qed.

Lemma diag_inv_run_op o d r d' :
  run_op o d = (r, d') -> diag_inv d -> diag_inv d'.
Proof.
  intros Hrun Hinv. destruct (prepare_run d Hinv) as (p & Hp & Hip & Hsp & Hst & Hdb & _).
  pose proof (fun e => diag_inv_write_log p e Hip Hsp) as Hw.
  destruct o; simpl in Hrun.
  - unfold enableDebugMode, d_modify in Hrun. by simplify_eq.
  - unfold enableStrictMode, d_modify in Hrun. by simplify_eq.
  - unfold info in Hrun. run_d Hrun. rewrite Hp in Hrun. simplify_eq. by apply Hw, eq_refl.
  - unfold warning in Hrun. run_d Hrun. rewrite Hp in Hrun. cbn in Hrun.
    destruct (strictModeEnabled p); simplify_eq; [|by apply Hw, eq_refl].
    apply diag_inv_write_log; [by apply Hw, eq_refl|by apply Hw, eq_refl|done].
  - unfold error in Hrun. run_d Hrun. rewrite Hp in Hrun. simplify_eq.
    apply diag_inv_write_log; [by apply Hw, eq_refl|by apply Hw, eq_refl|done].
  - unfold progress in Hrun. run_d Hrun. simplify_eq. destruct Hinv as [Ht _].
    unfold diag_inv, write, set_seenProgress; cbn. by rewrite tidy_snoc, ends_open_snoc, Ht.
  - unfold debug in Hrun. run_d Hrun. destruct (debugModeEnabled d); cbn in Hrun; [|by simplify_eq].
    rewrite Hp in Hrun. simplify_eq. by apply Hw, eq_refl.
Qed.

(** Successive calls: the process stops at the first one that exits. *)
Definition run_ops : list DiagOp -> D unit := d_iter run_op.

(** What [warning] does in each mode. *)
Lemma warning_run m d :
  exists d', warning m d = (if strictModeEnabled d then Exit 1 else Ok tt, d').
Proof.
  destruct d as [sp db st o]. unfold warning, prepare.
  unfold mbind, D_bind, d_get, d_modify, d_exit; cbn.
  destruct sp, st; cbn; eauto.
Qed.

(** Whatever is reported, by any sequence of calls on a
    new object, also one that ends the process, log records never share a
    line with progress output and no blank line is written. *)
Theorem diagnostics_output_tidy ops r d :
  run_ops ops newDiagnostics = (r, d) -> tidy false (out d) = true.
Proof.
  assert (Hgen : forall l d0, diag_inv d0 -> run_ops l d0 = (r, d) -> diag_inv d).
  { induction l as [|o l IH]; cbn; intros d0 Hinv Hrun;
      [unfold mret, D_ret in Hrun; by simplify_eq|].
    rewrite D_bind_run in Hrun. destruct (run_op o d0) as [r' d'] eqn:E.
    pose proof (diag_inv_run_op _ _ _ _ E Hinv) as Hinv'.
    destruct r' as [[]|c|w]; [by eapply IH| |]; injection Hrun as <- <-; done. }
  intros Hrun. by eapply (Hgen ops newDiagnostics).
Qed.

Lemma diagnostics_output_tidy_witness :
  exists d, run_ops [OpProgress "[##--] 2/4"; OpInfo "Running tests"; OpStrictMode; OpProgress "[####] 4/4"; OpWarning "No bitcode"]
      newDiagnostics = (Exit 1, d) /\
    out d = [RawProgress "[##--] 2/4"; RawNewline; LogInfo "Running tests"; RawProgress "[####] 4/4"; RawNewline;
             LogWarn "No bitcode"; LogWarn strictMessage] /\
    tidy false (out d) = true.
Proof.
  eexists. split; [reflexivity|]. split; [reflexivity|].
  exact (diagnostics_output_tidy [OpProgress "[##--] 2/4"; OpInfo "Running tests"; OpStrictMode;
    OpProgress "[####] 4/4"; OpWarning "No bitcode"] (Exit 1) _ eq_refl).
Defined.
