(* ===== verification/MutatorKind.v ===== *)
(** * Mutator kinds (include/mull/Mutators/MutatorKind.h, lib/Mutators/MutatorKind.cpp)

    The enumeration, its printed names, and [MutatorKindSet], the set of kinds
    an AST search is restricted to. *)

From stdpp Require Import base list strings gmap finite sets.
From S2P Require Import Prelude.

Inductive MutatorKind :=
  | NegateMutator
  | RemoveVoidFunctionMutator
  | ReplaceCallMutator
  | ScalarValueMutator
  | CXX_AddToSub
  | CXX_AddAssignToSubAssign
  | CXX_PreIncToPreDec
  | CXX_PostIncToPostDec
  | CXX_SubToAdd
  | CXX_SubAssignToAddAssign
  | CXX_PreDecToPreInc
  | CXX_PostDecToPostInc
  | CXX_MulToDiv
  | CXX_MulAssignToDivAssign
  | CXX_DivToMul
  | CXX_DivAssignToMulAssign
  | CXX_RemToDiv
  | CXX_RemAssignToDivAssign
  | CXX_BitwiseNotToNoop
  | CXX_UnaryMinusToNoop
  | CXX_LShiftToRShift
  | CXX_LShiftAssignToRShiftAssign
  | CXX_RShiftToLShift
  | CXX_RShiftAssignToLShiftAssign
  | CXX_Logical_AndToOr
  | CXX_Logical_OrToAnd
  | CXX_Bitwise_OrToAnd
  | CXX_Bitwise_OrAssignToAndAssign
  | CXX_Bitwise_AndToOr
  | CXX_Bitwise_AndAssignToOrAssign
  | CXX_Bitwise_XorToOr
  | CXX_Bitwise_XorAssignToOrAssign
  | CXX_LessThanToLessOrEqual
  | CXX_LessOrEqualToLessThan
  | CXX_GreaterThanToGreaterOrEqual
  | CXX_GreaterOrEqualToGreaterThan
  | CXX_GreaterThanToLessOrEqual
  | CXX_GreaterOrEqualToLessThan
  | CXX_LessThanToGreaterOrEqual
  | CXX_LessOrEqualToGreaterThan
  | CXX_EqualToNotEqual
  | CXX_NotEqualToEqual
  | CXX_AssignConst
  | CXX_InitConst.

#[global] Instance MutatorKind_eq_dec : EqDecision MutatorKind.
Proof. solve_decision. Defined.

Definition all_kinds : list MutatorKind := [
  NegateMutator; RemoveVoidFunctionMutator; ReplaceCallMutator;
  ScalarValueMutator; CXX_AddToSub; CXX_AddAssignToSubAssign;
  CXX_PreIncToPreDec; CXX_PostIncToPostDec; CXX_SubToAdd;
  CXX_SubAssignToAddAssign; CXX_PreDecToPreInc; CXX_PostDecToPostInc;
  CXX_MulToDiv; CXX_MulAssignToDivAssign; CXX_DivToMul;
  CXX_DivAssignToMulAssign; CXX_RemToDiv; CXX_RemAssignToDivAssign;
  CXX_BitwiseNotToNoop; CXX_UnaryMinusToNoop; CXX_LShiftToRShift;
  CXX_LShiftAssignToRShiftAssign; CXX_RShiftToLShift; CXX_RShiftAssignToLShiftAssign;
  CXX_Logical_AndToOr; CXX_Logical_OrToAnd; CXX_Bitwise_OrToAnd;
  CXX_Bitwise_OrAssignToAndAssign; CXX_Bitwise_AndToOr; CXX_Bitwise_AndAssignToOrAssign;
  CXX_Bitwise_XorToOr; CXX_Bitwise_XorAssignToOrAssign; CXX_LessThanToLessOrEqual;
  CXX_LessOrEqualToLessThan; CXX_GreaterThanToGreaterOrEqual; CXX_GreaterOrEqualToGreaterThan;
  CXX_GreaterThanToLessOrEqual; CXX_GreaterOrEqualToLessThan; CXX_LessThanToGreaterOrEqual;
  CXX_LessOrEqualToGreaterThan; CXX_EqualToNotEqual; CXX_NotEqualToEqual;
  CXX_AssignConst; CXX_InitConst
].

#[global] Program Instance MutatorKind_finite : Finite MutatorKind := {| enum := all_kinds |}.
Next Obligation. by apply (bool_decide_unpack _). Qed.
Next Obligation. intros k. apply (bool_decide_unpack _). by destruct k. Qed.

Definition MutationKindToString (mutatorKind : MutatorKind) : string :=
  match mutatorKind with
  | NegateMutator => "Negate"
  | RemoveVoidFunctionMutator => "Remove Void"
  | ReplaceCallMutator => "Replace Call"
  | ScalarValueMutator => "Scalar Value"
  | CXX_AddToSub => "Add to Sub"
  | CXX_AddAssignToSubAssign => "Add-Assign to Sub-Assign"
  | CXX_PreIncToPreDec => "Pre-Inc to Pre-Dec"
  | CXX_PostIncToPostDec => "Post-Inc to Post-Dec"
  | CXX_SubToAdd => "Sub to Add"
  | CXX_SubAssignToAddAssign => "Sub-Assign to Add-Assign"
  | CXX_PreDecToPreInc => "Pre-Dec to Pre-Inc"
  | CXX_PostDecToPostInc => "Post-Dec to Post-Inc"
  | CXX_MulToDiv => "Mul to Div"
  | CXX_MulAssignToDivAssign => "Mul-Assign to Div-Assign"
  | CXX_DivToMul => "Div to Mul"
  | CXX_DivAssignToMulAssign => "Div-Assign to Mul-Assign"
  | CXX_RemToDiv => "Rem to Div"
  | CXX_RemAssignToDivAssign => "Rem-Assign to Div-Assign"
  | CXX_BitwiseNotToNoop => "Bitwise Not to Noop"
  | CXX_UnaryMinusToNoop => "Unary Minus to Noop"
  | CXX_LShiftToRShift => "Left Shift to Right Shift"
  | CXX_LShiftAssignToRShiftAssign => "Left Shift-Assign to Right Shift-Assign"
  | CXX_RShiftToLShift => "Right Shift to Left Shift"
  | CXX_RShiftAssignToLShiftAssign => "Right Shift-Assign to Left Shift-Assign"
  | CXX_Logical_AndToOr => "Logical And to Or"
  | CXX_Logical_OrToAnd => "Logical Or to And"
  | CXX_Bitwise_OrToAnd => "Bitwise Or to And"
  | CXX_Bitwise_OrAssignToAndAssign => "Bitwise Or-Assign to And-Assign"
  | CXX_Bitwise_AndToOr => "Bitwise And to Or"
  | CXX_Bitwise_AndAssignToOrAssign => "Bitwise And-Assign to Or-Assign"
  | CXX_Bitwise_XorToOr => "Bitwise Xor to Or"
  | CXX_Bitwise_XorAssignToOrAssign => "Bitwise Xor-Assign to Or-Assign"
  | CXX_LessThanToLessOrEqual => "Less Than to Less Or Equal"
  | CXX_LessOrEqualToLessThan => "Less Or Equal to Less Than"
  | CXX_GreaterThanToGreaterOrEqual => "Greater Than to Greater or Equal"
  | CXX_GreaterOrEqualToGreaterThan => "Greater Or Equal to Greater Than"
  | CXX_GreaterThanToLessOrEqual => "Greater Than to Less Or Equal"
  | CXX_GreaterOrEqualToLessThan => "Greater Or Equal to Less Than"
  | CXX_LessThanToGreaterOrEqual => "Less Than to Greater Or Equal"
  | CXX_LessOrEqualToGreaterThan => "Less Or Equal To Greater Than"
  | CXX_EqualToNotEqual => "Equal to Not Equal"
  | CXX_NotEqualToEqual => "Not Equal to Equal"
  | CXX_AssignConst => "Assign Const"
  | CXX_InitConst => "Init Const"
  end.

(** Reading a name back: what a consumer of the debug log would do. *)
Definition kind_of_string (s : string) : option MutatorKind :=
  find_first (fun k => String.eqb (MutationKindToString k) s) all_kinds.

(** ** MutatorKindSet *)
Record MutatorKindSet := mkKindSet { mutators : gset MutatorKind }.

Definition create (mutators : list MutatorKind) : MutatorKindSet :=
  mkKindSet (list_to_set mutators).

Definition includesMutator (s : MutatorKindSet) (k : MutatorKind) : bool :=
  bool_decide (k ∈ mutators s).

Lemma includesMutator_create l k : includesMutator (create l) k = bool_decide (k ∈ l).
Proof. unfold includesMutator, create; simpl. apply bool_decide_ext. set_solver. Qed.

Lemma includesMutator_create_true l k : includesMutator (create l) k = true <-> k ∈ l.
Proof. rewrite includesMutator_create. apply bool_decide_eq_true. Qed.

#[export] Hint Rewrite includesMutator_create : mull_rw.

(** The printed name of a kind identifies it, so a line of the debug log
    that names a kind can be read back: the round trip through
    [MutationKindToString] is the identity on all 44 kinds. *)
Theorem MutationKindToString_roundtrip k : kind_of_string (MutationKindToString k) = Some k.
Proof. by destruct k. Qed.
