(* ===== verification/IR.v ===== *)
(** * The program representation the tool works on

    Mull reads and rewrites LLVM modules.  The data model below keeps of an
    LLVM module what mull looks at: functions in order, their basic blocks in
    order, the instructions of a block in order, and of an instruction its
    opcode with its operands and its debug location.  Functions, blocks and
    instructions are objects with an identity (mull compares their addresses),
    here a number.  The operand numbering of a conditional branch is LLVM's:
    operand 0 is the condition, operand 1 the destination taken when it is
    false, operand 2 the one taken when it is true. *)

From stdpp Require Import base list strings.
From Stdlib Require Import ZArith.
From S2P Require Import Prelude.

Abbreviation FnId := nat.
Abbreviation BlockId := nat.
Abbreviation InstId := nat.

Inductive Value :=
  | ConstantInt (v : Z)
  | ConstantFP (zero : bool)
  | BasicBlockRef (b : BlockId)
  | InstRef (i : InstId)
  | FunctionRef (f : FnId)
  | GlobalRef (name : string)
  | OtherValue (id : nat).

#[global] Instance Value_eq_dec : EqDecision Value.
Proof. solve_decision. Defined.

Inductive Opcode :=
  | Br (dest : BlockId)
  | CondBr (cond : Value) (ifTrue ifFalse : BlockId)
  | PHI (incoming : list (Value * BlockId))
  | Ret
  | Call (callee : option string) (args : list Value)
  | OtherInst (name : string) (operands : list Value).

(** [llvm::DebugLoc]: the scope's directory and file, the position, and the
    directory and file of the compile unit when there is one. *)
Record DebugLoc := mkDebugLoc {
  dl_directory : string;
  dl_filename : string;
  dl_line : Z;
  dl_column : Z;
  dl_unit : option (string * string)
}.

Record Instruction := mkInstruction {
  inst_id : InstId;
  inst_op : Opcode;
  inst_debug : option DebugLoc
}.

Record BasicBlock := mkBasicBlock {
  bb_id : BlockId;
  bb_insts : list Instruction
}.

(** [llvm::DISubprogram] *)
Record Subprogram := mkSubprogram {
  sp_directory : string;
  sp_filename : string;
  sp_line : Z;
  sp_unit : option (string * string)
}.

Record Function := mkFunction {
  fn_id : FnId;
  fn_name : string;
  fn_blocks : list BasicBlock;
  fn_subprogram : option Subprogram
}.

Record Module := mkModule {
  mod_identifier : string;
  mod_sourceFileName : string;
  mod_functions : list Function
}.

(** A function without a body. *)
Definition isDeclaration (f : Function) : bool :=
  match fn_blocks f with [] => true | _ => false end.

Definition getOperand (i : Instruction) (n : nat) : option Value :=
  match inst_op i with
  | Br d => match n with 0 => Some (BasicBlockRef d) | _ => None end
  | CondBr c t f =>
      match n with
      | 0 => Some c
      | 1 => Some (BasicBlockRef f)
      | 2 => Some (BasicBlockRef t)
      | _ => None
      end
  | PHI inc => fst <$> inc !! n
  | Ret => None
  | Call _ args => args !! n
  | OtherInst _ ops => ops !! n
  end.

(** [llvm::instructions(F)]: every instruction, block by block. *)
Definition instructions (f : Function) : list Instruction :=
  concat (map bb_insts (fn_blocks f)).

(** [terminator->getSuccessor(0..)]: the true destination first. *)
Definition successors (i : Instruction) : list BlockId :=
  match inst_op i with
  | Br d => [d]
  | CondBr _ t f => [t; f]
  | _ => []
  end.

Definition getTerminator (b : BasicBlock) : option Instruction := last (bb_insts b).

(** The identities of a function's blocks and instructions are distinct. *)
Definition fn_wf (f : Function) : Prop :=
  NoDup (map bb_id (fn_blocks f)) /\ NoDup (map inst_id (instructions f)).

Definition mod_wf (m : Module) : Prop :=
  NoDup (map fn_id (mod_functions m)) /\ Forall fn_wf (mod_functions m).

Definition find_block (f : Function) (b : BlockId) : option BasicBlock :=
  find_first (fun bb => Nat.eqb (bb_id bb) b) (fn_blocks f).

Lemma find_block_Some f b bb :
  find_block f b = Some bb -> bb ∈ fn_blocks f /\ bb_id bb = b.
Proof. intros [? ?]%find_first_Some. by bool_to_prop. Qed.

Lemma elem_of_instructions f i :
  i ∈ instructions f <-> exists bb, bb ∈ fn_blocks f /\ i ∈ bb_insts bb.
Proof. apply elem_of_concat_map. Qed.

(** [instruction->getParent()]: the block of the function that holds it. *)
Definition getParent (f : Function) (i : Instruction) : option BasicBlock :=
  find_first (fun bb => existsb (fun j => Nat.eqb (inst_id j) (inst_id i)) (bb_insts bb)) (fn_blocks f).

Lemma getParent_Some f i bb : getParent f i = Some bb ->
  bb ∈ fn_blocks f /\ exists j, j ∈ bb_insts bb /\ inst_id j = inst_id i.
Proof.
  intros [Hbb (j & Hj & Heq)%existsb_elem]%find_first_Some. bool_to_prop. eauto.
Qed.

Lemma getParent_is_Some f i : i ∈ instructions f -> is_Some (getParent f i).
Proof.
  intros (bb & Hbb & Hi)%elem_of_instructions. unfold getParent.
  destruct (find_first _ _) as [b|] eqn:E; [by eexists|].
  pose proof (proj1 (find_first_None _ _) E bb Hbb) as Hf. cbn beta in Hf.
  assert (Ht : existsb (fun j => Nat.eqb (inst_id j) (inst_id i)) (bb_insts bb) = true)
    by (apply existsb_elem; exists i; rewrite Nat.eqb_refl; done).
  congruence.
Qed.

(** Instructions with the same identity are the same one. *)
Lemma inst_id_inj f i j :
  fn_wf f -> i ∈ instructions f -> j ∈ instructions f -> inst_id i = inst_id j -> i = j.
Proof.
  intros [_ Hnd]. revert Hnd. generalize (instructions f) as l.
  induction l as [|x l IH]; simpl; intros Hnd Hi Hj Heq; [by apply not_elem_of_nil in Hi|].
  apply NoDup_cons in Hnd as [Hx Hnd].
  apply elem_of_cons in Hi as [->|Hi], Hj as [->|Hj]; auto.
  - exfalso. apply Hx. rewrite Heq. by apply (list_elem_of_fmap_2 inst_id).
  - exfalso. apply Hx. rewrite <-Heq. by apply (list_elem_of_fmap_2 inst_id).
Qed.

(** [module->getFunction(name)] and the function a pointer designates. *)
Definition getFunction (m : Module) (name : string) : option Function :=
  find_first (fun f => String.eqb (fn_name f) name) (mod_functions m).

Definition function_at (m : Module) (p : FnId) : option Function :=
  find_first (fun f => Nat.eqb (fn_id f) p) (mod_functions m).

(** An identity no instruction of the function has. *)
Definition fresh_inst (f : Function) : InstId :=
  S (foldr Nat.max 0 (map inst_id (instructions f))).
