(* ===== verification/Compat.v ===== *)
(** * The layer over LLVM's versions, and the version of mull
    (LLVMCompatibility/9.x.x/LLVMCompatibility.cpp, lib/Version.cpp)

    The layer gives every LLVM release the same face: mostly it turns an
    [Expected] into a value that stands for nothing.  What LLVM computes is an
    argument. *)

From stdpp Require Import base list strings.
From Stdlib Require Import ZArith Lia Bool.
From S2P Require Import Prelude StringFacts IR.

(** [llvm::Expected]: a value or an error with its message. *)
Inductive Expected (A : Type) :=
  | Value (a : A)
  | Failure (message : string).
Arguments Value {A} a.
Arguments Failure {A} message.

Module llvm_compat.
(** An address of 0 stands for a symbol that has none. *)
Definition JITSymbolAddress (address : Expected Z) : Z :=
  match address with Value a => a | Failure _ => 0%Z end.

Definition noFlags : Z := 0.

Definition JITSymbolFlagsFromObjectSymbol (fromObjectSymbol : Expected Z) : Z :=
  match fromObjectSymbol with Value flags => flags | Failure _ => noFlags end.

(** The object file of a module, with the buffer it is read from; [None] is an
    empty [OwningBinary]. *)
Definition compileModule {Module ObjectFile} (compiler : Module -> string) (createObjectFile : string -> Expected ObjectFile)
    (module : Module) : option (ObjectFile * string) :=
  let buffer := compiler module in
  match createObjectFile buffer with
  | Value object => Some (object, buffer)
  | Failure _ => None
  end.

(** The module, or none and a message on the standard error. *)
Definition parseBitcode {Module} (parseBitcodeFile : string -> Expected Module) (buffer : string) : option Module * list string :=
  match parseBitcodeFile buffer with
  | Value module => (Some module, [])
  | Failure message => (None, [String.append "parseBitcodeFile failed: " message])
  end.

(** The printer with a stream is the one LLVM 9 takes. *)
Definition setVersionPrinter {Printer} (oldPrinter newPrinter : Printer) : Printer := newPrinter.

Definition getSectionContent (getContents : Expected string) : string :=
  match getContents with Value content => content | Failure _ => "" end.

(** A scope of the debug information: a function with its compilation unit, or
    anything else inside some scope. *)
Inductive DIScope :=
  | DISubprogram (unit : option (string * string))
  | DIOther (scope : option DIScope).

(** [isa] is asked of the scope before the scope is compared with null. *)
Fixpoint unit_of_scope (scope : DIScope) : outcome (option (string * string)) :=
  match scope with
  | DISubprogram unit => mret unit
  | DIOther None => Abort "isa<> used on a null pointer"
  | DIOther (Some scope) => unit_of_scope scope
  end.

Definition getUnit (debugLocation : option DIScope) : outcome (option (string * string)) :=
  match debugLocation with
  | None => Abort "isa<> used on a null pointer"
  | Some scope => unit_of_scope scope
  end.
End llvm_compat.

(** The scopes a location of an instruction can have: blocks within a function. *)
Inductive local_scope (unit : option (string * string)) : llvm_compat.DIScope -> Prop :=
  | local_function : local_scope unit (llvm_compat.DISubprogram unit)
  | local_block scope : local_scope unit scope -> local_scope unit (llvm_compat.DIOther (Some scope)).

Lemma getUnit_local unit scope : local_scope unit scope -> llvm_compat.getUnit (Some scope) = Ok unit.
Proof. cbn. by induction 1. Qed.

(** Scopes outside any function. *)
Fixpoint outside (depth : nat) : llvm_compat.DIScope :=
  match depth with O => llvm_compat.DIOther None | S depth => llvm_compat.DIOther (Some (outside depth)) end.

Lemma getUnit_outside depth : llvm_compat.getUnit (Some (outside depth)) = Abort "isa<> used on a null pointer".
Proof. cbn. by induction depth. Qed.

(** The unit is found exactly when a function is around the location; the null
    the code would return otherwise is never returned. *)
Theorem getUnit_spec scope :
  (exists unit, local_scope unit scope /\ llvm_compat.getUnit (Some scope) = Ok unit) \/
  (exists depth, scope = outside depth) /\ llvm_compat.getUnit (Some scope) = Abort "isa<> used on a null pointer".
Proof.
  revert scope. fix IH 1. intros [unit|[scope|]].
  - left. exists unit. split; [constructor|done].
  - destruct (IH scope) as [(unit & Hl & Hu)|[(depth & ->) Hu]].
    + left. exists unit. split; [by constructor|exact Hu].
    + right. split; [by exists (S depth)|exact Hu].
  - right. split; [by exists 0|done].
Qed.

(** ** The version *)
Module version.
(** The strings the build fills in. *)
Record Build := mkBuild {
  mullVersionString : string;
  mullCommitString : string;
  mullBuildDateString : string;
  mullDescriptionString : string;
  mullHomepageString : string;
  llvmVersionString : string
}.

Definition printVersionInformationStream (b : Build) : string :=
  "Mull: " +:+ mullDescriptionString b +:+ eol +:+
  mullHomepageString b +:+ eol +:+
  "Version: " +:+ mullVersionString b +:+ eol +:+
  "Commit: " +:+ mullCommitString b +:+ eol +:+
  "Date: " +:+ mullBuildDateString b +:+ eol +:+
  "LLVM: " +:+ llvmVersionString b +:+ eol.

(** What mull-cxx prints when asked for its version: [main] hands both printers
    to the layer. *)
Definition main_version_printer (b : Build) : string :=
  llvm_compat.setVersionPrinter (printVersionInformationStream b) (printVersionInformationStream b).
End version.
