(* ===== verification/SourceLocation.v ===== *)
(** * Source locations (lib/SourceLocation.cpp, lib/Path.cpp)

    Where an instruction or a function comes from, read off its debug
    information.  [llvm::sys::path] is LLVM's: the functions of it that mull
    calls are the fields of the class [LLVMPath]. *)

From stdpp Require Import base list strings.
From Stdlib Require Import ZArith Bool.
From S2P Require Import Prelude StringFacts IR.

Class LLVMPath := {
  is_absolute : string -> bool;
  get_separator : string;
  path_filename : string -> string;
  remove_dots : string -> string;
  path_stem : string -> string
}.

Definition empty_string (s : string) : bool := String.eqb s "".

Record SourceLocation := mkSourceLocation {
  unitDirectory : string;
  unitFilePath : string;
  directory : string;
  filePath : string;
  line : Z;
  column : Z
}.

#[global] Instance SourceLocation_eq_dec : EqDecision SourceLocation.
Proof. solve_decision. Defined.

Section WithPaths.
Context `{LLVMPath}.

Definition absoluteFilePath (directory filePath : string) : string :=
  if negb (empty_string filePath) && negb (is_absolute filePath)
  then directory +:+ get_separator +:+ filePath
  else filePath.

Definition nullSourceLocation : SourceLocation := mkSourceLocation "" "" "" "" 0 0.

Definition locationFromInstruction (instruction : Instruction) : SourceLocation :=
  match inst_debug instruction with
  | None => nullSourceLocation
  | Some debugInfo =>
      let directory := dl_directory debugInfo in
      let filePath := absoluteFilePath directory (dl_filename debugInfo) in
      let '(unitDirectory, unitFilePath) := default ("", "") (dl_unit debugInfo) in
      mkSourceLocation unitDirectory (absoluteFilePath unitDirectory unitFilePath)
        directory filePath (to_int (dl_line debugInfo)) (to_int (dl_column debugInfo))
  end.

Definition locationFromFunction (function : Function) : SourceLocation :=
  match fn_subprogram function with
  | None => nullSourceLocation
  | Some debugInfo =>
      let '(unitDirectory, unitFilePath) := default ("", "") (sp_unit debugInfo) in
      let directory := sp_directory debugInfo in
      let filePath := absoluteFilePath directory (sp_filename debugInfo) in
      mkSourceLocation unitDirectory (absoluteFilePath unitDirectory unitFilePath)
        directory filePath (to_int (sp_line debugInfo)) 0
  end.
End WithPaths.

Definition isNull (l : SourceLocation) : bool :=
  (empty_string (directory l) && empty_string (filePath l) && (line l =? 0)%Z && (column l =? 0)%Z)
  || ((line l =? 0)%Z && (column l =? 0)%Z).

(** Only the position decides: the first disjunct is subsumed. *)
Lemma isNull_position l : isNull l = ((line l =? 0)%Z && (column l =? 0)%Z).
Proof.
  unfold isNull. destruct (line l =? 0)%Z, (column l =? 0)%Z; rewrite ?andb_false_r; simpl; try done.
  by rewrite orb_true_r.
Qed.

Lemma isNull_false_line `{LLVMPath} l : isNull l = false -> line l <> 0%Z \/ column l <> 0%Z.
Proof. rewrite isNull_position, andb_false_iff, !Z.eqb_neq. tauto. Qed.

#[export] Hint Rewrite isNull_position : mull_rw.
