(* ===== verification/Irm.v ===== *)
(** * The low-level mutations of libirm

    [irm::IRMutation] and its subclasses come from a git submodule whose
    directory is empty in the repository, so what they do is not defined here:
    the classes are listed because mull instantiates them by name, and their
    methods are the fields of [LibIrm], a parameter of everything that calls
    them.  The arguments of a constructor are those mull passes. *)

From stdpp Require Import base list strings.
From Stdlib Require Import ZArith.
From S2P Require Import Prelude IR.

Module irm.
Inductive IRMutation :=
  | AddToSub | FAddToFSub | sadd_with_overflowTossub_with_overflow
  | SubToAdd | FSubToFAdd | ssub_with_overflowTosadd_with_overflow
  | MulToSDiv | FMulToFDiv
  | FDivToFMul | SDivToMul | UDivToMul
  | FRemToFDiv | SRemToSDiv | URemToUDiv
  | XorToAnd | XorToOr | OrToAnd | AndToOr
  | SwapSubOperands | SwapFSubOperands
  | ShlToLShr | LShrToShl | AShrToShl
  | StoreIntReplacement (v : Z) | StoreDoubleReplacement (v : Z) | StoreFloatReplacement (v : Z)
  | RemoveVoidFunctionCall | RemoveVoidIntrinsicsCall
  | IntCallReplacement (v : Z) | FloatCallReplacement (v : Z) | DoubleCallReplacement (v : Z)
  | ConstIntReplacement (v : Z) (operand : nat) | ConstFloatReplacement (v : Z) (operand : nat)
  | ICMP_SLTToICMP_SLE | ICMP_ULTToICMP_ULE | FCMP_OLTToFCMP_OLE | FCMP_ULTToFCMP_ULE
  | ICMP_SLEToICMP_SLT | ICMP_ULEToICMP_ULT | FCMP_OLEToFCMP_OLT | FCMP_ULEToFCMP_ULT
  | ICMP_SGTToICMP_SGE | ICMP_UGTToICMP_UGE | FCMP_OGTToFCMP_OGE | FCMP_UGTToFCMP_UGE
  | ICMP_SGEToICMP_SGT | ICMP_UGEToICMP_UGT | FCMP_OGEToFCMP_OGT | FCMP_UGEToFCMP_UGT
  | ICMP_EQToICMP_NE | FCMP_OEQToFCMP_ONE | FCMP_UEQToFCMP_UNE
  | ICMP_NEToICMP_EQ | FCMP_ONEToFCMP_OEQ | FCMP_UNEToFCMP_UEQ
  | ICMP_SGTToICMP_SLE | ICMP_UGTToICMP_ULE | FCMP_OGTToFCMP_OLE | FCMP_UGTToFCMP_ULE
  | ICMP_SGEToICMP_SLT | ICMP_UGEToICMP_ULT | FCMP_OGEToFCMP_OLT | FCMP_UGEToFCMP_ULT
  | ICMP_SLTToICMP_SGE | ICMP_ULTToICMP_UGE | FCMP_OLTToFCMP_OGE | FCMP_ULTToFCMP_UGE
  | ICMP_SLEToICMP_SGT | ICMP_ULEToICMP_UGT | FCMP_OLEToFCMP_OGT | FCMP_ULEToFCMP_UGT.

#[global] Instance IRMutation_eq_dec : EqDecision IRMutation.
Proof. solve_decision. Defined.
End irm.

(** [llvm::CmpInst::Predicate]: LLVM's sixteen floating point and ten integer
    predicates. *)
Module CmpInst.
Inductive Predicate :=
  | FCMP_FALSE | FCMP_OEQ | FCMP_OGT | FCMP_OGE | FCMP_OLT | FCMP_OLE | FCMP_ONE | FCMP_ORD
  | FCMP_UNO | FCMP_UEQ | FCMP_UGT | FCMP_UGE | FCMP_ULT | FCMP_ULE | FCMP_UNE | FCMP_TRUE
  | ICMP_EQ | ICMP_NE | ICMP_UGT | ICMP_UGE | ICMP_ULT | ICMP_ULE
  | ICMP_SGT | ICMP_SGE | ICMP_SLT | ICMP_SLE.

#[global] Instance Predicate_eq_dec : EqDecision Predicate.
Proof. solve_decision. Defined.
End CmpInst.

(** The methods of the classes.  [mutate] rewrites the instruction of that
    identity inside a function; [_getFrom] and [_getTo] are those of the
    comparison replacements. *)
Class LibIrm := {
  canMutate : irm.IRMutation -> Instruction -> bool;
  mutate : irm.IRMutation -> Function -> InstId -> Function;
  _getFrom : irm.IRMutation -> CmpInst.Predicate;
  _getTo : irm.IRMutation -> CmpInst.Predicate
}.
