(* ===== verification/Mutator.v ===== *)
(** * The mutator classes (include/mull/Mutators, lib/Mutators)

    Every subclass of [Mutator], with the data its constructor sets up: the
    low-level mutations it owns, its kind, its identifier and the texts it
    reports.  The subclasses of [TrivialCXXMutator] differ in that data alone
    and are values of one record, defined in the module [cxx] under the names
    of the C++ namespace; the others have code of their own and are a
    constructor each.  What the classes do with the data is in
    LogicalMutators.v and Mutators.v. *)

From stdpp Require Import base list strings.
From Stdlib Require Import ZArith.
From S2P Require Import Prelude StringFacts MutatorKind IR Irm.

Record TrivialCXXMutator := mkTrivial {
  lowLevelMutators : list irm.IRMutation;
  kind : MutatorKind;
  ID : string;
  description : string;
  replacement : string;
  diagnostics : string
}.

#[global] Instance TrivialCXXMutator_eq_dec : EqDecision TrivialCXXMutator.
Proof. solve_decision. Defined.

Module cxx.

(** *** ArithmeticMutators.cpp *)
Definition getAddToSub : list irm.IRMutation :=
  [irm.AddToSub; irm.FAddToFSub; irm.sadd_with_overflowTossub_with_overflow].

Definition AddToSub : TrivialCXXMutator :=
  {| lowLevelMutators := getAddToSub; kind := MutatorKind.CXX_AddToSub;
     ID := "cxx_add_to_sub"; description := "Replaces + with -";
     replacement := "-"; diagnostics := "Replaced + with -" |}.

Definition AddAssignToSubAssign : TrivialCXXMutator :=
  {| lowLevelMutators := getAddToSub; kind := MutatorKind.CXX_AddAssignToSubAssign;
     ID := "cxx_add_assign_to_sub_assign"; description := "Replaces += with -=";
     replacement := "-="; diagnostics := "Replaced += with -=" |}.

Definition PostIncToPostDec : TrivialCXXMutator :=
  {| lowLevelMutators := getAddToSub; kind := MutatorKind.CXX_PostIncToPostDec;
     ID := "cxx_post_inc_to_post_dec"; description := "Replaces x++ with x--";
     replacement := "--"; diagnostics := "Replaced x++ with x--" |}.

Definition PreIncToPreDec : TrivialCXXMutator :=
  {| lowLevelMutators := getAddToSub; kind := MutatorKind.CXX_PreIncToPreDec;
     ID := "cxx_pre_inc_to_pre_dec"; description := "Replaces ++x with --x";
     replacement := "--"; diagnostics := "Replaced ++x with --x" |}.

Definition getSubToAdd : list irm.IRMutation :=
  [irm.SubToAdd; irm.FSubToFAdd; irm.ssub_with_overflowTosadd_with_overflow].

Definition SubToAdd : TrivialCXXMutator :=
  {| lowLevelMutators := getSubToAdd; kind := MutatorKind.CXX_SubToAdd;
     ID := "cxx_sub_to_add"; description := "Replaces - with +";
     replacement := "+"; diagnostics := "Replaced - with +" |}.

Definition SubAssignToAddAssign : TrivialCXXMutator :=
  {| lowLevelMutators := getSubToAdd; kind := MutatorKind.CXX_SubAssignToAddAssign;
     ID := "cxx_sub_assign_to_add_assign"; description := "Replaces -= with +=";
     replacement := "+="; diagnostics := "Replaced -= with +=" |}.

Definition getDecToInc : list irm.IRMutation :=
  [irm.SubToAdd; irm.FSubToFAdd; irm.ssub_with_overflowTosadd_with_overflow; irm.AddToSub].

Definition PostDecToPostInc : TrivialCXXMutator :=
  {| lowLevelMutators := getDecToInc; kind := MutatorKind.CXX_PostDecToPostInc;
     ID := "cxx_post_dec_to_post_inc"; description := "Replaces x-- with x++";
     replacement := "++"; diagnostics := "Replaced x-- with x++" |}.

Definition PreDecToPreInc : TrivialCXXMutator :=
  {| lowLevelMutators := getDecToInc; kind := MutatorKind.CXX_PreDecToPreInc;
     ID := "cxx_pre_dec_to_pre_inc"; description := "Replaces --x with ++x";
     replacement := "++"; diagnostics := "Replaced --x with ++x" |}.

Definition getMulToDiv : list irm.IRMutation :=
  [irm.MulToSDiv; irm.FMulToFDiv].

Definition MulToDiv : TrivialCXXMutator :=
  {| lowLevelMutators := getMulToDiv; kind := MutatorKind.CXX_MulToDiv;
     ID := "cxx_mul_to_div"; description := "Replaces * with /";
     replacement := "/"; diagnostics := "Replaced * with /" |}.

Definition MulAssignToDivAssign : TrivialCXXMutator :=
  {| lowLevelMutators := getMulToDiv; kind := MutatorKind.CXX_MulAssignToDivAssign;
     ID := "cxx_mul_assign_to_div_assign"; description := "Replaces *= with /=";
     replacement := "/="; diagnostics := "Replaced *= with /=" |}.

Definition getDivToMul : list irm.IRMutation :=
  [irm.FDivToFMul; irm.SDivToMul; irm.UDivToMul].

Definition DivToMul : TrivialCXXMutator :=
  {| lowLevelMutators := getDivToMul; kind := MutatorKind.CXX_DivToMul;
     ID := "cxx_div_to_mul"; description := "Replaces / with *";
     replacement := "*"; diagnostics := "Replaced / with *" |}.

Definition DivAssignToMulAssign : TrivialCXXMutator :=
  {| lowLevelMutators := getDivToMul; kind := MutatorKind.CXX_DivAssignToMulAssign;
     ID := "cxx_div_assign_to_mul_assign"; description := "Replaces /= with *=";
     replacement := "*="; diagnostics := "Replaced /= with *=" |}.

Definition getRemToDiv : list irm.IRMutation :=
  [irm.FRemToFDiv; irm.SRemToSDiv; irm.URemToUDiv].

Definition RemToDiv : TrivialCXXMutator :=
  {| lowLevelMutators := getRemToDiv; kind := MutatorKind.CXX_RemToDiv;
     ID := "cxx_rem_to_div"; description := "Replaces % with /";
     replacement := "/"; diagnostics := "Replaced % with /" |}.

Definition RemAssignToDivAssign : TrivialCXXMutator :=
  {| lowLevelMutators := getRemToDiv; kind := MutatorKind.CXX_RemAssignToDivAssign;
     ID := "cxx_rem_assign_to_div_assign"; description := "Replaces %= with /=";
     replacement := "/="; diagnostics := "Replaced %= with /=" |}.

Definition getBitNotToNoop : list irm.IRMutation :=
  [irm.XorToAnd].

Definition BitwiseNotToNoop : TrivialCXXMutator :=
  {| lowLevelMutators := getBitNotToNoop; kind := MutatorKind.CXX_BitwiseNotToNoop;
     ID := "cxx_bitwise_not_to_noop"; description := "Replaces ~x with x";
     replacement := ""; diagnostics := "Replaced ~x with x" |}.


(** *** RelationalMutators.cpp *)
Definition getLessThanToLessOrEqual : list irm.IRMutation :=
  [irm.ICMP_SLTToICMP_SLE; irm.ICMP_ULTToICMP_ULE; irm.FCMP_OLTToFCMP_OLE; irm.FCMP_ULTToFCMP_ULE].

Definition LessThanToLessOrEqual : TrivialCXXMutator :=
  {| lowLevelMutators := getLessThanToLessOrEqual; kind := MutatorKind.CXX_LessThanToLessOrEqual;
     ID := "cxx_lt_to_le"; description := "Replaces < with <=";
     replacement := "<="; diagnostics := "Replaced < with <=" |}.

Definition getLessOrEqualToLessThan : list irm.IRMutation :=
  [irm.ICMP_SLEToICMP_SLT; irm.ICMP_ULEToICMP_ULT; irm.FCMP_OLEToFCMP_OLT; irm.FCMP_ULEToFCMP_ULT].

Definition LessOrEqualToLessThan : TrivialCXXMutator :=
  {| lowLevelMutators := getLessOrEqualToLessThan; kind := MutatorKind.CXX_LessOrEqualToLessThan;
     ID := "cxx_le_to_lt"; description := "Replaces <= with <";
     replacement := "<"; diagnostics := "Replaced <= with <" |}.

Definition getGreaterThanToGreaterOrEqual : list irm.IRMutation :=
  [irm.ICMP_SGTToICMP_SGE; irm.ICMP_UGTToICMP_UGE; irm.FCMP_OGTToFCMP_OGE; irm.FCMP_UGTToFCMP_UGE].

Definition GreaterThanToGreaterOrEqual : TrivialCXXMutator :=
  {| lowLevelMutators := getGreaterThanToGreaterOrEqual; kind := MutatorKind.CXX_GreaterThanToGreaterOrEqual;
     ID := "cxx_gt_to_ge"; description := "Replaces > with >=";
     replacement := ">="; diagnostics := "Replaced > with >=" |}.

Definition getGreaterOrEqualToGreaterThan : list irm.IRMutation :=
  [irm.ICMP_SGEToICMP_SGT; irm.ICMP_UGEToICMP_UGT; irm.FCMP_OGEToFCMP_OGT; irm.FCMP_UGEToFCMP_UGT].

Definition GreaterOrEqualToGreaterThan : TrivialCXXMutator :=
  {| lowLevelMutators := getGreaterOrEqualToGreaterThan; kind := MutatorKind.CXX_GreaterOrEqualToGreaterThan;
     ID := "cxx_ge_to_gt"; description := "Replaces >= with >";
     replacement := ">"; diagnostics := "Replaced >= with >" |}.

Definition getEqualToNotEqual : list irm.IRMutation :=
  [irm.ICMP_EQToICMP_NE; irm.FCMP_OEQToFCMP_ONE; irm.FCMP_UEQToFCMP_UNE].

Definition EqualToNotEqual : TrivialCXXMutator :=
  {| lowLevelMutators := getEqualToNotEqual; kind := MutatorKind.CXX_EqualToNotEqual;
     ID := "cxx_eq_to_ne"; description := "Replaces == with !=";
     replacement := "!="; diagnostics := "Replaced == with !=" |}.

Definition getNotEqualToEqual : list irm.IRMutation :=
  [irm.ICMP_NEToICMP_EQ; irm.FCMP_ONEToFCMP_OEQ; irm.FCMP_UNEToFCMP_UEQ].

Definition NotEqualToEqual : TrivialCXXMutator :=
  {| lowLevelMutators := getNotEqualToEqual; kind := MutatorKind.CXX_NotEqualToEqual;
     ID := "cxx_ne_to_eq"; description := "Replaces != with ==";
     replacement := "=="; diagnostics := "Replaced != with ==" |}.

Definition getGreaterThanToLessOrEqual : list irm.IRMutation :=
  [irm.ICMP_SGTToICMP_SLE; irm.ICMP_UGTToICMP_ULE; irm.FCMP_OGTToFCMP_OLE; irm.FCMP_UGTToFCMP_ULE].

Definition GreaterThanToLessOrEqual : TrivialCXXMutator :=
  {| lowLevelMutators := getGreaterThanToLessOrEqual; kind := MutatorKind.CXX_GreaterThanToLessOrEqual;
     ID := "cxx_gt_to_le"; description := "Replaces > with <=";
     replacement := "<="; diagnostics := "Replaced > with <=" |}.

Definition getGreaterOrEqualToLessThan : list irm.IRMutation :=
  [irm.ICMP_SGEToICMP_SLT; irm.ICMP_UGEToICMP_ULT; irm.FCMP_OGEToFCMP_OLT; irm.FCMP_UGEToFCMP_ULT].

Definition GreaterOrEqualToLessThan : TrivialCXXMutator :=
  {| lowLevelMutators := getGreaterOrEqualToLessThan; kind := MutatorKind.CXX_GreaterOrEqualToLessThan;
     ID := "cxx_ge_to_lt"; description := "Replaces >= with <";
     replacement := "<"; diagnostics := "Replaced >= with <" |}.

Definition getLessThanToGreaterOrEqual : list irm.IRMutation :=
  [irm.ICMP_SLTToICMP_SGE; irm.ICMP_ULTToICMP_UGE; irm.FCMP_OLTToFCMP_OGE; irm.FCMP_ULTToFCMP_UGE].

Definition LessThanToGreaterOrEqual : TrivialCXXMutator :=
  {| lowLevelMutators := getLessThanToGreaterOrEqual; kind := MutatorKind.CXX_LessThanToGreaterOrEqual;
     ID := "cxx_lt_to_ge"; description := "Replaces < with >=";
     replacement := ">="; diagnostics := "Replaced < with >=" |}.

Definition getLessOrEqualToGreaterThan : list irm.IRMutation :=
  [irm.ICMP_SLEToICMP_SGT; irm.ICMP_ULEToICMP_UGT; irm.FCMP_OLEToFCMP_OGT; irm.FCMP_ULEToFCMP_UGT].

Definition LessOrEqualToGreaterThan : TrivialCXXMutator :=
  {| lowLevelMutators := getLessOrEqualToGreaterThan; kind := MutatorKind.CXX_LessOrEqualToGreaterThan;
     ID := "cxx_le_to_gt"; description := "Replaces <= with >";
     replacement := ">"; diagnostics := "Replaced <= with >" |}.


(** *** BitwiseMutators.cpp *)
Definition getLLShiftToLRShift : list irm.IRMutation :=
  [irm.ShlToLShr].

Definition LShiftToRShift : TrivialCXXMutator :=
  {| lowLevelMutators := getLLShiftToLRShift; kind := MutatorKind.CXX_LShiftToRShift;
     ID := "cxx_lshift_to_rshift"; description := "Replaces << with >>";
     replacement := ">>"; diagnostics := "Replaced << with >>" |}.

Definition LShiftAssignToRShiftAssign : TrivialCXXMutator :=
  {| lowLevelMutators := getLLShiftToLRShift; kind := MutatorKind.CXX_LShiftAssignToRShiftAssign;
     ID := "cxx_lshift_assign_to_rshift_assign"; description := "Replaces <<= with >>=";
     replacement := ">>="; diagnostics := "Replaced <<= with >>=" |}.

Definition getRShiftToLShift : list irm.IRMutation :=
  [irm.LShrToShl; irm.AShrToShl].

Definition RShiftToLShift : TrivialCXXMutator :=
  {| lowLevelMutators := getRShiftToLShift; kind := MutatorKind.CXX_RShiftToLShift;
     ID := "cxx_rshift_to_lshift"; description := "Replaces << with >>";
     replacement := ">>"; diagnostics := "Replaced >> with <<" |}.

Definition RShiftAssignToLShiftAssign : TrivialCXXMutator :=
  {| lowLevelMutators := getRShiftToLShift; kind := MutatorKind.CXX_RShiftAssignToLShiftAssign;
     ID := "cxx_rshift_assign_to_lshift_assign"; description := "Replaces >>= with <<=";
     replacement := "<<="; diagnostics := "Replaced >>= with <<=" |}.

Definition getOrToAnd : list irm.IRMutation :=
  [irm.OrToAnd].

Definition BitwiseOrToAnd : TrivialCXXMutator :=
  {| lowLevelMutators := getOrToAnd; kind := MutatorKind.CXX_Bitwise_OrToAnd;
     ID := "cxx_or_to_and"; description := "Replaces | with &";
     replacement := "&"; diagnostics := "Replaced | with &" |}.

Definition OrAssignToAndAssign : TrivialCXXMutator :=
  {| lowLevelMutators := getOrToAnd; kind := MutatorKind.CXX_Bitwise_OrAssignToAndAssign;
     ID := "cxx_or_assign_to_and_assign"; description := "Replaces |= with &=";
     replacement := "&="; diagnostics := "Replaced |= with &=" |}.

Definition getAndToOr : list irm.IRMutation :=
  [irm.AndToOr].

Definition BitwiseAndToOr : TrivialCXXMutator :=
  {| lowLevelMutators := getAndToOr; kind := MutatorKind.CXX_Bitwise_AndToOr;
     ID := "cxx_and_to_or"; description := "Replaces & with |";
     replacement := "|"; diagnostics := "Replaced & with |" |}.

Definition AndAssignToOrAssign : TrivialCXXMutator :=
  {| lowLevelMutators := getAndToOr; kind := MutatorKind.CXX_Bitwise_AndAssignToOrAssign;
     ID := "cxx_and_assign_to_or_assign"; description := "Replaces &= with |=";
     replacement := "|="; diagnostics := "Replaced &= with |=" |}.

Definition getXorToOr : list irm.IRMutation :=
  [irm.XorToOr].

Definition XorToOr : TrivialCXXMutator :=
  {| lowLevelMutators := getXorToOr; kind := MutatorKind.CXX_Bitwise_XorToOr;
     ID := "cxx_xor_to_or"; description := "Replaces ^ with |";
     replacement := "|"; diagnostics := "Replaced ^ with |" |}.

Definition XorAssignToOrAssign : TrivialCXXMutator :=
  {| lowLevelMutators := getXorToOr; kind := MutatorKind.CXX_Bitwise_XorAssignToOrAssign;
     ID := "cxx_xor_assign_to_or_assign"; description := "Replaces ^= with |=";
     replacement := "|="; diagnostics := "Replaced ^= with |=" |}.


(** *** NumberMutators.cpp *)
Definition getNumberMutators : list irm.IRMutation :=
  [irm.StoreIntReplacement 42%Z; irm.StoreDoubleReplacement 42%Z; irm.StoreFloatReplacement 42%Z].

Definition NumberAssignConst : TrivialCXXMutator :=
  {| lowLevelMutators := getNumberMutators; kind := MutatorKind.CXX_AssignConst;
     ID := "cxx_assign_const"; description := "Replaces 'a = b' with 'a = 42'";
     replacement := "42"; diagnostics := "Replaced 'a = b' with 'a = 42'" |}.

Definition NumberInitConst : TrivialCXXMutator :=
  {| lowLevelMutators := getNumberMutators; kind := MutatorKind.CXX_InitConst;
     ID := "cxx_init_const"; description := "Replaces 'T a = b' with 'T a = 42'";
     replacement := "42"; diagnostics := "Replaced 'T a = b' with 'T a = 42'" |}.

(** The subclasses of [TrivialCXXMutator], in the order of their files. *)
Definition trivial_mutators : list TrivialCXXMutator := [
  AddToSub; AddAssignToSubAssign; PostIncToPostDec; PreIncToPreDec; SubToAdd;
  SubAssignToAddAssign; PostDecToPostInc; PreDecToPreInc; MulToDiv;
  MulAssignToDivAssign; DivToMul; DivAssignToMulAssign; RemToDiv;
  RemAssignToDivAssign; BitwiseNotToNoop;
  LessThanToLessOrEqual; LessOrEqualToLessThan; GreaterThanToGreaterOrEqual;
  GreaterOrEqualToGreaterThan; EqualToNotEqual; NotEqualToEqual;
  GreaterThanToLessOrEqual; GreaterOrEqualToLessThan; LessThanToGreaterOrEqual;
  LessOrEqualToGreaterThan;
  LShiftToRShift; LShiftAssignToRShiftAssign; RShiftToLShift;
  RShiftAssignToLShiftAssign; BitwiseOrToAnd; OrAssignToAndAssign; BitwiseAndToOr;
  AndAssignToOrAssign; XorToOr; XorAssignToOrAssign;
  NumberAssignConst; NumberInitConst
].
End cxx.

(** ** The classes with code of their own *)
Definition NegateConditionMutator_ID : string := "negate_mutator".
Definition NegateConditionMutator_description : string :=
  "Negates conditionals !x to x and x to !x".
Definition NegateConditionMutator_lowLevelMutators : list irm.IRMutation := [
  irm.ICMP_EQToICMP_NE; irm.FCMP_OEQToFCMP_ONE; irm.FCMP_UEQToFCMP_UNE;
  irm.ICMP_NEToICMP_EQ; irm.FCMP_ONEToFCMP_OEQ; irm.FCMP_UNEToFCMP_UEQ
].

Definition RemoveVoidFunctionMutator_ID : string := "remove_void_function_mutator".
Definition RemoveVoidFunctionMutator_description : string :=
  "Removes calls to a function returning void".
Definition RemoveVoidFunctionMutator_lowLevelMutators : list irm.IRMutation :=
  [irm.RemoveVoidFunctionCall; irm.RemoveVoidIntrinsicsCall].

Definition ReplaceCallMutator_ID : string := "replace_call_mutator".
Definition ReplaceCallMutator_description : string := "Replaces call to a function with 42".
Definition ReplaceCallMutator_lowLevelMutators : list irm.IRMutation :=
  [irm.IntCallReplacement 42; irm.FloatCallReplacement 42; irm.DoubleCallReplacement 42].

Definition ScalarValueMutator_ID : string := "scalar_value_mutator".
Definition ScalarValueMutator_description : string :=
  "Replaces zeros with 42, and non-zeros with 0".
Definition ScalarValueMutator_lowLevelMutators : list irm.IRMutation :=
  concat (map (fun i => [irm.ConstIntReplacement 42 i; irm.ConstFloatReplacement 42 i]) (seq 0 5)).

Definition UnaryMinusToNoop_ID : string := "cxx_minus_to_noop".
Definition UnaryMinusToNoop_description : string := "Replaces -x with x".
Definition UnaryMinusToNoop_lowLevelMutators : list irm.IRMutation :=
  [irm.SwapSubOperands; irm.SwapFSubOperands].

Definition LogicalAndToOr_ID : string := "cxx_logical_and_to_or".
Definition LogicalAndToOr_description : string := "Replaces && with ||".
Definition LogicalOrToAnd_ID : string := "cxx_logical_or_to_and".
Definition LogicalOrToAnd_description : string := "Replaces || with &&".

(** ** [Mutator] *)
Inductive Mutator :=
  | Trivial (m : TrivialCXXMutator)
  | UnaryMinusToNoop
  | NegateConditionMutator
  | RemoveVoidFunctionMutator
  | ReplaceCallMutator
  | ScalarValueMutator
  | LogicalAndToOr
  | LogicalOrToAnd.

#[global] Instance Mutator_eq_dec : EqDecision Mutator.
Proof. solve_decision. Defined.

Definition getUniqueIdentifier (m : Mutator) : string :=
  match m with
  | Trivial m => ID m
  | UnaryMinusToNoop => UnaryMinusToNoop_ID
  | NegateConditionMutator => NegateConditionMutator_ID
  | RemoveVoidFunctionMutator => RemoveVoidFunctionMutator_ID
  | ReplaceCallMutator => ReplaceCallMutator_ID
  | ScalarValueMutator => ScalarValueMutator_ID
  | LogicalAndToOr => LogicalAndToOr_ID
  | LogicalOrToAnd => LogicalOrToAnd_ID
  end.

Definition getDescription (m : Mutator) : string :=
  match m with
  | Trivial m => description m
  | UnaryMinusToNoop => UnaryMinusToNoop_description
  | NegateConditionMutator => NegateConditionMutator_description
  | RemoveVoidFunctionMutator => RemoveVoidFunctionMutator_description
  | ReplaceCallMutator => ReplaceCallMutator_description
  | ScalarValueMutator => ScalarValueMutator_description
  | LogicalAndToOr => LogicalAndToOr_description
  | LogicalOrToAnd => LogicalOrToAnd_description
  end.

Definition mutatorKind (m : Mutator) : MutatorKind :=
  match m with
  | Trivial m => kind m
  | UnaryMinusToNoop => CXX_UnaryMinusToNoop
  | NegateConditionMutator => MutatorKind.NegateMutator
  | RemoveVoidFunctionMutator => MutatorKind.RemoveVoidFunctionMutator
  | ReplaceCallMutator => MutatorKind.ReplaceCallMutator
  | ScalarValueMutator => MutatorKind.ScalarValueMutator
  | LogicalAndToOr => CXX_Logical_AndToOr
  | LogicalOrToAnd => CXX_Logical_OrToAnd
  end.

(** Every class mull ships. *)
Definition shipped_mutators : list Mutator :=
  map Trivial cxx.trivial_mutators ++
  [UnaryMinusToNoop; NegateConditionMutator; RemoveVoidFunctionMutator; ReplaceCallMutator;
   ScalarValueMutator; LogicalAndToOr; LogicalOrToAnd].

(** The classes cover the enumeration: one mutator per kind. *)
Lemma mutatorKind_shipped k : exists m, m ∈ shipped_mutators /\ mutatorKind m = k.
Proof.
  assert (H : existsb (fun m => bool_decide (mutatorKind m = k)) shipped_mutators = true)
    by (destruct k; vm_compute; reflexivity).
  apply existsb_elem in H as (m & ? & ?%bool_decide_eq_true). eauto.
Qed.

(** ** The texts

    A diagnostics text reads "Replaced A with B", a description "Replaces A
    with B", and the replacement is what is printed in place of the mutated
    code: it must occur in B. *)
Definition after (sep s : string) : string :=
  match String.index 0 sep s with
  | Some n => String.substring (n + String.length sep) (String.length s) s
  | None => s
  end.

Definition texts_agree (m : TrivialCXXMutator) : bool :=
  String.eqb (after "Replaces " (description m)) (after "Replaced " (diagnostics m)) &&
  contains (replacement m) (after " with " (diagnostics m)).

(** Each of the 37 data-driven mutators describes, diagnoses and prints
    the same replacement, except the mutator of the plain right shift, whose
    description and printed replacement are those of the opposite mutator. *)
Theorem trivial_texts_agree m :
  m ∈ cxx.trivial_mutators -> texts_agree m = negb (bool_decide (m = cxx.RShiftToLShift)).
Proof.
  intros Hm.
  assert (H : forallb (fun m => eqb (texts_agree m) (negb (bool_decide (m = cxx.RShiftToLShift))))
                cxx.trivial_mutators = true) by (vm_compute; reflexivity).
  rewrite forallb_elem in H. by apply eqb_prop, H.
Qed.

Lemma trivial_texts_agree_witness : texts_agree cxx.RShiftToLShift = false.
Proof.
  apply (trivial_texts_agree cxx.RShiftToLShift).
  apply (bool_decide_unpack _). vm_compute. exact I.
Defined.
