(* ===== verification/Samples.v ===== *)
(** * Small concrete inputs

    Modules, functions and parameters the witnesses of the other files
    evaluate the definitions on.  Nothing here models the program. *)

From stdpp Require Import base list strings.
From Stdlib Require Import ZArith Ascii.
From S2P Require Import Prelude StringFacts IR SourceLocation Irm.

(** POSIX paths. *)
Fixpoint last_component (cur s : string) : string :=
  match s with
  | EmptyString => cur
  | String c s' =>
      if Ascii.eqb c "/" then last_component "" s' else last_component (cur +:+ String c "") s'
  end.

#[global] Instance posix_paths : LLVMPath := {|
  is_absolute := String.prefix "/";
  get_separator := "/";
  path_filename := last_component "";
  remove_dots := fun s => s;
  path_stem := fun s =>
    match String.index 0 "." (last_component "" s) with
    | Some n => String.substring 0 n (last_component "" s)
    | None => last_component "" s
    end
|}.

(** A library of low-level mutations that looks at the name of the
    instruction only, and marks what it mutated. *)
Definition sample_can_mutate (ir : irm.IRMutation) (i : Instruction) : bool :=
  match ir, inst_op i with
  | irm.AddToSub, OtherInst "add" _ => true
  | irm.ICMP_EQToICMP_NE, OtherInst "icmp eq" _ => true
  | irm.RemoveVoidFunctionCall, Call (Some _) _ => true
  | irm.SwapSubOperands, OtherInst "sub" (_ :: _) => true
  | irm.ConstIntReplacement _ 0, OtherInst "add" (ConstantInt _ :: _) => true
  | irm.ConstIntReplacement _ 1, OtherInst "add" (_ :: ConstantInt _ :: _) => true
  | _, _ => false
  end.

Definition mark_mutated (ir : irm.IRMutation) (id : InstId) (i : Instruction) : Instruction :=
  if Nat.eqb (inst_id i) id
  then mkInstruction (inst_id i) (OtherInst "mutated" []) (inst_debug i) else i.

#[global] Instance sample_irm : LibIrm := {|
  canMutate := sample_can_mutate;
  mutate := fun ir f id =>
    mkFunction (fn_id f) (fn_name f)
      (map (fun bb => mkBasicBlock (bb_id bb) (map (mark_mutated ir id) (bb_insts bb))) (fn_blocks f))
      (fn_subprogram f);
  _getFrom := fun _ => CmpInst.ICMP_EQ;
  _getTo := fun _ => CmpInst.ICMP_NE
|}.

Definition at_line (l c : Z) : option DebugLoc :=
  Some (mkDebugLoc "/home/dev" "sum.cpp" l c (Some ("/home/dev", "sum.cpp"))).

(** [int sum(int a) { log(); return 1 + 2 + a; }] *)
Definition sample_add : Instruction :=
  mkInstruction 1 (OtherInst "add" [ConstantInt 1; ConstantInt 2]) (at_line 3 10).
Definition sample_call : Instruction := mkInstruction 0 (Call (Some "log") []) (at_line 2 3).
Definition sample_block : BasicBlock :=
  mkBasicBlock 0 [sample_call; sample_add; mkInstruction 2 Ret (at_line 3 3)].
Definition sample_function : Function :=
  mkFunction 7 "sum" [sample_block] (Some (mkSubprogram "/home/dev" "sum.cpp" 1 None)).
Definition sample_module : Module :=
  mkModule "sum.bc" "sum.cpp" [mkFunction 5 "log" [] None; sample_function].

Lemma sample_module_wf : mod_wf sample_module.
Proof.
  split; [apply (bool_decide_unpack _); exact I|].
  repeat constructor; apply (bool_decide_unpack _); exact I.
Defined.
