(* ===== verification/MutationPoint.v ===== *)
(** * Mutation points (include/mull/MutationPoint.h, lib/MutationPoint.cpp)

    [MutationPointAddress] finds an instruction by the positions of its
    function, block and itself, so that the same place can be found in a clone;
    [MutationPoint] is a mutant: where, by which mutator, with what names. *)

From stdpp Require Import base list strings pretty.
From Stdlib Require Import ZArith Lia Bool Ascii.
From S2P Require Import Prelude StringFacts MutatorKind IR SourceLocation Irm Mutator Samples.

(** ** MutationPointAddress *)
Record MutationPointAddress := mkAddress {
  functionIndex : Z;
  basicBlockIndex : Z;
  instructionIndex : Z;
  identifier : string
}.

(** The constructor: [int] parameters, so a [size_t] argument is converted. *)
Definition newAddress (FnIndex BBIndex IIndex : Z) : MutationPointAddress :=
  let fn := to_int FnIndex in
  let bb := to_int BBIndex in
  let i := to_int IIndex in
  mkAddress fn bb i (to_string fn +:+ "_" +:+ to_string bb +:+ "_" +:+ to_string i).

(** [*std::next(container.begin(), index)]: undefined outside the container. *)
Definition std_next {A} (l : list A) (index : Z) : outcome A :=
  if (index <? 0)%Z then Abort "std::next before the beginning"
  else of_option "std::next past the end" (l !! Z.to_nat index).

Definition findInstruction_function (a : MutationPointAddress) (function : Function) : outcome Instruction :=
  bb ← std_next (fn_blocks function) (basicBlockIndex a);
  std_next (bb_insts bb) (instructionIndex a).

Definition findInstruction_module (a : MutationPointAddress) (module : Module) : outcome Instruction :=
  function ← std_next (mod_functions module) (functionIndex a);
  findInstruction_function a function.

(** The template [getIndex]: the first position holding that very object, the
    size when there is none. *)
Fixpoint getIndex {A} (same : A -> bool) (container : list A) : nat :=
  match container with
  | [] => 0
  | x :: rest => if same x then 0 else S (getIndex same rest)
  end.

(** The module and the function are those the instruction lives in. *)
Definition addressFromInstruction (module : Module) (function : Function) (instruction : Instruction)
    : outcome MutationPointAddress :=
  parent ← of_option "instruction without a parent" (getParent function instruction);
  mret (newAddress
    (Z.of_nat (getIndex (fun f => Nat.eqb (fn_id f) (fn_id function)) (mod_functions module)))
    (Z.of_nat (getIndex (fun b => Nat.eqb (bb_id b) (bb_id parent)) (fn_blocks function)))
    (Z.of_nat (getIndex (fun i => Nat.eqb (inst_id i) (inst_id instruction)) (bb_insts parent)))).

(** ** MutationPoint *)

(** A pointer to a [Bitcode], with the field that never changes. *)
Record BitcodePtr := mkBitcodePtr {
  bitcode_id : nat;
  bitcode_uniqueIdentifier : string
}.

Abbreviation TestId := nat.

Record MutationPoint := mkMutationPoint {
  mutator : Mutator;
  irMutator : option irm.IRMutation;
  address : MutationPointAddress;
  bitcode : BitcodePtr;
  originalFunction : FnId;
  (** [originalFunction->getName()]: nothing renames an original function *)
  originalFunction_name : string;
  mutatedFunction : option FnId;
  uniqueIdentifier : string;
  point_diagnostics : string;
  point_replacement : string;
  sourceLocation : SourceLocation;
  reachableTests : list (TestId * Z)
}.

Definition newMutationPoint `{LLVMPath} (mutator : Mutator) (irMutator : option irm.IRMutation)
    (module : Module) (function : Function) (instruction : Instruction)
    (replacement : string) (m : BitcodePtr) (diagnostics : string) : outcome MutationPoint :=
  address ← addressFromInstruction module function instruction;
  mret {|
    mutator := mutator;
    irMutator := irMutator;
    address := address;
    bitcode := m;
    originalFunction := fn_id function;
    originalFunction_name := fn_name function;
    mutatedFunction := None;
    uniqueIdentifier := bitcode_uniqueIdentifier m +:+ "_" +:+ identifier address +:+ "_" +:+
                        getUniqueIdentifier mutator;
    point_diagnostics := diagnostics;
    point_replacement := replacement;
    sourceLocation := locationFromInstruction instruction;
    reachableTests := []
  |}.

Definition addReachableTest (p : MutationPoint) (test : TestId) (distance : Z) : MutationPoint :=
  {| mutator := mutator p; irMutator := irMutator p; address := address p; bitcode := bitcode p;
     originalFunction := originalFunction p; originalFunction_name := originalFunction_name p;
     mutatedFunction := mutatedFunction p; uniqueIdentifier := uniqueIdentifier p;
     point_diagnostics := point_diagnostics p; point_replacement := point_replacement p;
     sourceLocation := sourceLocation p;
     reachableTests := reachableTests p ++ [(test, distance)] |}.

Definition getTrampolineName (p : MutationPoint) : string :=
  originalFunction_name p +:+ "_" +:+ bitcode_uniqueIdentifier (bitcode p) +:+ "_trampoline".

Definition getMutatedFunctionName (p : MutationPoint) : string := uniqueIdentifier p.

Definition getOriginalFunctionName (p : MutationPoint) : string :=
  originalFunction_name p +:+ "_" +:+ bitcode_uniqueIdentifier (bitcode p) +:+ "_original".

(** The point remembers the clone, and the clone takes the point's name. *)
Definition setMutatedFunction (p : MutationPoint) (function : Function) : MutationPoint * Function :=
  ({| mutator := mutator p; irMutator := irMutator p; address := address p; bitcode := bitcode p;
      originalFunction := originalFunction p; originalFunction_name := originalFunction_name p;
      mutatedFunction := Some (fn_id function); uniqueIdentifier := uniqueIdentifier p;
      point_diagnostics := point_diagnostics p; point_replacement := point_replacement p;
      sourceLocation := sourceLocation p; reachableTests := reachableTests p |},
   {| fn_id := fn_id function; fn_name := getMutatedFunctionName p;
      fn_blocks := fn_blocks function; fn_subprogram := fn_subprogram function |}).

(** Once the point has a clone the original was renamed aside, body and all. *)
Definition getOriginalValue (module : Module) (p : MutationPoint) : outcome Instruction :=
  function ← of_option "The original function should be present"
    match mutatedFunction p with
    | None => function_at module (originalFunction p)
    | Some _ => getFunction module (getOriginalFunctionName p)
    end;
  findInstruction_function (address p) function.

Definition dump (p : MutationPoint) : string :=
  "Mutation Point: " +:+ getUniqueIdentifier (mutator p) +:+ " " +:+
  filePath (sourceLocation p) +:+ ":" +:+ to_string (line (sourceLocation p)) +:+ ":" +:+
  to_string (column (sourceLocation p)).

(** ** Lemmas *)

Lemma getIndex_lookup {A} (same : A -> bool) l x :
  x ∈ l -> same x = true -> (forall y, y ∈ l -> same y = true -> y = x) ->
  getIndex same l < length l /\ l !! getIndex same l = Some x.
Proof.
  induction l as [|y l IH]; intros Hin Hx Huniq; [by apply not_elem_of_nil in Hin|]. simpl.
  destruct (same y) eqn:E.
  - split; [lia|]. by rewrite (Huniq y (list_elem_of_here _ _) E).
  - apply elem_of_cons in Hin as [->|Hin]; [congruence|].
    destruct IH as [Hlt Hl]; [done|done| |].
    + intros z Hz. apply Huniq. by right.
    + split; [lia|done].
Qed.

Lemma std_next_nat {A} (l : list A) n x :
  l !! n = Some x -> (Z.of_nat n <= int_max)%Z -> std_next l (to_int (Z.of_nat n)) = Ok x.
Proof.
  intros Hl Hn. rewrite to_int_id.
  - unfold std_next. destruct (Z.ltb_spec (Z.of_nat n) 0); [lia|]. by rewrite Nat2Z.id, Hl.
  - apply in_int_spec. unfold int_min, int_max in *. lia.
Qed.

(** The positions fit an [int]. *)
Definition sizes_fit (m : Module) : Prop :=
  (Z.of_nat (length (mod_functions m)) <= int_max)%Z /\
  Forall (fun f => (Z.of_nat (length (fn_blocks f)) <= int_max)%Z /\
                   Forall (fun bb => (Z.of_nat (length (bb_insts bb)) <= int_max)%Z) (fn_blocks f))
    (mod_functions m).

(** In a list of objects with distinct identities, [getIndex] finds each. *)
Lemma getIndex_id {A} (key : A -> nat) l x :
  NoDup (map key l) -> x ∈ l ->
  l !! getIndex (fun y => Nat.eqb (key y) (key x)) l = Some x /\
  getIndex (fun y => Nat.eqb (key y) (key x)) l < length l.
Proof.
  intros Hnd Hx.
  destruct (getIndex_lookup (fun y => Nat.eqb (key y) (key x)) l x) as [? ?]; auto.
  - apply Nat.eqb_refl.
  - intros y Hy Heq%Nat.eqb_eq. revert Hnd Hx Hy. clear -Heq.
    induction l as [|z l IH]; simpl; intros Hnd Hx Hy; [by apply not_elem_of_nil in Hx|].
    apply NoDup_cons in Hnd as [Hz Hnd].
    apply elem_of_cons in Hx as [->|Hx], Hy as [->|Hy]; auto; exfalso; apply Hz.
    + rewrite <-Heq. by apply (list_elem_of_fmap_2 key).
    + rewrite Heq. by apply (list_elem_of_fmap_2 key).
Qed.

(** What the address of an instruction is, in terms of positions. *)
Lemma addressFromInstruction_positions m f i a :
  mod_wf m -> f ∈ mod_functions m -> i ∈ instructions f ->
  addressFromInstruction m f i = Ok a ->
  exists fi bi ii bb,
    a = newAddress (Z.of_nat fi) (Z.of_nat bi) (Z.of_nat ii) /\
    mod_functions m !! fi = Some f /\ fn_blocks f !! bi = Some bb /\ bb_insts bb !! ii = Some i.
Proof.
  intros [Hnd Hwf] Hf Hi Ha. unfold addressFromInstruction in Ha.
  apply bind_Ok in Ha as (bb & Hbb & [= <-]).
  destruct (getParent f i) as [bb'|] eqn:Hp; simplify_eq/=.
  apply getParent_Some in Hp as [Hin (j & Hj & Hid)].
  rewrite Forall_forall in Hwf. pose proof (Hwf f Hf) as Hfwf. destruct Hfwf as [Hblocks Hinsts].
  assert (j = i) as ->.
  { apply (inst_id_inj f); auto. apply elem_of_instructions. eauto. }
  destruct (getIndex_id fn_id (mod_functions m) f) as [Hfi _]; [done|done|].
  destruct (getIndex_id bb_id (fn_blocks f) bb) as [Hbi _]; [done|done|].
  assert (Hnd' : NoDup (map inst_id (bb_insts bb))).
  { revert Hinsts. unfold instructions. clear -Hin. induction (fn_blocks f) as [|b l IH]; [by apply not_elem_of_nil in Hin|].
    simpl. rewrite map_app, NoDup_app. intros (H1 & _ & H2).
    apply elem_of_cons in Hin as [->|Hin]; auto. }
  destruct (getIndex_id inst_id (bb_insts bb) i) as [Hii _]; [done|done|].
  do 4 eexists. split; [reflexivity|]. eauto.
Qed.

(** ** Names *)

Definition no_digits (s : string) : bool := str_all (fun c => negb (is_digit c)) s.

Lemma shipped_ids_no_digits m : m ∈ shipped_mutators -> no_digits (getUniqueIdentifier m) = true.
Proof.
  intros Hm.
  assert (H : forallb (fun m => no_digits (getUniqueIdentifier m)) shipped_mutators = true)
    by (vm_compute; reflexivity).
  rewrite forallb_elem in H. auto.
Qed.

Definition is_underscore : ascii -> bool := Ascii.eqb "_"%char.

(** Cutting a name at its last numeral. *)
Lemma cut_numeral_inj x1 z1 x2 z2 :
  x1 +:+ "_" +:+ to_string z1 = x2 +:+ "_" +:+ to_string z2 -> x1 = x2 /\ z1 = z2.
Proof.
  intros Heq. rewrite <-!string_app_assoc in Heq.
  apply (cut_last_inj is_underscore) in Heq as [H1 H2].
  - apply string_app_inj_r in H1 as ->. apply to_string_inj in H2. done.
  - by apply ends_with_app.
  - by apply ends_with_app.
  - eapply str_all_impl; [|apply (to_string_lacks_underscore z1)]. done.
  - eapply str_all_impl; [|apply (to_string_lacks_underscore z2)]. done.
Qed.

Lemma newAddress_in_int a b c :
  in_int a = true -> in_int b = true -> in_int c = true ->
  newAddress a b c = mkAddress a b c (to_string a +:+ "_" +:+ to_string b +:+ "_" +:+ to_string c).
Proof. intros. unfold newAddress. by rewrite !to_int_id. Qed.

Lemma identifier_ends a b c : ends_with is_digit (identifier (newAddress a b c)) = true.
Proof.
  cbn [newAddress identifier].
  apply ends_with_app, (ends_with_app _ "_"), ends_with_app, (ends_with_app _ "_"), to_string_ends.
Qed.

(** An address finds the instruction it was made from, in every function whose
    instructions sit at the same positions. *)
Lemma address_finds m f i a (r : Instruction -> Instruction) (clone : Function) :
  mod_wf m -> sizes_fit m -> f ∈ mod_functions m -> i ∈ instructions f ->
  map bb_insts (fn_blocks clone) = map (fun bb => map r (bb_insts bb)) (fn_blocks f) ->
  addressFromInstruction m f i = Ok a -> findInstruction_function a clone = Ok (r i).
Proof.
  intros Hwf [Hm Hfs] Hf Hi Hclone Ha.
  destruct (addressFromInstruction_positions m f i a Hwf Hf Hi Ha) as (fi & bi & ii & bb & -> & H1 & H2 & H3).
  rewrite Forall_forall in Hfs. destruct (Hfs f Hf) as [Hb Hbs]. rewrite Forall_forall in Hbs.
  pose proof (Hbs bb (list_elem_of_lookup_2 _ _ _ H2)) as His.
  apply lookup_lt_Some in H2 as L2, H3 as L3.
  assert (Hc : map bb_insts (fn_blocks clone) !! bi = Some (map r (bb_insts bb))).
  { rewrite Hclone. by rewrite list_lookup_fmap, H2. }
  rewrite list_lookup_fmap in Hc. destruct (fn_blocks clone !! bi) as [cb|] eqn:Ecb; [|done].
  injection Hc as Hc. unfold findInstruction_function; cbn [newAddress basicBlockIndex instructionIndex].
  rewrite (std_next_nat _ _ cb) by (done || lia). cbn.
  rewrite (std_next_nat _ _ (r i)); [done| |lia]. by rewrite Hc, list_lookup_fmap, H3.
Qed.

Lemma address_finds_self m f i a :
  mod_wf m -> sizes_fit m -> f ∈ mod_functions m -> i ∈ instructions f ->
  addressFromInstruction m f i = Ok a ->
  findInstruction_function a f = Ok i /\ findInstruction_module a m = Ok i.
Proof.
  intros Hwf Hs Hf Hi Ha.
  assert (Hfun : findInstruction_function a f = Ok i).
  { apply (address_finds m f i a id f); auto. apply map_ext. intros bb. symmetry. apply map_id. }
  split; [done|].
  destruct (addressFromInstruction_positions m f i a Hwf Hf Hi Ha) as (fi & bi & ii & bb & -> & H1 & _ & _).
  unfold findInstruction_module; cbn [newAddress functionIndex]. destruct Hs as [Hm _].
  apply lookup_lt_Some in H1 as L1. by rewrite (std_next_nat _ _ f) by (done || lia).
Qed.

Lemma addressFromInstruction_total m f i :
  i ∈ instructions f -> exists a, addressFromInstruction m f i = Ok a.
Proof.
  intros Hi. destruct (getParent_is_Some f i Hi) as [bb Hp].
  unfold addressFromInstruction. rewrite Hp. cbn. eauto.
Qed.

(** ** Properties *)

(** C24: the address of an instruction leads back to it, both
    through the module and through its function, and through any clone of the
    function whose instructions sit at the same positions it leads to the
    clone's copy.  This is what lets a mutator be applied to a clone. *)
Theorem address_roundtrip m f i (r : Instruction -> Instruction) (clone : Function) :
  mod_wf m -> sizes_fit m -> f ∈ mod_functions m -> i ∈ instructions f ->
  map bb_insts (fn_blocks clone) = map (fun bb => map r (bb_insts bb)) (fn_blocks f) ->
  exists a, addressFromInstruction m f i = Ok a /\
    findInstruction_module a m = Ok i /\
    findInstruction_function a f = Ok i /\
    findInstruction_function a clone = Ok (r i).
Proof.
  intros Hwf Hs Hf Hi Hclone.
  destruct (addressFromInstruction_total m f i Hi) as [a Ha]. exists a. split; [done|].
  destruct (address_finds_self m f i a Hwf Hs Hf Hi Ha). split; [done|]. split; [done|].
  by apply (address_finds m f i a r clone).
Qed.

Lemma sample_sizes_fit : sizes_fit sample_module.
Proof.
  unfold sizes_fit, int_max. split; [cbn; lia|]. repeat constructor; cbn; lia.
Defined.

Lemma address_roundtrip_witness :
  exists a, addressFromInstruction sample_module sample_function sample_add = Ok a /\
    findInstruction_module a sample_module = Ok sample_add /\
    findInstruction_function a sample_function = Ok sample_add /\
    findInstruction_function a sample_function = Ok (id sample_add).
Proof.
  apply (address_roundtrip sample_module sample_function sample_add id sample_function).
  - exact sample_module_wf.
  - exact sample_sizes_fit.
  - right. left.
  - cbn. right. left.
  - reflexivity.
Defined.

Lemma shipped_ids_NoDup : NoDup (map getUniqueIdentifier shipped_mutators).
Proof. apply (bool_decide_unpack _). by vm_compute. Qed.

Lemma shipped_id_inj m1 m2 :
  m1 ∈ shipped_mutators -> m2 ∈ shipped_mutators ->
  getUniqueIdentifier m1 = getUniqueIdentifier m2 -> m1 = m2.
Proof.
  intros H1 H2 Heq. pose proof shipped_ids_NoDup as Hnd.
  revert H1 H2 Hnd. generalize shipped_mutators as l.
  induction l as [|m l IH]; intros H1 H2 Hnd; [by apply not_elem_of_nil in H1|].
  apply NoDup_cons in Hnd as [Hm Hnd].
  apply elem_of_cons in H1 as [->|H1], H2 as [->|H2]; auto; exfalso; apply Hm.
  - rewrite Heq. by apply (list_elem_of_fmap_2 getUniqueIdentifier).
  - rewrite <-Heq. by apply (list_elem_of_fmap_2 getUniqueIdentifier).
Qed.

(** What precedes the mutator's name splits at the last three numerals. *)
Lemma unique_front u1 u2 x1 y1 z1 x2 y2 z2 :
  u1 +:+ "_" +:+ identifier (newAddress x1 y1 z1) = u2 +:+ "_" +:+ identifier (newAddress x2 y2 z2) ->
  u1 = u2 /\ newAddress x1 y1 z1 = newAddress x2 y2 z2.
Proof.
  assert (Hshape : forall u x y z, u +:+ "_" +:+ identifier (newAddress x y z) =
     ((u +:+ "_" +:+ to_string (to_int x)) +:+ "_" +:+ to_string (to_int y)) +:+ "_" +:+ to_string (to_int z)).
  { intros. cbn [newAddress identifier]. by rewrite !string_app_assoc. }
  rewrite !Hshape. intros Heq.
  apply cut_numeral_inj in Heq as [Heq Hz]. apply cut_numeral_inj in Heq as [Heq Hy].
  apply cut_numeral_inj in Heq as [-> Hx]. split; [done|]. unfold newAddress. by rewrite Hx, Hy, Hz.
Qed.

Lemma newMutationPoint_fields `{LLVMPath} mu ir m f i r b d p :
  newMutationPoint mu ir m f i r b d = Ok p ->
  exists a, addressFromInstruction m f i = Ok a /\ address p = a /\ bitcode p = b /\
    mutator p = mu /\ irMutator p = ir /\ point_replacement p = r /\ point_diagnostics p = d /\
    originalFunction p = fn_id f /\ originalFunction_name p = fn_name f /\
    mutatedFunction p = None /\ sourceLocation p = locationFromInstruction i /\ reachableTests p = [] /\
    uniqueIdentifier p = bitcode_uniqueIdentifier b +:+ "_" +:+ identifier a +:+ "_" +:+ getUniqueIdentifier mu.
Proof. intros (a & Ha & [= <-])%bind_Ok. exists a. by repeat split. Qed.

Lemma addressFromInstruction_newAddress m f i a :
  addressFromInstruction m f i = Ok a -> exists x y z, a = newAddress x y z.
Proof. intros (bb & _ & [= <-])%bind_Ok. eauto. Qed.

(** The parts of a unique identifier. *)
Lemma unique_id_parts u1 u2 m1 f1 i1 a1 m2 f2 i2 a2 mu1 mu2 :
  mu1 ∈ shipped_mutators -> mu2 ∈ shipped_mutators ->
  addressFromInstruction m1 f1 i1 = Ok a1 -> addressFromInstruction m2 f2 i2 = Ok a2 ->
  u1 +:+ "_" +:+ identifier a1 +:+ "_" +:+ getUniqueIdentifier mu1 =
  u2 +:+ "_" +:+ identifier a2 +:+ "_" +:+ getUniqueIdentifier mu2 ->
  u1 = u2 /\ a1 = a2 /\ mu1 = mu2.
Proof.
  intros Hmu1 Hmu2 Ha1 Ha2 Heq.
  apply addressFromInstruction_newAddress in Ha1 as (x1 & y1 & z1 & ->), Ha2 as (x2 & y2 & z2 & ->).
  rewrite <-!(string_app_assoc _ _ ("_" +:+ getUniqueIdentifier _)) in Heq.
  apply (cut_last_inj is_digit) in Heq as [Hfront Hid].
  - apply string_app_inj_l in Hid. pose proof (shipped_id_inj _ _ Hmu1 Hmu2 Hid) as ->.
    apply unique_front in Hfront as [-> ->]. done.
  - apply ends_with_app, (ends_with_app _ "_"), identifier_ends.
  - apply ends_with_app, (ends_with_app _ "_"), identifier_ends.
  - by apply shipped_ids_no_digits in Hmu1.
  - by apply shipped_ids_no_digits in Hmu2.
Qed.

(** C25: the unique identifier of a mutation point tells the
    bitcode, the address and the mutator: two points built by any two of
    mull's mutators with the same identifier agree on all three.  (The
    identifier also names the mutated clone and the row of the report.) *)
Theorem uniqueIdentifier_inj `{LLVMPath} mu1 mu2 ir1 ir2 m1 m2 f1 f2 i1 i2 r1 r2 b1 b2 d1 d2 p1 p2 :
  mu1 ∈ shipped_mutators -> mu2 ∈ shipped_mutators ->
  newMutationPoint mu1 ir1 m1 f1 i1 r1 b1 d1 = Ok p1 ->
  newMutationPoint mu2 ir2 m2 f2 i2 r2 b2 d2 = Ok p2 ->
  uniqueIdentifier p1 = uniqueIdentifier p2 ->
  bitcode_uniqueIdentifier (bitcode p1) = bitcode_uniqueIdentifier (bitcode p2) /\
  address p1 = address p2 /\ mutator p1 = mutator p2.
Proof.
  intros Hmu1 Hmu2 Hp1 Hp2 Heq.
  apply newMutationPoint_fields in Hp1 as (a1 & Ha1 & -> & -> & -> & _ & _ & _ & _ & _ & _ & _ & _ & Hid1).
  apply newMutationPoint_fields in Hp2 as (a2 & Ha2 & -> & -> & -> & _ & _ & _ & _ & _ & _ & _ & _ & Hid2).
  rewrite Hid1, Hid2 in Heq. by eapply unique_id_parts.
Qed.

Definition sample_bitcode : BitcodePtr := mkBitcodePtr 0 "sum_d41d8".

Definition sample_point (mu : Mutator) : outcome MutationPoint :=
  newMutationPoint mu None sample_module sample_function sample_add "-" sample_bitcode "".

Lemma uniqueIdentifier_inj_witness :
  exists p, sample_point (Trivial cxx.AddToSub) = Ok p /\
    uniqueIdentifier p = "sum_d41d8_1_0_1_cxx_add_to_sub" /\ mutator p = mutator p.
Proof.
  eexists. split; [reflexivity|]. split; [reflexivity|].
  eapply (uniqueIdentifier_inj (Trivial cxx.AddToSub) (Trivial cxx.AddToSub) None None
    sample_module sample_module sample_function sample_function sample_add sample_add).
  - left.
  - left.
  - reflexivity.
  - reflexivity.
  - reflexivity.
Defined.
