(* ===== verification/Reachable.v ===== *)
(** * Functions under test (include/mull/ReachableFunction.h, lib/ReachableFunction.cpp)

    A test reaches a function at a distance; [mergeReachableFunctions] gathers
    the tests per function.  Also the interface of the three kinds of filter
    (include/mull/Filters/*Filter.h), which [selectInstructions] is written
    against. *)

From stdpp Require Import base list strings sets.
From Stdlib Require Import ZArith Lia Bool.
From S2P Require Import Prelude StdContainers IR MutationPoint.

(** ** Filters: what every filter promises its clients *)
Record InstructionFilter := mkInstructionFilter {
  ifilter_name : string;
  ifilter_shouldSkip : Instruction -> outcome bool
}.

Record FunctionFilter := mkFunctionFilter {
  ffilter_name : string;
  ffilter_shouldSkip : Function -> outcome bool
}.

Record MutationFilter := mkMutationFilter {
  mfilter_name : string;
  mfilter_shouldSkip : MutationPoint -> outcome bool
}.

(** ** ReachableFunction *)
Record ReachableFunction := mkReachable {
  rf_function : Function;
  rf_test : TestId;
  rf_distance : Z
}.

(** ** FunctionUnderTest *)
Record FunctionUnderTest := mkUnderTest {
  fut_function : Function;
  fut_reachableTests : list (TestId * Z);
  fut_selectedInstructions : list Instruction
}.

Definition fut_addReachableTest (f : FunctionUnderTest) (test : TestId) (distance : Z) : FunctionUnderTest :=
  mkUnderTest (fut_function f) (fut_reachableTests f ++ [(test, distance)]) (fut_selectedInstructions f).

Definition newFunctionUnderTest (function : Function) (test : TestId) (distance : Z) : FunctionUnderTest :=
  fut_addReachableTest (mkUnderTest function [] []) test distance.

(** The loop over the filters of one instruction: the first that skips ends it. *)
Fixpoint instruction_selected (filters : list InstructionFilter) (i : Instruction) : outcome bool :=
  match filters with
  | [] => mret true
  | filter :: rest =>
      skip ← ifilter_shouldSkip filter i;
      if skip : bool then mret false else instruction_selected rest i
  end.

Definition select_one (filters : list InstructionFilter) (f : FunctionUnderTest) (i : Instruction)
    : outcome FunctionUnderTest :=
  selected ← instruction_selected filters i;
  mret (if selected : bool
        then mkUnderTest (fut_function f) (fut_reachableTests f) (fut_selectedInstructions f ++ [i])
        else f).

Definition selectInstructions (filters : list InstructionFilter) (f : FunctionUnderTest)
    : outcome FunctionUnderTest :=
  fold_outcome (select_one filters) f (instructions (fut_function f)).

(** ** mergeReachableFunctions *)

(** The first loop: [functionsMap], keyed by the address of the function. *)
Definition merge_step (functionsMap : list (FnId * FunctionUnderTest)) (reachable : ReachableFunction)
    : list (FnId * FunctionUnderTest) :=
  let function := rf_function reachable in
  let test := rf_test reachable in
  let distance := rf_distance reachable in
  match omap_find (fn_id function) functionsMap with
  | Some merged => omap_assign (fn_id function) (fut_addReachableTest merged test distance) functionsMap
  | None => omap_insert (fn_id function) (newFunctionUnderTest function test distance) functionsMap
  end.

(** The second loop: every function once, in the order of its first mention. *)
Fixpoint merge_collect (functions : list ReachableFunction) (functionsMap : list (FnId * FunctionUnderTest))
    : list FunctionUnderTest :=
  match functions with
  | [] => []
  | reachable :: rest =>
      match functionsMap with
      | [] => []
      | _ =>
          let function := fn_id (rf_function reachable) in
          match omap_find function functionsMap with
          | Some functionUnderTest =>
              functionUnderTest :: merge_collect rest (omap_erase function functionsMap)
          | None => merge_collect rest functionsMap
          end
      end
  end.

Definition mergeReachableFunctions (functions : list ReachableFunction) : list FunctionUnderTest :=
  merge_collect functions (foldl merge_step [] functions).

(** ** Specification: grouping *)

(** The first mention of every function. *)
Definition rf_key (r : ReachableFunction) : FnId := fn_id (rf_function r).

Fixpoint first_mentions (l : list ReachableFunction) : list ReachableFunction :=
  match l with
  | [] => []
  | r :: rest => r :: List.filter (fun r' => negb (Nat.eqb (rf_key r') (rf_key r))) (first_mentions rest)
  end.

Definition tests_of (k : FnId) (l : list ReachableFunction) : list (TestId * Z) :=
  map (fun r => (rf_test r, rf_distance r)) (List.filter (fun r => Nat.eqb (rf_key r) k) l).

Definition group_by_function (l : list ReachableFunction) : list FunctionUnderTest :=
  map (fun r => mkUnderTest (rf_function r) (tests_of (rf_key r) l) []) (first_mentions l).

(** ** Proofs *)

(** What the map holds for a function after the first loop. *)
Definition merged_entry (k : FnId) (l : list ReachableFunction) : option FunctionUnderTest :=
  match find_first (fun r => Nat.eqb (rf_key r) k) l with
  | Some r => Some (mkUnderTest (rf_function r) (tests_of k l) [])
  | None => None
  end.

Lemma tests_of_snoc k l r :
  tests_of k (l ++ [r]) = tests_of k l ++ (if Nat.eqb (rf_key r) k then [(rf_test r, rf_distance r)] else []).
Proof.
  unfold tests_of. rewrite List.filter_app, map_app. simpl. by destruct (Nat.eqb (rf_key r) k).
Qed.

Lemma tests_of_unmentioned k l :
  find_first (fun r => Nat.eqb (rf_key r) k) l = None -> tests_of k l = [].
Proof.
  unfold tests_of. induction l as [|r l IH]; simpl; [done|].
  destruct (Nat.eqb (rf_key r) k); [done|auto].
Qed.

Lemma merge_step_find m r k :
  omap_find k (merge_step m r) =
  if Nat.eqb (rf_key r) k then
    Some (match omap_find k m with
          | Some f => fut_addReachableTest f (rf_test r) (rf_distance r)
          | None => newFunctionUnderTest (rf_function r) (rf_test r) (rf_distance r)
          end)
  else omap_find k m.
Proof.
  unfold merge_step. fold (rf_key r). unfold omap_insert.
  destruct (Nat.eqb_spec (rf_key r) k) as [<-|Hne].
  - destruct (omap_find (rf_key r) m); by rewrite omap_find_assign_eq.
  - destruct (omap_find (rf_key r) m); by rewrite omap_find_assign_ne.
Qed.

Lemma merge_step_wf m r : omap_wf m -> omap_wf (merge_step m r).
Proof. intros. unfold merge_step. case_match; auto with mull. Qed.

Lemma merge_map_spec l :
  omap_wf (foldl merge_step [] l) /\
  forall k, omap_find k (foldl merge_step [] l) = merged_entry k l.
Proof.
  induction l as [|r l IH] using rev_ind; [split; [apply omap_wf_nil|done]|].
  destruct IH as [Hwf Hfind]. rewrite foldl_snoc. split; [by apply merge_step_wf|].
  intros k. rewrite merge_step_find, Hfind. unfold merged_entry.
  rewrite find_first_app, tests_of_snoc. simpl.
  destruct (Nat.eqb_spec (rf_key r) k) as [Hk|Hne].
  - destruct (find_first _ l) as [r0|] eqn:E; [done|].
    by rewrite tests_of_unmentioned.
  - destruct (find_first _ l) as [r0|] eqn:E; [by rewrite app_nil_r|done].
Qed.

(** Looking the mentions up, after the mentions of a function are dropped. *)
Lemma omap_mentions_skip (m : list (FnId * FunctionUnderTest)) k xs :
  omap_find k m = None ->
  omap (fun r => omap_find (rf_key r) m) (List.filter (fun r' => negb (Nat.eqb (rf_key r') k)) xs) =
  omap (fun r => omap_find (rf_key r) m) xs.
Proof.
  intros Hk. induction xs as [|x xs IH]; [done|]. simpl.
  destruct (Nat.eqb_spec (rf_key x) k) as [Heq|Hne]; simpl; [rewrite Heq, Hk; exact IH|].
  destruct (omap_find (rf_key x) m); [f_equal|]; exact IH.
Qed.

Lemma omap_mentions_erase (m : list (FnId * FunctionUnderTest)) k xs :
  omap_wf m ->
  omap (fun r => omap_find (rf_key r) (omap_erase k m)) xs =
  omap (fun r => omap_find (rf_key r) m) (List.filter (fun r' => negb (Nat.eqb (rf_key r') k)) xs).
Proof.
  intros Hwf. induction xs as [|x xs IH]; [done|]. simpl.
  destruct (Nat.eqb_spec (rf_key x) k) as [Heq|Hne]; simpl.
  - rewrite Heq, omap_find_erase_eq by done. exact IH.
  - rewrite omap_find_erase_ne by auto. destruct (omap_find (rf_key x) m); [f_equal|]; exact IH.
Qed.

(** The second loop reads the map at the first mentions of the functions still
    in it. *)
Lemma merge_collect_spec l m :
  omap_wf m ->
  merge_collect l m =
  omap (fun r => omap_find (rf_key r) m) (first_mentions l).
Proof.
  revert m. induction l as [|r l IH]; intros m Hwf; [done|].
  cbn [merge_collect first_mentions]. fold (rf_key r). destruct m as [|e m'] eqn:Em.
  - clear. generalize (r :: List.filter (fun r' => negb (Nat.eqb (rf_key r') (rf_key r))) (first_mentions l)).
    intros xs. symmetry. induction xs as [|x xs IHx]; [done|exact IHx].
  - rewrite <-Em in *. cbn [omap list_omap]. destruct (omap_find (rf_key r) m) as [f|] eqn:Ef.
    + f_equal. rewrite IH by auto with mull. apply omap_mentions_erase. done.
    + rewrite IH by done. symmetry. apply omap_mentions_skip. done.
Qed.

Lemma merged_entry_first l r :
  r ∈ first_mentions l ->
  merged_entry (rf_key r) l = Some (mkUnderTest (rf_function r) (tests_of (rf_key r) l) []).
Proof.
  intros Hin. unfold merged_entry.
  enough (find_first (fun r' => Nat.eqb (rf_key r') (rf_key r)) l = Some r) as -> by done.
  induction l as [|x l IH]; simpl in *; [by apply not_elem_of_nil in Hin|].
  destruct (Nat.eqb_spec (rf_key x) (rf_key r)) as [Heq|Hne].
  - apply elem_of_cons in Hin as [->|Hin]; [done|].
    rewrite list_elem_of_In, filter_In in Hin. destruct Hin as [_ Hin].
    by rewrite Heq, Nat.eqb_refl in Hin.
  - apply elem_of_cons in Hin as [->|Hin]; [done|].
    apply IH. rewrite list_elem_of_In, filter_In in Hin. apply list_elem_of_In. tauto.
Qed.

Lemma first_mentions_subset l r : r ∈ first_mentions l -> r ∈ l.
Proof.
  revert r. induction l as [|x l IH]; intros r; [done|]. cbn [first_mentions]. intros [->|Hr]%elem_of_cons; [by left|].
  right. apply IH. rewrite list_elem_of_In, filter_In in Hr. apply list_elem_of_In. tauto.
Qed.

Lemma merge_groups l :
  mergeReachableFunctions l = group_by_function l.
Proof.
  unfold mergeReachableFunctions, group_by_function.
  destruct (merge_map_spec l) as [Hwf Hfind]. rewrite merge_collect_spec by done.
  assert (H : forall xs, (forall r, r ∈ xs -> r ∈ first_mentions l) ->
    omap (fun r => omap_find (rf_key r) (foldl merge_step [] l)) xs =
    map (fun r => mkUnderTest (rf_function r) (tests_of (rf_key r) l) []) xs).
  { induction xs as [|x xs IH]; intros Hxs; [done|]. cbn [omap list_omap map].
    rewrite Hfind, merged_entry_first by (apply Hxs; by left).
    f_equal. apply IH. intros r Hr. apply Hxs. by right. }
  by apply H.
Qed.

(** Merging groups the reachable functions by function:
    every function once, at its first mention, with all its tests and their
    distances in the order they were reached, and nothing selected yet. *)
Theorem mergeReachableFunctions_groups l :
  mergeReachableFunctions l = group_by_function l.
Proof. apply merge_groups. Qed.

Lemma select_one_Ok filters f i b :
  instruction_selected filters i = Ok b ->
  select_one filters f i =
  Ok (if b then mkUnderTest (fut_function f) (fut_reachableTests f) (fut_selectedInstructions f ++ [i])
      else f).
Proof. intros Hb. unfold select_one. by rewrite Hb. Qed.

Lemma fold_select filters p f l :
  (forall i, i ∈ l -> instruction_selected filters i = Ok (p i)) ->
  fold_outcome (select_one filters) f l =
  Ok (mkUnderTest (fut_function f) (fut_reachableTests f)
        (fut_selectedInstructions f ++ List.filter p l)).
Proof.
  revert f. induction l as [|i l IH]; intros f Hsel; simpl.
  - rewrite app_nil_r. by destruct f.
  - rewrite (select_one_Ok _ _ _ (p i)) by (apply Hsel; by left). simpl.
    rewrite IH by (intros; apply Hsel; by right).
    destruct (p i); simpl; by rewrite <-?app_assoc.
Qed.

(** Filters that answer select the instructions none of them skips, in order. *)
Lemma selectInstructions_spec filters (skips : InstructionFilter -> Instruction -> bool) f :
  (forall fl i, fl ∈ filters -> i ∈ instructions (fut_function f) ->
     ifilter_shouldSkip fl i = Ok (skips fl i)) ->
  selectInstructions filters f =
  Ok (mkUnderTest (fut_function f) (fut_reachableTests f)
       (fut_selectedInstructions f ++
        List.filter (fun i => negb (existsb (fun fl => skips fl i) filters)) (instructions (fut_function f)))).
Proof.
  intros Hans. apply (fold_select _ (fun i => negb (existsb (fun fl => skips fl i) filters))).
  intros i Hi. induction filters as [|fl filters IH]; [done|]. simpl.
  rewrite Hans by (done || by left). simpl. destruct (skips fl i); [done|]. simpl.
  apply IH. intros; apply Hans; [by right|done].
Qed.
