(* ===== verification/LogicalMutators.v ===== *)
(** * The mutators of [&&] and [||] (lib/Mutators/CXX/LogicalOrToAnd.cpp, LogicalAndToOr.cpp)

    A short-circuit operator is not an instruction but a shape of the control
    flow graph: two conditional branches that share a destination.  Each
    mutator scans the function for the second branch of the shape the first
    branch may belong to, and rewires the first branch.  The two classes are
    written out separately, as in the source, and proved separately over shared
    lemmas about the shapes. *)

From stdpp Require Import base list strings sets.
From Stdlib Require Import ZArith Lia Bool.
From S2P Require Import Prelude StringFacts MutatorKind IR SourceLocation Irm Mutator Samples MutationPoint.
From S2P Require Import Reachable.

Inductive OR_AND_MutationType :=
  | OR_AND_MutationType_None
  | OR_AND_MutationType_OR_to_AND_Pattern1
  | OR_AND_MutationType_OR_to_AND_Pattern2
  | OR_AND_MutationType_OR_to_AND_Pattern3.

Inductive AND_OR_MutationType :=
  | AND_OR_MutationType_None
  | AND_OR_MutationType_AND_to_OR_Pattern1
  | AND_OR_MutationType_AND_to_OR_Pattern2
  | AND_OR_MutationType_AND_to_OR_Pattern3.

#[global] Instance OR_AND_MutationType_eq_dec : EqDecision OR_AND_MutationType.
Proof. solve_decision. Defined.
#[global] Instance AND_OR_MutationType_eq_dec : EqDecision AND_OR_MutationType.
Proof. solve_decision. Defined.

(** ** Editing a function *)

(** [dyn_cast<BranchInst>] succeeds and [isConditional()]. *)
Definition isConditionalBranch (i : Instruction) : bool :=
  match inst_op i with CondBr _ _ _ => true | _ => false end.

Definition map_blocks (g : BasicBlock -> BasicBlock) (f : Function) : Function :=
  mkFunction (fn_id f) (fn_name f) (map g (fn_blocks f)) (fn_subprogram f).

(** [replacement->insertAfter(first); first->eraseFromParent()], the
    replacement being a new branch, which has no debug location. *)
Definition replaceBranch (f : Function) (first : InstId) (replacement : Instruction) : Function :=
  map_blocks (fun bb => mkBasicBlock (bb_id bb)
    (map (fun i => if Nat.eqb (inst_id i) first then replacement else i) (bb_insts bb))) f.

(** [BranchInst::Create(IfTrue, IfFalse, Cond)] *)
Definition createBranch (f : Function) (ifTrue ifFalse : BlockId) (cond : Value) : Instruction :=
  mkInstruction (fresh_inst f) (CondBr cond ifTrue ifFalse) None.

(** [PN->getBasicBlockIndex(from)], the operand there, and
    [PN->addIncoming(operand, to)]. *)
Definition phi_add (from to : BlockId) (incoming : list (Value * BlockId)) : list (Value * BlockId) :=
  match find_first (fun e => Nat.eqb (snd e) from) incoming with
  | Some e => incoming ++ [(fst e, to)]
  | None => incoming
  end.

(** The loop over the instructions of a block that stops at the first that is
    not a PHI node. *)
Fixpoint phis_add (from to : BlockId) (insts : list Instruction) : list Instruction :=
  match insts with
  | i :: rest =>
      match inst_op i with
      | PHI incoming =>
          mkInstruction (inst_id i) (PHI (phi_add from to incoming)) (inst_debug i)
            :: phis_add from to rest
      | _ => insts
      end
  | [] => []
  end.

Definition block_phis_add (from to : BlockId) (successor : BlockId) (f : Function) : Function :=
  map_blocks (fun bb => if Nat.eqb (bb_id bb) successor
                        then mkBasicBlock (bb_id bb) (phis_add from to (bb_insts bb)) else bb) f.

(** The loop over the successors of the second branch's block. *)
Definition update_successor_phis (from to target : BlockId) (succs : list BlockId) (f : Function) : Function :=
  foldl (fun f successor => if negb (Nat.eqb target successor) then f
                            else block_phis_add from to successor f) f succs.

(** Every instruction with the block that holds it, in the order of the
    nested loops. *)
Definition located (f : Function) : list (BasicBlock * Instruction) :=
  concat (map (fun bb => map (pair bb) (bb_insts bb)) (fn_blocks f)).

Definition same_value (v : option Value) (b : BlockId) : bool :=
  bool_decide (v = Some (BasicBlockRef b)).

(** The loops over the PHI nodes of the candidate's block: some node has an
    incoming block other than the branch's own, and the candidate's block is
    the one the branch jumps to. *)
Definition phi_matches (branchParent side : BlockId) (bb : BasicBlock) : bool :=
  existsb (fun i =>
    match inst_op i with
    | PHI incoming =>
        existsb (fun e => negb (Nat.eqb (snd e) branchParent) && Nat.eqb (bb_id bb) side) incoming
    | _ => false
    end) (bb_insts bb).

(** The first PHI node of a block. *)
Definition first_phi (bb : BasicBlock) : option Instruction :=
  find_first (fun i => match inst_op i with PHI _ => true | _ => false end) (bb_insts bb).

(** [phiNode->setOperand(0, !operand0)] for a constant operand. *)
Definition flip_constant (z : Z) : Value := if Z.eqb z 0 then ConstantInt 1 else ConstantInt 0.

Definition set_phi_operand0 (f : Function) (phi : InstId) (v : Value) : Function :=
  map_blocks (fun bb => mkBasicBlock (bb_id bb)
    (map (fun i => if Nat.eqb (inst_id i) phi then
                     match inst_op i with
                     | PHI ((_, b) :: rest) => mkInstruction (inst_id i) (PHI ((v, b) :: rest)) (inst_debug i)
                     | _ => i
                     end
                   else i) (bb_insts bb))) f.

(** ** LogicalOrToAnd *)

Fixpoint LogicalOrToAnd_scan (branchInst : InstId) (branchParent leftBB rightBB : BlockId) (passedBranchInst : bool)
    (l : list (BasicBlock * Instruction)) : OR_AND_MutationType * option Instruction :=
  match l with
  | [] => (OR_AND_MutationType_None, None)
  | (bb, candidate) :: rest =>
      if negb (isConditionalBranch candidate) then
        LogicalOrToAnd_scan branchInst branchParent leftBB rightBB passedBranchInst rest
      else if Nat.eqb (inst_id candidate) branchInst then
        LogicalOrToAnd_scan branchInst branchParent leftBB rightBB true rest
      else if negb passedBranchInst then
        LogicalOrToAnd_scan branchInst branchParent leftBB rightBB passedBranchInst rest
      else if same_value (getOperand candidate 2) leftBB then
        (OR_AND_MutationType_OR_to_AND_Pattern1, Some candidate)
      else if same_value (getOperand candidate 2) rightBB then
        (OR_AND_MutationType_OR_to_AND_Pattern2, Some candidate)
      else if phi_matches branchParent leftBB bb then
        (OR_AND_MutationType_OR_to_AND_Pattern3, Some candidate)
      else LogicalOrToAnd_scan branchInst branchParent leftBB rightBB passedBranchInst rest
  end.

Definition LogicalOrToAnd_findPossibleMutationInBranch (f : Function) (branchInst : Instruction)
    : OR_AND_MutationType * option Instruction :=
  match inst_op branchInst, getParent f branchInst with
  | CondBr _ leftBB rightBB, Some parent =>
      LogicalOrToAnd_scan (inst_id branchInst) (bb_id parent) leftBB rightBB false (located f)
  | _, _ => (OR_AND_MutationType_None, None)
  end.

Definition LogicalOrToAnd_findPossibleMutation (f : Function) (V : Instruction) : OR_AND_MutationType :=
  if negb (isConditionalBranch V) then OR_AND_MutationType_None
  else fst (LogicalOrToAnd_findPossibleMutationInBranch f V).

Definition applyMutationORToAND_Pattern1 (f : Function) (firstBranch secondBranch : Instruction) : outcome Function :=
  match inst_op firstBranch, inst_op secondBranch with
  | CondBr sourceValue firstBranchLeftBB firstBranchRightBB,
    CondBr _ secondBranchLeftBB secondBranchRightBB =>
      firstParent ← of_option "firstBranch has no parent" (getParent f firstBranch);
      secondParent ← of_option "secondBranch has no parent" (getParent f secondBranch);
      let replacement := createBranch f firstBranchRightBB secondBranchRightBB sourceValue in
      mret (update_successor_phis (bb_id secondParent) (bb_id firstParent) secondBranchRightBB
              (default [] (successors <$> getTerminator secondParent))
              (replaceBranch f (inst_id firstBranch) replacement))
  | _, _ => Abort "isConditional"
  end.

Definition applyMutationORToAND_Pattern2 (f : Function) (firstBranch secondBranch : Instruction) : outcome Function :=
  match inst_op firstBranch, inst_op secondBranch with
  | CondBr sourceValue firstBranchLeftBB firstBranchRightBB,
    CondBr _ secondBranchLeftBB secondBranchRightBB =>
      firstParent ← of_option "firstBranch has no parent" (getParent f firstBranch);
      secondParent ← of_option "secondBranch has no parent" (getParent f secondBranch);
      let replacement := createBranch f secondBranchRightBB firstBranchLeftBB sourceValue in
      mret (update_successor_phis (bb_id secondParent) (bb_id firstParent) secondBranchRightBB
              (default [] (successors <$> getTerminator secondParent))
              (replaceBranch f (inst_id firstBranch) replacement))
  | _, _ => Abort "isConditional"
  end.

Definition applyMutationORToAND_Pattern3 (f : Function) (firstBranch secondBranch : Instruction) : outcome Function :=
  secondParent ← of_option "secondBranch has no parent" (getParent f secondBranch);
  phiNode ← of_option "phiNode" (first_phi secondParent);
  match getOperand phiNode 0 with
  | Some (ConstantInt boolValueOfIncomingBlock) =>
      let f1 := set_phi_operand0 f (inst_id phiNode) (flip_constant boolValueOfIncomingBlock) in
      match inst_op firstBranch with
      | CondBr firstBranchConditionValue firstBranchLeftBB firstBranchRightBB =>
          let replacement := createBranch f firstBranchRightBB firstBranchLeftBB firstBranchConditionValue in
          mret (replaceBranch f1 (inst_id firstBranch) replacement)
      | _ => Abort "firstBranch is not a conditional branch"
      end
  | _ => Abort "intValueForIncomingBlock0"
  end.

Definition LogicalOrToAnd_applyMutation (f : Function) (address : MutationPointAddress) : outcome Function :=
  branchInst ← findInstruction_function address f;
  _ ← require (isConditionalBranch branchInst) "branchInst->isConditional()";
  match LogicalOrToAnd_findPossibleMutationInBranch f branchInst with
  | (OR_AND_MutationType_OR_to_AND_Pattern1, Some secondBranch) => applyMutationORToAND_Pattern1 f branchInst secondBranch
  | (OR_AND_MutationType_OR_to_AND_Pattern2, Some secondBranch) => applyMutationORToAND_Pattern2 f branchInst secondBranch
  | (OR_AND_MutationType_OR_to_AND_Pattern3, Some secondBranch) => applyMutationORToAND_Pattern3 f branchInst secondBranch
  | _ => mret f
  end.

Definition LogicalOrToAnd_getMutations `{LLVMPath} (module : Module) (bitcode : BitcodePtr) (function : FunctionUnderTest)
    : outcome (list MutationPoint) :=
  fold_outcome (fun mutations instruction =>
    if bool_decide (LogicalOrToAnd_findPossibleMutation (fut_function function) instruction = OR_AND_MutationType_None)
    then mret mutations
    else
      point ← newMutationPoint LogicalOrToAnd None module (fut_function function) instruction
                "&&" bitcode "OR-AND Replacement";
      mret (mutations ++ [point])) [] (instructions (fut_function function)).

(** ** LogicalAndToOr *)

Fixpoint LogicalAndToOr_scan (branchInst : InstId) (branchParent leftBB rightBB : BlockId) (passedBranchInst : bool)
    (l : list (BasicBlock * Instruction)) : AND_OR_MutationType * option Instruction :=
  match l with
  | [] => (AND_OR_MutationType_None, None)
  | (bb, candidate) :: rest =>
      if negb (isConditionalBranch candidate) then
        LogicalAndToOr_scan branchInst branchParent leftBB rightBB passedBranchInst rest
      else if Nat.eqb (inst_id candidate) branchInst then
        LogicalAndToOr_scan branchInst branchParent leftBB rightBB true rest
      else if negb passedBranchInst then
        LogicalAndToOr_scan branchInst branchParent leftBB rightBB passedBranchInst rest
      else if same_value (getOperand candidate 1) rightBB then
        (AND_OR_MutationType_AND_to_OR_Pattern1, Some candidate)
      else if same_value (getOperand candidate 1) leftBB then
        (AND_OR_MutationType_AND_to_OR_Pattern2, Some candidate)
      else if phi_matches branchParent rightBB bb then
        (AND_OR_MutationType_AND_to_OR_Pattern3, Some candidate)
      else LogicalAndToOr_scan branchInst branchParent leftBB rightBB passedBranchInst rest
  end.

Definition LogicalAndToOr_findPossibleMutationInBranch (f : Function) (branchInst : Instruction)
    : AND_OR_MutationType * option Instruction :=
  match inst_op branchInst, getParent f branchInst with
  | CondBr _ leftBB rightBB, Some parent =>
      LogicalAndToOr_scan (inst_id branchInst) (bb_id parent) leftBB rightBB false (located f)
  | _, _ => (AND_OR_MutationType_None, None)
  end.

Definition LogicalAndToOr_findPossibleMutation (f : Function) (V : Instruction) : AND_OR_MutationType :=
  if negb (isConditionalBranch V) then AND_OR_MutationType_None
  else fst (LogicalAndToOr_findPossibleMutationInBranch f V).

Definition applyMutationANDToOR_Pattern1 (f : Function) (firstBranch secondBranch : Instruction) : outcome Function :=
  match inst_op firstBranch, inst_op secondBranch with
  | CondBr sourceValue firstBranchLeftBB firstBranchRightBB,
    CondBr _ secondBranchLeftBB secondBranchRightBB =>
      firstParent ← of_option "firstBranch has no parent" (getParent f firstBranch);
      secondParent ← of_option "secondBranch has no parent" (getParent f secondBranch);
      let replacement := createBranch f secondBranchLeftBB firstBranchLeftBB sourceValue in
      mret (update_successor_phis (bb_id secondParent) (bb_id firstParent) secondBranchLeftBB
              (default [] (successors <$> getTerminator secondParent))
              (replaceBranch f (inst_id firstBranch) replacement))
  | _, _ => Abort "isConditional"
  end.

Definition applyMutationANDToOR_Pattern2 (f : Function) (firstBranch secondBranch : Instruction) : outcome Function :=
  match inst_op firstBranch, inst_op secondBranch with
  | CondBr sourceValue firstBranchLeftBB firstBranchRightBB,
    CondBr _ secondBranchLeftBB secondBranchRightBB =>
      firstParent ← of_option "firstBranch has no parent" (getParent f firstBranch);
      secondParent ← of_option "secondBranch has no parent" (getParent f secondBranch);
      let replacement := createBranch f firstBranchRightBB secondBranchLeftBB sourceValue in
      mret (update_successor_phis (bb_id secondParent) (bb_id firstParent) secondBranchLeftBB
              (default [] (successors <$> getTerminator secondParent))
              (replaceBranch f (inst_id firstBranch) replacement))
  | _, _ => Abort "isConditional"
  end.

Definition applyMutationANDToOR_Pattern3 (f : Function) (firstBranch secondBranch : Instruction) : outcome Function :=
  secondParent ← of_option "secondBranch has no parent" (getParent f secondBranch);
  phiNode ← of_option "phiNode" (first_phi secondParent);
  match getOperand phiNode 0 with
  | Some (ConstantInt boolValueOfIncomingBlock) =>
      let f1 := set_phi_operand0 f (inst_id phiNode) (flip_constant boolValueOfIncomingBlock) in
      match inst_op firstBranch with
      | CondBr firstBranchConditionValue firstBranchLeftBB firstBranchRightBB =>
          let replacement := createBranch f firstBranchRightBB firstBranchLeftBB firstBranchConditionValue in
          mret (replaceBranch f1 (inst_id firstBranch) replacement)
      | _ => Abort "firstBranch is not a conditional branch"
      end
  | _ => Abort "intValueForIncomingBlock0"
  end.

Definition LogicalAndToOr_applyMutation (f : Function) (address : MutationPointAddress) : outcome Function :=
  branchInst ← findInstruction_function address f;
  _ ← require (isConditionalBranch branchInst) "branchInst->isConditional()";
  match LogicalAndToOr_findPossibleMutationInBranch f branchInst with
  | (AND_OR_MutationType_AND_to_OR_Pattern1, Some secondBranch) => applyMutationANDToOR_Pattern1 f branchInst secondBranch
  | (AND_OR_MutationType_AND_to_OR_Pattern2, Some secondBranch) => applyMutationANDToOR_Pattern2 f branchInst secondBranch
  | (AND_OR_MutationType_AND_to_OR_Pattern3, Some secondBranch) => applyMutationANDToOR_Pattern3 f branchInst secondBranch
  | _ => mret f
  end.

Definition LogicalAndToOr_getMutations `{LLVMPath} (module : Module) (bitcode : BitcodePtr) (function : FunctionUnderTest)
    : outcome (list MutationPoint) :=
  fold_outcome (fun mutations instruction =>
    if bool_decide (LogicalAndToOr_findPossibleMutation (fut_function function) instruction = AND_OR_MutationType_None)
    then mret mutations
    else
      point ← newMutationPoint LogicalAndToOr None module (fut_function function) instruction
                "||" bitcode "AND-OR Replacement";
      mret (mutations ++ [point])) [] (instructions (fut_function function)).

(** ** Semantics of the shapes

    Where control goes, given the values the conditions have: a branch reads
    its condition, entering a block gives its PHI nodes the values that belong
    to the edge taken. *)
Definition Env : Type := Value -> bool.

Definition eval (env : Env) (v : Value) : bool :=
  match v with ConstantInt z => negb (Z.eqb z 0) | _ => env v end.

Definition phi_value (env : Env) (from : BlockId) (incoming : list (Value * BlockId)) : option bool :=
  (fun e => eval env (fst e)) <$> find_first (fun e => Nat.eqb (snd e) from) incoming.

Definition set_phi (env : Env) (from : BlockId) (acc : Env) (i : Instruction) : Env :=
  match inst_op i with
  | PHI incoming =>
      match phi_value env from incoming with
      | Some x => fun v => if decide (v = InstRef (inst_id i)) then x else acc v
      | None => acc
      end
  | _ => acc
  end.

Definition enter (f : Function) (env : Env) (from b : BlockId) : Env :=
  match find_block f b with
  | Some bb => foldl (set_phi env from) env (bb_insts bb)
  | None => env
  end.

Definition exit_to (f : Function) (env : Env) (b : BlockId) : option BlockId :=
  bb ← find_block f b;
  i ← getTerminator bb;
  match inst_op i with
  | Br d => Some d
  | CondBr c t e => Some (if eval env c then t else e)
  | _ => None
  end.

(** From the end of block [b] to the first of the blocks [stops]. *)
Fixpoint run_to (fuel : nat) (f : Function) (env : Env) (stops : list BlockId) (b : BlockId)
    : option BlockId :=
  match fuel with
  | O => None
  | S fuel =>
      d ← exit_to f env b;
      if existsb (Nat.eqb d) stops then Some d else run_to fuel f (enter f env b d) stops d
  end.

Definition not_phi (i : Instruction) : bool := match inst_op i with PHI _ => false | _ => true end.

(** ** What rewiring does to the blocks *)

Lemma find_block_map g f b :
  (forall bb, bb_id (g bb) = bb_id bb) -> find_block (map_blocks g f) b = g <$> find_block f b.
Proof.
  intros Hg. unfold find_block, map_blocks; simpl. induction (fn_blocks f) as [|bb l IH]; simpl; [done|].
  rewrite Hg. by destruct (Nat.eqb (bb_id bb) b).
Qed.

Lemma last_map {A B} (g : A -> B) l : last (map g l) = g <$> last l.
Proof. apply (fmap_last g). Qed.

Lemma last_phis_add from to l i :
  last l = Some i -> not_phi i = true -> last (phis_add from to l) = Some i.
Proof.
  intros Hl Hi. induction l as [|x l IH]; [done|]. simpl.
  destruct (inst_op x) eqn:E; try done.
  destruct l as [|y l]; [injection Hl as ->; unfold not_phi in Hi; by rewrite E in Hi|].
  specialize (IH Hl). destruct (phis_add from to (y :: l)) eqn:Ep; [done|]. exact IH.
Qed.

Lemma phis_add_no_phis from to l : forallb not_phi l = true -> phis_add from to l = l.
Proof. destruct l as [|x l]; simpl; [done|]. unfold not_phi at 1. by destruct (inst_op x). Qed.

(** The blocks correspond: same terminators, no PHI node where there was none. *)
Definition rewired (f f' : Function) : Prop :=
  forall b bb, find_block f b = Some bb ->
    exists bb', find_block f' b = Some bb' /\
      (forall i, getTerminator bb = Some i -> not_phi i = true -> getTerminator bb' = Some i) /\
      (forallb not_phi (bb_insts bb) = true -> forallb not_phi (bb_insts bb') = true).

Lemma rewired_refl f : rewired f f.
Proof. intros b bb Hb. eauto. Qed.

Lemma rewired_trans f g h : rewired f g -> rewired g h -> rewired f h.
Proof.
  intros H1 H2 b bb Hb. destruct (H1 b bb Hb) as (bb1 & Hb1 & Ht1 & Hp1).
  destruct (H2 b bb1 Hb1) as (bb2 & Hb2 & Ht2 & Hp2). exists bb2. eauto 10.
Qed.

Lemma rewired_block_phis_add from to s f : rewired f (block_phis_add from to s f).
Proof.
  intros b bb Hb. unfold block_phis_add. rewrite find_block_map by (intros x; by destruct (Nat.eqb (bb_id x) s)).
  rewrite Hb. simpl. eexists. split; [reflexivity|].
  destruct (Nat.eqb (bb_id bb) s); simpl; [|auto]. split.
  - intros i Hi Hp. by apply last_phis_add.
  - intros Hp. by rewrite phis_add_no_phis.
Qed.

Lemma rewired_update from to target succs f : rewired f (update_successor_phis from to target succs f).
Proof.
  unfold update_successor_phis. revert f. induction succs as [|s succs IH]; intros f; simpl; [apply rewired_refl|].
  eapply rewired_trans; [|apply IH].
  destruct (negb (Nat.eqb target s)); [apply rewired_refl|apply rewired_block_phis_add].
Qed.

(** After a replacement: the terminator is the new branch where the old one
    was, and the same elsewhere. *)
Lemma replaceBranch_block f first replacement b bb :
  find_block f b = Some bb -> not_phi replacement = true ->
  exists bb', find_block (replaceBranch f first replacement) b = Some bb' /\
    (forall i, getTerminator bb = Some i ->
       getTerminator bb' = Some (if Nat.eqb (inst_id i) first then replacement else i)) /\
    (forallb not_phi (bb_insts bb) = true -> forallb not_phi (bb_insts bb') = true).
Proof.
  intros Hb Hr. unfold replaceBranch. rewrite find_block_map by done. rewrite Hb. simpl.
  eexists. split; [reflexivity|]. unfold getTerminator; simpl. split.
  - intros i Hi. by rewrite last_map, Hi.
  - intros Hp. rewrite forallb_elem in *. intros x (y & -> & Hy)%list_elem_of_fmap.
    destruct (Nat.eqb (inst_id y) first); auto.
Qed.

Lemma enter_no_phis f env from b bb :
  find_block f b = Some bb -> forallb not_phi (bb_insts bb) = true -> enter f env from b = env.
Proof.
  intros Hb Hp. unfold enter. rewrite Hb. clear Hb. generalize env at 2 3.
  induction (bb_insts bb) as [|i l IH]; intros acc; simpl in *; [done|].
  apply andb_true_iff in Hp as [Hi Hp]. unfold set_phi, not_phi in *.
  destruct (inst_op i); try done; by apply IH.
Qed.

Lemma exit_to_terminator f env b bb i :
  find_block f b = Some bb -> getTerminator bb = Some i ->
  exit_to f env b = match inst_op i with
                    | Br d => Some d
                    | CondBr c t e => Some (if eval env c then t else e)
                    | _ => None
                    end.
Proof. intros Hb Hi. unfold exit_to. rewrite Hb. simpl. by rewrite Hi. Qed.

(** ** The source shape of [a || b] and [a && b]

    Block [B1] ends with the branch on the left operand, block [B2] with the
    branch on the right one; B2 is entered from B1 only when the left operand
    does not decide.  With [negated] the left operand is the negation of the
    value the first branch tests. *)
Record short_circuit (f : Function) (B1 B2 : BlockId) (bb1 bb2 : BasicBlock)
    (first second : Instruction) : Prop := {
  sc_wf : fn_wf f;
  sc_block1 : find_block f B1 = Some bb1;
  sc_block2 : find_block f B2 = Some bb2;
  sc_first : getTerminator bb1 = Some first;
  sc_second : getTerminator bb2 = Some second;
  sc_distinct : B1 <> B2;
  sc_layout : exists pre mid post,
    located f = pre ++ (bb1, first) :: mid ++ (bb2, second) :: post /\
    Forall (fun x => isConditionalBranch (snd x) = false) mid
}.

Lemma elem_of_located f bb i : (bb, i) ∈ located f <-> bb ∈ fn_blocks f /\ i ∈ bb_insts bb.
Proof.
  unfold located. rewrite elem_of_concat_map. split.
  - intros (b & Hb & (j & [= -> ->] & Hj)%list_elem_of_fmap). done.
  - intros [Hb Hi]. exists bb. split; [done|]. apply list_elem_of_fmap. eauto.
Qed.

Lemma map_snd_located f : map snd (located f) = instructions f.
Proof.
  unfold located, instructions. rewrite concat_map, map_map. f_equal.
  apply map_ext. intros bb. rewrite map_map. apply map_id.
Qed.

Lemma getParent_in f bb i :
  fn_wf f -> bb ∈ fn_blocks f -> i ∈ bb_insts bb -> getParent f i = Some bb.
Proof.
  intros Hwf Hbb Hi.
  assert (Hin : i ∈ instructions f) by (apply elem_of_instructions; eauto).
  destruct (getParent_is_Some f i Hin) as [bb' Hp]. rewrite Hp. f_equal.
  apply getParent_Some in Hp as [Hbb' (j & Hj & Hid)].
  assert (j = i) as ->.
  { apply (inst_id_inj f); auto. apply elem_of_instructions. eauto. }
  destruct Hwf as [_ Hnd]. unfold instructions in Hnd.
  revert Hbb Hbb' Hnd. generalize (fn_blocks f) as l. clear -Hi Hj.
  induction l as [|b l IH]; intros Hbb Hbb' Hnd; [by apply not_elem_of_nil in Hbb|].
  cbn [map concat] in Hnd. rewrite map_app, NoDup_app in Hnd. destruct Hnd as (_ & Hdis & Hnd).
  assert (Hcross : forall c, c ∈ l -> i ∈ bb_insts c -> i ∈ bb_insts b -> False).
  { intros c Hc Hic Hib. apply (Hdis (inst_id i)); apply (list_elem_of_fmap_2 inst_id); [done|].
    apply elem_of_concat_map. eauto. }
  apply elem_of_cons in Hbb as [->|Hbb], Hbb' as [->|Hbb']; auto; exfalso; eauto.
Qed.

Lemma getTerminator_in bb i : getTerminator bb = Some i -> i ∈ bb_insts bb.
Proof. unfold getTerminator. intros (l & ->)%last_Some. apply elem_of_app. right. by left. Qed.

Section ShortCircuit.
Context (f : Function) (B1 B2 : BlockId) (bb1 bb2 : BasicBlock) (first second : Instruction).
Hypothesis SC : short_circuit f B1 B2 bb1 bb2 first second.

Lemma sc_id1 : bb_id bb1 = B1 /\ bb1 ∈ fn_blocks f.
Proof using SC. destruct (find_block_Some _ _ _ (sc_block1 _ _ _ _ _ _ _ SC)). done. Qed.
Lemma sc_id2 : bb_id bb2 = B2 /\ bb2 ∈ fn_blocks f.
Proof using SC. destruct (find_block_Some _ _ _ (sc_block2 _ _ _ _ _ _ _ SC)). done. Qed.

Lemma sc_parent1 : getParent f first = Some bb1.
Proof using SC.
  apply getParent_in; [apply SC|apply sc_id1|apply getTerminator_in, SC].
Qed.
Lemma sc_parent2 : getParent f second = Some bb2.
Proof using SC.
  apply getParent_in; [apply SC|apply sc_id2|apply getTerminator_in, SC].
Qed.

Lemma sc_ids_ne : inst_id second <> inst_id first.
Proof using SC.
  intros Heq. assert (second = first) as Hsf.
  { apply (inst_id_inj f); [apply SC| | |done]; apply elem_of_instructions.
    - exists bb2. split; [apply sc_id2|apply getTerminator_in, SC].
    - exists bb1. split; [apply sc_id1|apply getTerminator_in, SC]. }
  pose proof sc_parent1 as H1. pose proof sc_parent2 as H2. rewrite Hsf, H1 in H2.
  injection H2 as H2. apply (sc_distinct _ _ _ _ _ _ _ SC).
  rewrite <-(proj1 sc_id1), <-(proj1 sc_id2). by rewrite H2.
Qed.

Lemma located_unique pre bb i post x :
  located f = pre ++ (bb, i) :: post -> x ∈ pre \/ x ∈ post -> inst_id (snd x) <> inst_id i.
Proof using SC.
  intros Hl Hx Heq. destruct (sc_wf _ _ _ _ _ _ _ SC) as [_ Hnd].
  rewrite <-map_snd_located, Hl, !map_app in Hnd. cbn [map snd] in Hnd.
  apply NoDup_app in Hnd as (_ & Hdis & Hnd). apply NoDup_cons in Hnd as [Hni _].
  destruct Hx as [Hx|Hx].
  - apply (Hdis (inst_id (snd x))); [|rewrite Heq; by left].
    by apply (list_elem_of_fmap_2 inst_id), (list_elem_of_fmap_2 snd).
  - apply Hni. rewrite <-Heq. by apply (list_elem_of_fmap_2 inst_id), (list_elem_of_fmap_2 snd).
Qed.

(** A scan passes what precedes the branch and what follows it up to the
    next conditional branch. *)
Lemma scan_reaches {T} (scan : bool -> list (BasicBlock * Instruction) -> T) :
  (forall p bb c rest, isConditionalBranch c = false -> scan p ((bb, c) :: rest) = scan p rest) ->
  (forall p bb c rest, isConditionalBranch c = true -> inst_id c = inst_id first ->
     scan p ((bb, c) :: rest) = scan true rest) ->
  (forall bb c rest, isConditionalBranch c = true -> inst_id c <> inst_id first ->
     scan false ((bb, c) :: rest) = scan false rest) ->
  isConditionalBranch first = true ->
  exists post, scan false (located f) = scan true ((bb2, second) :: post).
Proof using SC.
  intros Hskip Hself Hyet Hfirst.
  destruct (sc_layout _ _ _ _ _ _ _ SC) as (pre & mid & post & Hl & Hmid). exists post.
  assert (Hpre : Forall (fun x => inst_id (snd x) <> inst_id first) pre).
  { apply Forall_forall. intros x Hx. eapply located_unique; [exact Hl|auto]. }
  rewrite Hl. clear Hl. induction Hpre as [|[bb i] pre Hi _ IH]; cbn [app].
  - rewrite Hself by done.
    induction Hmid as [|[bb i] mid Hi _ IH]; [done|]. cbn [app]. by rewrite Hskip.
  - destruct (isConditionalBranch i) eqn:E; [by rewrite Hyet|by rewrite Hskip].
Qed.
Lemma or_scan_reaches parent l r :
  isConditionalBranch first = true ->
  exists post, LogicalOrToAnd_scan (inst_id first) parent l r false (located f) =
               LogicalOrToAnd_scan (inst_id first) parent l r true ((bb2, second) :: post).
Proof using SC.
  apply scan_reaches.
  - intros p bb c rest Hnc. simpl. by rewrite Hnc.
  - intros p bb c rest Hc Hid. simpl. by rewrite Hc, Hid, Nat.eqb_refl.
  - intros bb c rest Hc Hid. simpl. by rewrite Hc, (proj2 (Nat.eqb_neq _ _) Hid).
Qed.

Lemma and_scan_reaches parent l r :
  isConditionalBranch first = true ->
  exists post, LogicalAndToOr_scan (inst_id first) parent l r false (located f) =
               LogicalAndToOr_scan (inst_id first) parent l r true ((bb2, second) :: post).
Proof using SC.
  apply scan_reaches.
  - intros p bb c rest Hnc. simpl. by rewrite Hnc.
  - intros p bb c rest Hc Hid. simpl. by rewrite Hc, Hid, Nat.eqb_refl.
  - intros bb c rest Hc Hid. simpl. by rewrite Hc, (proj2 (Nat.eqb_neq _ _) Hid).
Qed.
End ShortCircuit.

(** Two blocks branching among [B2], [T] and [F] decide like this. *)
Lemma run_two B1 B2 T F g env c1 t1 e1 c2 t2 e2 x1 x2 i1 i2 :
  NoDup [B2; T; F] ->
  find_block g B1 = Some x1 -> getTerminator x1 = Some i1 -> inst_op i1 = CondBr c1 t1 e1 ->
  find_block g B2 = Some x2 -> getTerminator x2 = Some i2 -> inst_op i2 = CondBr c2 t2 e2 ->
  forallb not_phi (bb_insts x2) = true ->
  t1 ∈ [B2; T; F] -> e1 ∈ [B2; T; F] -> t2 ∈ [T; F] -> e2 ∈ [T; F] ->
  run_to 2 g env [T; F] B1 =
  Some (let d := if eval env c1 then t1 else e1 in
        if Nat.eqb d B2 then if eval env c2 then t2 else e2 else d).
Proof.
  intros [Hn _]%NoDup_cons Hb1 Ht1 Ho1 Hb2 Ht2 Ho2 Hp Hm1 Hm2 Hm3 Hm4.
  assert (Hd : forall d, d ∈ [T; F] -> existsb (Nat.eqb d) [T; F] = true).
  { intros d Hd. apply existsb_elem. exists d. by rewrite Nat.eqb_refl. }
  assert (HB2 : existsb (Nat.eqb B2) [T; F] = false).
  { apply not_true_iff_false. intros (d & Hin & ->%Nat.eqb_eq)%existsb_elem. done. }
  cbn [run_to]. rewrite (exit_to_terminator _ _ _ _ _ Hb1 Ht1), Ho1. cbn [mbind option_bind].
  set (d := if eval env c1 then t1 else e1).
  assert (Hdm : d ∈ [B2; T; F]) by (unfold d; by destruct (eval env c1)).
  destruct (Nat.eqb_spec d B2) as [->|Hne].
  - rewrite HB2, (enter_no_phis _ _ _ _ _ Hb2 Hp).
    rewrite (exit_to_terminator _ _ _ _ _ Hb2 Ht2), Ho2. cbn [mbind option_bind].
    by rewrite Hd by (destruct (eval env c2); done).
  - rewrite Hd; [done|]. apply elem_of_cons in Hdm as [?|?]; done.
Qed.

(** ** The operators *)
Section Operators.
Context (f : Function) (B1 B2 T F : BlockId) (bb1 bb2 : BasicBlock) (first second : Instruction)
  (a b : Value).
Hypothesis SC : short_circuit f B1 B2 bb1 bb2 first second.
Hypothesis Hdistinct : NoDup [B2; T; F].
Hypothesis Hsecond : inst_op second = CondBr b T F.
Hypothesis Hno_phis : forallb not_phi (bb_insts bb2) = true.

(** The function after the first branch was replaced by a branch of [c] to
    [t] and [e]. *)
Definition rewire (t e target : BlockId) : Function :=
  update_successor_phis B2 B1 target (default [] (successors <$> getTerminator bb2))
    (replaceBranch f (inst_id first) (createBranch f t e a)).

Lemma rewire_blocks t e target :
  exists x1 x2, find_block (rewire t e target) B1 = Some x1 /\
    getTerminator x1 = Some (createBranch f t e a) /\
    find_block (rewire t e target) B2 = Some x2 /\
    getTerminator x2 = Some second /\ forallb not_phi (bb_insts x2) = true.
Proof using SC Hsecond Hno_phis.
  destruct (replaceBranch_block f (inst_id first) (createBranch f t e a) B1 bb1) as (y1 & Hy1 & Ht1 & _);
    [apply SC|done|].
  destruct (replaceBranch_block f (inst_id first) (createBranch f t e a) B2 bb2) as (y2 & Hy2 & Ht2 & Hp2);
    [apply SC|done|].
  destruct (rewired_update B2 B1 target (default [] (successors <$> getTerminator bb2)) _ _ _ Hy1)
    as (x1 & Hx1 & Hxt1 & _).
  destruct (rewired_update B2 B1 target (default [] (successors <$> getTerminator bb2)) _ _ _ Hy2)
    as (x2 & Hx2 & Hxt2 & Hxp2).
  exists x1, x2. split; [done|]. specialize (Ht1 first (sc_first _ _ _ _ _ _ _ SC)).
  rewrite Nat.eqb_refl in Ht1. split; [by apply Hxt1|]. split; [done|].
  specialize (Ht2 second (sc_second _ _ _ _ _ _ _ SC)).
  rewrite (proj2 (Nat.eqb_neq _ _) (sc_ids_ne _ _ _ _ _ _ _ SC)) in Ht2.
  split; [apply Hxt2; [done|]; unfold not_phi; by rewrite Hsecond|].
  by apply Hxp2, Hp2.
Qed.

(** What a run does before and after, from the branches alone. *)
Lemma run_shape env t1 e1 :
  inst_op first = CondBr a t1 e1 -> t1 ∈ [B2; T; F] -> e1 ∈ [B2; T; F] ->
  run_to 2 f env [T; F] B1 =
  Some (let d := if eval env a then t1 else e1 in
        if Nat.eqb d B2 then if eval env b then T else F else d).
Proof using SC Hdistinct Hsecond Hno_phis.
  intros Hf Ht He. eapply run_two; eauto; try (apply SC); set_solver.
Qed.

Lemma run_rewired env t e target :
  t ∈ [B2; T; F] -> e ∈ [B2; T; F] ->
  run_to 2 (rewire t e target) env [T; F] B1 =
  Some (let d := if eval env a then t else e in
        if Nat.eqb d B2 then if eval env b then T else F else d).
Proof using SC Hdistinct Hsecond Hno_phis.
  intros Ht He. destruct (rewire_blocks t e target) as (x1 & x2 & H1 & H2 & H3 & H4 & H5).
  eapply run_two; eauto; set_solver.
Qed.

Definition left_operand (negated : bool) (env : Env) : bool := xorb negated (eval env a).

(** The scan of [LogicalOrToAnd] stops at the second branch. *)
Lemma or_scan (negated : bool) :
  inst_op first = (if negated then CondBr a B2 T else CondBr a T B2) ->
  LogicalOrToAnd_findPossibleMutationInBranch f first =
  (if negated then OR_AND_MutationType_OR_to_AND_Pattern2
   else OR_AND_MutationType_OR_to_AND_Pattern1, Some second).
Proof using SC Hdistinct Hsecond Hno_phis.
  intros Hfirst.
  assert (Hc : isConditionalBranch first = true)
    by (unfold isConditionalBranch; rewrite Hfirst; by destruct negated).
  assert (HneT : B2 <> T) by (apply NoDup_cons in Hdistinct as [Hn _]; set_solver).
  unfold LogicalOrToAnd_findPossibleMutationInBranch.
  rewrite (sc_parent1 _ _ _ _ _ _ _ SC).
  assert (Hscan : forall l r, (l = T /\ negated = false) \/ (l = B2 /\ r = T /\ negated = true) ->
    LogicalOrToAnd_scan (inst_id first) (bb_id bb1) l r false (located f) =
    (if negated then OR_AND_MutationType_OR_to_AND_Pattern2
     else OR_AND_MutationType_OR_to_AND_Pattern1, Some second)).
  { intros l r Hlr. destruct (or_scan_reaches _ _ _ _ _ _ _ SC (bb_id bb1) l r Hc) as [post ->].
    simpl. unfold isConditionalBranch at 1, getOperand, same_value. rewrite Hsecond. simpl.
      rewrite (proj2 (Nat.eqb_neq _ _) (sc_ids_ne _ _ _ _ _ _ _ SC)).
      destruct Hlr as [[-> ->]|(-> & -> & ->)].
      - by rewrite bool_decide_eq_true_2.
      - rewrite bool_decide_eq_false_2 by congruence. by rewrite bool_decide_eq_true_2. }
  rewrite Hfirst. destruct negated; apply Hscan; auto.
Qed.

(** The scan of [LogicalAndToOr]. *)
Lemma and_scan (negated : bool) :
  inst_op first = (if negated then CondBr a F B2 else CondBr a B2 F) ->
  LogicalAndToOr_findPossibleMutationInBranch f first =
  (if negated then AND_OR_MutationType_AND_to_OR_Pattern2
   else AND_OR_MutationType_AND_to_OR_Pattern1, Some second).
Proof using SC Hdistinct Hsecond Hno_phis.
  intros Hfirst.
  assert (Hc : isConditionalBranch first = true)
    by (unfold isConditionalBranch; rewrite Hfirst; by destruct negated).
  assert (HneF : B2 <> F) by (apply NoDup_cons in Hdistinct as [Hn _]; set_solver).
  unfold LogicalAndToOr_findPossibleMutationInBranch.
  rewrite (sc_parent1 _ _ _ _ _ _ _ SC).
  assert (Hscan : forall l r, (r = F /\ negated = false) \/ (r = B2 /\ l = F /\ negated = true) ->
    LogicalAndToOr_scan (inst_id first) (bb_id bb1) l r false (located f) =
    (if negated then AND_OR_MutationType_AND_to_OR_Pattern2
     else AND_OR_MutationType_AND_to_OR_Pattern1, Some second)).
  { intros l r Hlr. destruct (and_scan_reaches _ _ _ _ _ _ _ SC (bb_id bb1) l r Hc) as [post ->].
    simpl. unfold isConditionalBranch at 1, getOperand, same_value. rewrite Hsecond. simpl.
      rewrite (proj2 (Nat.eqb_neq _ _) (sc_ids_ne _ _ _ _ _ _ _ SC)).
      destruct Hlr as [[-> ->]|(-> & -> & ->)].
      - by rewrite bool_decide_eq_true_2.
      - rewrite bool_decide_eq_false_2 by congruence. by rewrite bool_decide_eq_true_2. }
  rewrite Hfirst. destruct negated; apply Hscan; auto.
Qed.

(** C15: on the control flow of [l || r] (the left operand
    possibly negated), [LogicalOrToAnd] finds the shape and produces a
    function that takes the same two destinations by [l && r]. *)
Theorem LogicalOrToAnd_operator (negated : bool) (addr : MutationPointAddress) :
  findInstruction_function addr f = Ok first ->
  inst_op first = (if negated then CondBr a B2 T else CondBr a T B2) ->
  exists f', LogicalOrToAnd_applyMutation f addr = Ok f' /\
    forall env,
      run_to 2 f env [T; F] B1 = Some (if left_operand negated env || eval env b then T else F) /\
      run_to 2 f' env [T; F] B1 = Some (if left_operand negated env && eval env b then T else F).
Proof using SC Hdistinct Hsecond Hno_phis.
  intros Haddr Hfirst.
  assert (HneT : Nat.eqb T B2 = false /\ Nat.eqb F B2 = false).
  { apply NoDup_cons in Hdistinct as [Hn _]. split; apply Nat.eqb_neq; set_solver. }
  destruct HneT as [HT HF].
  assert (Hc : isConditionalBranch first = true)
    by (unfold isConditionalBranch; rewrite Hfirst; by destruct negated).
  exists (if negated then rewire F B2 F else rewire B2 F F). split.
  - unfold LogicalOrToAnd_applyMutation. rewrite Haddr. cbn. rewrite Hc. cbn.
    rewrite (or_scan negated Hfirst). destruct negated.
    + unfold applyMutationORToAND_Pattern2. rewrite Hfirst, Hsecond.
      rewrite (sc_parent1 _ _ _ _ _ _ _ SC), (sc_parent2 _ _ _ _ _ _ _ SC). cbn.
      by rewrite (proj1 (sc_id1 _ _ _ _ _ _ _ SC)), (proj1 (sc_id2 _ _ _ _ _ _ _ SC)).
    + unfold applyMutationORToAND_Pattern1. rewrite Hfirst, Hsecond.
      rewrite (sc_parent1 _ _ _ _ _ _ _ SC), (sc_parent2 _ _ _ _ _ _ _ SC). cbn.
      by rewrite (proj1 (sc_id1 _ _ _ _ _ _ _ SC)), (proj1 (sc_id2 _ _ _ _ _ _ _ SC)).
  - intros env. unfold left_operand.
    destruct negated; rewrite (run_shape env _ _ Hfirst), run_rewired by set_solver; cbv zeta;
      destruct (eval env a), (eval env b); simpl; rewrite ?Nat.eqb_refl, ?HT, ?HF; auto.
Qed.

(** C16: dually, on the control flow of [l && r]
    [LogicalAndToOr] produces a function that decides by [l || r]. *)
Theorem LogicalAndToOr_operator (negated : bool) (addr : MutationPointAddress) :
  findInstruction_function addr f = Ok first ->
  inst_op first = (if negated then CondBr a F B2 else CondBr a B2 F) ->
  exists f', LogicalAndToOr_applyMutation f addr = Ok f' /\
    forall env,
      run_to 2 f env [T; F] B1 = Some (if left_operand negated env && eval env b then T else F) /\
      run_to 2 f' env [T; F] B1 = Some (if left_operand negated env || eval env b then T else F).
Proof using SC Hdistinct Hsecond Hno_phis.
  intros Haddr Hfirst.
  assert (HneT : Nat.eqb T B2 = false /\ Nat.eqb F B2 = false).
  { apply NoDup_cons in Hdistinct as [Hn _]. split; apply Nat.eqb_neq; set_solver. }
  destruct HneT as [HT HF].
  assert (Hc : isConditionalBranch first = true)
    by (unfold isConditionalBranch; rewrite Hfirst; by destruct negated).
  exists (if negated then rewire B2 T T else rewire T B2 T). split.
  - unfold LogicalAndToOr_applyMutation. rewrite Haddr. cbn. rewrite Hc. cbn.
    rewrite (and_scan negated Hfirst). destruct negated.
    + unfold applyMutationANDToOR_Pattern2. rewrite Hfirst, Hsecond.
      rewrite (sc_parent1 _ _ _ _ _ _ _ SC), (sc_parent2 _ _ _ _ _ _ _ SC). cbn.
      by rewrite (proj1 (sc_id1 _ _ _ _ _ _ _ SC)), (proj1 (sc_id2 _ _ _ _ _ _ _ SC)).
    + unfold applyMutationANDToOR_Pattern1. rewrite Hfirst, Hsecond.
      rewrite (sc_parent1 _ _ _ _ _ _ _ SC), (sc_parent2 _ _ _ _ _ _ _ SC). cbn.
      by rewrite (proj1 (sc_id1 _ _ _ _ _ _ _ SC)), (proj1 (sc_id2 _ _ _ _ _ _ _ SC)).
  - intros env. unfold left_operand.
    destruct negated; rewrite (run_shape env _ _ Hfirst), run_rewired by set_solver; cbv zeta;
      destruct (eval env a), (eval env b); simpl; rewrite ?Nat.eqb_refl, ?HT, ?HF; auto.
Qed.
End Operators.

(** ** The shape with a PHI node

    [bool x = l || r] is lowered to a PHI node: B1 jumps to B3 with the
    deciding constant, or to B2, which computes [r] and jumps to B3. *)
Definition map_insts (g : Instruction -> Instruction) (f : Function) : Function :=
  map_blocks (fun bb => mkBasicBlock (bb_id bb) (map g (bb_insts bb))) f.

Lemma find_block_map_insts g f b bb :
  find_block f b = Some bb ->
  find_block (map_insts g f) b = Some (mkBasicBlock (bb_id bb) (map g (bb_insts bb))).
Proof. intros Hb. unfold map_insts. rewrite find_block_map by done. by rewrite Hb. Qed.

Lemma getTerminator_map_insts g bb i :
  getTerminator bb = Some i ->
  getTerminator (mkBasicBlock (bb_id bb) (map g (bb_insts bb))) = Some (g i).
Proof. unfold getTerminator; simpl. intros Hi. by rewrite last_map, Hi. Qed.

(** The edge into a block with one PHI node, at its head. *)
Lemma enter_one_phi f env from b bb phi rest :
  find_block f b = Some bb -> bb_insts bb = phi :: rest -> forallb not_phi rest = true ->
  enter f env from b = set_phi env from env phi.
Proof.
  intros Hb Hi Hp. unfold enter. rewrite Hb, Hi. simpl. generalize (set_phi env from env phi) as acc.
  clear -Hp. induction rest as [|i l IH]; intros acc; simpl in *; [done|].
  apply andb_true_iff in Hp as [Hni Hp]. unfold set_phi, not_phi in *.
  destruct (inst_op i); try done; by apply IH.
Qed.

(** The blocks of the shape, in any function: [B1] branches on [a] to [t] or
    [e], the node has the value [k] when B1 is left for B3. *)
Record phi_blocks (g : Function) (B1 B2 B3 T F : BlockId) (a vb : Value) (k : Z) (t e : BlockId) : Prop := {
  pb_1 : exists x i, find_block g B1 = Some x /\ getTerminator x = Some i /\ inst_op i = CondBr a t e;
  pb_2 : exists x i, find_block g B2 = Some x /\ getTerminator x = Some i /\ inst_op i = Br B3 /\
                     forallb not_phi (bb_insts x) = true;
  pb_3 : exists x i phi rest, find_block g B3 = Some x /\ getTerminator x = Some i /\
           bb_insts x = phi :: rest /\ forallb not_phi rest = true /\
           inst_op phi = PHI [(ConstantInt k, B1); (vb, B2)] /\
           inst_op i = CondBr (InstRef (inst_id phi)) T F
}.

Lemma run_three g B1 B2 B3 T F a vb k t e env :
  NoDup [B1; B2; B3; T; F] -> phi_blocks g B1 B2 B3 T F a vb k t e ->
  (t = B2 /\ e = B3 \/ t = B3 /\ e = B2) ->
  run_to 3 g env [T; F] B1 =
  Some (if (if Nat.eqb (if eval env a then t else e) B3 then negb (Z.eqb k 0) else eval env vb)
        then T else F).
Proof.
  intros Hnd [(x1 & i1 & Hb1 & Ht1 & Ho1) (x2 & i2 & Hb2 & Ht2 & Ho2 & Hp2)
    (x3 & i3 & phi & rest & Hb3 & Ht3 & Hi3 & Hp3 & Hphi & Ho3)] Hte.
  assert (HB : existsb (Nat.eqb B2) [T; F] = false /\ existsb (Nat.eqb B3) [T; F] = false /\
    Nat.eqb B2 B3 = false /\ Nat.eqb B1 B2 = false).
  { repeat (apply NoDup_cons in Hnd as [? Hnd]).
    repeat split; try (apply Nat.eqb_neq; set_solver);
      apply not_true_iff_false; intros (d & Hin & ->%Nat.eqb_eq)%existsb_elem; set_solver. }
  destruct HB as (HB2 & HB3 & H23 & H12).
  assert (Hd : forall d, d ∈ [T; F] -> existsb (Nat.eqb d) [T; F] = true).
  { intros d Hd. apply existsb_elem. exists d. by rewrite Nat.eqb_refl. }
  assert (Hlast : forall from env0, (from = B1 \/ from = B2) ->
    exit_to g (enter g env0 from B3) B3 =
    Some (if (if Nat.eqb from B1 then negb (Z.eqb k 0) else eval env0 vb) then T else F)).
  { intros from env0 Hfrom. rewrite (exit_to_terminator _ _ _ _ _ Hb3 Ht3), Ho3.
    rewrite (enter_one_phi _ _ _ _ _ _ _ Hb3 Hi3 Hp3). unfold set_phi. rewrite Hphi. unfold phi_value.
    cbn [find_first snd]. destruct Hfrom as [->| ->]; rewrite ?H12, ?Nat.eqb_refl; cbn [fmap option_fmap option_map fst eval].
    - by rewrite decide_True.
    - rewrite decide_True by done. rewrite (Nat.eqb_sym B2 B1), H12. done. }
  cbn [run_to]. rewrite (exit_to_terminator _ _ _ _ _ Hb1 Ht1), Ho1. cbn [mbind option_bind].
  assert (Hdest : (if eval env a then t else e) = B3 \/ (if eval env a then t else e) = B2)
    by (destruct Hte as [[-> ->]|[-> ->]], (eval env a); auto).
  destruct Hdest as [-> | ->].
  - rewrite HB3, Hlast by auto. cbn [mbind option_bind]. rewrite !Nat.eqb_refl, Hd; [done|].
    destruct (negb _); set_solver.
  - rewrite HB2, (enter_no_phis _ _ _ _ _ Hb2 Hp2).
    rewrite (exit_to_terminator _ _ _ _ _ Hb2 Ht2), Ho2. cbn [mbind option_bind].
    rewrite HB3, Hlast by auto. cbn [mbind option_bind]. rewrite H23, (Nat.eqb_sym B2 B1), H12, Hd; [done|].
    destruct (eval env vb); set_solver.
Qed.

Lemma inst_ids_ne f x y i j :
  fn_wf f -> x ∈ fn_blocks f -> y ∈ fn_blocks f -> i ∈ bb_insts x -> j ∈ bb_insts y ->
  bb_id x <> bb_id y -> inst_id i <> inst_id j.
Proof.
  intros Hwf Hx Hy Hi Hj Hne Heq. apply Hne.
  assert (i = j) as ->.
  { apply (inst_id_inj f); auto; apply elem_of_instructions; eauto. }
  pose proof (getParent_in _ _ _ Hwf Hx Hi) as H1. rewrite (getParent_in _ _ _ Hwf Hy Hj) in H1. congruence.
Qed.

Definition flipped (k : Z) : Z := if Z.eqb k 0 then 1 else 0.

Section PhiShape.
Context (f : Function) (B1 B2 B3 T F : BlockId) (bb1 bb2 bb3 : BasicBlock)
  (first mid second phi : Instruction) (rest : list Instruction)
  (a vb : Value) (k : Z) (t e : BlockId).
Hypothesis SC : short_circuit f B1 B3 bb1 bb3 first second.
Hypothesis Hnd : NoDup [B1; B2; B3; T; F].
Hypothesis Hfirst : inst_op first = CondBr a t e.
Hypothesis Hb2 : find_block f B2 = Some bb2.
Hypothesis Hmid : getTerminator bb2 = Some mid.
Hypothesis Hmid_op : inst_op mid = Br B3.
Hypothesis Hno2 : forallb not_phi (bb_insts bb2) = true.
Hypothesis Hinsts3 : bb_insts bb3 = phi :: rest.
Hypothesis Hno3 : forallb not_phi rest = true.
Hypothesis Hphi : inst_op phi = PHI [(ConstantInt k, B1); (vb, B2)].
Hypothesis Hsecond : inst_op second = CondBr (InstRef (inst_id phi)) T F.

Definition phi_rewired : Function :=
  replaceBranch (set_phi_operand0 f (inst_id phi) (flip_constant k)) (inst_id first) (createBranch f e t a).

Lemma phi_blocks_before : phi_blocks f B1 B2 B3 T F a vb k t e.
Proof using SC Hfirst Hb2 Hmid Hmid_op Hno2 Hinsts3 Hno3 Hphi Hsecond.
  split.
  - exists bb1, first. split; [apply SC|split; [apply SC|done]].
  - exists bb2, mid. done.
  - exists bb3, second, phi, rest. split; [apply SC|split; [apply SC|done]].
Qed.

(** The node is the only instruction its rewriting changes. *)
Definition set0 (i : Instruction) : Instruction :=
  if Nat.eqb (inst_id i) (inst_id phi) then
    match inst_op i with
    | PHI ((_, b) :: rest) => mkInstruction (inst_id i) (PHI ((flip_constant k, b) :: rest)) (inst_debug i)
    | _ => i
    end
  else i.
Definition swap_first (i : Instruction) : Instruction :=
  if Nat.eqb (inst_id i) (inst_id first) then createBranch f e t a else i.

Lemma phi_rewired_map : phi_rewired = map_insts swap_first (map_insts set0 f).
Proof using. done. Qed.

Lemma set0_other i : not_phi i = true -> set0 i = i.
Proof using. unfold set0, not_phi. destruct (Nat.eqb _ _); [|done]. by destruct (inst_op i). Qed.

Lemma swap_other i : inst_id i <> inst_id first -> swap_first i = i.
Proof using. intros Hne. unfold swap_first. by rewrite (proj2 (Nat.eqb_neq _ _) Hne). Qed.

Lemma no_phi_kept l :
  forallb not_phi l = true -> forallb not_phi (map swap_first (map set0 l)) = true.
Proof using.
  rewrite !forallb_elem. intros Hl i (j & -> & (y & -> & Hy)%list_elem_of_fmap)%list_elem_of_fmap.
  rewrite set0_other by auto. unfold swap_first. destruct (Nat.eqb _ _); auto.
Qed.

Lemma phi_block_of b x : find_block f b = Some x ->
  find_block phi_rewired b = Some (mkBasicBlock (bb_id x) (map swap_first (map set0 (bb_insts x)))).
Proof using.
  intros Hx. rewrite phi_rewired_map. by apply (find_block_map_insts _ _ _ _ (find_block_map_insts set0 _ _ _ Hx)).
Qed.

Lemma phi_terminator_of x i : getTerminator x = Some i -> not_phi i = true ->
  getTerminator (mkBasicBlock (bb_id x) (map swap_first (map set0 (bb_insts x)))) = Some (swap_first i).
Proof using.
  intros Hi Hp. rewrite <-(set0_other i Hp) at 1.
  apply (getTerminator_map_insts swap_first (mkBasicBlock (bb_id x) (map set0 (bb_insts x)))).
  by apply getTerminator_map_insts.
Qed.

Lemma phi_ids_ne b x i :
  find_block f b = Some x -> i ∈ bb_insts x -> b <> B1 -> inst_id i <> inst_id first.
Proof using SC.
  intros Hx Hi Hne. destruct (find_block_Some _ _ _ Hx) as [Hin <-].
  destruct (sc_id1 _ _ _ _ _ _ _ SC) as [Hid Hin1].
  eapply inst_ids_ne; [apply SC|exact Hin|exact Hin1|done|apply getTerminator_in, SC|congruence].
Qed.

Lemma phi_blocks_after : phi_blocks phi_rewired B1 B2 B3 T F a vb (flipped k) e t.
Proof using SC Hnd Hfirst Hb2 Hmid Hmid_op Hno2 Hinsts3 Hno3 Hphi Hsecond.
  assert (H12 : B2 <> B1 /\ B3 <> B1)
    by (apply NoDup_cons in Hnd as [Hn _]; clear -Hn; set_solver).
  assert (Hb3 : find_block f B3 = Some bb3) by apply SC. split.
  - do 2 eexists. split; [apply phi_block_of, SC|]. split.
    + apply phi_terminator_of; [apply SC|]. unfold not_phi. by rewrite Hfirst.
    + unfold swap_first. by rewrite Nat.eqb_refl.
  - do 2 eexists. split; [by apply phi_block_of|]. split.
    + apply phi_terminator_of; [done|]. unfold not_phi. by rewrite Hmid_op.
    + rewrite swap_other by (apply (phi_ids_ne B2 bb2); [done|by apply getTerminator_in|apply H12]).
      split; [done|]. by apply no_phi_kept.
  - exists (mkBasicBlock (bb_id bb3) (map swap_first (map set0 (bb_insts bb3)))), second,
      (mkInstruction (inst_id phi) (PHI [(flip_constant k, B1); (vb, B2)]) (inst_debug phi)),
      (map swap_first (map set0 rest)).
    split; [by apply phi_block_of|].
    assert (Hphi_ne : inst_id phi <> inst_id first).
    { apply (phi_ids_ne B3 bb3); [done| |apply H12]. rewrite Hinsts3. by left. }
    split; [|split; [|split; [by apply no_phi_kept|split]]].
    + rewrite <-(swap_other second) by
        (apply (phi_ids_ne B3 bb3); [done|apply getTerminator_in, SC|apply H12]).
      apply phi_terminator_of; [apply SC|]. unfold not_phi. by rewrite Hsecond.
    + cbn [bb_insts]. rewrite Hinsts3. cbn [map]. f_equal.
      assert (Hset : set0 phi = mkInstruction (inst_id phi) (PHI [(flip_constant k, B1); (vb, B2)]) (inst_debug phi))
        by (unfold set0; by rewrite Nat.eqb_refl, Hphi).
      rewrite Hset. by apply swap_other.
    + simpl. unfold flip_constant, flipped. by destruct (Z.eqb k 0).
    + done.
Qed.

Lemma phi_matches_shape : phi_matches B1 B3 bb3 = true.
Proof using SC Hnd Hinsts3 Hphi.
  unfold phi_matches. rewrite Hinsts3. cbn [existsb]. rewrite Hphi. cbn [existsb snd].
  rewrite (proj1 (sc_id2 _ _ _ _ _ _ _ SC)), !Nat.eqb_refl, !andb_true_r.
  apply NoDup_cons in Hnd as [Hn _]. apply orb_true_iff. left. apply orb_true_iff. right.
  apply orb_true_iff. left. apply negb_true_iff, Nat.eqb_neq. clear -Hn. set_solver.
Qed.

Lemma phi_application c1 c2 :
  inst_op first = CondBr a c1 c2 ->
  applyMutationORToAND_Pattern3 f first second = Ok phi_rewired /\
  applyMutationANDToOR_Pattern3 f first second = Ok phi_rewired.
Proof using SC Hfirst Hinsts3 Hphi.
  intros _. unfold applyMutationORToAND_Pattern3, applyMutationANDToOR_Pattern3.
  rewrite (sc_parent2 _ _ _ _ _ _ _ SC). cbn [of_option mbind outcome_bind].
  unfold first_phi. rewrite Hinsts3. cbn [find_first]. rewrite Hphi. cbn [of_option mbind outcome_bind].
  unfold getOperand. rewrite Hphi. cbn. by rewrite Hfirst.
Qed.

(** The runs before and after, whatever operator the shape stands for. *)
Lemma phi_runs env :
  t = B2 /\ e = B3 \/ t = B3 /\ e = B2 ->
  run_to 3 f env [T; F] B1 =
    Some (if (if Nat.eqb (if eval env a then t else e) B3 then negb (Z.eqb k 0) else eval env vb)
          then T else F) /\
  run_to 3 phi_rewired env [T; F] B1 =
    Some (if (if Nat.eqb (if eval env a then e else t) B3 then negb (Z.eqb (flipped k) 0) else eval env vb)
          then T else F).
Proof using SC Hnd Hfirst Hb2 Hmid Hmid_op Hno2 Hinsts3 Hno3 Hphi Hsecond.
  intros Hte. split; (eapply run_three; [done| |]).
  - apply phi_blocks_before.
  - done.
  - apply phi_blocks_after.
  - tauto.
Qed.

(** When the value of [l || r] is stored before it is
    branched on, so that the left operand decides through a PHI node,
    [LogicalOrToAnd] also yields [l && r]. *)
Theorem LogicalOrToAnd_stored_operator (addr : MutationPointAddress) :
  findInstruction_function addr f = Ok first -> t = B3 -> e = B2 -> k = 1%Z ->
  exists f', LogicalOrToAnd_applyMutation f addr = Ok f' /\
    forall env,
      run_to 3 f env [T; F] B1 = Some (if eval env a || eval env vb then T else F) /\
      run_to 3 f' env [T; F] B1 = Some (if eval env a && eval env vb then T else F).
Proof using SC Hnd Hfirst Hb2 Hmid Hmid_op Hno2 Hinsts3 Hno3 Hphi Hsecond.
  intros Haddr Ht He Hk.
  assert (Hne : T <> B3 /\ T <> B2 /\ Nat.eqb B2 B3 = false).
  { apply NoDup_cons in Hnd as [_ Hn2]. apply NoDup_cons in Hn2 as [H2 Hn2].
    apply NoDup_cons in Hn2 as [H3 _]. rewrite Nat.eqb_neq. clear -H2 H3. set_solver. }
  destruct Hne as (HT3 & HT2 & H23).
  assert (Hc : isConditionalBranch first = true) by (unfold isConditionalBranch; by rewrite Hfirst).
  exists phi_rewired. split.
  - unfold LogicalOrToAnd_applyMutation. rewrite Haddr. cbn [mbind outcome_bind]. rewrite Hc. cbn [require mbind outcome_bind].
    unfold LogicalOrToAnd_findPossibleMutationInBranch.
    rewrite (sc_parent1 _ _ _ _ _ _ _ SC), Hfirst, (proj1 (sc_id1 _ _ _ _ _ _ _ SC)).
    destruct (or_scan_reaches _ _ _ _ _ _ _ SC B1 t e Hc) as [post ->].
    cbn [LogicalOrToAnd_scan]. unfold isConditionalBranch at 1, getOperand, same_value. rewrite Hsecond. cbn [negb].
      rewrite (proj2 (Nat.eqb_neq _ _) (sc_ids_ne _ _ _ _ _ _ _ SC)), Ht, He.
      rewrite !bool_decide_eq_false_2 by congruence. rewrite phi_matches_shape.
      apply (phi_application t e Hfirst).
  - intros env. rewrite (proj1 (phi_runs env (or_intror (conj Ht He)))), (proj2 (phi_runs env (or_intror (conj Ht He)))).
    rewrite Ht, He, Hk. destruct (eval env a), (eval env vb); rewrite ?H23, ?Nat.eqb_refl; done.
Qed.

(** And [LogicalAndToOr] turns the stored [l && r] into
    [l || r]. *)
Theorem LogicalAndToOr_stored_operator (addr : MutationPointAddress) :
  findInstruction_function addr f = Ok first -> t = B2 -> e = B3 -> k = 0%Z ->
  exists f', LogicalAndToOr_applyMutation f addr = Ok f' /\
    forall env,
      run_to 3 f env [T; F] B1 = Some (if eval env a && eval env vb then T else F) /\
      run_to 3 f' env [T; F] B1 = Some (if eval env a || eval env vb then T else F).
Proof using SC Hnd Hfirst Hb2 Hmid Hmid_op Hno2 Hinsts3 Hno3 Hphi Hsecond.
  intros Haddr Ht He Hk.
  assert (Hne : F <> B3 /\ F <> B2 /\ Nat.eqb B2 B3 = false).
  { apply NoDup_cons in Hnd as [_ Hn2]. apply NoDup_cons in Hn2 as [H2 Hn2].
    apply NoDup_cons in Hn2 as [H3 _]. rewrite Nat.eqb_neq. clear -H2 H3. set_solver. }
  destruct Hne as (HF3 & HF2 & H23).
  assert (Hc : isConditionalBranch first = true) by (unfold isConditionalBranch; by rewrite Hfirst).
  exists phi_rewired. split.
  - unfold LogicalAndToOr_applyMutation. rewrite Haddr. cbn [mbind outcome_bind]. rewrite Hc. cbn [require mbind outcome_bind].
    unfold LogicalAndToOr_findPossibleMutationInBranch.
    rewrite (sc_parent1 _ _ _ _ _ _ _ SC), Hfirst, (proj1 (sc_id1 _ _ _ _ _ _ _ SC)).
    destruct (and_scan_reaches _ _ _ _ _ _ _ SC B1 t e Hc) as [post ->].
    cbn [LogicalAndToOr_scan]. unfold isConditionalBranch at 1, getOperand, same_value. rewrite Hsecond. cbn [negb].
      rewrite (proj2 (Nat.eqb_neq _ _) (sc_ids_ne _ _ _ _ _ _ _ SC)), Ht, He.
      rewrite !bool_decide_eq_false_2 by congruence. rewrite phi_matches_shape.
      apply (phi_application t e Hfirst).
  - intros env. rewrite (proj1 (phi_runs env (or_introl (conj Ht He)))), (proj2 (phi_runs env (or_introl (conj Ht He)))).
    rewrite Ht, He, Hk. destruct (eval env a), (eval env vb); rewrite ?H23, ?Nat.eqb_refl; done.
Qed.
End PhiShape.

(** ** Witnesses: [a || b], [a && b], and both stored first *)
Definition blk (b : BlockId) (l : list (InstId * Opcode)) : BasicBlock :=
  mkBasicBlock b (map (fun x => mkInstruction (fst x) (snd x) None) l).
Definition ins (x : InstId * Opcode) : Instruction := mkInstruction (fst x) (snd x) None.

Definition two_branches (c1 c2 : Opcode) : Function :=
  mkFunction 0 "f" [
    blk 0 [(0, OtherInst "load" []); (1, c1)];
    blk 1 [(2, OtherInst "load" []); (3, c2)];
    blk 2 [(4, Ret)];
    blk 3 [(5, Ret)]] None.

Lemma two_branches_shape c1 c2 :
  isConditionalBranch (ins (1, c1)) = true -> isConditionalBranch (ins (3, c2)) = true ->
  short_circuit (two_branches c1 c2) 0 1 (blk 0 [(0, OtherInst "load" []); (1, c1)])
    (blk 1 [(2, OtherInst "load" []); (3, c2)]) (ins (1, c1)) (ins (3, c2)).
Proof.
  intros _ _. split; try reflexivity.
  - split; apply (bool_decide_unpack _); exact I.
  - discriminate.
  - exists [(blk 0 [(0, OtherInst "load" []); (1, c1)], ins (0, OtherInst "load" []))],
      [(blk 1 [(2, OtherInst "load" []); (3, c2)], ins (2, OtherInst "load" []))],
      [(blk 2 [(4, Ret)], ins (4, Ret)); (blk 3 [(5, Ret)], ins (5, Ret))].
    split; [reflexivity|]. by repeat constructor.
Defined.

Definition or_first : Opcode := CondBr (InstRef 0) 2 1.
Definition and_first : Opcode := CondBr (InstRef 0) 1 3.
Definition last_branch : Opcode := CondBr (InstRef 2) 2 3.

Lemma LogicalOrToAnd_operator_witness :
  exists f', LogicalOrToAnd_applyMutation (two_branches or_first last_branch) (newAddress 0 0 1) = Ok f' /\
    forall env,
      run_to 2 (two_branches or_first last_branch) env [2; 3] 0 =
        Some (if left_operand (InstRef 0) false env || eval env (InstRef 2) then 2 else 3) /\
      run_to 2 f' env [2; 3] 0 =
        Some (if left_operand (InstRef 0) false env && eval env (InstRef 2) then 2 else 3).
Proof.
  eapply (LogicalOrToAnd_operator (two_branches or_first last_branch) 0 1 2 3);
    [apply two_branches_shape; reflexivity| | | | |]; try reflexivity.
  apply (bool_decide_unpack _). exact I.
Defined.

Lemma LogicalAndToOr_operator_witness :
  exists f', LogicalAndToOr_applyMutation (two_branches and_first last_branch) (newAddress 0 0 1) = Ok f' /\
    forall env,
      run_to 2 (two_branches and_first last_branch) env [2; 3] 0 =
        Some (if left_operand (InstRef 0) false env && eval env (InstRef 2) then 2 else 3) /\
      run_to 2 f' env [2; 3] 0 =
        Some (if left_operand (InstRef 0) false env || eval env (InstRef 2) then 2 else 3).
Proof.
  eapply (LogicalAndToOr_operator (two_branches and_first last_branch) 0 1 2 3);
    [apply two_branches_shape; reflexivity| | | | |]; try reflexivity.
  apply (bool_decide_unpack _). exact I.
Defined.

Definition stored_phi (k : Z) : Opcode := PHI [(ConstantInt k, 0); (InstRef 2, 1)].
Definition stored (c1 : Opcode) (k : Z) : Function :=
  mkFunction 0 "f" [
    blk 0 [(0, OtherInst "load" []); (1, c1)];
    blk 1 [(2, OtherInst "load" []); (3, Br 2)];
    blk 2 [(4, stored_phi k); (5, CondBr (InstRef 4) 3 4)];
    blk 3 [(6, Ret)];
    blk 4 [(7, Ret)]] None.

Lemma stored_shape c1 k :
  short_circuit (stored c1 k) 0 2 (blk 0 [(0, OtherInst "load" []); (1, c1)])
    (blk 2 [(4, stored_phi k); (5, CondBr (InstRef 4) 3 4)]) (ins (1, c1)) (ins (5, CondBr (InstRef 4) 3 4)).
Proof.
  split; try reflexivity.
  - split; apply (bool_decide_unpack _); exact I.
  - discriminate.
  - exists [(blk 0 [(0, OtherInst "load" []); (1, c1)], ins (0, OtherInst "load" []))],
      [(blk 1 [(2, OtherInst "load" []); (3, Br 2)], ins (2, OtherInst "load" []));
       (blk 1 [(2, OtherInst "load" []); (3, Br 2)], ins (3, Br 2));
       (blk 2 [(4, stored_phi k); (5, CondBr (InstRef 4) 3 4)], ins (4, stored_phi k))],
      [(blk 3 [(6, Ret)], ins (6, Ret)); (blk 4 [(7, Ret)], ins (7, Ret))].
    split; [reflexivity|]. by repeat constructor.
Defined.

Lemma LogicalOrToAnd_stored_operator_witness :
  exists f', LogicalOrToAnd_applyMutation (stored (CondBr (InstRef 0) 2 1) 1) (newAddress 0 0 1) = Ok f' /\
    forall env,
      run_to 3 (stored (CondBr (InstRef 0) 2 1) 1) env [3; 4] 0 =
        Some (if eval env (InstRef 0) || eval env (InstRef 2) then 3 else 4) /\
      run_to 3 f' env [3; 4] 0 =
        Some (if eval env (InstRef 0) && eval env (InstRef 2) then 3 else 4).
Proof.
  eapply (LogicalOrToAnd_stored_operator (stored (CondBr (InstRef 0) 2 1) 1) 0 1 2 3 4);
    [apply stored_shape|apply (bool_decide_unpack _); exact I|..]; reflexivity.
Defined.

Lemma LogicalAndToOr_stored_operator_witness :
  exists f', LogicalAndToOr_applyMutation (stored (CondBr (InstRef 0) 1 2) 0) (newAddress 0 0 1) = Ok f' /\
    forall env,
      run_to 3 (stored (CondBr (InstRef 0) 1 2) 0) env [3; 4] 0 =
        Some (if eval env (InstRef 0) && eval env (InstRef 2) then 3 else 4) /\
      run_to 3 f' env [3; 4] 0 =
        Some (if eval env (InstRef 0) || eval env (InstRef 2) then 3 else 4).
Proof.
  eapply (LogicalAndToOr_stored_operator (stored (CondBr (InstRef 0) 1 2) 0) 0 1 2 3 4);
    [apply stored_shape|apply (bool_decide_unpack _); exact I|..]; reflexivity.
Defined.
