(* ===== verification/Mutators.v ===== *)
(** * What the mutators do (lib/Mutators)

    [getMutations] looks at the selected instructions of a function under test
    and creates a mutation point for every low-level mutation that applies;
    [applyMutation] rewrites a clone of the function at the point's address.
    The library of low-level mutations is the parameter [LibIrm]. *)

From stdpp Require Import base list strings sets.
From Stdlib Require Import ZArith Lia Bool.
From S2P Require Import Prelude StringFacts MutatorKind IR SourceLocation Irm Mutator Samples MutationPoint.
From S2P Require Import Reachable LogicalMutators.

Section WithLibIrm.
Context `{LLVMPath} `{LibIrm}.

(** The loop every data-driven [getMutations] is: for each selected
    instruction, for each low-level mutator the class owns, a point when
    [visit] gives its texts. *)
Definition search_low_level (self : Mutator) (visit : Instruction -> irm.IRMutation -> outcome (option (string * string)))
    (module : Module) (bitcode : BitcodePtr) (function : Function) (instruction : Instruction)
    (mutations : list MutationPoint) (mutator : irm.IRMutation) : outcome (list MutationPoint) :=
  texts ← visit instruction mutator;
  match texts with
  | Some (replacement, diagnostics) =>
      point ← newMutationPoint self (Some mutator) module function instruction replacement bitcode diagnostics;
      mret (mutations ++ [point])
  | None => mret mutations
  end.

Definition search_selected (self : Mutator) (lowLevelMutators : list irm.IRMutation)
    (visit : Instruction -> irm.IRMutation -> outcome (option (string * string)))
    (module : Module) (bitcode : BitcodePtr) (function : FunctionUnderTest) : outcome (list MutationPoint) :=
  fold_outcome (fun mutations instruction =>
    fold_outcome (search_low_level self visit module bitcode (fut_function function) instruction)
      mutations lowLevelMutators)
    [] (fut_selectedInstructions function).

(** *** TrivialCXXMutator *)
Definition trivial_visit (m : TrivialCXXMutator) (instruction : Instruction) (mutator : irm.IRMutation)
    : outcome (option (string * string)) :=
  mret (if canMutate mutator instruction then Some (replacement m, diagnostics m) else None).

Definition TrivialCXXMutator_getMutations (m : TrivialCXXMutator) :=
  search_selected (Trivial m) (lowLevelMutators m) (trivial_visit m).

(** *** UnaryMinusToNoop *)
Definition isZero (value : Value) : bool :=
  match value with
  | ConstantInt v => Z.eqb v 0
  | ConstantFP zero => zero
  | _ => false
  end.

Definition unary_minus_visit (instruction : Instruction) (mutator : irm.IRMutation)
    : outcome (option (string * string)) :=
  if negb (canMutate mutator instruction) then mret None
  else
    operand ← of_option "getOperand(0) of an instruction without operands" (getOperand instruction 0);
    mret (if isZero operand then Some ("", "Replaced -x with x") else None).

Definition UnaryMinusToNoop_getMutations :=
  search_selected UnaryMinusToNoop UnaryMinusToNoop_lowLevelMutators unary_minus_visit.

(** *** NegateConditionMutator *)
Definition describePredicate (predicate : CmpInst.Predicate) : string :=
  match predicate with
  | CmpInst.FCMP_OEQ | CmpInst.FCMP_UEQ | CmpInst.ICMP_EQ => "=="
  | CmpInst.FCMP_ONE | CmpInst.FCMP_UNE | CmpInst.ICMP_NE => "!="
  | _ => "TODO"
  end.

Definition negate_getDiagnostics (originalPredicate negatedPredicate : CmpInst.Predicate) : string :=
  "Negate Condition: replaced " +:+ describePredicate originalPredicate +:+ " with " +:+
  describePredicate negatedPredicate.

Definition negate_visit (instruction : Instruction) (mutator : irm.IRMutation)
    : outcome (option (string * string)) :=
  mret (if canMutate mutator instruction
        then Some (describePredicate (_getTo mutator), negate_getDiagnostics (_getFrom mutator) (_getTo mutator))
        else None).

Definition NegateConditionMutator_getMutations :=
  search_selected NegateConditionMutator NegateConditionMutator_lowLevelMutators negate_visit.

(** *** RemoveVoidFunctionMutator, ReplaceCallMutator *)

(** [callSite.getCalledFunction()->getName()]: undefined unless the
    instruction calls a function directly. *)
Definition calledFunction_name (instruction : Instruction) : outcome string :=
  match inst_op instruction with
  | Call (Some name) _ => mret name
  | Call None _ => Abort "getCalledFunction() of an indirect call"
  | _ => Abort "CallSite of an instruction that is not a call"
  end.

Definition remove_void_visit (instruction : Instruction) (mutator : irm.IRMutation)
    : outcome (option (string * string)) :=
  if negb (canMutate mutator instruction) then mret None
  else
    name ← calledFunction_name instruction;
    mret (Some ("🚫", "Remove Void Call: removed " +:+ name)).

Definition RemoveVoidFunctionMutator_getMutations :=
  search_selected RemoveVoidFunctionMutator RemoveVoidFunctionMutator_lowLevelMutators remove_void_visit.

Definition replace_call_visit (instruction : Instruction) (mutator : irm.IRMutation)
    : outcome (option (string * string)) :=
  if negb (canMutate mutator instruction) then mret None
  else
    name ← calledFunction_name instruction;
    mret (Some ("42", "Replace Call: replaced a call to function " +:+ name +:+ " with 42")).

Definition ReplaceCallMutator_getMutations :=
  search_selected ReplaceCallMutator ReplaceCallMutator_lowLevelMutators replace_call_visit.

(** *** ScalarValueMutator *)
Definition scalar_visit (instruction : Instruction) (mutator : irm.IRMutation)
    : outcome (option (string * string)) :=
  mret (if canMutate mutator instruction then Some ("0 or 42", "Replacing scalar with 0 or 42") else None).

Definition ScalarValueMutator_getMutations :=
  search_selected ScalarValueMutator ScalarValueMutator_lowLevelMutators scalar_visit.

(** ** The virtual methods *)
Definition getMutations (m : Mutator) (module : Module) (bitcode : BitcodePtr) (function : FunctionUnderTest)
    : outcome (list MutationPoint) :=
  match m with
  | Trivial m => TrivialCXXMutator_getMutations m module bitcode function
  | UnaryMinusToNoop => UnaryMinusToNoop_getMutations module bitcode function
  | NegateConditionMutator => NegateConditionMutator_getMutations module bitcode function
  | RemoveVoidFunctionMutator => RemoveVoidFunctionMutator_getMutations module bitcode function
  | ReplaceCallMutator => ReplaceCallMutator_getMutations module bitcode function
  | ScalarValueMutator => ScalarValueMutator_getMutations module bitcode function
  | LogicalAndToOr => LogicalAndToOr_getMutations module bitcode function
  | LogicalOrToAnd => LogicalOrToAnd_getMutations module bitcode function
  end.

(** [applyMutation] of the classes that delegate to the low-level mutation. *)
Definition lowLevel_applyMutation (function : Function) (address : MutationPointAddress)
    (lowLevelMutation : option irm.IRMutation) : outcome Function :=
  instruction ← findInstruction_function address function;
  mutation ← of_option "lowLevelMutation" lowLevelMutation;
  mret (mutate mutation function (inst_id instruction)).

Definition applyMutation (m : Mutator) (function : Function) (address : MutationPointAddress)
    (lowLevelMutation : option irm.IRMutation) : outcome Function :=
  match m with
  | LogicalAndToOr => LogicalAndToOr_applyMutation function address
  | LogicalOrToAnd => LogicalOrToAnd_applyMutation function address
  | _ => lowLevel_applyMutation function address lowLevelMutation
  end.

(** [MutationPoint::applyMutation], given the clone the point designates. *)
Definition point_applyMutation (p : MutationPoint) (clone : option Function) : outcome Function :=
  mutated ← of_option "mutatedFunction != nullptr" clone;
  applyMutation (mutator p) mutated (address p) (irMutator p).
End WithLibIrm.

(** What the code relies on in libirm: the call mutations apply to direct
    calls only, the operand swaps to instructions that have operands. *)
Class IrmContract `{LibIrm} := {
  irm_direct_calls ir i :
    ir ∈ RemoveVoidFunctionMutator_lowLevelMutators ++ ReplaceCallMutator_lowLevelMutators ->
    canMutate ir i = true -> exists name args, inst_op i = Call (Some name) args;
  irm_swap_operands ir i :
    ir ∈ UnaryMinusToNoop_lowLevelMutators -> canMutate ir i = true -> is_Some (getOperand i 0)
}.

(** ** Specification: which points a mutator creates *)
Section Spec.
Context `{LLVMPath} `{LibIrm}.

Definition is_logical (m : Mutator) : bool :=
  match m with LogicalAndToOr | LogicalOrToAnd => true | _ => false end.

Definition lowLevel_of (m : Mutator) : list irm.IRMutation :=
  match m with
  | Trivial m => lowLevelMutators m
  | UnaryMinusToNoop => UnaryMinusToNoop_lowLevelMutators
  | NegateConditionMutator => NegateConditionMutator_lowLevelMutators
  | RemoveVoidFunctionMutator => RemoveVoidFunctionMutator_lowLevelMutators
  | ReplaceCallMutator => ReplaceCallMutator_lowLevelMutators
  | ScalarValueMutator => ScalarValueMutator_lowLevelMutators
  | LogicalAndToOr | LogicalOrToAnd => []
  end.

Definition accepts (m : Mutator) (i : Instruction) (ir : irm.IRMutation) : bool :=
  canMutate ir i &&
  match m with
  | UnaryMinusToNoop => match getOperand i 0 with Some v => isZero v | None => false end
  | _ => true
  end.

Definition call_name (i : Instruction) : string :=
  match inst_op i with Call (Some name) _ => name | _ => "" end.

(** The replacement and the diagnostics. *)
Definition texts (m : Mutator) (i : Instruction) (ir : irm.IRMutation) : string * string :=
  match m with
  | Trivial m => (replacement m, diagnostics m)
  | UnaryMinusToNoop => ("", "Replaced -x with x")
  | NegateConditionMutator =>
      (describePredicate (_getTo ir), negate_getDiagnostics (_getFrom ir) (_getTo ir))
  | RemoveVoidFunctionMutator => ("🚫", "Remove Void Call: removed " +:+ call_name i)
  | ReplaceCallMutator =>
      ("42", "Replace Call: replaced a call to function " +:+ call_name i +:+ " with 42")
  | ScalarValueMutator => ("0 or 42", "Replacing scalar with 0 or 42")
  | LogicalAndToOr | LogicalOrToAnd => ("", "")
  end.

Definition visit_of (m : Mutator) : Instruction -> irm.IRMutation -> outcome (option (string * string)) :=
  match m with
  | Trivial m => trivial_visit m
  | UnaryMinusToNoop => unary_minus_visit
  | NegateConditionMutator => negate_visit
  | RemoveVoidFunctionMutator => remove_void_visit
  | ReplaceCallMutator => replace_call_visit
  | _ => scalar_visit
  end.

(** Instruction by instruction, low-level mutation by low-level mutation. *)
Definition candidates (m : Mutator) (selected : list Instruction) : list (Instruction * irm.IRMutation) :=
  concat (map (fun i => map (pair i) (List.filter (accepts m i) (lowLevel_of m))) selected).

Definition found (m : Mutator) (module : Module) (bitcode : BitcodePtr) (function : Function)
    (c : Instruction * irm.IRMutation) (p : MutationPoint) : Prop :=
  newMutationPoint m (Some (snd c)) module function (fst c) (fst (texts m (fst c) (snd c)))
    bitcode (snd (texts m (fst c) (snd c))) = Ok p.

Lemma getMutations_unfold m module bitcode f :
  is_logical m = false ->
  getMutations m module bitcode f = search_selected m (lowLevel_of m) (visit_of m) module bitcode f.
Proof. by destruct m. Qed.

(** Where a mutator looks: the mutators of [&&] and [||] look at the whole
    function, not at what the instruction filters left. *)
Definition searched_instructions (m : Mutator) (f : FunctionUnderTest) : list Instruction :=
  if is_logical m then instructions (fut_function f) else fut_selectedInstructions f.

(** Whatever a mutator finds it made for the function it was given, at one of
    the instructions it looks at. *)
Definition made (m : Mutator) (module : Module) (bitcode : BitcodePtr) (f : FunctionUnderTest) (p : MutationPoint) : Prop :=
  exists ir i replacement diagnostics, i ∈ searched_instructions m f /\
    newMutationPoint m ir module (fut_function f) i replacement bitcode diagnostics = Ok p.

Lemma made_fields m module bitcode0 f p :
  made m module bitcode0 f p ->
  mutator p = m /\ bitcode p = bitcode0 /\ originalFunction p = fn_id (fut_function f) /\
  originalFunction_name p = fn_name (fut_function f) /\ mutatedFunction p = None /\ reachableTests p = [].
Proof. intros (ir & i & r & d & _ & Hp). unfold newMutationPoint in Hp. by apply bind_Ok in Hp as (a & _ & [= <-]). Qed.

Lemma made_where m module bitcode0 f p :
  made m module bitcode0 f p ->
  exists i, i ∈ searched_instructions m f /\ addressFromInstruction module (fut_function f) i = Ok (address p) /\
    sourceLocation p = locationFromInstruction i.
Proof.
  intros (ir & i & r & d & Hi & Hp). exists i. unfold newMutationPoint in Hp. by apply bind_Ok in Hp as (a & Ha & [= <-]).
Qed.

Lemma search_selected_made m irs visit module bitcode f l :
  is_logical m = false ->
  search_selected m irs visit module bitcode f = Ok l -> Forall (made m module bitcode f) l.
Proof.
  intros Hm. apply fold_outcome_inv; [|constructor]. intros mutations i mutations' Hi Hall. apply fold_outcome_inv; [|done].
  intros acc ir acc' _ Hacc Hstep. unfold search_low_level in Hstep.
  apply bind_Ok in Hstep as ([[r d]|] & _ & Hstep); [|by injection Hstep as <-].
  apply bind_Ok in Hstep as (p & Hp & [= <-]). apply Forall_app. split; [done|]. constructor; [|constructor].
  exists (Some ir), i, r, d. split; [|done]. unfold searched_instructions. by rewrite Hm.
Qed.

Lemma getMutations_made m module bitcode f l :
  getMutations m module bitcode f = Ok l -> Forall (made m module bitcode f) l.
Proof.
  destruct m; try by apply search_selected_made.
  all: apply fold_outcome_inv; [|constructor].
  all: intros acc i acc' Hi Hacc Hstep; destruct (bool_decide _); [by injection Hstep as <-|].
  all: apply bind_Ok in Hstep as (p & Hp & [= <-]); apply Forall_app; split; [done|]; constructor; [|constructor].
  all: by eexists None, i, _, _.
Qed.

Lemma visit_of_spec `{!IrmContract} m i ir :
  is_logical m = false -> ir ∈ lowLevel_of m ->
  visit_of m i ir = Ok (if accepts m i ir then Some (texts m i ir) else None).
Proof.
  intros Hm Hir. destruct m; try done; unfold accepts; cbn [visit_of lowLevel_of texts] in *;
    rewrite ?andb_true_r; try done.
  - unfold unary_minus_visit. destruct (canMutate ir i) eqn:E; [|done]. cbn.
    destruct (irm_swap_operands ir i Hir E) as [v ->]. cbn. by destruct (isZero v).
  - unfold remove_void_visit. destruct (canMutate ir i) eqn:E; [|done]. cbn.
    destruct (irm_direct_calls ir i) as (name & args & Hop); [set_solver|done|].
    unfold calledFunction_name, call_name. by rewrite Hop.
  - unfold replace_call_visit. destruct (canMutate ir i) eqn:E; [|done]. cbn.
    destruct (irm_direct_calls ir i) as (name & args & Hop); [set_solver|done|].
    unfold calledFunction_name, call_name. by rewrite Hop.
Qed.

Lemma newMutationPoint_total mu ir module f i r b d :
  i ∈ instructions f -> exists p, newMutationPoint mu ir module f i r b d = Ok p.
Proof.
  intros Hi. destruct (getParent_is_Some f i Hi) as [bb Hp].
  unfold newMutationPoint, addressFromInstruction. rewrite Hp. cbn. eauto.
Qed.

Lemma search_low_level_visit self visit module bitcode f i acc ir t :
  visit i ir = Ok t ->
  search_low_level self visit module bitcode f i acc ir =
  match t with
  | Some (r, d) => newMutationPoint self (Some ir) module f i r bitcode d ≫= fun p => mret (acc ++ [p])
  | None => mret acc
  end.
Proof. intros Hv. unfold search_low_level. rewrite Hv. by destruct t as [[r d]|]. Qed.

Lemma search_instruction `{!IrmContract} m module bitcode f i irs acc :
  is_logical m = false -> i ∈ instructions f -> (forall ir, ir ∈ irs -> ir ∈ lowLevel_of m) ->
  exists points, fold_outcome (search_low_level m (visit_of m) module bitcode f i) acc irs = Ok (acc ++ points) /\
    Forall2 (found m module bitcode f) (map (pair i) (List.filter (accepts m i) irs)) points.
Proof.
  intros Hm Hi. revert acc. induction irs as [|ir irs IH]; intros acc Hirs.
  - exists []. rewrite app_nil_r. split; [done|constructor].
  - assert (Hrest : forall x, x ∈ irs -> x ∈ lowLevel_of m) by (intros; apply Hirs; by right).
    cbn [fold_outcome List.filter].
    erewrite search_low_level_visit by (apply visit_of_spec; [done|apply Hirs; by left]).
    destruct (accepts m i ir); [|by apply IH].
    destruct (newMutationPoint_total m (Some ir) module f i (fst (texts m i ir)) bitcode (snd (texts m i ir)) Hi)
      as [p Hp].
    destruct (texts m i ir) as [r d] eqn:Et. cbn [fst snd] in Hp. rewrite Hp. cbn [mbind outcome_bind mret outcome_ret].
    destruct (IH (acc ++ [p]) Hrest) as (points & Hrun & Hall). exists (p :: points). split.
    + by rewrite Hrun, <-app_assoc.
    + constructor; [|done]. unfold found; cbn [fst snd]. by rewrite Et.
Qed.

(** C14: over any selection of instructions of the function,
    [getMutations] of a mutator with low-level mutations terminates
    normally and creates, in order, exactly one point for every instruction
    and every low-level mutation of the class that applies to it (for the
    unary minus also requires a zero left operand), each carrying that
    instruction's address and location and the mutator's texts. *)
Theorem getMutations_complete `{!IrmContract} m module bitcode (f : FunctionUnderTest) :
  is_logical m = false ->
  (forall i, i ∈ fut_selectedInstructions f -> i ∈ instructions (fut_function f)) ->
  exists points, getMutations m module bitcode f = Ok points /\
    Forall2 (found m module bitcode (fut_function f)) (candidates m (fut_selectedInstructions f)) points.
Proof.
  intros Hm Hsel. rewrite getMutations_unfold by done. unfold search_selected, candidates.
  assert (Hgen : forall l acc, (forall i, i ∈ l -> i ∈ instructions (fut_function f)) ->
    exists points,
      fold_outcome (fun mutations instruction =>
        fold_outcome (search_low_level m (visit_of m) module bitcode (fut_function f) instruction)
          mutations (lowLevel_of m)) acc l = Ok (acc ++ points) /\
      Forall2 (found m module bitcode (fut_function f))
        (concat (map (fun i => map (pair i) (List.filter (accepts m i) (lowLevel_of m))) l)) points).
  { induction l as [|i l IH]; intros acc Hl.
    - exists []. rewrite app_nil_r. split; [done|constructor].
    - destruct (search_instruction m module bitcode (fut_function f) i (lowLevel_of m) acc) as (p1 & Hp1 & F1);
        [done|apply Hl; by left|done|].
      destruct (IH (acc ++ p1)) as (p2 & Hp2 & F2); [intros; apply Hl; by right|].
      exists (p1 ++ p2). cbn [fold_outcome map concat]. rewrite Hp1. cbn [mbind outcome_bind]. rewrite Hp2, app_assoc.
      split; [done|]. by apply Forall2_app. }
  destruct (Hgen _ [] Hsel) as (points & Hrun & Hall). exists points. by rewrite Hrun.
Qed.

Lemma found_address m module bitcode f c p :
  found m module bitcode f c p ->
  addressFromInstruction module f (fst c) = Ok (address p) /\
  mutator p = m /\ irMutator p = Some (snd c) /\
  uniqueIdentifier p = bitcode_uniqueIdentifier bitcode +:+ "_" +:+ identifier (address p) +:+ "_" +:+
                       getUniqueIdentifier m.
Proof.
  intros (a & Ha & -> & _ & -> & -> & _ & _ & _ & _ & _ & _ & _ & ->)%newMutationPoint_fields. done.
Qed.

(** C26: a point can be replayed: in any clone of the function
    whose instructions are at the same positions, applying the point's
    mutation runs exactly its low-level mutation on the clone's copy of the
    instruction the point was found at. *)
Theorem found_point_applies m module bitcode f c p (r : Instruction -> Instruction) (clone : Function) :
  is_logical m = false -> mod_wf module -> sizes_fit module ->
  f ∈ mod_functions module -> fst c ∈ instructions f ->
  found m module bitcode f c p ->
  map bb_insts (fn_blocks clone) = map (fun bb => map r (bb_insts bb)) (fn_blocks f) ->
  point_applyMutation p (Some clone) = Ok (mutate (snd c) clone (inst_id (r (fst c)))).
Proof.
  intros Hm Hwf Hs Hf Hi (Ha & Hmu & Hir & _)%found_address Hclone.
  unfold point_applyMutation. cbn [of_option mbind outcome_bind]. rewrite Hmu, Hir.
  assert (Happ : applyMutation m clone (address p) (Some (snd c)) =
                 lowLevel_applyMutation clone (address p) (Some (snd c))) by (by destruct m).
  rewrite Happ. unfold lowLevel_applyMutation.
  by rewrite (address_finds _ _ _ _ r clone Hwf Hs Hf Hi Hclone Ha).
Qed.

(** Two points of a mutator have the same unique
    identifier exactly when they sit on the same instruction.  So the
    identifiers are distinct as long as one low-level mutation per
    instruction applies; the scalar mutator, which owns one per operand,
    gives all the points of an instruction the same name. *)
Theorem identifiers_per_instruction m module bitcode f c1 c2 p1 p2 :
  m ∈ shipped_mutators -> mod_wf module -> sizes_fit module -> f ∈ mod_functions module ->
  fst c1 ∈ instructions f -> fst c2 ∈ instructions f ->
  found m module bitcode f c1 p1 -> found m module bitcode f c2 p2 ->
  uniqueIdentifier p1 = uniqueIdentifier p2 <-> fst c1 = fst c2.
Proof.
  intros Hm Hwf Hs Hf Hi1 Hi2 (Ha1 & _ & _ & ->)%found_address (Ha2 & _ & _ & ->)%found_address.
  split.
  - intros Heq. destruct (unique_id_parts _ _ _ _ _ _ _ _ _ _ _ _ Hm Hm Ha1 Ha2 Heq) as (_ & Ha & _).
    destruct (address_finds_self _ _ _ _ Hwf Hs Hf Hi1 Ha1) as [F1 _].
    destruct (address_finds_self _ _ _ _ Hwf Hs Hf Hi2 Ha2) as [F2 _]. rewrite Ha, F2 in F1. congruence.
  - intros Heq. rewrite Heq, Ha2 in Ha1. by injection Ha1 as ->.
Qed.
End Spec.

(** ** Witnesses *)
#[global] Instance sample_irm_contract : IrmContract.
Proof.
  split; cbn [canMutate sample_irm].
  - intros ir i Hir. simpl in Hir.
    repeat (apply elem_of_cons in Hir as [->|Hir]); try discriminate; [|by apply not_elem_of_nil in Hir].
    cbn. destruct (inst_op i) as [| | | |[name|] args|]; try discriminate. eauto.
  - intros ir i Hir. simpl in Hir.
    repeat (apply elem_of_cons in Hir as [->|Hir]); try discriminate; [|by apply not_elem_of_nil in Hir].
    unfold getOperand. cbn. destruct (inst_op i) as [| | | | |name ops]; try discriminate.
    destruct ops; [|eauto]. intros Hc. exfalso. revert Hc.
    repeat (destruct name as [|[[] [] [] [] [] [] [] []] name]; try discriminate).
Qed.

Definition sample_under_test : FunctionUnderTest := mkUnderTest sample_function [(0, 1%Z)] [sample_add].

Lemma sample_add_in : sample_add ∈ instructions sample_function.
Proof. right. left. Defined.

Lemma getMutations_complete_witness :
  exists points, getMutations ScalarValueMutator sample_module sample_bitcode sample_under_test = Ok points /\
    Forall2 (found ScalarValueMutator sample_module sample_bitcode sample_function)
      [(sample_add, irm.ConstIntReplacement 42 0); (sample_add, irm.ConstIntReplacement 42 1)] points.
Proof.
  assert (Hc : candidates ScalarValueMutator [sample_add] =
    [(sample_add, irm.ConstIntReplacement 42 0); (sample_add, irm.ConstIntReplacement 42 1)])
    by (vm_compute; reflexivity).
  rewrite <-Hc.
  apply (getMutations_complete ScalarValueMutator sample_module sample_bitcode sample_under_test).
  - reflexivity.
  - intros i Hi. apply elem_of_cons in Hi as [->|Hi]; [exact sample_add_in|by apply not_elem_of_nil in Hi].
Defined.

Definition scalar_point (operand : nat) : outcome MutationPoint :=
  newMutationPoint ScalarValueMutator (Some (irm.ConstIntReplacement 42 operand)) sample_module
    sample_function sample_add "0 or 42" sample_bitcode "Replacing scalar with 0 or 42".

Lemma identifiers_per_instruction_witness :
  exists p1 p2, scalar_point 0 = Ok p1 /\ scalar_point 1 = Ok p2 /\
    irMutator p1 <> irMutator p2 /\ uniqueIdentifier p1 = uniqueIdentifier p2.
Proof.
  do 2 eexists. split; [reflexivity|]. split; [reflexivity|]. split; [discriminate|].
  apply (identifiers_per_instruction ScalarValueMutator sample_module sample_bitcode sample_function
    (sample_add, irm.ConstIntReplacement 42 0) (sample_add, irm.ConstIntReplacement 42 1)).
  - apply (bool_decide_unpack _). vm_compute. exact I.
  - exact sample_module_wf.
  - exact sample_sizes_fit.
  - right. left.
  - exact sample_add_in.
  - exact sample_add_in.
  - reflexivity.
  - reflexivity.
  - reflexivity.
Defined.

Lemma found_point_applies_witness :
  exists p, scalar_point 0 = Ok p /\
    point_applyMutation p (Some sample_function) =
    Ok (mutate (irm.ConstIntReplacement 42 0) sample_function 1).
Proof.
  eexists. split; [reflexivity|].
  eapply (found_point_applies ScalarValueMutator sample_module sample_bitcode sample_function
    (sample_add, irm.ConstIntReplacement 42 0) _ id sample_function).
  - reflexivity.
  - exact sample_module_wf.
  - exact sample_sizes_fit.
  - right. left.
  - exact sample_add_in.
  - reflexivity.
  - reflexivity.
Defined.
