(* ===== verification/MutatorsFactory.v ===== *)
(** * The mutators factory (lib/Mutators/MutatorsFactory.cpp)

    Turns the names given on the command line, of mutators or of groups of
    groups, into the mutators to run, in the order of their identifiers.  The
    recursion of [expandGroups] is on the contents of a map, so it carries
    fuel for its depth; running out stands for the overflow of the C++ stack,
    which [expandGroups_total] excludes for the map the constructor builds. *)

From stdpp Require Import base list strings sets.
From Stdlib Require Import ZArith Lia Bool Sorted.
From S2P Require Import Prelude StdContainers StringFacts Diagnostics MutatorKind IR Irm Mutator.

Definition Experimental : string := "experimental".
Definition AllMutatorsGroup : string := "all".
Definition CXX_Assignment : string := "cxx_assignment".
Definition CXX_Const_Assignment : string := "cxx_const_assignment".
Definition CXX_Arithmetic_Assignment : string := "cxx_arithmetic_assignment".
Definition CXX_Bitwise_Assignment : string := "cxx_bitwise_assignment".
Definition CXX_Increment : string := "cxx_increment".
Definition CXX_Decrement : string := "cxx_decrement".
Definition CXX_Arithmetic : string := "cxx_arithmetic".
Definition CXX_Bitwise : string := "cxx_bitwise".
Definition CXX_Logical : string := "cxx_logical".
Definition CXX_Comparison : string := "cxx_comparison".
Definition CXX_Boundary : string := "cxx_boundary".
Definition CXX_All : string := "cxx_all".
Definition CXX_Default : string := "cxx_default".

Abbreviation GroupsMapping := (list (string * list string)).
Abbreviation MutatorsMapping := (list (string * Mutator)).

Fixpoint expandGroups (fuel : nat) (mapping : GroupsMapping) (groups : list string)
    (expandedGroups : list string) : outcome (list string) :=
  match fuel with
  | O => Abort "stack overflow"
  | S fuel =>
      fold_outcome (fun expandedGroups group =>
        match omap_find group mapping with
        | None => Ok (oset_insert group expandedGroups)
        | Some members => expandGroups fuel mapping members expandedGroups
        end) expandedGroups groups
  end.

(** The constructor. *)
Definition groups_of_constructor : list (string * list string) := [
  (CXX_Const_Assignment, [ID cxx.NumberAssignConst; ID cxx.NumberInitConst]);
  (CXX_Bitwise_Assignment, [
    ID cxx.AndAssignToOrAssign; ID cxx.OrAssignToAndAssign; ID cxx.XorAssignToOrAssign;
    ID cxx.LShiftAssignToRShiftAssign; ID cxx.RShiftAssignToLShiftAssign]);
  (CXX_Arithmetic_Assignment, [
    ID cxx.AddAssignToSubAssign; ID cxx.SubAssignToAddAssign; ID cxx.MulAssignToDivAssign;
    ID cxx.DivAssignToMulAssign; ID cxx.RemAssignToDivAssign]);
  (CXX_Increment, [ID cxx.PreIncToPreDec; ID cxx.PostIncToPostDec]);
  (CXX_Decrement, [ID cxx.PreDecToPreInc; ID cxx.PostDecToPostInc]);
  (CXX_Arithmetic, [
    UnaryMinusToNoop_ID; ID cxx.AddToSub; ID cxx.SubToAdd; ID cxx.MulToDiv; ID cxx.DivToMul;
    ID cxx.RemToDiv]);
  (CXX_Bitwise, [
    ID cxx.BitwiseNotToNoop; ID cxx.BitwiseAndToOr; ID cxx.BitwiseOrToAnd; ID cxx.XorToOr;
    ID cxx.LShiftToRShift; ID cxx.RShiftToLShift]);
  (CXX_Logical, [LogicalAndToOr_ID; LogicalOrToAnd_ID]);
  (CXX_Comparison, [
    ID cxx.EqualToNotEqual; ID cxx.NotEqualToEqual; ID cxx.LessOrEqualToGreaterThan;
    ID cxx.LessThanToGreaterOrEqual; ID cxx.GreaterOrEqualToLessThan; ID cxx.GreaterThanToLessOrEqual]);
  (CXX_Boundary, [
    ID cxx.LessOrEqualToLessThan; ID cxx.LessThanToLessOrEqual; ID cxx.GreaterOrEqualToGreaterThan;
    ID cxx.GreaterThanToGreaterOrEqual]);
  (CXX_Assignment, [CXX_Bitwise_Assignment; CXX_Arithmetic_Assignment; CXX_Const_Assignment]);
  (CXX_All, [CXX_Assignment; CXX_Increment; CXX_Decrement; CXX_Arithmetic; CXX_Comparison;
             CXX_Boundary; CXX_Bitwise]);
  (CXX_Default, [CXX_Increment; CXX_Arithmetic; CXX_Comparison; CXX_Boundary]);
  (Experimental, [NegateConditionMutator_ID; RemoveVoidFunctionMutator_ID; ScalarValueMutator_ID;
                  ReplaceCallMutator_ID; CXX_Logical]);
  (AllMutatorsGroup, [CXX_All; Experimental])
].

Definition assign_all {V} (l : list (string * V)) (m : list (string * V)) : list (string * V) :=
  foldl (fun m e => omap_assign (fst e) (snd e) m) m l.

Record MutatorsFactory := mkFactory {
  mutatorsMapping : MutatorsMapping;
  groupsMapping : GroupsMapping
}.

Definition newMutatorsFactory : MutatorsFactory := mkFactory [] (assign_all groups_of_constructor []).

(** [addMutator<MutatorClass>(mapping)] *)
Definition addMutator (m : Mutator) (mapping : MutatorsMapping) : MutatorsMapping :=
  omap_assign (getUniqueIdentifier m) m mapping.

Definition init_order : list Mutator := [
  NegateConditionMutator; ReplaceCallMutator; RemoveVoidFunctionMutator; ScalarValueMutator;
  Trivial cxx.NumberAssignConst; Trivial cxx.NumberInitConst; Trivial cxx.AddAssignToSubAssign;
  Trivial cxx.SubAssignToAddAssign; Trivial cxx.MulAssignToDivAssign; Trivial cxx.DivAssignToMulAssign;
  Trivial cxx.RemAssignToDivAssign; Trivial cxx.AndAssignToOrAssign; Trivial cxx.OrAssignToAndAssign;
  Trivial cxx.XorAssignToOrAssign; Trivial cxx.LShiftAssignToRShiftAssign;
  Trivial cxx.RShiftAssignToLShiftAssign;
  Trivial cxx.PreIncToPreDec; Trivial cxx.PostIncToPostDec;
  Trivial cxx.PreDecToPreInc; Trivial cxx.PostDecToPostInc;
  UnaryMinusToNoop; Trivial cxx.AddToSub; Trivial cxx.SubToAdd; Trivial cxx.MulToDiv;
  Trivial cxx.DivToMul; Trivial cxx.RemToDiv; Trivial cxx.BitwiseNotToNoop;
  Trivial cxx.BitwiseAndToOr; Trivial cxx.BitwiseOrToAnd; Trivial cxx.XorToOr;
  Trivial cxx.LShiftToRShift; Trivial cxx.RShiftToLShift;
  LogicalAndToOr; LogicalOrToAnd;
  Trivial cxx.EqualToNotEqual; Trivial cxx.NotEqualToEqual; Trivial cxx.LessOrEqualToGreaterThan;
  Trivial cxx.LessThanToGreaterOrEqual; Trivial cxx.GreaterOrEqualToLessThan;
  Trivial cxx.GreaterThanToLessOrEqual;
  Trivial cxx.LessOrEqualToLessThan; Trivial cxx.LessThanToLessOrEqual;
  Trivial cxx.GreaterOrEqualToGreaterThan; Trivial cxx.GreaterThanToGreaterOrEqual
].

Definition init (f : MutatorsFactory) : MutatorsFactory :=
  mkFactory (foldl (fun mapping m => addMutator m mapping) (mutatorsMapping f) init_order)
    (groupsMapping f).

(** Deep enough for the groups of the constructor: "all" contains "cxx_all"
    contains "cxx_assignment" contains "cxx_bitwise_assignment" contains the
    mutators. *)
Definition expansion_depth : nat := 5.

Definition take_mutator (acc : list Mutator * MutatorsMapping) (group : string)
    : D (list Mutator * MutatorsMapping) :=
  let '(mutators, mapping) := acc in
  match omap_find group mapping with
  | None => _ ← warning ("Unknown mutator: " +:+ group); mret (mutators, mapping)
  | Some m => mret (mutators ++ [m], omap_erase group mapping)
  end.

Definition mutators (f : MutatorsFactory) (groups : list string) : D (list Mutator * MutatorsFactory) :=
  let f := init f in
  expandedGroups ← lift (expandGroups expansion_depth (groupsMapping f)
                           (match groups with [] => [CXX_Default] | _ => groups end) []);
  acc ← d_fold take_mutator ([], mutatorsMapping f) expandedGroups;
  let '(mutators, mapping) := acc in
  _ ← match mutators with
      | [] => warning "No valid mutators specified."
      | _ => mret tt
      end;
  mret (mutators, mkFactory mapping (groupsMapping f)).

(** [std::copy] to an [ostream_iterator] writes the delimiter after every
    element; the last element is written on its own. *)
Definition descriptionForGroup (groupMembers : list string) : string :=
  match groupMembers with
  | [] => "empty group?"
  | _ =>
      foldr (fun member rest => member +:+ ", " +:+ rest) "" (removelast groupMembers) +:+
      default "" (last groupMembers)
  end.

Definition commandLineOptions (f : MutatorsFactory) : D (list (string * string) * MutatorsFactory) :=
  let options := map (fun group => (fst group, descriptionForGroup (snd group))) (groupsMapping f) in
  _ ← lift (expandGroups expansion_depth (groupsMapping f) [AllMutatorsGroup] []);
  r ← mutators f [AllMutatorsGroup];
  let '(allMutators, f') := r in
  mret (options ++ map (fun m => (getUniqueIdentifier m, getDescription m)) allMutators, f').

(** ** What expansion means *)
Inductive expands (mapping : GroupsMapping) : string -> string -> Prop :=
  | expands_mutator g : omap_find g mapping = None -> expands mapping g g
  | expands_group g members m x :
      omap_find g mapping = Some members -> m ∈ members -> expands mapping m x -> expands mapping g x.

Lemma expandGroups_spec fuel mapping groups acc r :
  oset_wf acc -> expandGroups fuel mapping groups acc = Ok r ->
  oset_wf r /\ forall x, x ∈ r <-> x ∈ acc \/ exists g, g ∈ groups /\ expands mapping g x.
Proof.
  revert groups acc r. induction fuel as [|fuel IH]; intros groups acc r Hwf; [done|].
  cbn [expandGroups]. revert acc Hwf. induction groups as [|g groups IHg]; intros acc Hwf; cbn [fold_outcome].
  - intros [= <-]. split; [done|]. intros x. split; [by left|]. intros [?|(g & Hg & _)]; [done|].
    by apply not_elem_of_nil in Hg.
  - destruct (omap_find g mapping) as [members|] eqn:Eg.
    + destruct (expandGroups fuel mapping members acc) as [s| |] eqn:Es; [|done|done]. cbn.
      destruct (IH _ _ _ Hwf Es) as [Hws Hs]. intros Hr. destruct (IHg s Hws Hr) as [Hwr Hrx]. split; [done|].
      intros x. rewrite Hrx, Hs. split.
      * intros [[Hx|(m & Hm & Hx)]|(g' & Hg' & Hx)]; [by left| |].
        -- right. exists g. split; [by left|]. by eapply expands_group.
        -- right. exists g'. split; [by right|done].
      * intros [Hx|(g' & [->|Hg']%elem_of_cons & Hx)]; [by left; left| |].
        -- left. right. inversion Hx; subst; [congruence|].
           match goal with H : omap_find g mapping = Some ?ms |- _ => rewrite Eg in H; injection H as <- end.
           eauto.
        -- right. eauto.
    + cbn. intros Hr. destruct (IHg (oset_insert g acc) (oset_wf_insert _ _ Hwf) Hr) as [Hwr Hrx].
      split; [done|]. intros x. rewrite Hrx, elem_of_oset_insert. split.
      * intros [[->|Hx]|(g' & Hg' & Hx)]; [|by left|].
        -- right. exists g. split; [by left|by constructor].
        -- right. exists g'. split; [by right|done].
      * intros [Hx|(g' & [->|Hg']%elem_of_cons & Hx)]; [by left; right| |].
        -- left. left. inversion Hx; [done|congruence].
        -- right. eauto.
Qed.

(** Groups of positive rank whose members have a smaller rank expand with more
    fuel than the rank. *)
Lemma expandGroups_ranked (rank : string -> nat) mapping :
  (forall g members, omap_find g mapping = Some members ->
     0 < rank g /\ forall m, m ∈ members -> rank m < rank g) ->
  forall fuel groups acc, (forall g, g ∈ groups -> rank g < fuel) -> 0 < fuel ->
  exists r, expandGroups fuel mapping groups acc = Ok r.
Proof.
  intros Hrank. induction fuel as [|fuel IH]; intros groups acc Hg Hpos; [lia|]. clear Hpos.
  cbn [expandGroups]. revert acc. induction groups as [|g groups IHg]; intros acc; cbn [fold_outcome]; [eauto|].
  assert (Hstep : exists s, match omap_find g mapping with
      | None => Ok (oset_insert g acc)
      | Some members => expandGroups fuel mapping members acc
      end = Ok s).
  { destruct (omap_find g mapping) as [members|] eqn:E; [|eauto].
    destruct (Hrank g members E) as [Hpos Hm].
    assert (Hgr : rank g < S fuel) by (apply Hg; by left).
    apply IH; [|lia]. intros x Hx. pose proof (Hm x Hx). lia. }
  destruct Hstep as [s ->]. cbn. apply IHg. intros x Hx. apply Hg. by right.
Qed.

(** The groups of the constructor never contain one another in a circle. *)
Definition group_rank (g : string) : nat :=
  if decide (g = AllMutatorsGroup) then 4
  else if decide (g = CXX_All) then 3
  else if decide (g ∈ [Experimental; CXX_Assignment; CXX_Default]) then 2
  else if decide (g ∈ map fst groups_of_constructor) then 1
  else 0.

Definition initial_groups : GroupsMapping := groupsMapping newMutatorsFactory.

Lemma initial_groups_ranked g members :
  omap_find g initial_groups = Some members ->
  0 < group_rank g /\ forall m, m ∈ members -> group_rank m < group_rank g.
Proof.
  intros Hg%omap_find_elem.
  assert (H : forallb (fun e => Nat.ltb 0 (group_rank (fst e)) &&
                forallb (fun m => Nat.ltb (group_rank m) (group_rank (fst e))) (snd e)) initial_groups = true)
    by (vm_compute; reflexivity).
  rewrite forallb_elem in H. apply H in Hg. cbn [fst snd] in Hg.
  apply andb_true_iff in Hg as [Hpos Hall]. rewrite Nat.ltb_lt in Hpos. split; [done|].
  rewrite forallb_elem in Hall. intros m Hm. by apply Nat.ltb_lt, Hall.
Qed.

Lemma group_rank_le g : group_rank g <= 4.
Proof. unfold group_rank. repeat case_decide; lia. Qed.

Lemma expandGroups_initial groups acc :
  exists r, expandGroups expansion_depth initial_groups groups acc = Ok r.
Proof.
  apply (expandGroups_ranked group_rank initial_groups initial_groups_ranked); [|unfold expansion_depth; lia].
  intros g _. pose proof (group_rank_le g). unfold expansion_depth. lia.
Qed.

(** C40: whatever names are given, the expansion over the
    groups of the constructor terminates, and yields the sorted set, without
    repetitions, of exactly the names the given ones stand for, none of which
    is a group. *)
Theorem expandGroups_total groups :
  exists r, expandGroups expansion_depth initial_groups groups [] = Ok r /\
    oset_wf r /\ NoDup r /\
    (forall x, x ∈ r <-> exists g, g ∈ groups /\ expands initial_groups g x) /\
    (forall x, x ∈ r -> omap_find x initial_groups = None).
Proof.
  destruct (expandGroups_initial groups []) as [r Hr]. exists r. split; [done|].
  destruct (expandGroups_spec _ _ _ _ _ (SSorted_nil _) Hr) as [Hwf Hin].
  assert (Hin' : forall x, x ∈ r <-> exists g, g ∈ groups /\ expands initial_groups g x).
  { intros x. rewrite Hin. split; [intros [Hx|?]; [by apply not_elem_of_nil in Hx|done]|auto]. }
  split; [done|]. split; [by apply oset_wf_NoDup|]. split; [done|].
  intros x (g & _ & Hx)%Hin'. by induction Hx.
Qed.

(** ** The mutators made from the names *)

Definition registered (x : string) : option Mutator :=
  find_first (fun m => String.eqb (getUniqueIdentifier m) x) init_order.

Lemma assigns_find (l : list Mutator) mapping x :
  NoDup (map getUniqueIdentifier l) ->
  omap_find x (foldl (fun mapping m => addMutator m mapping) mapping l) =
  match find_first (fun m => String.eqb (getUniqueIdentifier m) x) l with
  | Some m => Some m
  | None => omap_find x mapping
  end.
Proof.
  revert mapping. induction l as [|m l IH]; intros mapping Hnd; [done|]. cbn [foldl find_first map] in *.
  apply NoDup_cons in Hnd as [Hm Hnd]. rewrite IH by done.
  destruct (String.eqb_spec (getUniqueIdentifier m) x) as [<-|Hne].
  - destruct (find_first _ l) as [m'|] eqn:E.
    + apply find_first_Some in E as [Hin Heq]. apply String.eqb_eq in Heq.
      exfalso. apply Hm. rewrite <-Heq. by apply (list_elem_of_fmap_2 getUniqueIdentifier).
    + apply omap_find_assign_eq.
  - destruct (find_first _ l); [done|]. by apply omap_find_assign_ne.
Qed.

Lemma init_order_NoDup : NoDup (map getUniqueIdentifier init_order).
Proof. apply (bool_decide_unpack _). by vm_compute. Qed.

(** What the object is between calls: the groups of the constructor, and no
    mutator that [init] does not register. *)
Definition factory_inv (f : MutatorsFactory) : Prop :=
  groupsMapping f = initial_groups /\ omap_wf (mutatorsMapping f) /\
  forall x m, omap_find x (mutatorsMapping f) = Some m -> registered x = Some m.

Lemma init_find f x : factory_inv f -> omap_find x (mutatorsMapping (init f)) = registered x.
Proof.
  intros (_ & _ & Hf). unfold init; cbn [mutatorsMapping]. rewrite assigns_find by apply init_order_NoDup.
  fold (registered x). destruct (registered x) eqn:E; [done|].
  destruct (omap_find x (mutatorsMapping f)) eqn:E'; [|done]. apply Hf in E'. congruence.
Qed.

Lemma init_wf f : factory_inv f -> omap_wf (mutatorsMapping (init f)).
Proof.
  intros (_ & Hwf & _). unfold init; cbn [mutatorsMapping]. revert Hwf.
  generalize (mutatorsMapping f) as mapping. induction init_order as [|m l IH]; intros mapping Hwf; [done|].
  cbn [foldl]. apply IH. by apply omap_wf_assign.
Qed.

Definition unknown_in {V} (mapping : list (string * V)) (x : string) : bool :=
  match omap_find x mapping with Some _ => false | None => true end.

Definition unknown_warning (x : string) : string := "Unknown mutator: " +:+ x.

(** Taking a mutator out leaves the others where they are. *)
Lemma omap_lookup_erase (mapping : MutatorsMapping) x l :
  omap_wf mapping -> x ∉ l ->
  omap (fun y => omap_find y (omap_erase x mapping)) l = omap (fun y => omap_find y mapping) l /\
  List.filter (unknown_in (omap_erase x mapping)) l = List.filter (unknown_in mapping) l.
Proof.
  intros Hwf. induction l as [|y l IH]; intros Hx; [done|].
  apply not_elem_of_cons in Hx as [Hne Hx]. destruct (IH Hx) as [IH1 IH2].
  assert (Hf : omap_find y (omap_erase x mapping) = omap_find y mapping)
    by (by apply omap_find_erase_ne).
  split.
  - cbn [omap list_omap]. rewrite Hf. destruct (omap_find y mapping); [f_equal|]; exact IH1.
  - cbn [List.filter]. rewrite IH2.
    assert (Hu : unknown_in (omap_erase x mapping) y = unknown_in mapping y) by (unfold unknown_in; by rewrite Hf).
    by rewrite Hu.
Qed.

(** The loop of [mutators] over the expanded names. *)
Definition taken (mapping : MutatorsMapping) (l : list string) : list Mutator :=
  omap (fun x => omap_find x mapping) l.

Lemma take_step ms mapping x l d :
  d_fold take_mutator (ms, mapping) (x :: l) d =
  match omap_find x mapping with
  | Some m => d_fold take_mutator (ms ++ [m], omap_erase x mapping) l d
  | None => (warning (unknown_warning x) ≫= fun _ => d_fold take_mutator (ms, mapping) l) d
  end.
Proof.
  cbn [d_fold]. rewrite D_bind_run. unfold take_mutator. destruct (omap_find x mapping); [done|].
  rewrite D_bind_run. unfold unknown_warning. rewrite D_bind_run.
  destruct (warning _ d) as [[[]|c|w] d']; done.
Qed.

Definition submapping (m1 m2 : MutatorsMapping) : Prop :=
  omap_wf m1 /\ forall x m, omap_find x m1 = Some m -> omap_find x m2 = Some m.

Lemma submapping_erase x (m1 m2 : MutatorsMapping) :
  submapping m1 m2 -> submapping (omap_erase x m1) m2.
Proof.
  intros [Hwf Hsub]. split; [auto with mull|]. intros y m Hy.
  destruct (decide (x = y)) as [<-|Hne]; [by rewrite omap_find_erase_eq in Hy|].
  rewrite omap_find_erase_ne in Hy by done. auto.
Qed.

(** Without unknown names the loop reports nothing. *)
Lemma take_all_known l ms mapping d :
  omap_wf mapping -> NoDup l -> List.filter (unknown_in mapping) l = [] ->
  exists mapping', d_fold take_mutator (ms, mapping) l d = (Ok (ms ++ taken mapping l, mapping'), d) /\
                   submapping mapping' mapping.
Proof.
  revert ms mapping. induction l as [|x l IH]; intros ms mapping Hwf Hnd Hk.
  - exists mapping. unfold taken; cbn. rewrite app_nil_r. by repeat split.
  - apply NoDup_cons in Hnd as [Hx Hnd]. rewrite take_step. cbn [List.filter] in Hk.
    unfold unknown_in at 1 in Hk. unfold taken; cbn [omap list_omap].
    destruct (omap_find x mapping) as [m|] eqn:E; [|done].
    destruct (omap_lookup_erase mapping x l Hwf Hx) as [H1 H2].
    destruct (IH (ms ++ [m]) (omap_erase x mapping)) as (mapping' & Hrun & Hsub);
      [auto with mull|done|by rewrite H2|].
    exists mapping'. rewrite Hrun. unfold taken. rewrite H1, <-app_assoc. split; [done|].
    destruct Hsub as [Hw Hs]. split; [done|]. intros y m' Hy. apply Hs in Hy.
    eapply (submapping_erase x mapping mapping); [by split|exact Hy].
Qed.

(** Lenient: one warning per unknown name. *)
Lemma take_lenient l ms mapping d :
  omap_wf mapping -> NoDup l -> strictModeEnabled d = false ->
  exists mapping' d',
    d_fold take_mutator (ms, mapping) l d = (Ok (ms ++ taken mapping l, mapping'), d') /\
    submapping mapping' mapping /\ strictModeEnabled d' = false /\
    warnings d' = warnings d ++ map unknown_warning (List.filter (unknown_in mapping) l).
Proof.
  revert ms mapping d. induction l as [|x l IH]; intros ms mapping d Hwf Hnd Hd.
  - exists mapping, d. unfold taken; cbn. rewrite !app_nil_r. by repeat split.
  - apply NoDup_cons in Hnd as [Hx Hnd]. rewrite take_step. cbn [List.filter].
    unfold unknown_in at 1. unfold taken; cbn [omap list_omap].
    destruct (omap_find x mapping) as [m|] eqn:E.
    + destruct (omap_lookup_erase mapping x l Hwf Hx) as [H1 H2].
      destruct (IH (ms ++ [m]) (omap_erase x mapping) d) as (mapping' & d' & Hrun & [Hw Hs] & Hst & Hwn);
        [auto with mull|done|done|].
      exists mapping', d'. rewrite Hrun, Hwn, H2. unfold taken. rewrite H1, <-app_assoc.
      split; [done|]. split; [|done]. split; [done|]. intros y m' Hy. apply Hs in Hy.
      eapply (submapping_erase x mapping mapping); [by split|exact Hy].
    + destruct (warning_lenient (unknown_warning x) d Hd) as (d1 & Hw & Hst & Hwn).
      rewrite D_bind_run, Hw. destruct (IH ms mapping d1 Hwf Hnd Hst) as (mapping' & d' & Hrun & Hsub & Hst' & Hwn').
      exists mapping', d'. rewrite Hrun, Hwn', Hwn. cbn [map]. rewrite <-app_assoc. done.
Qed.

(** Strict: the first unknown name ends the process. *)
Lemma take_strict l ms mapping d :
  omap_wf mapping -> NoDup l -> strictModeEnabled d = true -> List.filter (unknown_in mapping) l <> [] ->
  exists d', d_fold take_mutator (ms, mapping) l d = (Exit 1, d').
Proof.
  revert ms mapping. induction l as [|x l IH]; intros ms mapping Hwf Hnd Hd Hu; [done|].
  apply NoDup_cons in Hnd as [Hx Hnd]. rewrite take_step. cbn [List.filter] in Hu.
  unfold unknown_in at 1 in Hu. destruct (omap_find x mapping) as [m|] eqn:E.
  - destruct (omap_lookup_erase mapping x l Hwf Hx) as [H1 H2].
    apply IH; [auto with mull|done|done|by rewrite H2].
  - destruct (warning_strict (unknown_warning x) d Hd) as [d' Hw]. rewrite D_bind_run, Hw. eauto.
Qed.

Definition requested (groups : list string) : list string :=
  match groups with [] => [CXX_Default] | _ => groups end.

Definition is_unknown (x : string) : bool :=
  match registered x with Some _ => false | None => true end.

Definition nothing_valid (ms : list Mutator) : list string :=
  match ms with [] => ["No valid mutators specified."] | _ => [] end.

Lemma init_taken f l : factory_inv f ->
  taken (mutatorsMapping (init f)) l = omap registered l /\
  List.filter (unknown_in (mutatorsMapping (init f))) l = List.filter is_unknown l.
Proof.
  intros Hf. unfold taken. induction l as [|x l [IH1 IH2]]; [done|]. split.
  - cbn [omap list_omap]. rewrite init_find by done. destruct (registered x); [f_equal|]; exact IH1.
  - cbn [List.filter]. rewrite IH2. unfold unknown_in at 1, is_unknown at 2. by rewrite init_find.
Qed.

Lemma factory_inv_new : factory_inv newMutatorsFactory.
Proof. split; [done|]. split; [apply omap_wf_nil|done]. Qed.

Lemma factory_inv_after f mapping' :
  factory_inv f -> submapping mapping' (mutatorsMapping (init f)) ->
  factory_inv (mkFactory mapping' (groupsMapping (init f))).
Proof.
  intros Hf [Hw Hs]. split; [apply Hf|]. split; [done|]. cbn [mutatorsMapping]. intros x m Hx.
  apply Hs in Hx. by rewrite init_find in Hx.
Qed.

(** What [mutators] runs: expansion, then the loop, then the last warning. *)
Lemma mutators_run f groups r d :
  factory_inv f -> expandGroups expansion_depth initial_groups (requested groups) [] = Ok r ->
  mutators f groups d =
  (d_fold take_mutator ([], mutatorsMapping (init f)) r ≫= fun acc =>
     let '(ms, mapping) := acc in
     _ ← match ms with [] => warning "No valid mutators specified." | _ => mret tt end;
     mret (ms, mkFactory mapping (groupsMapping (init f)))) d.
Proof.
  intros (Hg & _) Hr. unfold mutators. rewrite D_bind_run. unfold lift.
  replace (groupsMapping (init f)) with initial_groups by (by rewrite <-Hg).
  fold (requested groups). by rewrite Hr.
Qed.

Lemma expanded_NoDup groups r :
  expandGroups expansion_depth initial_groups groups [] = Ok r -> NoDup r.
Proof. intros Hr. apply oset_wf_NoDup. by apply (expandGroups_spec _ _ _ _ _ (SSorted_nil _) Hr). Qed.

(** Known names only: nothing is reported, in either mode. *)
Lemma mutators_known f groups r d :
  factory_inv f -> expandGroups expansion_depth initial_groups (requested groups) [] = Ok r ->
  List.filter is_unknown r = [] -> r <> [] ->
  exists f', mutators f groups d = (Ok (omap registered r, f'), d) /\ factory_inv f'.
Proof.
  intros Hf Hr Hk Hne. destruct (init_taken f r Hf) as [Ht Hu].
  rewrite (mutators_run f groups r d Hf Hr), D_bind_run.
  destruct (take_all_known r [] _ d (init_wf f Hf) (expanded_NoDup _ _ Hr)) as (mapping' & Hrun & Hsub);
    [by rewrite Hu|].
  rewrite Ht in Hrun. cbn [app] in Hrun. rewrite Hrun.
  pose proof (factory_inv_after f mapping' Hf Hsub) as Hf'.
  destruct r as [|x r]; [done|]. cbn in Hk. unfold is_unknown at 1 in Hk.
  cbn [omap list_omap]. destruct (registered x); [|done]. eexists. split; [reflexivity|exact Hf'].
Qed.

Lemma registered_names l :
  map getUniqueIdentifier (omap registered l) = List.filter (fun x => negb (is_unknown x)) l.
Proof.
  induction l as [|x l IH]; [done|]. cbn [omap list_omap List.filter]. unfold is_unknown at 1.
  destruct (registered x) as [m|] eqn:E; [|exact IH]. cbn [map negb]. rewrite IH. f_equal.
  apply find_first_Some in E as [_ E]. by bool_to_prop.
Qed.

(** C36: on any factory, used before or not, [mutators] yields
    the registered mutators among the expanded names, in the order of that sorted
    set: their identifiers are the names of the set that are known; and it leaves a usable factory; each name that is no mutator is reported once, and
    an empty result is reported last.  (Warnings are not fatal here.) *)
Theorem mutators_lenient f groups d :
  factory_inv f -> strictModeEnabled d = false ->
  exists r f' d',
    expandGroups expansion_depth initial_groups (requested groups) [] = Ok r /\ oset_wf r /\
    mutators f groups d = (Ok (omap registered r, f'), d') /\ factory_inv f' /\
    map getUniqueIdentifier (omap registered r) = List.filter (fun x => negb (is_unknown x)) r /\
    warnings d' = warnings d ++ map unknown_warning (List.filter is_unknown r) ++
                  nothing_valid (omap registered r).
Proof.
  intros Hf Hd. destruct (expandGroups_initial (requested groups) []) as [r Hr].
  destruct (expandGroups_spec _ _ _ _ _ (SSorted_nil _) Hr) as [Hwf _].
  pose proof (expanded_NoDup _ _ Hr) as Hnd. destruct (init_taken f r Hf) as [Ht Hu].
  destruct (take_lenient r [] _ d (init_wf f Hf) Hnd Hd) as (mapping' & d1 & Hrun & Hsub & Hst & Hwn).
  rewrite Ht in Hrun. rewrite Hu in Hwn. cbn [app] in Hrun.
  pose proof (factory_inv_after f mapping' Hf Hsub) as Hf'.
  exists r. rewrite (mutators_run f groups r d Hf Hr), D_bind_run, Hrun. rewrite <-registered_names.
  destruct (omap registered r) as [|m ms] eqn:Ems.
  - destruct (warning_lenient "No valid mutators specified." d1 Hst) as (d2 & Hw & _ & Hwn2).
    eexists _, d2. split; [done|]. split; [done|]. rewrite D_bind_run, Hw. split; [reflexivity|]. split; [done|]. split; [done|].
    rewrite Hwn2, Hwn. by rewrite <-app_assoc.
  - eexists _, d1. split; [done|]. split; [done|]. split; [reflexivity|]. split; [done|]. split; [done|].
    cbn [nothing_valid]. by rewrite app_nil_r.
Qed.

(** Under strict mode a name that is no mutator, or a
    selection that comes out empty, ends the process with status 1, and
    otherwise the result is the same and nothing is reported. *)
Theorem mutators_strict f groups d :
  factory_inv f -> strictModeEnabled d = true ->
  exists r, expandGroups expansion_depth initial_groups (requested groups) [] = Ok r /\
    if forallb (fun x => negb (is_unknown x)) r && negb (bool_decide (r = []))
    then exists f', mutators f groups d = (Ok (omap registered r, f'), d) /\ factory_inv f'
    else exists d', mutators f groups d = (Exit 1, d').
Proof.
  intros Hf Hd. destruct (expandGroups_initial (requested groups) []) as [r Hr]. exists r. split; [done|].
  pose proof (expanded_NoDup _ _ Hr) as Hnd. destruct (init_taken f r Hf) as [Ht Hu].
  destruct (forallb (fun x => negb (is_unknown x)) r) eqn:Eall; cbn [andb].
  - assert (Hnone : List.filter is_unknown r = []).
    { clear -Eall. induction r as [|x r IH]; [done|]. cbn in *. apply andb_true_iff in Eall as [Hx Hr].
      apply negb_true_iff in Hx. rewrite Hx. auto. }
    destruct (decide (r = [])) as [->|Hne].
    + rewrite bool_decide_eq_true_2 by done. rewrite (mutators_run f groups [] d Hf Hr), D_bind_run. cbn [d_fold mret D_ret].
      destruct (warning_strict "No valid mutators specified." d Hd) as [d' Hw]. exists d'. cbn [omap list_omap]. by rewrite D_bind_run, Hw.
    + rewrite bool_decide_eq_false_2 by done. by apply mutators_known.
  - rewrite (mutators_run f groups r d Hf Hr), D_bind_run.
    destruct (take_strict r [] _ d (init_wf f Hf) Hnd Hd) as [d' ->]; [|eauto].
    rewrite Hu. intros Hnone. apply not_true_iff_false in Eall. apply Eall, forallb_elem.
    intros x Hx. apply negb_true_iff. destruct (is_unknown x) eqn:E; [|done].
    assert (Hin : In x (List.filter is_unknown r)) by (apply filter_In; split; [by apply list_elem_of_In|done]).
    by rewrite Hnone in Hin.
Qed.

(** ** The group of everything, and the help text *)

Definition all_names : list string :=
  match expandGroups expansion_depth initial_groups [AllMutatorsGroup] [] with Ok r => r | _ => [] end.

Lemma all_names_expand :
  expandGroups expansion_depth initial_groups (requested [AllMutatorsGroup]) [] = Ok all_names.
Proof. unfold all_names. cbn [requested]. by destruct (expandGroups_initial [AllMutatorsGroup] []) as [r ->]. Qed.

Lemma all_names_known : List.filter is_unknown all_names = [].
Proof. by vm_compute. Qed.

Lemma all_mutators_nonempty : omap registered all_names <> [].
Proof.
  assert (H : match omap registered all_names with [] => false | _ => true end = true)
    by (vm_compute; reflexivity).
  by destruct (omap registered all_names).
Qed.

Lemma mutators_all_run f d : factory_inv f ->
  exists f', mutators f [AllMutatorsGroup] d = (Ok (omap registered all_names, f'), d) /\ factory_inv f'.
Proof.
  intros Hf. apply (mutators_known f _ _ d Hf all_names_expand all_names_known).
  intros He. by apply all_mutators_nonempty; rewrite He.
Qed.

Lemma all_mutators_shipped : omap registered all_names ≡ₚ shipped_mutators.
Proof.
  apply NoDup_Permutation.
  - apply (bool_decide_unpack _). by vm_compute.
  - apply (bool_decide_unpack _). by vm_compute.
  - intros m.
    assert (H1 : forallb (fun m => bool_decide (m ∈ shipped_mutators)) (omap registered all_names) = true)
      by (vm_compute; reflexivity).
    assert (H2 : forallb (fun m => bool_decide (m ∈ omap registered all_names)) shipped_mutators = true)
      by (vm_compute; reflexivity).
    rewrite forallb_elem in H1, H2. split; intros Hm.
    + by apply (bool_decide_eq_true_1 _ (H1 m Hm)).
    + by apply (bool_decide_eq_true_1 _ (H2 m Hm)).
Qed.

(** The group "all" reaches every mutator mull ships,
    each once, without a warning, however often the factory was used. *)
Theorem all_group_is_complete f d :
  factory_inv f ->
  exists ms f', mutators f [AllMutatorsGroup] d = (Ok (ms, f'), d) /\ factory_inv f' /\
    ms ≡ₚ shipped_mutators.
Proof.
  intros Hf. destruct (mutators_all_run f d Hf) as (f' & Hrun & Hf').
  exists (omap registered all_names), f'. split; [done|]. split; [done|]. apply all_mutators_shipped.
Qed.

Lemma descriptionForGroup_concat l : l <> [] -> descriptionForGroup l = String.concat ", " l.
Proof.
  destruct l as [|x l]; [done|]. intros _. revert x. induction l as [|y l IH]; intros x; [done|].
  specialize (IH y). unfold descriptionForGroup in *.
  change (removelast (x :: y :: l)) with (x :: removelast (y :: l)).
  change (last (x :: y :: l)) with (last (y :: l)).
  change (String.concat ", " (x :: y :: l)) with (x +:+ ", " +:+ String.concat ", " (y :: l)).
  rewrite <-IH. cbn [foldr]. by rewrite !string_app_assoc.
Qed.

Lemma initial_groups_nonempty g members : omap_find g initial_groups = Some members -> members <> [].
Proof.
  intros Hg%omap_find_elem.
  assert (H : forallb (fun e => match snd e with [] => false | _ => true end) initial_groups = true)
    by (vm_compute; reflexivity).
  rewrite forallb_elem in H. specialize (H _ Hg). by destruct members.
Qed.

(** The options offered on the command line list every
    group with its members, comma separated, and every mutator with its
    description, and no name twice. *)
Theorem commandLineOptions_complete f d :
  factory_inv f ->
  exists options f', commandLineOptions f d = (Ok (options, f'), d) /\ factory_inv f' /\
    (forall g members, omap_find g initial_groups = Some members ->
       (g, String.concat ", " members) ∈ options) /\
    (forall m, m ∈ shipped_mutators -> (getUniqueIdentifier m, getDescription m) ∈ options) /\
    NoDup (map fst options).
Proof.
  intros Hf. destruct (mutators_all_run f d Hf) as (f' & Hrun & Hf').
  assert (Hg : groupsMapping f = initial_groups) by apply Hf.
  eexists _, f'. split; [|split; [exact Hf'|]].
  - unfold commandLineOptions. rewrite D_bind_run. unfold lift. rewrite Hg.
    destruct (expandGroups_initial [AllMutatorsGroup] []) as [r ->]. rewrite D_bind_run, Hrun. reflexivity.
  - split; [|split].
    + intros g members Hfind. apply elem_of_app. left. apply list_elem_of_fmap.
      exists (g, members). split; [|by apply omap_find_elem]. cbn [fst snd]. f_equal. symmetry.
      apply descriptionForGroup_concat. by apply (initial_groups_nonempty g).
    + intros m Hm. apply elem_of_app. right. apply list_elem_of_fmap. exists m. split; [done|].
      by rewrite all_mutators_shipped.
    + rewrite map_app. apply (bool_decide_unpack _). vm_compute. exact I.
Qed.

(** ** Witnesses *)
Lemma mutators_lenient_witness :
  factory_inv newMutatorsFactory /\ exists r f' d',
    expandGroups expansion_depth initial_groups ["cxx_logical"; "typo"] [] = Ok r /\ oset_wf r /\
    mutators newMutatorsFactory ["cxx_logical"; "typo"] newDiagnostics = (Ok (omap registered r, f'), d') /\
    factory_inv f' /\ map getUniqueIdentifier (omap registered r) = List.filter (fun x => negb (is_unknown x)) r /\
    warnings d' = warnings newDiagnostics ++ map unknown_warning (List.filter is_unknown r) ++
                  nothing_valid (omap registered r).
Proof.
  split; [apply factory_inv_new|].
  apply (mutators_lenient newMutatorsFactory ["cxx_logical"; "typo"] newDiagnostics);
    [apply factory_inv_new|reflexivity].
Defined.

Definition strict_diagnostics : Diagnostics := mkDiagnostics false false true [].

Lemma mutators_strict_witness :
  exists r, expandGroups expansion_depth initial_groups ["typo"] [] = Ok r /\
    if forallb (fun x => negb (is_unknown x)) r && negb (bool_decide (r = []))
    then exists f', mutators newMutatorsFactory ["typo"] strict_diagnostics =
                    (Ok (omap registered r, f'), strict_diagnostics) /\ factory_inv f'
    else exists d', mutators newMutatorsFactory ["typo"] strict_diagnostics = (Exit 1, d').
Proof.
  apply (mutators_strict newMutatorsFactory ["typo"] strict_diagnostics);
    [apply factory_inv_new|reflexivity].
Defined.

Lemma all_group_is_complete_witness :
  exists ms f', mutators newMutatorsFactory [AllMutatorsGroup] newDiagnostics = (Ok (ms, f'), newDiagnostics) /\
    factory_inv f' /\ ms ≡ₚ shipped_mutators.
Proof. apply (all_group_is_complete newMutatorsFactory newDiagnostics), factory_inv_new. Defined.

Lemma commandLineOptions_complete_witness :
  exists options f', commandLineOptions newMutatorsFactory newDiagnostics = (Ok (options, f'), newDiagnostics) /\
    factory_inv f' /\
    (forall g members, omap_find g initial_groups = Some members ->
       (g, String.concat ", " members) ∈ options) /\
    (forall m, m ∈ shipped_mutators -> (getUniqueIdentifier m, getDescription m) ∈ options) /\
    NoDup (map fst options).
Proof. apply (commandLineOptions_complete newMutatorsFactory newDiagnostics), factory_inv_new. Defined.
