(* ===== verification/CallTree.v ===== *)
(** * The dynamic call tree (lib/Instrumentation/DynamicCallTree.cpp)

    The instrumented program records, in an array shared with mull, for every
    function the function that first called it; from the array mull builds a
    tree and reads off which functions a test reaches, and at which distance.

    The array [mapping] and the vector [functions] are lists; the nodes of the
    tree are heap objects, found by an identity.  A node is created for a
    function at most once, so its identity is the function's index, and the
    root that stands for no function is node 0.  The recursion that builds the
    tree and the loops over queues carry fuel; the theorems show that as much
    fuel as there are functions is enough. *)

From stdpp Require Import base list strings sets gmap.
From Stdlib Require Import ZArith Lia Bool.
From S2P Require Import Prelude IR MutationPoint Reachable.

(** ** Recording: the callbacks *)

(** [InstrumentationInfo] *)
Record InstrumentationInfo := mkInfo {
  callTreeMapping : list nat;
  callstack : list nat
}.

Definition enterFunction (functionIndex : nat) (info : InstrumentationInfo) : outcome InstrumentationInfo :=
  _ ← require (negb (Nat.eqb functionIndex 0)) "functionIndex != 0";
  called ← of_option "write outside of the mapping" (callTreeMapping info !! functionIndex);
  let mapping :=
    match callstack info with
    | [] => <[functionIndex := functionIndex]> (callTreeMapping info)
    | parent :: _ =>
        if Nat.eqb called 0 then <[functionIndex := parent]> (callTreeMapping info)
        else callTreeMapping info
    end in
  mret (mkInfo mapping (functionIndex :: callstack info)).

Definition leaveFunction (functionIndex : nat) (info : InstrumentationInfo) : outcome InstrumentationInfo :=
  _ ← require (negb (Nat.eqb functionIndex 0)) "functionIndex != 0";
  match callstack info with
  | [] => Abort "pop of an empty stack"
  | _ :: rest => mret (mkInfo (callTreeMapping info) rest)
  end.

Inductive CallEvent := Enter (functionIndex : nat) | Leave (functionIndex : nat).

Definition callback (info : InstrumentationInfo) (e : CallEvent) : outcome InstrumentationInfo :=
  match e with
  | Enter i => enterFunction i info
  | Leave i => leaveFunction i info
  end.

(** [setupInstrumentationInfo]: zeroed memory. *)
Definition zeroed (size : nat) : InstrumentationInfo := mkInfo (replicate size 0) [].

(** ** Building the tree *)
Record CallTree := mkCallTree {
  ct_function : option Function;
  ct_level : Z;
  ct_functionsIndex : nat;
  ct_children : list nat
}.

Definition newCallTree (f : option Function) : CallTree := mkCallTree f 0 0 [].

Record CallTreeFunction := mkCallTreeFunction {
  ctf_function : option Function;
  ctf_treeRoot : option nat
}.

(** The vector, the array and the nodes while the tree is built. *)
Record TreeState := mkTreeState {
  ts_functions : list CallTreeFunction;
  ts_mapping : list nat;
  ts_nodes : gmap nat CallTree
}.

Definition set_treeRoot (i : nat) (f : CallTreeFunction) (fs : list CallTreeFunction) : list CallTreeFunction :=
  <[i := mkCallTreeFunction (ctf_function f) (Some i)]> fs.

Definition attach (child parent : nat) (node root : CallTree) (nodes : gmap nat CallTree) : gmap nat CallTree :=
  let node := mkCallTree (ct_function node) (ct_level root + 1) child (ct_children node) in
  let root := mkCallTree (ct_function root) (ct_level root) (ct_functionsIndex root)
                (ct_children root ++ [child]) in
  <[parent := root]> (<[child := node]> nodes).

Fixpoint fillInCallTree (fuel : nat) (st : TreeState) (functionIndex : nat) : outcome TreeState :=
  match fuel with
  | O => Abort "stack overflow"
  | S fuel =>
      function ← of_option "functionIndex < functions.size()" (ts_functions st !! functionIndex);
      parent ← of_option "read outside of the mapping" (ts_mapping st !! functionIndex);
      if Nat.eqb parent 0 then mret st
      else
        let parent := if Nat.eqb parent functionIndex then 0 else parent in
        let node := newCallTree (ctf_function function) in
        let st := mkTreeState (set_treeRoot functionIndex function (ts_functions st))
                    (ts_mapping st) (<[functionIndex := node]> (ts_nodes st)) in
        st ← fillInCallTree fuel st parent;
        root ← of_option "functions[parent]" (ts_functions st !! parent);
        rootIndex ← of_option "root.treeRoot" (ctf_treeRoot root);
        rootNode ← of_option "dangling treeRoot" (ts_nodes st !! rootIndex);
        node ← of_option "dangling node" (ts_nodes st !! functionIndex);
        mret (mkTreeState (ts_functions st) (<[functionIndex := 0]> (ts_mapping st))
                (attach functionIndex rootIndex node rootNode (ts_nodes st)))
  end.

Definition createCallTree (mapping : list nat) (functions : list CallTreeFunction) : outcome TreeState :=
  first ← of_option "!functions.empty()" (functions !! 0);
  _ ← require (bool_decide (mapping !! 0 = Some 0)) "mapping[0] == 0";
  _ ← require (match ctf_function first with None => true | _ => false end)
        "functions.begin()->function == nullptr";
  _ ← require (match ctf_treeRoot first with None => true | _ => false end)
        "functions.begin()->treeRoot == nullptr";
  let phonyRoot := newCallTree None in
  let st := mkTreeState (set_treeRoot 0 first functions) mapping {[0 := phonyRoot]} in
  fold_outcome (fillInCallTree (length functions)) st (seq 1 (length functions - 1)).

(** ** Reading the tree *)

(** The loop over a queue of nodes, [visit] giving what a node adds to the
    result and whether its children are queued. *)
Fixpoint walk {A} (fuel : nat) (nodes : gmap nat CallTree) (visit : nat -> CallTree -> list A * bool)
    (queue : list nat) (acc : list A) : outcome (list A) :=
  match queue with
  | [] => mret acc
  | front :: queue =>
      match fuel with
      | O => Abort "out of fuel"
      | S fuel =>
          node ← of_option "dangling node" (nodes !! front);
          let '(found, descend) := visit front node in
          walk fuel nodes visit (queue ++ (if descend : bool then ct_children node else [])) (acc ++ found)
      end
  end.

Definition same_function (f : option Function) (g : Function) : bool :=
  match f with Some f => Nat.eqb (fn_id f) (fn_id g) | None => false end.

Definition extractTestSubtrees (nodes : gmap nat CallTree) (root : nat) (testBody : Function) : outcome (list nat) :=
  walk (size nodes) nodes
    (fun i node => (if same_function (ct_function node) testBody then [i] else [], true)) [root] [].

(** A function whose node is the phony root has no function: mull would build
    a [ReachableFunction] on a null pointer, which the test body excludes. *)
Definition visit_reachable (test : TestId) (offset maxDistance : Z) (node : CallTree)
    : list (option Function * TestId * Z) * bool :=
  let distance := (ct_level node - offset)%Z in
  ([(ct_function node, test, distance)], (distance <? maxDistance)%Z).

Definition createReachableFunctions (nodes : gmap nat CallTree) (subtrees : list nat) (test : TestId)
    (maxDistance : Z) : outcome (list (option Function * TestId * Z)) :=
  fold_outcome (fun acc root =>
    node ← of_option "dangling node" (nodes !! root);
    walk (size nodes) nodes (fun _ => visit_reachable test (ct_level node) maxDistance) [root] acc)
    [] subtrees.

(** [Instrumentation::getReachableFunctions] *)
Definition getReachableFunctions (functions : list CallTreeFunction) (mapping : list nat)
    (test : TestId) (testBody : Function) (distance : Z) : outcome (list (option Function * TestId * Z)) :=
  tree ← createCallTree mapping functions;
  subtrees ← extractTestSubtrees (ts_nodes tree) 0 testBody;
  createReachableFunctions (ts_nodes tree) subtrees test distance.

(** ** The array the callbacks leave *)

(** [history] lists the functions in the order they were first called. *)
Record recorded (n : nat) (mapping : list nat) (history : list nat) : Prop := {
  rec_length : length mapping = n;
  rec_zero : mapping !! 0 = Some 0;
  rec_NoDup : NoDup history;
  rec_history i : i ∈ history <-> exists p, mapping !! i = Some p /\ p <> 0;
  rec_parent i p : mapping !! i = Some p -> p <> 0 -> p = i \/
    exists j k, history !! j = Some p /\ history !! k = Some i /\ j < k
}.

Definition info_inv (n : nat) (info : InstrumentationInfo) : Prop :=
  exists history, recorded n (callTreeMapping info) history /\ Forall (fun i => i ∈ history) (callstack info).

Lemma zeroed_inv n : 0 < n -> info_inv n (zeroed n).
Proof.
  intros Hn. exists []. split; [|constructor]. split; simpl.
  - apply length_replicate.
  - by apply lookup_replicate_2.
  - constructor.
  - intros i. split; [intros H; by apply not_elem_of_nil in H|].
    intros (p & Hp & Hne). apply lookup_replicate in Hp as [-> _]. done.
  - intros i p Hp Hne. apply lookup_replicate in Hp as [-> _]. done.
Qed.

Lemma history_lookup_snoc (h : list nat) j x y :
  h !! j = Some x -> (h ++ [y]) !! j = Some x.
Proof. intros Hj. by rewrite lookup_app_l by (eapply lookup_lt_Some; eauto). Qed.

(** Writing its own index at a function called before changes nothing. *)
Lemma recorded_again n m h i :
  recorded n m h -> i < length m -> i ∈ h -> i <> 0 -> recorded n (<[i:=i]> m) h.
Proof.
  intros [Hlen Hz Hnd Hh Hp] Hlt Hin Hi. split.
  - by rewrite length_insert.
  - by rewrite list_lookup_insert_ne.
  - done.
  - intros j. destruct (decide (i = j)) as [<-|Hne]; [|by rewrite list_lookup_insert_ne].
    rewrite list_lookup_insert_eq by done. split; eauto.
  - intros j p. destruct (decide (i = j)) as [<-|Hne].
    + rewrite list_lookup_insert_eq by done. intros [= ->]. by left.
    + rewrite list_lookup_insert_ne by done. apply Hp.
Qed.

(** A first call writes the caller, or the function itself, and extends the
    history. *)
Lemma recorded_first n m h i v :
  recorded n m h -> m !! i = Some 0 -> i <> 0 -> v <> 0 -> (v = i \/ v ∈ h) -> recorded n (<[i:=v]> m) (h ++ [i]).
Proof.
  intros [Hlen Hz Hnd Hh Hp] Ei Hi Hv Hvi. pose proof (lookup_lt_Some _ _ _ Ei) as Hlt.
  assert (Hni : i ∉ h). { rewrite Hh. intros (p & Hpi & Hpne). rewrite Ei in Hpi. congruence. }
  split.
  - by rewrite length_insert.
  - by rewrite list_lookup_insert_ne.
  - apply NoDup_app. split; [done|]. split; [|apply NoDup_singleton].
    intros x Hx ->%list_elem_of_singleton. done.
  - intros j. rewrite elem_of_app, list_elem_of_singleton, Hh. destruct (decide (i = j)) as [<-|Hne].
    + rewrite list_lookup_insert_eq by done. split; eauto.
    + rewrite list_lookup_insert_ne by done. split; [intros [?|?]; [done|congruence]|auto].
  - intros j p. destruct (decide (i = j)) as [<-|Hne].
    + rewrite list_lookup_insert_eq by done. intros [= ->] _. destruct Hvi as [->|Hv'%list_elem_of_lookup]; [by left|].
      destruct Hv' as [k Hk]. right. exists k, (length h). split; [by apply history_lookup_snoc|].
      split; [by rewrite list_lookup_middle by done|]. by eapply lookup_lt_Some.
    + rewrite list_lookup_insert_ne by done. intros Hj Hpne.
      destruct (Hp j p Hj Hpne) as [->|(a & b & Ha & Hb & Hab)]; [by left|].
      right. exists a, b. eauto using history_lookup_snoc.
Qed.

Lemma enterFunction_inv n i info info' :
  info_inv n info -> enterFunction i info = Ok info' -> info_inv n info'.
Proof.
  intros (h & Hrec & Hst) Hrun. unfold enterFunction in Hrun.
  apply bind_Ok in Hrun as ([] & Hi%require_Ok & Hrun). apply negb_true_iff, Nat.eqb_neq in Hi.
  apply bind_Ok in Hrun as (called & Hc & [= <-]).
  destruct (callTreeMapping info !! i) as [c|] eqn:Ei; [|done]. injection Hc as ->.
  pose proof (lookup_lt_Some _ _ _ Ei) as Hlt. pose proof (rec_history _ _ _ Hrec) as Hh.
  assert (Hin : called <> 0 -> i ∈ h) by (intros; apply Hh; eauto).
  destruct (callstack info) as [|parent rest] eqn:Es.
  - destruct (decide (called = 0)) as [->|Hc0].
    + exists (h ++ [i]). split; [apply recorded_first; auto|]. repeat constructor. set_solver.
    + exists h. split; [by apply recorded_again; auto|]. repeat constructor. auto.
  - apply Forall_cons in Hst as [Hpar Hrest]. destruct (Nat.eqb_spec called 0) as [->|Hc0].
    + exists (h ++ [i]). split.
      * apply recorded_first; [done..| |by right]. intros ->. apply Hh in Hpar as (p & Hp0 & ?).
        pose proof (rec_zero _ _ _ Hrec). congruence.
      * cbn [callstack]. constructor; [set_solver|]. constructor; [set_solver|].
        eapply Forall_impl; [exact Hrest|]. set_solver.
    + exists h. split; [done|]. cbn [callstack]. constructor; [auto|]. by constructor.
Qed.

Lemma leaveFunction_inv n i info info' :
  info_inv n info -> leaveFunction i info = Ok info' -> info_inv n info'.
Proof.
  intros (h & Hrec & Hst) Hrun. unfold leaveFunction in Hrun.
  apply bind_Ok in Hrun as ([] & _ & Hrun). destruct (callstack info) as [|x rest]; [done|].
  injection Hrun as <-. exists h. split; [done|]. by apply Forall_cons in Hst as [_ ?].
Qed.

Lemma callbacks_inv n events info info' :
  info_inv n info -> fold_outcome callback info events = Ok info' -> info_inv n info'.
Proof.
  intros Hinv. apply fold_outcome_inv; [|done]. intros s e s' _ Hs.
  destruct e; [by apply enterFunction_inv|by apply leaveFunction_inv].
Qed.

(** ** What the array says: the parent of a function *)

Definition par (mapping : list nat) (i : nat) : nat :=
  match mapping !! i with
  | Some p => if Nat.eqb p i then 0 else p
  | None => 0
  end.

Definition called (mapping : list nat) (i : nat) : Prop :=
  exists p, mapping !! i = Some p /\ p <> 0.

Section Recorded.
Context (n : nat) (m0 : list nat) (history : list nat).
Hypothesis R : recorded n m0 history.

Lemma called_history i : called m0 i <-> i ∈ history.
Proof using R. symmetry. apply (rec_history _ _ _ R). Qed.

Lemma called_nonzero i : called m0 i -> i <> 0.
Proof using R. intros (p & Hp & Hne) ->. rewrite (rec_zero _ _ _ R) in Hp. congruence. Qed.

Lemma called_lt i : called m0 i -> i < n.
Proof using R. intros (p & Hp & _). rewrite <-(rec_length _ _ _ R). by eapply lookup_lt_Some. Qed.

Definition rank (i : nat) : nat :=
  if Nat.eqb i 0 then 0 else S (getIndex (fun j => Nat.eqb j i) history).

Lemma history_index i j : history !! j = Some i -> getIndex (fun x => Nat.eqb x i) history = j.
Proof using R.
  intros Hj. destruct (getIndex_id (fun x => x) history i) as [Hl _].
  - rewrite map_id. apply (rec_NoDup _ _ _ R).
  - by eapply list_elem_of_lookup_2.
  - eapply NoDup_lookup; [apply (rec_NoDup _ _ _ R)|exact Hl|exact Hj].
Qed.

Lemma par_called i : called m0 i -> par m0 i = 0 \/ called m0 (par m0 i).
Proof using R.
  intros (p & Hp & Hne). unfold par. rewrite Hp. destruct (Nat.eqb_spec p i) as [->|Hpi]; [by left|].
  right. destruct (rec_parent _ _ _ R i p Hp Hne) as [?|(j & k & Hj & _ & _)]; [done|].
  apply called_history. by eapply list_elem_of_lookup_2.
Qed.

Lemma rank_par i : called m0 i -> rank (par m0 i) < rank i.
Proof using R.
  intros Hc. pose proof (called_nonzero i Hc) as Hi0. destruct Hc as (p & Hp & Hne). unfold par, rank. rewrite Hp.
  destruct (Nat.eqb_spec i 0); [done|]. destruct (Nat.eqb_spec p i) as [->|Hpi]; [simpl; lia|].
  destruct (Nat.eqb_spec p 0); [lia|].
  destruct (rec_parent _ _ _ R i p Hp Hne) as [?|(j & k & Hj & Hk & Hjk)]; [done|].
  rewrite (history_index _ _ Hj), (history_index _ _ Hk). lia.
Qed.

Lemma history_length : length history < n.
Proof using R.
  assert (Hn : 0 < n) by (rewrite <-(rec_length _ _ _ R); eapply lookup_lt_Some; apply (rec_zero _ _ _ R)).
  assert (Hle : length history <= length (seq 1 (n - 1))).
  { apply NoDup_incl_length.
    - apply NoDup_ListNoDup, (rec_NoDup _ _ _ R).
    - intros i Hi%list_elem_of_In. apply in_seq. apply called_history in Hi.
      pose proof (called_nonzero i Hi). pose proof (called_lt i Hi). lia. }
  rewrite length_seq in Hle. lia.
Qed.

Lemma rank_lt i : i = 0 \/ called m0 i -> rank i < n.
Proof using R.
  intros Hi. pose proof history_length. unfold rank. destruct (Nat.eqb_spec i 0); [lia|].
  destruct Hi as [?|Hi]; [done|]. apply called_history in Hi.
  destruct (getIndex_id (fun x => x) history i) as [_ Hl]; [|done|lia].
  rewrite map_id. apply (rec_NoDup _ _ _ R).
Qed.

(** ** Building the tree *)
Context (fs0 : list CallTreeFunction).
Hypothesis Hfs0 : length fs0 = n.

Definition fn0 (i : nat) : option Function := fs0 !! i ≫= ctf_function.

(** The node of [i] when the functions in [D] have theirs. *)
Definition node_ok (D : gset nat) (nodes : gmap nat CallTree) (i : nat) : Prop :=
  exists node, nodes !! i = Some node /\ ct_function node = fn0 i /\ ct_functionsIndex node = i /\
    NoDup (ct_children node) /\ (forall j, j ∈ ct_children node <-> j ∈ D /\ par m0 j = i) /\
    (i = 0 -> ct_level node = 0%Z) /\
    (i ∈ D -> exists pn, nodes !! par m0 i = Some pn /\ ct_level node = (ct_level pn + 1)%Z).

Record fill_inv (D : gset nat) (st : TreeState) : Prop := {
  fi_length : length (ts_functions st) = n;
  fi_mapping i : ts_mapping st !! i = if decide (i ∈ D) then Some 0 else m0 !! i;
  fi_called i : i ∈ D -> called m0 i;
  fi_closed i : i ∈ D -> par m0 i = 0 \/ par m0 i ∈ D;
  fi_function i : (ts_functions st !! i) ≫= ctf_function = fn0 i;
  fi_root i : i ∈ D \/ i = 0 -> ts_functions st !! i = Some (mkCallTreeFunction (fn0 i) (Some i));
  fi_node i : i ∈ D \/ i = 0 -> node_ok D (ts_nodes st) i
}.

(** Nodes and entries of functions outside of [D] are left alone. *)
Definition frame (D : gset nat) (st st' : TreeState) : Prop :=
  forall j, j ∉ D -> ts_nodes st' !! j = ts_nodes st !! j \/ j = 0.

(** Starting the node of [i]: the invariant does not see it. *)
Lemma fill_inv_start D st i f :
  fill_inv D st -> i ∉ D -> i <> 0 -> ts_functions st !! i = Some f ->
  fill_inv D (mkTreeState (set_treeRoot i f (ts_functions st)) (ts_mapping st)
                (<[i := newCallTree (ctf_function f)]> (ts_nodes st))).
Proof using.
  intros [H1 H2 H3 H4 H5 H6 H7] Hi Hi0 Hf. unfold set_treeRoot. split; cbn [ts_functions ts_mapping ts_nodes].
  - by rewrite length_insert.
  - done.
  - done.
  - done.
  - intros j. destruct (decide (i = j)) as [<-|Hne].
    + rewrite list_lookup_insert_eq by (by eapply lookup_lt_Some). rewrite <-H5, Hf. done.
    + by rewrite list_lookup_insert_ne.
  - intros j Hj. rewrite list_lookup_insert_ne; [by apply H6|]. intros <-. destruct Hj; done.
  - intros j Hj. destruct (H7 j Hj) as (node & Hn & Hf' & Hix & Hnd & Hch & Hl0 & Hl).
    assert (Hij : i <> j) by (intros <-; destruct Hj; done).
    exists node. rewrite lookup_insert_ne by done. do 6 (split; [done|]). intros HjD.
    destruct (Hl HjD) as (pn & Hpn & Hlev). exists pn. split; [|done].
    rewrite lookup_insert_ne; [done|]. intros Heq. destruct (H4 j HjD) as [Hp0|HpD]; rewrite <-Heq in *; done.
Qed.

(** Finishing it: the node joins the children of its parent. *)
(** Hanging the node of [i] under its parent keeps every node in order. *)
Lemma node_ok_attach D st i pn :
  fill_inv D st -> i ∉ D -> called m0 i -> (par m0 i = 0 \/ par m0 i ∈ D) ->
  ts_nodes st !! i = Some (newCallTree (fn0 i)) -> ts_nodes st !! par m0 i = Some pn ->
  forall j, j ∈ D ∪ {[i]} \/ j = 0 ->
    node_ok (D ∪ {[i]}) (attach i (par m0 i) (newCallTree (fn0 i)) pn (ts_nodes st)) j.
Proof using R Hfs0.
  intros [H1 H2 H3 H4 H5 H6 H7] Hi Hc Hpar Hnode Hpn.
  pose proof (called_nonzero i Hc) as Hi0. pose proof (rank_par i Hc) as Hrank.
  assert (Hip : i <> par m0 i) by (intros Heq; rewrite <-Heq in Hrank; lia).
  intros j Hj. destruct (decide (j = i)) as [->|Hji].
  - exists (mkCallTree (fn0 i) (ct_level pn + 1) i []). unfold attach. cbn [newCallTree ct_function ct_children].
    rewrite lookup_insert_ne by done. rewrite lookup_insert_eq. do 3 (split; [done|]). split; [constructor|].
    split; [|split; [done|]].
    + intros k. split; [intros Hk; by apply not_elem_of_nil in Hk|]. intros [Hk Hpk]. exfalso.
      apply elem_of_union in Hk as [Hk|Hk%elem_of_singleton]; [|congruence].
      destruct (H4 k Hk) as [Hz|Hin]; congruence.
    + intros _. eexists. rewrite lookup_insert_eq. split; [reflexivity|]. done.
  - assert (Hj' : j ∈ D \/ j = 0)
      by (destruct Hj as [[?|?%elem_of_singleton]%elem_of_union|?]; [by left|done|by right]).
    destruct (H7 j Hj') as (node & Hn & Hfn & Hix & Hnd & Hch & Hl0 & Hl).
    assert (Hlev : forall k q, ts_nodes st !! k = Some q -> k <> i ->
      exists q', attach i (par m0 i) (newCallTree (fn0 i)) pn (ts_nodes st) !! k = Some q' /\
                 ct_level q' = ct_level q).
    { intros k q Hk Hki. unfold attach. destruct (decide (k = par m0 i)) as [->|Hkp].
      - rewrite lookup_insert_eq. eexists. split; [reflexivity|]. cbn. congruence.
      - rewrite lookup_insert_ne, lookup_insert_ne by done. eauto. }
    assert (Hlevel : j ∈ D ∪ {[i]} -> exists q, attach i (par m0 i) (newCallTree (fn0 i)) pn (ts_nodes st) !! par m0 j = Some q /\
        ct_level node = (ct_level q + 1)%Z).
    { intros [HjD|Hs%elem_of_singleton]%elem_of_union; [|done].
      destruct (Hl HjD) as (q & Hq & Hlq). destruct (Hlev _ _ Hq) as (q' & Hq' & Hlq').
      - intros Heq. destruct (H4 j HjD); congruence.
      - exists q'. split; [done|]. lia. }
    destruct (decide (j = par m0 i)) as [->|Hjp].
    + rewrite Hpn in Hn. injection Hn as <-. eexists. unfold attach at 1. rewrite lookup_insert_eq.
      split; [reflexivity|]. cbn [ct_function ct_functionsIndex ct_children ct_level].
      do 2 (split; [done|]). split; [|split; [|done]].
      * apply NoDup_app. split; [done|]. split; [|apply NoDup_singleton].
         intros x [Hx _]%Hch ->%list_elem_of_singleton. done.
      * intros k. rewrite elem_of_app, Hch, list_elem_of_singleton. set_solver.
    + exists node. unfold attach at 1. rewrite lookup_insert_ne, lookup_insert_ne by done.
      do 4 (split; [done|]). split; [|done]. intros k. rewrite Hch. split; [set_solver|].
      intros [[?|?%elem_of_singleton]%elem_of_union Hpk]; [done|congruence].
Qed.

Lemma fill_inv_finish D st i pn :
  fill_inv D st -> i ∉ D -> called m0 i -> (par m0 i = 0 \/ par m0 i ∈ D) ->
  ts_functions st !! i = Some (mkCallTreeFunction (fn0 i) (Some i)) ->
  ts_nodes st !! i = Some (newCallTree (fn0 i)) -> ts_nodes st !! par m0 i = Some pn ->
  fill_inv (D ∪ {[i]}) (mkTreeState (ts_functions st) (<[i := 0]> (ts_mapping st))
    (attach i (par m0 i) (newCallTree (fn0 i)) pn (ts_nodes st))).
Proof using R Hfs0.
  intros Hinv Hi Hc Hpar Hf Hnode Hpn. pose proof (node_ok_attach D st i pn Hinv Hi Hc Hpar Hnode Hpn) as Hok.
  destruct Hinv as [H1 H2 H3 H4 H5 H6 H7].
  split; cbn [ts_functions ts_mapping ts_nodes].
  - done.
  - intros j. assert (Hlen : i < length (ts_mapping st)).
    { specialize (H2 i). rewrite decide_False in H2 by done. destruct Hc as (p & Hp & _). rewrite Hp in H2.
      by eapply lookup_lt_Some. }
    destruct (decide (i = j)) as [<-|Hne].
    + rewrite list_lookup_insert_eq by done. rewrite decide_True; [done|set_solver].
    + rewrite list_lookup_insert_ne by done. rewrite H2. destruct (decide (j ∈ D)) as [Hj|Hj].
      * rewrite decide_True; [done|set_solver].
      * rewrite decide_False; [done|set_solver].
  - intros j [Hj| ->%elem_of_singleton]%elem_of_union; [by apply H3|done].
  - intros j [Hj| ->%elem_of_singleton]%elem_of_union.
    + destruct (H4 j Hj); [by left|right; set_solver].
    + destruct Hpar; [by left|right; set_solver].
  - done.
  - intros j [[Hj| ->%elem_of_singleton]%elem_of_union|Hj]; [apply H6; by left|done|apply H6; by right].
  - done.
Qed.

(** The recursion on one function. *)
Lemma fill_spec fuel i D st :
  fill_inv D st -> i < n -> rank i < fuel -> (i = 0 \/ called m0 i \/ m0 !! i = Some 0) ->
  exists st' D', fillInCallTree fuel st i = Ok st' /\ fill_inv D' st' /\ D ⊆ D' /\
    (called m0 i -> i ∈ D') /\
    (forall j, j ∈ D' -> j ∈ D \/ rank j <= rank i) /\
    (forall j, j ∉ D' -> ts_nodes st' !! j = ts_nodes st !! j \/ j = 0) /\
    (forall j, j ∉ D' -> ts_functions st' !! j = ts_functions st !! j).
Proof using R Hfs0.
  revert i D st. induction fuel as [|fuel IH]; intros i D st Hinv Hin Hfuel Hi; [lia|].
  cbn [fillInCallTree].
  destruct (ts_functions st !! i) as [f|] eqn:Ef;
    [|apply lookup_ge_None in Ef; rewrite (fi_length _ _ Hinv) in Ef; lia].
  cbn [of_option mbind outcome_bind]. pose proof (fi_mapping _ _ Hinv i) as Hmap.
  assert (Hstop : ts_mapping st !! i = Some 0 -> called m0 i -> i ∈ D).
  { intros Hz (p & Hp & Hne). rewrite Hz in Hmap. destruct (decide (i ∈ D)); [done|]. congruence. }
  destruct (ts_mapping st !! i) as [p|] eqn:Ep.
  2: { exfalso. destruct (decide (i ∈ D)); [done|]. symmetry in Hmap. apply lookup_ge_None in Hmap.
       rewrite (rec_length _ _ _ R) in Hmap. lia. }
  cbn [of_option mbind outcome_bind]. destruct (Nat.eqb_spec p 0) as [->|Hp].
  - exists st, D. split; [done|]. split; [done|]. split; [done|]. split; [auto|]. auto.
  - destruct (decide (i ∈ D)) as [HiD|HiD]; [congruence|].
    assert (Hc : called m0 i) by (exists p; split; congruence).
    pose proof (called_nonzero i Hc) as Hi0. pose proof (rank_par i Hc) as Hrank.
    assert (Hpar : (if Nat.eqb p i then 0 else p) = par m0 i) by (unfold par; by rewrite <-Hmap).
    rewrite Hpar. pose proof (fill_inv_start D st i f Hinv HiD Hi0 Ef) as Hinv1.
    assert (Hpc : par m0 i = 0 \/ called m0 (par m0 i) \/ m0 !! par m0 i = Some 0)
      by (destruct (par_called i Hc); auto).
    assert (Hplt : par m0 i < n).
    { destruct (par_called i Hc) as [->|Hcp]; [|by apply called_lt].
      pose proof (called_lt i Hc). lia. }
    destruct (IH (par m0 i) D _ Hinv1 Hplt ltac:(lia) Hpc)
      as (st1 & D1 & Hrun & Hinv2 & Hsub & Hcp & Hnew & Hfr & Hff).
    rewrite Hrun. cbn [mbind outcome_bind].
    assert (HiD1 : i ∉ D1) by (intros Hin1; destruct (Hnew i Hin1); [done|lia]).
    assert (Hproot : par m0 i ∈ D1 \/ par m0 i = 0) by (destruct (par_called i Hc); auto).
    rewrite (fi_root _ _ Hinv2 _ Hproot). cbn [of_option mbind outcome_bind ctf_treeRoot].
    destruct (fi_node _ _ Hinv2 _ Hproot) as (pn & Hpn & _). rewrite Hpn. cbn [of_option mbind outcome_bind].
    assert (Hfi : ctf_function f = fn0 i) by (pose proof (fi_function _ _ Hinv i) as Hfi; rewrite Ef in Hfi; exact Hfi).
    assert (Hni : ts_nodes st1 !! i = Some (newCallTree (fn0 i))).
    { destruct (Hfr i HiD1) as [->|?]; [|done]. cbn [ts_nodes]. by rewrite lookup_insert_eq, Hfi. }
    assert (Hfsi : ts_functions st1 !! i = Some (mkCallTreeFunction (fn0 i) (Some i))).
    { rewrite Hff by done. cbn [ts_functions]. unfold set_treeRoot. rewrite list_lookup_insert_eq
        by (by eapply lookup_lt_Some). by rewrite Hfi. }
    rewrite Hni. cbn [of_option mbind outcome_bind mret outcome_ret].
    eexists _, (D1 ∪ {[i]}). split; [reflexivity|]. split; [by apply fill_inv_finish; auto; tauto|].
    split; [set_solver|]. split; [set_solver|]. split; [|split].
    + intros j [Hj| ->%elem_of_singleton]%elem_of_union; [|by right]. destruct (Hnew j Hj); [by left|right; lia].
    + intros j Hj. cbn [ts_nodes]. assert (Hji : j <> i) by set_solver.
      destruct (decide (j = par m0 i)) as [->|Hjp].
      * destruct Hproot; [set_solver|by right].
      * unfold attach. rewrite lookup_insert_ne, lookup_insert_ne by done.
        destruct (Hfr j) as [->|?]; [set_solver| |by right]. cbn [ts_nodes]. rewrite lookup_insert_ne by done. by left.
    + intros j Hj. cbn [ts_functions]. assert (Hji : j <> i) by set_solver. rewrite Hff by set_solver. cbn [ts_functions].
      unfold set_treeRoot. by rewrite list_lookup_insert_ne.
Qed.
End Recorded.

(** The finished tree: a node for the root and for each function called, the
    children of a node being the functions it was the first to call. *)
Record call_tree (m0 : list nat) (fs0 : list CallTreeFunction) (nodes : gmap nat CallTree) : Prop := {
  tree_dom i : is_Some (nodes !! i) <-> i = 0 \/ called m0 i;
  tree_node i node : nodes !! i = Some node ->
    ct_function node = fn0 fs0 i /\ NoDup (ct_children node) /\
    (forall j, j ∈ ct_children node <-> called m0 j /\ par m0 j = i);
  tree_level i node : nodes !! i = Some node -> called m0 i ->
    exists pn, nodes !! par m0 i = Some pn /\ ct_level node = (ct_level pn + 1)%Z
}.

Definition initial_state (fs0 : list CallTreeFunction) (m0 : list nat) : TreeState :=
  mkTreeState (set_treeRoot 0 (mkCallTreeFunction None None) fs0) m0 {[0 := newCallTree None]}.

Lemma fill_inv_init n m0 fs0 :
  length fs0 = n -> fs0 !! 0 = Some (mkCallTreeFunction None None) ->
  fill_inv n m0 fs0 ∅ (initial_state fs0 m0).
Proof.
  intros Hlen H0. split; unfold initial_state; cbn [ts_functions ts_mapping ts_nodes].
    - unfold set_treeRoot. by rewrite length_insert.
    - intros i. by rewrite decide_False by set_solver.
    - set_solver.
    - set_solver.
    - intros i. unfold set_treeRoot, fn0. destruct i; [|by rewrite list_lookup_insert_ne].
      rewrite list_lookup_insert_eq by (by eapply lookup_lt_Some). by rewrite H0.
    - intros i [Hi| ->]; [set_solver|]. unfold set_treeRoot, fn0.
      rewrite list_lookup_insert_eq by (by eapply lookup_lt_Some). by rewrite H0.
    - intros i [Hi| ->]; [set_solver|]. exists (newCallTree None). cbn. split; [by rewrite lookup_singleton_eq|].
      unfold fn0. rewrite H0. do 2 (split; [done|]). split; [constructor|].
      split; [intros j; split; [intros Hj; by apply not_elem_of_nil in Hj|set_solver]|]. split; [done|set_solver].
Qed.

(** One round of the loop over the functions. *)
Lemma fill_round n m0 history fs0 i D st :
  recorded n m0 history -> length fs0 = n -> fill_inv n m0 fs0 D st -> i < n ->
  exists st' D', fillInCallTree (length fs0) st i = Ok st' /\ fill_inv n m0 fs0 D' st' /\ D ⊆ D' /\
    (called m0 i -> i ∈ D') /\ (forall j, j ∉ D' -> ts_nodes st' !! j = ts_nodes st !! j \/ j = 0).
Proof.
  intros R Hlen Hinv Hin. assert (Hcase : i = 0 \/ called m0 i \/ m0 !! i = Some 0).
  { destruct (m0 !! i) as [[|p]|] eqn:Ei; [by auto| |].
    - right. left. exists (S p). done.
    - apply lookup_ge_None in Ei. rewrite (rec_length _ _ _ R) in Ei. lia. }
  assert (Hrank : rank history i < length fs0 \/ m0 !! i = Some 0).
  { destruct Hcase as [Hc|[Hc|Hc]]; [| |by right]; left; rewrite Hlen; apply (rank_lt n m0 history R); auto. }
  destruct Hrank as [Hrank|Hz].
    - destruct (fill_spec n m0 history R fs0 Hlen _ i D st Hinv Hin Hrank Hcase)
        as (st' & D' & ? & ? & ? & ? & _ & ? & _). eauto 10.
    - exists st, D. split; [|split; [done|split; [done|split; [|auto]]]].
      + rewrite Hlen. destruct n; [lia|]. cbn [fillInCallTree].
        destruct (ts_functions st !! i) as [f|] eqn:Ef;
          [|apply lookup_ge_None in Ef; rewrite (fi_length _ _ _ _ _ Hinv) in Ef; lia].
        cbn [of_option mbind outcome_bind]. rewrite (fi_mapping _ _ _ _ _ Hinv i), Hz.
        by destruct (decide (i ∈ D)).
      + intros (p & Hp & Hne). congruence.
Qed.

Lemma fill_loop n m0 history fs0 l st D :
  recorded n m0 history -> length fs0 = n -> (forall i, i ∈ l -> i < n) -> fill_inv n m0 fs0 D st ->
  (forall j, j ∉ D -> j <> 0 -> ts_nodes st !! j = None) ->
  exists st' D', fold_outcome (fillInCallTree (length fs0)) st l = Ok st' /\ fill_inv n m0 fs0 D' st' /\ D ⊆ D' /\
    (forall i, i ∈ l -> called m0 i -> i ∈ D') /\ (forall j, j ∉ D' -> j <> 0 -> ts_nodes st' !! j = None).
Proof.
  intros R Hlen. revert st D. induction l as [|i l IH]; intros st D Hl Hinv Hdom; cbn [fold_outcome].
    - exists st, D. do 3 (split; [done|]). split; [|done]. intros i Hi. by apply not_elem_of_nil in Hi.
    - assert (Hin : i < n) by (apply Hl; by left).
  destruct (fill_round n m0 history fs0 i D st R Hlen Hinv Hin) as (st' & D' & Hrun & Hinv' & Hsub & Hc & Hfr). rewrite Hrun. cbn [mbind outcome_bind].
  destruct (IH st' D') as (st2 & D2 & Hrun2 & Hinv2 & Hsub2 & Hc2 & Hdom2); [by intros; apply Hl; right|done| |].
  { intros j Hj Hj0. destruct (Hfr j Hj) as [->|?]; [apply Hdom; [set_solver|done]|done]. }
  exists st2, D2. do 2 (split; [done|]). split; [set_solver|]. split; [|done].
  intros k [->|Hk]%elem_of_cons Hck; [|by apply Hc2]. by apply Hsub2, Hc.
Qed.

Lemma createCallTree_tree n m0 history fs0 :
  recorded n m0 history -> length fs0 = n -> fs0 !! 0 = Some (mkCallTreeFunction None None) ->
  exists st, createCallTree m0 fs0 = Ok st /\ call_tree m0 fs0 (ts_nodes st).
Proof.
  intros R Hlen H0. unfold createCallTree. rewrite H0. cbn [of_option mbind outcome_bind].
  rewrite bool_decide_eq_true_2 by apply R. cbn [require mbind outcome_bind ctf_function ctf_treeRoot].
  fold (initial_state fs0 m0).
  destruct (fill_loop n m0 history fs0 (seq 1 (length fs0 - 1)) (initial_state fs0 m0) ∅ R Hlen)
    as (st & D & Hrun & Hinv & _ & Hall & Hdom).
  { intros i Hi%elem_of_seq. lia. }
  { by apply fill_inv_init. }
  { intros j _ Hj. cbn [initial_state ts_nodes]. by rewrite lookup_singleton_ne. }
  assert (HD : forall i, i ∈ D <-> called m0 i).
  { intros i. split; [apply (fi_called _ _ _ _ _ Hinv)|]. intros Hc. apply Hall; [|done].
    apply elem_of_seq. pose proof (called_nonzero n m0 history R i Hc). pose proof (called_lt n m0 history R i Hc). lia. }
  exists st. split; [exact Hrun|]. split.
  - intros i. split.
    + intros [x Hx]. destruct (decide (i = 0)) as [|Hi]; [by left|]. right. apply HD.
      destruct (decide (i ∈ D)); [done|]. rewrite Hdom in Hx by done. done.
    + intros Hi. destruct (fi_node _ _ _ _ _ Hinv i) as (x & Hx & _); [|by eexists].
      destruct Hi; [by right|left; by apply HD].
  - intros i x Hx. assert (Hi : i ∈ D \/ i = 0).
    { destruct (decide (i = 0)); [by right|]. destruct (decide (i ∈ D)); [by left|]. rewrite Hdom in Hx by done. done. }
    destruct (fi_node _ _ _ _ _ Hinv i Hi) as (y & Hy & Hfn & _ & Hnd & Hch & _). rewrite Hx in Hy. injection Hy as <-.
    do 2 (split; [done|]). intros j. by rewrite Hch, HD.
  - intros i x Hx Hc. destruct (fi_node _ _ _ _ _ Hinv i (or_introl (proj2 (HD i) Hc))) as (y & Hy & _ & _ & _ & _ & _ & Hl).
    rewrite Hx in Hy. injection Hy as <-. by apply Hl, HD.
Qed.

(** ** Walking the tree *)

(** The nodes a walk from [r] visits. *)
Inductive visited {A} (nodes : gmap nat CallTree) (visit : nat -> CallTree -> list A * bool) (r : nat)
    : nat -> Prop :=
  | visited_start : visited nodes visit r r
  | visited_child i j node : visited nodes visit r i -> nodes !! i = Some node ->
      snd (visit i node) = true -> j ∈ ct_children node -> visited nodes visit r j.

Section Walk.
Context (n : nat) (m0 history : list nat) (fs0 : list CallTreeFunction) (nodes : gmap nat CallTree).
Hypothesis R : recorded n m0 history.
Hypothesis T : call_tree m0 fs0 nodes.

Lemma child_rank i node j :
  nodes !! i = Some node -> j ∈ ct_children node -> rank history i < rank history j.
Proof using R T.
  intros Hi Hj. destruct (tree_node _ _ _ T i node Hi) as (_ & _ & Hch). apply Hch in Hj as [Hc <-].
  by eapply rank_par.
Qed.

Lemma child_node i node j :
  nodes !! i = Some node -> j ∈ ct_children node -> exists nj, nodes !! j = Some nj.
Proof using T.
  intros Hi Hj. destruct (tree_node _ _ _ T i node Hi) as (_ & _ & Hch). apply Hch in Hj as [Hc _].
  apply (tree_dom _ _ _ T). by right.
Qed.

Lemma child_unique i node i' node' j :
  nodes !! i = Some node -> nodes !! i' = Some node' ->
  j ∈ ct_children node -> j ∈ ct_children node' -> i = i'.
Proof using T.
  intros Hi Hi' Hj Hj'. destruct (tree_node _ _ _ T i node Hi) as (_ & _ & Hch).
  destruct (tree_node _ _ _ T i' node' Hi') as (_ & _ & Hch'). apply Hch in Hj as [_ <-]. by apply Hch' in Hj' as [_ <-].
Qed.

Context {A : Type} (visit : nat -> CallTree -> list A * bool) (r : nat).
Hypothesis Hr : is_Some (nodes !! r).

Definition found_at (i : nat) : list A :=
  match nodes !! i with Some node => fst (visit i node) | None => [] end.

(** What holds between the nodes done, [V], and the queue, [Q]. *)
Record walk_inv (V Q : list nat) : Prop := {
  wi_NoDup : NoDup (V ++ Q);
  wi_node x : x ∈ V ++ Q -> is_Some (nodes !! x);
  wi_visited x : x ∈ V ++ Q -> visited nodes visit r x;
  wi_rank x : x ∈ V ++ Q -> rank history r <= rank history x;
  wi_start : r ∈ V ++ Q;
  wi_children x node y : x ∈ V -> nodes !! x = Some node -> snd (visit x node) = true ->
    y ∈ ct_children node -> y ∈ V ++ Q;
  wi_parent y : y ∈ V ++ Q -> y = r \/ exists x node, x ∈ V /\ nodes !! x = Some node /\ y ∈ ct_children node
}.

Lemma walk_inv_start : walk_inv [] [r].
Proof using Hr.
  split; cbn [app].
  - apply NoDup_singleton.
  - by intros x ->%list_elem_of_singleton.
  - intros x ->%list_elem_of_singleton. constructor.
  - by intros x ->%list_elem_of_singleton.
  - by left.
  - intros x node y Hx. by apply not_elem_of_nil in Hx.
  - intros y ->%list_elem_of_singleton. by left.
Qed.

Lemma walk_inv_step V x Q node :
  walk_inv V (x :: Q) -> nodes !! x = Some node ->
  walk_inv (V ++ [x]) (Q ++ (if snd (visit x node) then ct_children node else [])).
Proof using R T.
  intros [Hnd Hnode Hvis Hrank Hstart Hch Hpar] Hx.
  assert (Heq : (V ++ [x]) ++ Q = V ++ x :: Q) by (by rewrite <-app_assoc).
  set (C := if snd (visit x node) then ct_children node else []).
  assert (HC : forall y, y ∈ C -> snd (visit x node) = true /\ y ∈ ct_children node).
  { intros y Hy. unfold C in Hy. destruct (snd (visit x node)); [done|by apply not_elem_of_nil in Hy]. }
  assert (Hxin : x ∈ V ++ x :: Q) by (apply elem_of_app; right; by left).
  assert (HxV : x ∉ V) by (apply NoDup_app in Hnd as (_ & Hd & _); intros HV; apply (Hd x HV); by left).
  assert (Hfresh : forall y, y ∈ C -> y ∉ V ++ x :: Q).
  { intros y [_ Hy]%HC Hin. pose proof (child_rank _ _ _ Hx Hy) as Hlt. pose proof (Hrank x Hxin).
    destruct (Hpar y Hin) as [->|(x' & node' & HxV' & Hx' & Hy')]; [lia|].
    pose proof (child_unique _ _ _ _ _ Hx Hx' Hy Hy') as ->. done. }
  assert (Hcase : forall y, y ∈ (V ++ [x]) ++ Q ++ C -> y ∈ V ++ x :: Q \/ y ∈ C).
  { intros y. rewrite app_assoc, Heq, elem_of_app. auto. }
  assert (Hincl : forall y, y ∈ V ++ x :: Q -> y ∈ (V ++ [x]) ++ Q ++ C).
  { intros y Hy. rewrite app_assoc, Heq, elem_of_app. by left. }
  split.
  - rewrite app_assoc, Heq. apply NoDup_app. split; [done|]. split; [intros y Hy HyC; by apply (Hfresh y)|].
    unfold C. destruct (snd (visit x node)); [|constructor]. by destruct (tree_node _ _ _ T x node Hx) as (_ & ? & _).
  - intros y [Hy|[_ Hy]%HC]%Hcase; [auto|]. destruct (child_node _ _ _ Hx Hy) as [nj Hnj]. by eexists.
  - intros y [Hy|[Hv Hy]%HC]%Hcase; [auto|]. eapply visited_child; [apply Hvis, Hxin|exact Hx|done|done].
  - intros y [Hy|[_ Hy]%HC]%Hcase; [auto|]. pose proof (child_rank _ _ _ Hx Hy). pose proof (Hrank x Hxin). lia.
  - by apply Hincl.
  - intros z nz y [Hz| ->%list_elem_of_singleton]%elem_of_app Hnz Hv Hy; [by eapply Hincl, Hch|].
    rewrite Hx in Hnz. injection Hnz as <-. rewrite app_assoc, elem_of_app. right. unfold C. by rewrite Hv.
  - intros y [Hy|[_ Hy]%HC]%Hcase.
    + destruct (Hpar y Hy) as [?|(z & nz & Hz & ? & ?)]; [by left|]. right. exists z, nz.
      split; [apply elem_of_app; by left|done].
    + right. exists x, node. split; [apply elem_of_app; right; by left|done].
Qed.

Lemma walk_fuel V x Q : walk_inv V (x :: Q) -> length V < size nodes.
Proof using.
  intros [Hnd Hnode _ _ _ _ _]. rewrite <-size_dom.
  assert (Hle : length (V ++ x :: Q) <= size (dom nodes)).
  { rewrite <-(size_list_to_set (C := gset nat) (V ++ x :: Q)) by done. apply subseteq_size.
    intros y Hy%elem_of_list_to_set. apply elem_of_dom. auto. }
  rewrite length_app in Hle. cbn in Hle. lia.
Qed.

Lemma walk_loop fuel V Q acc :
  walk_inv V Q -> size nodes <= fuel + length V ->
  exists W, walk fuel nodes visit Q acc = Ok (acc ++ concat (map found_at W)) /\ walk_inv (V ++ W) [].
Proof using R T.
  revert V Q acc. induction fuel as [|fuel IH]; intros V [|x Q] acc Hinv Hfuel;
    try (exists []; cbn [walk map concat]; rewrite !app_nil_r; by destruct Hinv).
  - pose proof (walk_fuel _ _ _ Hinv). lia.
  - destruct (wi_node _ _ Hinv x) as [node Hx]; [apply elem_of_app; right; by left|].
    cbn [walk]. rewrite Hx. cbn [of_option mbind outcome_bind].
    pose proof (walk_inv_step V x Q node Hinv Hx) as Hinv'.
    destruct (visit x node) as [found descend] eqn:Ev. cbn [snd] in Hinv'.
    destruct (IH _ _ (acc ++ found) Hinv') as (W & Hrun & HW); [rewrite length_app; cbn; lia|].
    exists (x :: W). rewrite Hrun. cbn [map concat]. unfold found_at at 2. rewrite Hx, Ev. cbn [fst].
    rewrite <-app_assoc in HW. rewrite <-app_assoc. done.
Qed.

(** A walk terminates, and visits every node once that it is meant to. *)
Lemma walk_spec acc :
  exists W, walk (size nodes) nodes visit [r] acc = Ok (acc ++ concat (map found_at W)) /\
    NoDup W /\ forall i, i ∈ W <-> visited nodes visit r i.
Proof using R T Hr.
  destruct (walk_loop (size nodes) [] [r] acc walk_inv_start) as (W & Hrun & [Hnd _ Hvis _ Hstart Hch _]);
    [cbn; lia|].
  cbn [app] in *. rewrite app_nil_r in *. exists W. split; [done|]. split; [done|]. intros i. split; [by apply Hvis|].
  intros Hi. induction Hi as [|i j node _ IH Hi Hv Hj]; [done|]. 
  pose proof (Hch i node j IH Hi Hv Hj) as Hin. by rewrite ?app_nil_r in Hin.
Qed.
End Walk.

(** ** Distances *)

(** [i] was recorded below [r], [d] calls down. *)
Inductive below (m : list nat) (r : nat) : nat -> nat -> Prop :=
  | below_self : below m r r 0
  | below_callee i j d : below m r i d -> called m j -> par m j = i -> below m r j (S d).

Section Reading.
Context (n : nat) (m0 history : list nat) (fs0 : list CallTreeFunction) (nodes : gmap nat CallTree).
Hypothesis R : recorded n m0 history.
Hypothesis T : call_tree m0 fs0 nodes.

(** Levels measure the distance. *)
Lemma below_level r i d rn :
  nodes !! r = Some rn -> below m0 r i d ->
  exists node, nodes !! i = Some node /\ ct_level node = (ct_level rn + Z.of_nat d)%Z.
Proof using T.
  intros Hr Hb. induction Hb as [|i j d Hb (node & Hi & Hl) Hc Hp]; [exists rn; split; [done|lia]|].
  destruct (proj2 (tree_dom _ _ _ T j) (or_intror Hc)) as [nj Hj]. exists nj. split; [done|].
  destruct (tree_level _ _ _ T j nj Hj Hc) as (pn & Hpn & Hlj). rewrite Hp, Hi in Hpn. injection Hpn as <-. lia.
Qed.

Lemma parent_node j : called m0 j ->
  exists pn, nodes !! par m0 j = Some pn /\ j ∈ ct_children pn.
Proof using R T.
  intros Hc. destruct (proj2 (tree_dom _ _ _ T (par m0 j))) as [pn Hpn];
    [destruct (par_called n m0 history R j Hc); auto|].
  exists pn. split; [done|]. destruct (tree_node _ _ _ T _ pn Hpn) as (_ & _ & Hch). by apply Hch.
Qed.

(** A walk that always descends, from the root, visits the whole tree. *)
Lemma visited_all {A} (visit : nat -> CallTree -> list A * bool) i :
  (forall j node, snd (visit j node) = true) ->
  visited nodes visit 0 i <-> i = 0 \/ called m0 i.
Proof using R T.
  intros Hv. split.
  - intros Hi. induction Hi as [|i j node _ _ Hi _ Hj]; [by left|]. right.
    destruct (tree_node _ _ _ T i node Hi) as (_ & _ & Hch). by apply Hch.
  - remember (rank history i) as k eqn:Hk. revert i Hk. induction (Nat.lt_wf_0 k) as [k _ IH].
    intros i -> [->|Hc]; [constructor|]. destruct (parent_node i Hc) as (pn & Hpn & Hin).
    apply (visited_child _ _ _ (par m0 i) i pn); auto.
    apply (IH (rank history (par m0 i)) (rank_par n m0 history R i Hc)); [done|].
    apply (par_called n m0 history R i Hc).
Qed.

(** A walk bounded by the distance visits what is below its start, that far. *)
Lemma visited_below r rn test maxDistance i :
  nodes !! r = Some rn ->
  visited nodes (fun _ => visit_reachable test (ct_level rn) maxDistance) r i <->
  exists d, below m0 r i d /\ (d = 0 \/ (Z.of_nat d <= maxDistance)%Z).
Proof using R T.
  intros Hr. split.
  - intros Hi. induction Hi as [|i j node _ (d & Hb & Hd) Hi Hv Hj]; [exists 0; split; [constructor|by left]|].
    destruct (tree_node _ _ _ T i node Hi) as (_ & _ & Hch). apply Hch in Hj as [Hc Hp].
    destruct (below_level _ _ _ _ Hr Hb) as (node' & Hi' & Hl). rewrite Hi in Hi'. injection Hi' as <-.
    exists (S d). split; [by eapply below_callee|]. right. cbn [snd visit_reachable] in Hv.
    apply Z.ltb_lt in Hv. lia.
  - intros (d & Hb & Hd). induction Hb as [|i j d Hb IH Hc Hp]; [constructor|].
    destruct (below_level _ _ _ _ Hr Hb) as (node & Hi & Hl).
    apply (visited_child _ _ _ i j node); [apply IH; right; destruct Hd; lia|done| |].
    + cbn [snd visit_reachable]. apply Z.ltb_lt. destruct Hd; lia.
    + destruct (tree_node _ _ _ T i node Hi) as (_ & _ & Hch). by apply Hch.
Qed.

(** The functions of the table are distinct. *)
Definition distinct_functions : Prop :=
  forall i j f g, fn0 fs0 i = Some f -> fn0 fs0 j = Some g -> fn_id f = fn_id g -> i = j.

Lemma concat_singletons (t : nat) (g : nat -> list nat) W :
  NoDup W -> (forall i, i ∈ W -> g i = if Nat.eqb i t then [t] else []) ->
  concat (map g W) = if decide (t ∈ W) then [t] else [].
Proof using.
  induction W as [|x W IH]; intros Hnd Hg; [done|]. apply NoDup_cons in Hnd as [Hx Hnd].
  cbn [map concat]. rewrite (Hg x) by (by left). rewrite IH by (done || (intros; apply Hg; by right)).
  destruct (Nat.eqb_spec x t) as [->|Hne].
  - rewrite decide_False by done. rewrite decide_True by (by left). done.
  - destruct (decide (t ∈ W)); [rewrite decide_True by (by right); done|].
    rewrite decide_False; [done|]. intros [?|?]%elem_of_cons; congruence.
Qed.

Lemma extractTestSubtrees_spec t body :
  distinct_functions -> fn0 fs0 t = Some body -> t <> 0 ->
  exists l, extractTestSubtrees nodes 0 body = Ok l /\
    ((called m0 t /\ l = [t]) \/ (~ called m0 t /\ l = [])).
Proof using R T.
  intros Hdist Ht Ht0. unfold extractTestSubtrees.
  destruct (walk_spec n m0 history fs0 nodes R T
    (fun i node => (if same_function (ct_function node) body then [i] else [], true)) 0
    (proj2 (tree_dom _ _ _ T 0) (or_introl eq_refl)) []) as (W & Hrun & Hnd & HW).
  rewrite Hrun. eexists. split; [reflexivity|]. cbn [app].
  rewrite (concat_singletons t _ W Hnd).
  - assert (HtW : t ∈ W <-> called m0 t).
    { rewrite HW, visited_all by done. split; [intros [?|?]; done|auto]. }
    destruct (decide (t ∈ W)); [left|right]; rewrite <-HtW; auto.
  - intros i Hi%HW. assert (Hnode : exists node, nodes !! i = Some node).
    { apply visited_all in Hi; [|done]. by apply (tree_dom _ _ _ T). }
    destruct Hnode as [node Hnode]. unfold found_at. rewrite Hnode. cbn [fst].
    destruct (tree_node _ _ _ T i node Hnode) as (-> & _). unfold same_function.
    destruct (Nat.eqb_spec i t) as [->|Hne]; [by rewrite Ht, Nat.eqb_refl|].
    destruct (fn0 fs0 i) as [f|] eqn:Ef; [|done].
    destruct (Nat.eqb_spec (fn_id f) (fn_id body)) as [Heq|]; [|done].
    destruct Hne. by eapply Hdist.
Qed.
End Reading.

(** A walk only adds to what it has, and its start comes first. *)
Lemma walk_prefix {A} fuel nodes (visit : nat -> CallTree -> list A * bool) queue acc l :
  walk fuel nodes visit queue acc = Ok l -> exists rest, l = acc ++ rest.
Proof.
  revert queue acc. induction fuel as [|fuel IH]; intros [|x queue] acc; cbn [walk]; try done;
    try (intros [= <-]; exists []; by rewrite app_nil_r).
  destruct (nodes !! x) as [node|]; [|done]. cbn [of_option mbind outcome_bind]. destruct (visit x node) as [found descend].
  intros Hrun. destruct (IH _ _ Hrun) as [rest ->]. exists (found ++ rest). by rewrite app_assoc.
Qed.

Lemma reachable_functions_head nodes r rn test maxDistance l :
  nodes !! r = Some rn -> createReachableFunctions nodes [r] test maxDistance = Ok l ->
  exists rest, l = (ct_function rn, test, 0%Z) :: rest.
Proof.
  intros Hr. unfold createReachableFunctions. cbn [fold_outcome]. rewrite Hr. cbn [of_option mbind outcome_bind].
  destruct (walk _ _ _ _ _) as [l'| |] eqn:Hrun; cbn [mbind outcome_bind]; [|done..]. intros [= <-].
  destruct (size nodes) as [|fuel] eqn:Hsize; [by apply map_size_empty_iff in Hsize as ->|].
  cbn [walk] in Hrun. rewrite Hr in Hrun. cbn [of_option mbind outcome_bind visit_reachable app] in Hrun.
  apply walk_prefix in Hrun as [rest ->]. exists rest. cbn. by rewrite Z.sub_diag.
Qed.

(** The table [Instrumentation] keeps: the phony root, then one entry per
    function, each a function of its own, no tree built yet. *)
Definition function_table (fs : list CallTreeFunction) : Prop :=
  fs !! 0 = Some (mkCallTreeFunction None None) /\
  (forall i, 0 < i < length fs -> exists f, fn0 fs i = Some f) /\
  distinct_functions fs.

Lemma reachable_functions_spec n m0 history fs0 nodes t body test maxDistance :
  recorded n m0 history -> call_tree m0 fs0 nodes -> length fs0 = n -> function_table fs0 ->
  fn0 fs0 t = Some body -> called m0 t ->
  exists l, createReachableFunctions nodes [t] test maxDistance = Ok l /\ NoDup (map (fun e => fst (fst e)) l) /\
    forall f tst d, (f, tst, d) ∈ l <->
      tst = test /\ exists i k, below m0 t i k /\ f = fn0 fs0 i /\ d = Z.of_nat k /\
                                (k = 0 \/ (Z.of_nat k <= maxDistance)%Z).
Proof.
  intros R T Hlen (_ & Hfun & Hdist) Ht Hc. unfold createReachableFunctions. cbn [fold_outcome].
  destruct (proj2 (tree_dom _ _ _ T t) (or_intror Hc)) as [tn Htn]. rewrite Htn. cbn [of_option mbind outcome_bind].
  destruct (walk_spec n m0 history fs0 nodes R T (fun _ => visit_reachable test (ct_level tn) maxDistance) t
    ltac:(by eexists) []) as (W & Hrun & Hnd & HW). cbn beta in Hrun. rewrite Hrun. cbn [mbind outcome_bind app].
  eexists. split; [reflexivity|].
  assert (Hat : forall i, i ∈ W -> exists k, below m0 t i k /\ (k = 0 \/ (Z.of_nat k <= maxDistance)%Z) /\ called m0 i /\
    found_at nodes (fun _ => visit_reachable test (ct_level tn) maxDistance) i = [(fn0 fs0 i, test, Z.of_nat k)]).
  { intros i Hi%HW. apply (visited_below n m0 history fs0 nodes R T t tn) in Hi as (k & Hb & Hk); [|done].
    exists k. split; [done|]. split; [done|]. split; [by destruct Hb|].
    destruct (below_level m0 fs0 nodes T t i k tn Htn Hb) as (node & Hn & Hl).
    unfold found_at. rewrite Hn. cbn [fst visit_reachable]. destruct (tree_node _ _ _ T i node Hn) as (-> & _).
    do 2 f_equal. lia. }
  assert (Hmap : forall V, (forall i, i ∈ V -> i ∈ W) ->
    map (fun e => fst (fst e)) (concat (map (found_at nodes (fun _ => visit_reachable test (ct_level tn) maxDistance)) V)) =
    map (fn0 fs0) V).
  { induction V as [|x V IH]; intros HV; [done|]. cbn [map concat].
    destruct (Hat x) as (k & _ & _ & _ & ->); [apply HV; by left|]. cbn. f_equal. apply IH. intros; apply HV; by right. }
  split.
  - rewrite Hmap by done. apply NoDup_fmap_2_strong; [|done]. intros i j Hi Hj Heq.
    destruct (Hat i Hi) as (_ & _ & _ & Hci & _), (Hat j Hj) as (_ & _ & _ & Hcj & _).
    destruct (Hfun i) as [fi Hfi].
    { pose proof (called_nonzero n m0 history R i Hci). pose proof (called_lt n m0 history R i Hci). lia. }
    apply (Hdist i j fi fi); congruence.
  - intros f tst d. rewrite elem_of_concat_map. split.
    + intros (i & Hi & Hin). destruct (Hat i Hi) as (k & Hb & Hk & _ & Hfa). rewrite Hfa in Hin.
      apply list_elem_of_singleton in Hin as [= -> -> ->]. split; [done|]. by exists i, k.
    + intros (-> & i & k & Hb & -> & -> & Hk).
      assert (Hi : i ∈ W) by (apply HW; apply (visited_below n m0 history fs0 nodes R T t tn); eauto).
      exists i. split; [done|]. destruct (Hat i Hi) as (k' & Hb' & _ & _ & ->).
      destruct (below_level m0 fs0 nodes T t i k tn Htn Hb) as (x & Hx & Hlx).
      destruct (below_level m0 fs0 nodes T t i k' tn Htn Hb') as (y & Hy & Hly).
      rewrite Hx in Hy. injection Hy as <-. replace (Z.of_nat k') with (Z.of_nat k) by lia. by left.
Qed.

(** What is read off the array the callbacks leave: first the body. *)
Lemma getReachableFunctions_reads fs events info t body test maxDistance :
  function_table fs -> fold_outcome callback (zeroed (length fs)) events = Ok info ->
  fn0 fs t = Some body ->
  exists l, getReachableFunctions fs (callTreeMapping info) test body maxDistance = Ok l /\
    NoDup (map (fun e => fst (fst e)) l) /\
    (l = [] \/ exists rest, l = (Some body, test, 0%Z) :: rest) /\
    forall f tst d, (f, tst, d) ∈ l <->
      tst = test /\ called (callTreeMapping info) t /\
      exists i k, below (callTreeMapping info) t i k /\ f = fn0 fs i /\ d = Z.of_nat k /\
                  (k = 0 \/ (Z.of_nat k <= maxDistance)%Z).
Proof.
  intros Htab Hrun Ht. pose proof Htab as (H0 & _ & Hdist).
  assert (Hpos : 0 < length fs) by (by eapply lookup_lt_Some).
  destruct (callbacks_inv _ _ _ _ (zeroed_inv _ Hpos) Hrun) as (history & R & _).
  set (m0 := callTreeMapping info) in *.
  destruct (createCallTree_tree _ _ _ fs R eq_refl H0) as (st & Hst & T).
  assert (Ht0 : t <> 0) by (intros ->; unfold fn0 in Ht; by rewrite H0 in Ht).
  unfold getReachableFunctions. rewrite Hst. cbn [mbind outcome_bind].
  destruct (extractTestSubtrees_spec _ _ _ _ _ R T t body Hdist Ht Ht0) as (l & -> & [[Hc ->]|[Hc ->]]);
    cbn [mbind outcome_bind].
  - destruct (reachable_functions_spec _ _ _ _ _ t body test maxDistance R T eq_refl Htab Ht Hc)
      as (l & Hl & Hnd & Hin).
    exists l. split; [done|]. split; [done|]. split; [|intros f tst d; rewrite Hin; tauto].
    destruct (proj2 (tree_dom _ _ _ T t) (or_intror Hc)) as [tn Htn]. right.
    destruct (tree_node _ _ _ T t tn Htn) as (Hfn & _ & _). rewrite <-Ht, <-Hfn. by eapply reachable_functions_head.
  - exists []. split; [done|]. split; [constructor|]. split; [by left|]. intros f tst d.
    split; [intros H; by apply not_elem_of_nil in H|tauto].
Qed.

(** C7: whatever sequence of calls and returns the instrumented
    test run makes, the functions mull reports for a test are those recorded
    below its body within the distance allowed, each once, with the number of
    recorded calls that separates it from the body; building and walking the
    tree always terminates and no assertion fails.  A body that was never
    called reaches nothing. *)
Theorem getReachableFunctions_correct fs events info t body test maxDistance :
  function_table fs -> fold_outcome callback (zeroed (length fs)) events = Ok info ->
  fn0 fs t = Some body ->
  exists l, getReachableFunctions fs (callTreeMapping info) test body maxDistance = Ok l /\
    NoDup (map (fun e => fst (fst e)) l) /\
    forall f tst d, (f, tst, d) ∈ l <->
      tst = test /\ called (callTreeMapping info) t /\
      exists i k, below (callTreeMapping info) t i k /\ f = fn0 fs i /\ d = Z.of_nat k /\
                  (k = 0 \/ (Z.of_nat k <= maxDistance)%Z).
Proof.
  intros Htab Hrun Ht.
  destruct (getReachableFunctions_reads fs events info t body test maxDistance Htab Hrun Ht) as (l & Hl & Hnd & _ & Hin).
  exists l. split; [exact Hl|]. split; [exact Hnd|exact Hin].
Qed.

Definition sample_table : list CallTreeFunction :=
  mkCallTreeFunction None None ::
  map (fun i => mkCallTreeFunction (Some (mkFunction i "f" [] None)) None) [1; 2; 3].

Lemma sample_table_ok : function_table sample_table.
Proof.
  split; [reflexivity|]. split.
  - intros i Hi. cbn in Hi. destruct i as [|[|[|[|i]]]]; try lia; eexists; reflexivity.
  - intros i j f g Hf Hg. destruct i as [|[|[|[|i]]]], j as [|[|[|[|j]]]]; cbn in *; intros; simplify_eq/=; done.
Defined.

(** A test (1) that calls 2, which calls 3, which calls back 1. *)
Lemma getReachableFunctions_correct_witness :
  exists info, fold_outcome callback (zeroed 4) [Enter 1; Enter 2; Enter 3; Enter 1; Leave 1; Leave 3; Leave 2; Leave 1] = Ok info /\
    exists l, getReachableFunctions sample_table (callTreeMapping info) 0 (mkFunction 1 "f" [] None) 1 = Ok l /\
      NoDup (map (fun e => fst (fst e)) l) /\
      forall f tst d, (f, tst, d) ∈ l <->
        tst = 0 /\ called (callTreeMapping info) 1 /\
        exists i k, below (callTreeMapping info) 1 i k /\ f = fn0 sample_table i /\ d = Z.of_nat k /\
                    (k = 0 \/ (Z.of_nat k <= 1)%Z).
Proof.
  eexists. split; [reflexivity|].
  eapply (getReachableFunctions_correct sample_table
    [Enter 1; Enter 2; Enter 3; Enter 1; Leave 1; Leave 3; Leave 2; Leave 1] _ 1 (mkFunction 1 "f" [] None)).
  - exact sample_table_ok.
  - reflexivity.
  - reflexivity.
Defined.
