(* ===== verification/Instrumentation.v ===== *)
(** * Instrumentation (lib/Instrumentation/Instrumentation.cpp, Callbacks.cpp)

    Numbers the functions of all the modules consecutively, module after
    module, and makes every function report the number of itself: the number
    inside the module is a constant, the offset of the module a global that is
    filled in when the program is loaded. *)

From stdpp Require Import base list strings sets gmap.
From Stdlib Require Import ZArith Lia Bool.
From S2P Require Import Prelude StdContainers IR Samples MutationPoint Reachable CallTree.

Record Instrumentation := mkInstrumentation {
  instr_functions : list CallTreeFunction;
  functionOffsetMapping : list (string * Z)
}.

Definition newInstrumentation : Instrumentation :=
  mkInstrumentation [mkCallTreeFunction None None] [].

Definition instrumentationInfoVariableName : string := "mull_instrumentation_info".
Definition functionIndexOffsetPrefix : string := "mull_function_index_offset_".

(** The functions with a body, the ones that are numbered. *)
Definition defined_functions (m : Module) : list Function :=
  List.filter (fun f => negb (isDeclaration f)) (mod_functions m).

Definition recordFunctions (instr : Instrumentation) (originalModule : Module) : Instrumentation :=
  let offset := to_uint32 (Z.of_nat (length (instr_functions instr))) in
  mkInstrumentation
    (foldl (fun functions function =>
       if isDeclaration function then functions
       else functions ++ [mkCallTreeFunction (Some function) None])
       (instr_functions instr) (mod_functions originalModule))
    (omap_assign (mod_identifier originalModule) offset (functionOffsetMapping instr)).

(** ** The callbacks *)

(** [new LoadInst(offset)], [Add functionIndex, offset], and the call, inserted
    before an instruction. *)
Definition callback_insts (base : InstId) (callee : string) (index : Z) (infoPointer offset : Value) : list Instruction :=
  [ mkInstruction base (OtherInst "load" [offset]) None;
    mkInstruction (S base) (OtherInst "add" [ConstantInt index; InstRef base]) None;
    mkInstruction (S (S base)) (Call (Some callee) [infoPointer; InstRef (S base)]) None ].

Definition is_return (i : Instruction) : bool := match inst_op i with Ret => true | _ => false end.

(** Before the return of a block that ends in one. *)
Definition inject_leave (index : Z) (infoPointer offset : Value) (base : InstId) (bb : BasicBlock) : BasicBlock :=
  match getTerminator bb with
  | Some t =>
      if is_return t
      then mkBasicBlock (bb_id bb)
             (removelast (bb_insts bb) ++ callback_insts base "mull_leaveFunction" index infoPointer offset ++ [t])
      else bb
  | None => bb
  end.

Fixpoint inject_leaves (index : Z) (infoPointer offset : Value) (base : InstId) (blocks : list BasicBlock)
    : list BasicBlock :=
  match blocks with
  | [] => []
  | bb :: rest =>
      inject_leave index infoPointer offset base bb
        :: inject_leaves index infoPointer offset (S (S (S base))) rest
  end.

Definition injectCallbacks (f : Function) (index : Z) (infoPointer offset : Value) : Function :=
  let base := fresh_inst f in
  match fn_blocks f with
  | [] => f
  | entry :: rest =>
      let entry := mkBasicBlock (bb_id entry)
                     (callback_insts base "mull_enterFunction" index infoPointer offset ++ bb_insts entry) in
      mkFunction (fn_id f) (fn_name f)
        (inject_leaves index infoPointer offset (S (S (S base))) (entry :: rest)) (fn_subprogram f)
  end.

Definition injectInstrumentationInfoPointer (variableName : string) : Value := GlobalRef variableName.

Definition injectFunctionIndexOffset (m : Module) (functionIndexOffsetPrefix : string) : Value :=
  GlobalRef (functionIndexOffsetPrefix +:+ mod_identifier m).

Definition insert_step (info offset : Value) (acc : list Function * Z) (function : Function) : list Function * Z :=
  let '(functions, index) := acc in
  if isDeclaration function then (functions ++ [function], index)
  else (functions ++ [injectCallbacks function index info offset], to_uint32 (index + 1)).

(** The declarations of the callbacks, which the first function that is changed
    adds to the end of the module when it has neither.  With only one of them an
    assertion would fail: this is left out. *)
Definition declare_callbacks (functions : list Function) : list Function :=
  let named name := existsb (fun f => String.eqb (fn_name f) name) functions in
  if named "mull_enterFunction" || named "mull_leaveFunction" then functions
  else
    let fresh := S (list_max (map fn_id functions)) in
    functions ++ [mkFunction fresh "mull_enterFunction" [] None; mkFunction (S fresh) "mull_leaveFunction" [] None].

Definition insertCallbacks (instrumentedModule : Module) : Module :=
  let info := injectInstrumentationInfoPointer instrumentationInfoVariableName in
  let offset := injectFunctionIndexOffset instrumentedModule functionIndexOffsetPrefix in
  mkModule (mod_identifier instrumentedModule) (mod_sourceFileName instrumentedModule)
    (let functions := fst (foldl (insert_step info offset) ([], 0%Z) (mod_functions instrumentedModule)) in
     match defined_functions instrumentedModule with [] => functions | _ => declare_callbacks functions end).

(** [mull_enterFunction], [mull_leaveFunction]: called with a pointer to the
    test's information. *)
Definition mull_enterFunction (trampoline : option InstrumentationInfo) (functionIndex : nat)
    : outcome InstrumentationInfo :=
  info ← of_option "info" trampoline;
  enterFunction functionIndex info.

Definition mull_leaveFunction (trampoline : option InstrumentationInfo) (functionIndex : nat)
    : outcome InstrumentationInfo :=
  info ← of_option "info" trampoline;
  leaveFunction functionIndex info.

Definition setupInstrumentationInfo (instr : Instrumentation) (mapping : option InstrumentationInfo)
    : outcome InstrumentationInfo :=
  _ ← require (match mapping with None => true | _ => false end) "Called twice?";
  _ ← require (Nat.ltb 1 (length (instr_functions instr))) "Functions must be filled in before this call";
  mret (zeroed (length (instr_functions instr))).

(** ** The number a callback passes *)

(** What the three instructions of a callback compute, given the value of the
    globals: the [i32] sum of the constant and the loaded offset. *)
Definition callback_index (globals : string -> Z) (insts : list Instruction) : option (string * Z) :=
  match insts with
  | [load; add; call] =>
      match inst_op load, inst_op add, inst_op call with
      | OtherInst "load" [GlobalRef g], OtherInst "add" [ConstantInt k; InstRef l],
        Call (Some callee) [_; InstRef a] =>
          if Nat.eqb l (inst_id load) && Nat.eqb a (inst_id add)
          then Some (callee, to_uint32 (k + globals g)) else None
      | _, _, _ => None
      end
  | _ => None
  end.

(** The calls of the callbacks in the blocks of a function: the first three
    instructions of the entry block, and of every returning block the three
    before the return. *)
Definition enter_report (globals : string -> Z) (f : Function) : option (string * Z) :=
  entry ← head (fn_blocks f);
  callback_index globals (take 3 (bb_insts entry)).

Definition leave_report (globals : string -> Z) (bb : BasicBlock) : option (string * Z) :=
  let l := length (bb_insts bb) - 4 in
  callback_index globals (take 3 (drop l (bb_insts bb))).

Lemma foldl_defined (l : list Function) acc :
  foldl (fun functions function =>
       if isDeclaration function then functions
       else functions ++ [mkCallTreeFunction (Some function) None]) acc l =
  acc ++ map (fun f => mkCallTreeFunction (Some f) None) (List.filter (fun f => negb (isDeclaration f)) l).
Proof.
  revert acc. induction l as [|f l IH]; intros acc; cbn; [by rewrite app_nil_r|].
  rewrite IH. destruct (isDeclaration f); cbn; [done|]. by rewrite <-app_assoc.
Qed.

Definition record_all (ms : list Module) : Instrumentation := foldl recordFunctions newInstrumentation ms.

Lemma record_all_functions ms :
  instr_functions (record_all ms) =
  mkCallTreeFunction None None ::
  map (fun f => mkCallTreeFunction (Some f) None) (concat (map defined_functions ms)).
Proof.
  unfold record_all. induction ms as [|m ms IH] using rev_ind; [done|].
  rewrite foldl_snoc. unfold recordFunctions at 1. cbn [instr_functions]. rewrite foldl_defined, IH.
  rewrite concat_map_app, map_app. cbn. by rewrite app_nil_r.
Qed.

(** The offset of a module is where its functions start in the table. *)
Lemma record_all_offset pre m post :
  ~ mod_identifier m ∈ map mod_identifier post ->
  omap_find (mod_identifier m) (functionOffsetMapping (record_all (pre ++ m :: post))) =
  Some (to_uint32 (Z.of_nat (S (length (concat (map defined_functions pre)))))).
Proof.
  intros Hni. unfold record_all. rewrite foldl_app. cbn [foldl]. fold (record_all pre).
  assert (Hpost : forall l i, ~ mod_identifier m ∈ map mod_identifier l ->
    omap_find (mod_identifier m) (functionOffsetMapping (foldl recordFunctions i l)) =
    omap_find (mod_identifier m) (functionOffsetMapping i)).
  { induction l as [|x l IH]; intros i Hl; [done|]. cbn [foldl map] in *.
    apply not_elem_of_cons in Hl as [Hx Hl]. rewrite IH by done. unfold recordFunctions; cbn [functionOffsetMapping].
    by rewrite omap_find_assign_ne. }
  rewrite Hpost by done. unfold recordFunctions; cbn [functionOffsetMapping]. rewrite omap_find_assign_eq.
  by rewrite record_all_functions; cbn [length]; rewrite length_map.
Qed.

(** ** Proofs *)

Lemma callback_index_insts globals base callee k info g :
  callback_index globals (callback_insts base callee k info (GlobalRef g)) =
  Some (callee, to_uint32 (k + globals g)).
Proof. unfold callback_index, callback_insts. cbn. by rewrite !Nat.eqb_refl. Qed.

Lemma inject_leave_insts index info offset base bb t l :
  bb_insts bb = l ++ [t] ->
  bb_insts (inject_leave index info offset base bb) =
  l ++ (if is_return t then callback_insts base "mull_leaveFunction" index info offset else []) ++ [t].
Proof.
  intros Hl. unfold inject_leave, getTerminator. rewrite Hl, last_snoc.
  destruct (is_return t); cbn [bb_insts]; [by rewrite removelast_last|done].
Qed.

(** The callback at the head of a block stays there. *)
Lemma inject_leave_head index info offset base b h l :
  length h = 3 -> (forall t, last h = Some t -> is_return t = false) ->
  take 3 (bb_insts (inject_leave index info offset base (mkBasicBlock b (h ++ l)))) = h.
Proof.
  intros Hh Hlast. destruct l as [|x l _] using rev_ind.
  - rewrite app_nil_r. unfold inject_leave, getTerminator; cbn [bb_insts].
    destruct (last h) as [t|] eqn:E; [rewrite (Hlast t eq_refl)|]; cbn [bb_insts]; apply take_ge; lia.
  - rewrite (inject_leave_insts _ _ _ _ _ x (h ++ l)) by (cbn [bb_insts]; by rewrite app_assoc).
    rewrite <-app_assoc. rewrite take_app_le by lia. apply take_ge. lia.
Qed.

Lemma inject_leave_report globals index info g base bb t :
  getTerminator (inject_leave index info (GlobalRef g) base bb) = Some t -> is_return t = true ->
  leave_report globals (inject_leave index info (GlobalRef g) base bb) =
  Some ("mull_leaveFunction", to_uint32 (index + globals g)).
Proof.
  intros Ht Hret. destruct (bb_insts bb) as [|x l _] eqn:E using rev_ind.
  - unfold inject_leave, getTerminator in Ht. rewrite E in Ht. cbn in Ht. by rewrite E in Ht.
  - pose proof (inject_leave_insts index info (GlobalRef g) base bb x l E) as Hi.
    unfold getTerminator in Ht. rewrite Hi, app_assoc, last_snoc in Ht. injection Ht as ->.
    rewrite Hret in Hi. unfold leave_report. rewrite Hi, !length_app. cbn [length callback_insts].
    replace (length l + (3 + 1) - 4) with (length l) by lia. rewrite drop_app_length.
    rewrite take_app_le by (cbn; lia). rewrite take_ge by (cbn; lia). apply callback_index_insts.
Qed.

Lemma inject_leaves_elem index info offset base blocks bb :
  bb ∈ inject_leaves index info offset base blocks ->
  exists base' bb0, bb = inject_leave index info offset base' bb0.
Proof.
  revert base. induction blocks as [|b blocks IH]; intros base Hbb; cbn in Hbb; [by apply not_elem_of_nil in Hbb|].
  apply elem_of_cons in Hbb as [->|Hbb]; eauto.
Qed.

(** What an instrumented function reports. *)
Lemma injectCallbacks_reports globals f k g :
  isDeclaration f = false ->
  enter_report globals (injectCallbacks f k (GlobalRef instrumentationInfoVariableName) (GlobalRef g)) =
    Some ("mull_enterFunction", to_uint32 (k + globals g)) /\
  forall bb t, bb ∈ fn_blocks (injectCallbacks f k (GlobalRef instrumentationInfoVariableName) (GlobalRef g)) ->
    getTerminator bb = Some t -> is_return t = true ->
    leave_report globals bb = Some ("mull_leaveFunction", to_uint32 (k + globals g)).
Proof.
  unfold isDeclaration, injectCallbacks, enter_report. destruct (fn_blocks f) as [|entry rest]; [done|]. intros _.
  cbn [fn_blocks]. split.
  - cbn [inject_leaves head mbind option_bind]. rewrite inject_leave_head; [apply callback_index_insts|done|].
    intros t. cbn. by intros [= <-].
  - intros bb t Hbb Ht Hret. apply inject_leaves_elem in Hbb as (base' & bb0 & ->).
    by apply (inject_leave_report _ _ _ _ _ _ t).
Qed.

Lemma injectCallbacks_defined f k i o : isDeclaration (injectCallbacks f k i o) = isDeclaration f.
Proof. unfold isDeclaration, injectCallbacks. by destruct (fn_blocks f) eqn:E; rewrite ?E. Qed.

(** The [k]-th defined function is given the number [k]. *)
Lemma insert_loop i o l acc j :
  (0 <= j)%Z -> (j + Z.of_nat (length l) < 4294967296)%Z ->
  List.filter (fun f => negb (isDeclaration f)) (fst (foldl (insert_step i o) (acc, j) l)) =
  List.filter (fun f => negb (isDeclaration f)) acc ++
  imap (fun k f => injectCallbacks f (j + Z.of_nat k) i o) (List.filter (fun f => negb (isDeclaration f)) l).
Proof.
  revert acc j. induction l as [|f l IH]; intros acc j Hj Hlen; cbn [foldl List.filter imap]; [by rewrite app_nil_r|].
  cbn [length] in Hlen. unfold insert_step at 2. destruct (isDeclaration f) eqn:E; cbn [negb].
  - rewrite IH by lia. rewrite List.filter_app. cbn. rewrite E. cbn. by rewrite app_nil_r.
  - rewrite to_uint32_id by lia. rewrite IH by lia. rewrite List.filter_app. cbn [List.filter].
    rewrite injectCallbacks_defined, E. cbn [negb]. rewrite <-app_assoc. f_equal. cbn [app imap].
    rewrite Z.add_0_r. f_equal. apply imap_ext. intros k x _. cbn. f_equal. lia.
Qed.

Lemma declare_callbacks_defined functions :
  List.filter (fun f => negb (isDeclaration f)) (declare_callbacks functions) = List.filter (fun f => negb (isDeclaration f)) functions.
Proof. unfold declare_callbacks. destruct (_ || _); [done|]. rewrite List.filter_app. cbn. by rewrite app_nil_r. Qed.

Lemma insertCallbacks_defined m i o :
  i = injectInstrumentationInfoPointer instrumentationInfoVariableName -> o = injectFunctionIndexOffset m functionIndexOffsetPrefix ->
  defined_functions (insertCallbacks m) =
  List.filter (fun f => negb (isDeclaration f)) (fst (foldl (insert_step i o) ([], 0%Z) (mod_functions m))).
Proof.
  intros -> ->. unfold insertCallbacks. unfold defined_functions at 1. cbn [mod_functions].
  destruct (defined_functions m); [done|]. apply declare_callbacks_defined.
Qed.

Lemma concat_lookup {A} (pre : list (list A)) l post k x :
  l !! k = Some x -> concat (pre ++ l :: post) !! (length (concat pre) + k) = Some x.
Proof.
  intros Hk. rewrite concat_app. rewrite lookup_app_r by lia.
  replace (length (concat pre) + k - length (concat pre)) with k by lia. cbn [concat].
  rewrite lookup_app_l; [done|]. by eapply lookup_lt_Some.
Qed.

Lemma lookup_cons_S {A} (x : A) l i : (x :: l) !! S i = l !! i.
Proof. done. Qed.

(** C17: numbering and callbacks agree.  Record any modules with
    distinct identifiers; instrument one of them; let the global with its
    offset have the value recorded for it.  Then every defined function
    reports, on entry and before every return, one and the same number, and
    the entry of the table at that number is the function itself. *)
Theorem instrumented_function_reports_itself pre m post k f (globals : string -> Z) :
  NoDup (map mod_identifier (pre ++ m :: post)) ->
  (Z.of_nat (length (instr_functions (record_all (pre ++ m :: post)))) +
   Z.of_nat (length (mod_functions m)) < 4294967296)%Z ->
  defined_functions m !! k = Some f ->
  omap_find (mod_identifier m) (functionOffsetMapping (record_all (pre ++ m :: post))) =
    Some (globals (functionIndexOffsetPrefix +:+ mod_identifier m)) ->
  exists f' N, defined_functions (insertCallbacks m) !! k = Some f' /\
    enter_report globals f' = Some ("mull_enterFunction", Z.of_nat N) /\
    (forall bb t, bb ∈ fn_blocks f' -> getTerminator bb = Some t -> is_return t = true ->
       leave_report globals bb = Some ("mull_leaveFunction", Z.of_nat N)) /\
    instr_functions (record_all (pre ++ m :: post)) !! N = Some (mkCallTreeFunction (Some f) None).
Proof.
  intros Hnd Hsize Hf Hoff. rewrite map_app in Hnd. apply NoDup_app in Hnd as (_ & _ & Hnd).
  apply NoDup_cons in Hnd as [Hni _]. rewrite record_all_offset in Hoff by done. injection Hoff as Hoff.
  rewrite record_all_functions in Hsize |- *. rewrite map_app in Hsize |- *. cbn [map] in Hsize |- *.
  set (N0 := length (concat (map defined_functions pre))) in *.
  pose proof (concat_lookup (map defined_functions pre) (defined_functions m) (map defined_functions post) k f Hf) as Hat.
  assert (Hlt : (Z.of_nat (S (N0 + k)) < 4294967296)%Z).
  { apply lookup_lt_Some in Hat. cbn [length] in Hsize. rewrite length_map in Hsize. fold N0 in Hat. lia. }
  rewrite to_uint32_id in Hoff by lia.
  exists (injectCallbacks f (Z.of_nat k) (GlobalRef instrumentationInfoVariableName)
           (GlobalRef (functionIndexOffsetPrefix +:+ mod_identifier m))), (S (N0 + k)).
  assert (HN : to_uint32 (Z.of_nat k + globals (functionIndexOffsetPrefix +:+ mod_identifier m)) = Z.of_nat (S (N0 + k))).
  { rewrite <-Hoff. rewrite to_uint32_id by lia. lia. }
  assert (Hdecl : isDeclaration f = false).
  { apply list_elem_of_lookup_2, list_elem_of_In, filter_In in Hf as [_ Hf]. by apply negb_true_iff. }
  destruct (injectCallbacks_reports globals f (Z.of_nat k) (functionIndexOffsetPrefix +:+ mod_identifier m) Hdecl) as [He Hl].
  rewrite HN in He, Hl. split; [|split; [done|split; [done|]]].
  - rewrite (insertCallbacks_defined m _ _ eq_refl eq_refl), insert_loop by (cbn [length] in Hsize; lia).
    cbn [List.filter app]. rewrite list_lookup_imap. fold (defined_functions m). by rewrite Hf.
  - rewrite lookup_cons_S, list_lookup_fmap. unfold N0. by rewrite Hat.
Qed.

Lemma instrumented_function_reports_itself_witness :
  exists f' N, defined_functions (insertCallbacks Samples.sample_module) !! 0 = Some f' /\
    enter_report (fun _ => 1%Z) f' = Some ("mull_enterFunction", Z.of_nat N) /\
    (forall bb t, bb ∈ fn_blocks f' -> getTerminator bb = Some t -> is_return t = true ->
       leave_report (fun _ => 1%Z) bb = Some ("mull_leaveFunction", Z.of_nat N)) /\
    instr_functions (record_all [Samples.sample_module]) !! N =
      Some (mkCallTreeFunction (Some Samples.sample_function) None).
Proof.
  apply (instrumented_function_reports_itself [] Samples.sample_module [] 0 Samples.sample_function (fun _ => 1%Z)).
  - apply (bool_decide_unpack _). exact I.
  - reflexivity.
  - reflexivity.
  - reflexivity.
Defined.
