(* ===== verification/Executor.v ===== *)
(** * The task executor (include/mull/Parallelization/TaskExecutor.h, lib/Parallelization/TaskExecutor.cpp)

    A task appends, for each item of a range, its results to a storage.  With
    one task or one item [execute] runs it in place; otherwise it cuts the
    input into batches, gives every batch to a thread with a storage of its
    own, waits, and concatenates the storages.  Threads interleave item by
    item: [worker_step] is one item processed by one thread.  Tasks whose
    items do not share state are the scope; [step] is what such a task does
    with one item. *)

From stdpp Require Import base list strings sets relations.
From Stdlib Require Import ZArith Lia Bool.
From S2P Require Import Prelude.

(** ** taskBatches *)

(** The body of the loop: [q], [r], [start], [end] and [s] are locals of the
    function, [k] is the loop variable. *)
Definition batch_round (n m : Z) (acc : Z * Z * list Z) (k : Z) : outcome (Z * Z * list Z) :=
  let '(end_, s, result) := acc in
  nk ← int_op (n - k);
  let q := Z.quot nk m in
  let r := Z.rem nk m in
  let start := end_ in
  end_ ← int_op (end_ + q + (if Z.eqb r 0 then 0 else 1));
  sum ← int_op (s + end_);
  s ← int_op (sum - start);
  size ← int_op (end_ - start);
  mret (end_, s, result ++ [size]).

Definition taskBatches (itemsCount tasks : nat) : outcome (list Z) :=
  _ ← require (Nat.leb tasks itemsCount) "itemsCount >= tasks";
  let n := to_int (Z.of_nat itemsCount) in
  let m := to_int (Z.of_nat tasks) in
  acc ← fold_outcome (batch_round n m) (0%Z, 0%Z, []) (map Z.of_nat (seq 0 (Z.to_nat m)));
  let '(_, s, result) := acc in
  _ ← require (Z.eqb s n) "s == n";
  mret result.

(** [std::advance] over the input, batch by batch. *)
Fixpoint cut_batches {A} (sizes : list Z) (l : list A) : list (list A) :=
  match sizes with
  | [] => []
  | group :: rest => take (Z.to_nat group) l :: cut_batches rest (drop (Z.to_nat group) l)
  end.

(** ** Running a task *)
Section Execution.
Context {A B : Type} (step : A -> outcome (list B)).

(** [task(begin, end, storage, counter)] *)
Definition run_task (storage : list B) (items : list A) : outcome (list B) :=
  fold_outcome (fun storage item => found ← step item; mret (storage ++ found)) storage items.

(** A thread: what is left of its batch, its storage, its progress counter. *)
Record Worker := mkWorker {
  w_items : list A;
  w_storage : list B;
  w_counter : nat
}.

Definition start_worker (batch : list A) : Worker := mkWorker batch [] 0.

Inductive worker_step : list Worker -> list Worker -> Prop :=
  | worker_step_at i item items storage counter found ws :
      ws !! i = Some (mkWorker (item :: items) storage counter) ->
      step item = Ok found ->
      worker_step ws (<[i := mkWorker items (storage ++ found) (S counter)]> ws).

Definition joined (ws : list Worker) : bool :=
  forallb (fun w => match w_items w with [] => true | _ => false end) ws.

(** [executeInParallel]: [result] is a possible value of [out]. *)
Inductive executeInParallel (tasks : nat) (input : list A) (out : list B) : list B -> Prop :=
  | parallel_result batches ws :
      taskBatches (length input) (Nat.min (length input) tasks) = Ok batches ->
      rtc worker_step (map start_worker (cut_batches batches input)) ws ->
      joined ws = true ->
      executeInParallel tasks input out (out ++ concat (map w_storage ws)).

(** [execute]: [tasks] is the number of task objects. *)
Inductive execute (tasks : nat) (input : list A) (out : list B) : list B -> Prop :=
  | execute_nothing : (tasks = 0 \/ input = []) -> execute tasks input out out
  | execute_sequentially result :
      tasks <> 0 -> input <> [] -> (tasks = 1 \/ length input = 1) ->
      run_task out input = Ok result -> execute tasks input out result
  | execute_in_parallel result :
      tasks <> 0 -> input <> [] -> tasks <> 1 -> length input <> 1 ->
      executeInParallel tasks input out result -> execute tasks input out result.

(** The sum the progress reporter compares with the size of the input. *)
Definition progress_total (ws : list Worker) : nat := foldr Nat.add 0 (map w_counter ws).
End Execution.

(** ** Batches *)
Open Scope Z_scope.

(** Batch [k] of [n] items over [m] threads. *)
Definition batch_size (n m k : Z) : Z := n / m + (if Z.ltb k (n mod m) then 1 else 0).

Lemma batch_quot n m k :
  0 < m <= n -> 0 <= k < m ->
  Z.quot (n - k) m + (if Z.eqb (Z.rem (n - k) m) 0 then 0 else 1) = batch_size n m k.
Proof.
  intros Hm Hk. unfold batch_size. rewrite Z.quot_div_nonneg, Z.rem_mod_nonneg by lia.
  pose proof (Z.div_mod n m ltac:(lia)) as Hn. pose proof (Z.mod_pos_bound n m ltac:(lia)) as Hr.
  destruct (Z.ltb_spec k (n mod m)).
  - assert (Hd : (n - k) / m = n / m) by (symmetry; apply (Z.div_unique _ _ _ (n mod m - k)); lia).
    assert (Hmod : (n - k) mod m = n mod m - k) by (symmetry; apply (Z.mod_unique _ _ (n / m)); lia).
    rewrite Hd, Hmod. destruct (Z.eqb_spec (n mod m - k) 0); lia.
  - destruct (Z.eq_dec k (n mod m)) as [->|Hne].
    + assert (Hd : (n - n mod m) / m = n / m) by (symmetry; apply (Z.div_unique _ _ _ 0); lia).
      assert (Hmod : (n - n mod m) mod m = 0) by (symmetry; apply (Z.mod_unique _ _ (n / m)); lia).
      rewrite Hd, Hmod. simpl. lia.
    + assert (Hd : (n - k) / m = n / m - 1) by (symmetry; apply (Z.div_unique _ _ _ (m + n mod m - k)); lia).
      assert (Hmod : (n - k) mod m = m + n mod m - k) by (symmetry; apply (Z.mod_unique _ _ (n / m - 1)); lia).
      rewrite Hd, Hmod. destruct (Z.eqb_spec (m + n mod m - k) 0); lia.
Qed.

(** What the first [k] batches hold. *)
Definition batch_end (n m k : Z) : Z := k * (n / m) + Z.min k (n mod m).

Lemma batch_end_succ n m k : 0 <= k -> batch_end n m (k + 1) = batch_end n m k + batch_size n m k.
Proof. unfold batch_end, batch_size. intros. destruct (Z.ltb_spec k (n mod m)); lia. Qed.

Lemma batch_end_bound n m k : 0 < m <= n -> 0 <= k <= m -> 0 <= batch_end n m k <= n.
Proof.
  intros Hm Hk. unfold batch_end. pose proof (Z.div_mod n m ltac:(lia)). pose proof (Z.mod_pos_bound n m ltac:(lia)).
  assert (0 <= n / m) by (apply Z.div_pos; lia). nia.
Qed.

Lemma batch_end_all n m : 0 < m <= n -> batch_end n m m = n.
Proof.
  intros Hm. unfold batch_end. pose proof (Z.div_mod n m ltac:(lia)). pose proof (Z.mod_pos_bound n m ltac:(lia)). lia.
Qed.

Lemma batch_size_pos n m k : 0 < m <= n -> 0 < batch_size n m k.
Proof.
  intros Hm. unfold batch_size. assert (1 <= n / m) by (apply Z.div_le_lower_bound; lia). case_match; lia.
Qed.

(** The sum of a round: what the batches before hold and what they hold with
    this one. *)
Lemma batch_round_run n m k l :
  0 < m <= n -> n <= int_max -> 0 <= k < m ->
  batch_round n m (batch_end n m k, batch_end n m k, l) k =
  if batch_end n m k + batch_end n m (k + 1) <=? int_max
  then Ok (batch_end n m (k + 1), batch_end n m (k + 1), l ++ [batch_size n m k])
  else Abort "signed integer overflow".
Proof.
  intros Hm Hn Hk. unfold batch_round.
  assert (Hin : forall z, 0 <= z <= n -> int_op z = Ok z).
  { intros z Hz. apply int_op_Ok, in_int_spec. unfold int_min, int_max in *. lia. }
  pose proof (batch_end_bound n m k Hm ltac:(lia)) as Ha. pose proof (batch_end_bound n m (k + 1) Hm ltac:(lia)) as Hb.
  pose proof (batch_size_pos n m k Hm) as Hs.
  rewrite (Hin (n - k)) by lia. cbn [mbind outcome_bind].
  rewrite <-Z.add_assoc, (batch_quot n m k Hm Hk). rewrite batch_end_succ in Hb |- * by lia.
  rewrite Hin by lia. cbn [mbind outcome_bind]. set (e := batch_end n m k) in *. set (z := batch_size n m k) in *.
  destruct (Z.leb_spec (e + (e + z)) int_max) as [Hle|Hgt]; [|by rewrite (int_op_overflow _ Hgt)].
  rewrite (int_op_Ok (e + (e + z))) by (apply in_int_spec; unfold int_min, int_max in *; lia). cbn [mbind outcome_bind].
  rewrite (Hin (e + (e + z) - e)) by lia. cbn [mbind outcome_bind].
  replace (e + z - e) with z by lia. rewrite (Hin z) by lia. cbn [mbind outcome_bind mret outcome_ret].
  by replace (e + (e + z) - e) with (e + z) by lia.
Qed.

(** The rounds grow: when the last one fits, all do. *)
Definition rounds_fit (n m : Z) (j : nat) : bool :=
  match j with O => true | S k => batch_end n m (Z.of_nat k) + batch_end n m (Z.of_nat j) <=? int_max end.

Lemma rounds_fit_pred n m j : 0 < m <= n -> rounds_fit n m (S j) = true -> rounds_fit n m j = true.
Proof.
  intros Hm. destruct j as [|j]; [done|]. unfold rounds_fit. rewrite !Z.leb_le, !Nat2Z.inj_succ, <-!Z.add_1_r, !batch_end_succ by lia.
  pose proof (batch_size_pos n m (Z.of_nat j) Hm). pose proof (batch_size_pos n m (Z.of_nat j + 1) Hm). lia.
Qed.

Lemma taskBatches_loop n m j :
  0 < m <= n -> n <= int_max -> (Z.of_nat j <= m) ->
  fold_outcome (batch_round n m) (0, 0, []) (map Z.of_nat (seq 0 j)) =
  if rounds_fit n m j
  then Ok (batch_end n m (Z.of_nat j), batch_end n m (Z.of_nat j), map (batch_size n m) (map Z.of_nat (seq 0 j)))
  else Abort "signed integer overflow".
Proof.
  intros Hm Hn. pose proof (Z.mod_pos_bound n m ltac:(lia)). induction j as [|j IH]; intros Hj.
  - cbn. unfold batch_end. replace (0 * (n / m) + Z.min (Z.of_nat 0) (n mod m)) with 0 by lia.
    do 3 f_equal; unfold batch_end; lia.
  - rewrite seq_S, !map_app, fold_outcome_app, IH by lia. pose proof (rounds_fit_pred n m j Hm) as Hpred.
    destruct (rounds_fit n m j).
    + cbn [mbind outcome_bind map fold_outcome Nat.add]. rewrite (batch_round_run n m (Z.of_nat j)) by lia.
      unfold rounds_fit. rewrite Nat2Z.inj_succ, <-Z.add_1_r. by destruct (_ <=? _).
    + destruct (rounds_fit n m (S j)); [by specialize (Hpred eq_refl)|done].
Qed.

Definition batch_sizes (itemsCount tasks : nat) : list Z :=
  map (batch_size (Z.of_nat itemsCount) (Z.of_nat tasks)) (map Z.of_nat (seq 0 tasks)).

Lemma foldr_add_acc l a : foldr Z.add a l = foldr Z.add 0 l + a.
Proof. revert a. induction l as [|x l IH]; intros a; cbn [foldr]; [lia|]. rewrite IH. lia. Qed.

Lemma batch_sizes_sum_upto n m j :
  0 < m <= n -> Z.of_nat j <= m ->
  foldr Z.add 0 (map (batch_size n m) (map Z.of_nat (seq 0 j))) = batch_end n m (Z.of_nat j).
Proof.
  intros Hm. induction j as [|j IH]; intros Hj.
  - pose proof (Z.mod_pos_bound n m ltac:(lia)). cbn. unfold batch_end. lia.
  - rewrite seq_S, !map_app, foldr_app. cbn [map foldr Nat.add]. rewrite Z.add_0_r, foldr_add_acc, IH by lia.
    by rewrite Nat2Z.inj_succ, <-Z.add_1_r, batch_end_succ by lia.
Qed.

Lemma batch_sizes_sum itemsCount tasks :
  (0 < tasks <= itemsCount)%nat -> foldr Z.add 0 (batch_sizes itemsCount tasks) = Z.of_nat itemsCount.
Proof. intros Ht. unfold batch_sizes. rewrite batch_sizes_sum_upto by lia. apply batch_end_all. lia. Qed.

(** [taskBatches] for as many items as an [int] counts: the last round is the
    one that sums up most. *)
Lemma taskBatches_cases itemsCount tasks :
  (0 < tasks <= itemsCount)%nat -> Z.of_nat itemsCount <= int_max ->
  taskBatches itemsCount tasks =
  if 2 * Z.of_nat itemsCount - Z.of_nat itemsCount / Z.of_nat tasks <=? int_max
  then Ok (batch_sizes itemsCount tasks) else Abort "signed integer overflow".
Proof.
  intros Ht Hn. unfold taskBatches. rewrite (proj2 (Nat.leb_le _ _)) by lia. cbn [require mbind outcome_bind].
  rewrite !to_int_id by (apply in_int_spec; unfold int_min, int_max in *; lia).
  replace (Z.to_nat (Z.of_nat tasks)) with tasks by lia. rewrite taskBatches_loop by lia.
  set (n := Z.of_nat itemsCount) in *. set (m := Z.of_nat tasks) in *.
  replace (rounds_fit n m tasks) with (2 * n - n / m <=? int_max).
  - destruct (_ <=? _); [|done]. cbn [mbind outcome_bind]. by rewrite batch_end_all, Z.eqb_refl by lia.
  - unfold rounds_fit. destruct tasks as [|k]; [lia|]. fold m. f_equal. rewrite batch_end_all by lia.
    assert (Hk : m = Z.of_nat k + 1) by lia. pose proof (batch_end_all n m ltac:(lia)) as Hall.
    rewrite Hk in Hall at 2. rewrite batch_end_succ in Hall by lia. unfold batch_size in Hall.
    pose proof (Z.mod_pos_bound n m ltac:(lia)). revert Hall. destruct (Z.ltb_spec (Z.of_nat k) (n mod m)); lia.
Qed.

Lemma taskBatches_run itemsCount tasks :
  (0 < tasks <= itemsCount)%nat -> 2 * Z.of_nat itemsCount <= int_max ->
  taskBatches itemsCount tasks = Ok (batch_sizes itemsCount tasks).
Proof.
  intros Ht Hn. rewrite taskBatches_cases by lia. rewrite (proj2 (Z.leb_le _ _)); [done|].
  assert (0 <= Z.of_nat itemsCount / Z.of_nat tasks) by (apply Z.div_pos; lia). lia.
Qed.

Lemma batch_sizes_lookup itemsCount tasks k :
  (k < tasks)%nat ->
  batch_sizes itemsCount tasks !! k = Some (Z.of_nat (itemsCount / tasks + if Nat.ltb k (itemsCount mod tasks) then 1 else 0)).
Proof.
  intros Hk. unfold batch_sizes, batch_size. rewrite !list_lookup_fmap, lookup_seq_lt by done.
  cbn [fmap option_fmap option_map Nat.add]. f_equal. rewrite <-Nat2Z.inj_mod, <-Nat2Z.inj_div, Nat2Z.inj_add.
  generalize (itemsCount mod tasks)%nat (itemsCount / tasks)%nat. intros r q.
  destruct (Nat.ltb_spec k r), (Z.ltb_spec (Z.of_nat k) (Z.of_nat r)); lia.
Qed.

(** ** Interleavings *)
Close Scope Z_scope.

Lemma length_cut_batches {A} sizes : forall l : list A, length (cut_batches sizes l) = length sizes.
Proof. induction sizes as [|n sizes IH]; intros l; [done|]. cbn. by rewrite IH. Qed.

Lemma cut_batches_concat {A} sizes (l : list A) :
  Forall (fun z => (0 <= z)%Z) sizes -> foldr Z.add 0%Z sizes = Z.of_nat (length l) ->
  concat (cut_batches sizes l) = l.
Proof.
  revert l. induction sizes as [|z sizes IH]; intros l Hpos Hsum; cbn in *.
  - destruct l; [done|]. cbn in Hsum. lia.
  - apply Forall_cons in Hpos as [Hz Hpos].
    assert (0 <= foldr Z.add 0 sizes)%Z by (clear -Hpos; induction Hpos; cbn; lia).
    rewrite IH; [apply take_drop|done|]. rewrite length_drop. lia.
Qed.

Section Interleavings.
Context {A B : Type} (step : A -> outcome (list B)).

Lemma run_task_app storage items :
  run_task step storage items = (run_task step [] items ≫= fun r => mret (storage ++ r)).
Proof.
  assert (Hgen : forall items s1 s2, run_task step (s1 ++ s2) items =
    (run_task step s2 items ≫= fun r => mret (s1 ++ r))).
  { clear. induction items as [|x items IH]; intros s1 s2; cbn; [done|].
    destruct (step x) as [found|c|w]; cbn; [|done|done]. rewrite <-app_assoc. apply IH. }
  rewrite <-(app_nil_r storage) at 1. apply Hgen.
Qed.

(** What every item yields, when none fails. *)
Definition yields (f : A -> list B) (items : list A) : Prop := forall x, x ∈ items -> step x = Ok (f x).

Lemma run_task_yields f items storage :
  yields f items -> run_task step storage items = Ok (storage ++ concat (map f items)).
Proof.
  revert storage. induction items as [|x items IH]; intros storage Hf; cbn; [by rewrite app_nil_r|].
  rewrite Hf by (by left). cbn. rewrite app_assoc. apply IH. intros y Hy. apply Hf. by right.
Qed.

Lemma run_task_Ok items storage r :
  run_task step storage items = Ok r ->
  exists f, yields f items.
Proof.
  intros Hr. exists (fun x => match step x with Ok found => found | _ => [] end). intros x Hx.
  revert storage Hr. induction items as [|y items IH]; [by apply not_elem_of_nil in Hx|].
  intros storage Hr. cbn in Hr. destruct (step y) as [found|c|w] eqn:E; [|done|done].
  apply elem_of_cons in Hx as [->|Hx]; [by rewrite E|]. exact (IH Hx _ Hr).
Qed.

(** Whatever is stored was found in an item of the input. *)
Definition from_input (input : list A) (x : B) : Prop := exists a found, a ∈ input /\ step a = Ok found /\ x ∈ found.

Lemma run_task_from items storage r x :
  run_task step storage items = Ok r -> x ∈ r -> x ∈ storage \/ from_input items x.
Proof.
  revert storage. induction items as [|a items IH]; intros storage Hr Hx; cbn in Hr; [injection Hr as <-; by left|].
  destruct (step a) as [found| |] eqn:Ha; [|done..]. destruct (IH _ Hr Hx) as [[?|?]%elem_of_app|(b & l & ? & ? & ?)].
  - by left.
  - right. exists a, found. split; [by left|done].
  - right. exists b, l. split; [by right|done].
Qed.

Definition worker_from (input : list A) (w : Worker) : Prop :=
  (forall a, a ∈ w_items w -> a ∈ input) /\ forall x, x ∈ w_storage w -> from_input input x.

Lemma worker_step_from input ws ws' :
  Forall (worker_from input) ws -> worker_step step ws ws' -> Forall (worker_from input) ws'.
Proof.
  intros Hws Hstep. destruct Hstep as [i item items storage counter found ws Hi Hfound].
  apply Forall_insert; [done|]. rewrite Forall_forall in Hws. destruct (Hws _ (list_elem_of_lookup_2 _ _ _ Hi)) as [Hin Hst].
  cbn [w_items w_storage] in *. split; [intros a Ha; apply Hin; by right|].
  intros x [Hx|Hx]%elem_of_app; [by apply Hst|]. exists item, found. split; [apply Hin; by left|done].
Qed.

Lemma cut_batches_elem sizes : forall (l : list A) batch a, batch ∈ cut_batches sizes l -> a ∈ batch -> a ∈ l.
Proof.
  induction sizes as [|n sizes IH]; intros l batch a Hb Ha; cbn [cut_batches] in Hb; [by apply not_elem_of_nil in Hb|].
  rewrite <-(take_drop (Z.to_nat n) l). apply elem_of_app. apply elem_of_cons in Hb as [->|Hb]; [by left|right; by eapply IH].
Qed.

Lemma execute_from tasks input result x : execute step tasks input [] result -> x ∈ result -> from_input input x.
Proof.
  intros Hrun Hx. destruct Hrun as [_|result _ _ _ Hrun|result _ _ _ _ [batches ws _ Hsteps _]]; [by apply not_elem_of_nil in Hx| |].
  - by destruct (run_task_from input [] result x Hrun Hx) as [?%not_elem_of_nil|?].
  - assert (Hws : Forall (worker_from input) ws).
    { assert (H0 : Forall (worker_from input) (map start_worker (cut_batches batches input))).
      { apply Forall_forall. intros w (batch & -> & Hb)%list_elem_of_fmap. split; cbn; [|intros y Hy; by apply not_elem_of_nil in Hy].
        intros a. by eapply cut_batches_elem. }
      clear -Hsteps H0. induction Hsteps; [done|]. eauto using worker_step_from. }
    cbn [app] in Hx. apply elem_of_concat_map in Hx as (w & Hw & Hx). rewrite Forall_forall in Hws. by apply (Hws w Hw).
Qed.

(** A thread between the start and the end of its batch. *)
Definition worker_ok (f : A -> list B) (batch : list A) (w : Worker) : Prop :=
  exists done_items, batch = done_items ++ w_items w /\ w_storage w = concat (map f done_items) /\
    w_counter w = length done_items.

Lemma worker_step_ok f batches ws ws' :
  yields f (concat batches) -> Forall2 (worker_ok f) batches ws -> worker_step step ws ws' ->
  Forall2 (worker_ok f) batches ws'.
Proof.
  intros Hf Hok Hstep. revert Hok. destruct Hstep as [i item items storage counter found ws Hi Hfound]. intros Hok.
  destruct (Forall2_lookup_r _ _ _ _ _ Hok Hi) as (batch & Hb & done_items & Hbatch & Hst & Hc).
  cbn [w_items w_storage w_counter] in *.
  assert (Hx : step item = Ok (f item)).
  { apply Hf. apply list_elem_of_In, in_concat. exists batch. split; apply list_elem_of_In.
    - by eapply list_elem_of_lookup_2.
    - rewrite Hbatch. apply elem_of_app. right. by left. }
  rewrite Hfound in Hx. injection Hx as ->.
  rewrite <-(list_insert_id batches i batch Hb). apply Forall2_insert; [done|].
  exists (done_items ++ [item]). cbn [w_items w_storage w_counter]. split; [by rewrite <-app_assoc|].
  rewrite concat_map_app, Hst, length_app, Hc. cbn. rewrite app_nil_r. split; [done|lia].
Qed.

Lemma workers_ok f batches ws :
  yields f (concat batches) -> rtc (worker_step step) (map start_worker batches) ws ->
  Forall2 (worker_ok f) batches ws.
Proof.
  intros Hf Hrun.
  assert (Hstart : Forall2 (worker_ok f) batches (map start_worker batches)).
  { clear. induction batches as [|b batches IH]; cbn; constructor; [|done]. by exists []. }
  revert Hstart. induction Hrun as [|ws1 ws2 ws3 Hstep _ IH]; [done|]. intros Hs.
  apply IH. by eapply worker_step_ok.
Qed.

Lemma workers_joined f batches ws :
  Forall2 (worker_ok f) batches ws -> joined ws = true ->
  concat (map w_storage ws) = concat (map f (concat batches)).
Proof.
  intros Hok. induction Hok as [|b w batches ws (d & Hb & Hs & _) _ IH]; [done|]. cbn [joined forallb map concat].
  intros [Hw Hj]%andb_true_iff. destruct (w_items w) eqn:E; [|done]. rewrite app_nil_r in Hb.
  rewrite concat_map_app, <-IH by done. by rewrite Hb, Hs.
Qed.

(** The counters tell how many items are done. *)
Lemma workers_total f batches ws :
  Forall2 (worker_ok f) batches ws ->
  progress_total ws + length (concat (map w_items ws)) = length (concat batches).
Proof.
  intros Hok. unfold progress_total. induction Hok as [|b w batches ws (d & Hb & _ & Hc) _ IH]; [done|].
  cbn [map concat foldr]. rewrite !length_app, Hb, length_app, Hc. lia.
Qed.

(** A thread with work left can take a step, whatever the others did. *)
Lemma workers_progress f batches ws :
  yields f (concat batches) -> Forall2 (worker_ok f) batches ws -> joined ws = false ->
  exists ws', worker_step step ws ws'.
Proof.
  intros Hf Hok Hj.
  assert (Hex : exists i w, ws !! i = Some w /\ w_items w <> []).
  { clear -Hj. induction ws as [|w ws IH]; [done|]. cbn in Hj. destruct (w_items w) eqn:E.
    - destruct (IH Hj) as (i & v & Hi & Hv). by exists (S i), v.
    - exists 0, w. split; [done|]. by rewrite E. }
  destruct Hex as (i & [items storage counter] & Hi & Hne). cbn in Hne. destruct items as [|x items]; [done|].
  destruct (Forall2_lookup_r _ _ _ _ _ Hok Hi) as (batch & Hb & d & Hbatch & _).
  eexists. eapply worker_step_at; [exact Hi|]. apply Hf. apply list_elem_of_In, in_concat. exists batch.
  split; apply list_elem_of_In; [by eapply list_elem_of_lookup_2|]. rewrite Hbatch. cbn.
  apply elem_of_app. right. by left.
Qed.

Lemma joined_total (ws : list Worker) :
  joined ws = true <-> length (concat (map (@w_items A B) ws)) = 0.
Proof.
  induction ws as [|w ws IH]; cbn; [done|]. rewrite andb_true_iff, IH, length_app.
  destruct (w_items w); cbn; [tauto|]. split; [by intros [? _]|lia].
Qed.

(** Every step processes an item. *)
Lemma sum_insert_succ (l : list nat) i c :
  l !! i = Some c -> foldr Nat.add 0 (<[i := S c]> l) = S (foldr Nat.add 0 l).
Proof.
  revert i. induction l as [|x l IH]; intros [|i] Hi; try done.
  - injection Hi as ->. done.
  - change (x + foldr Nat.add 0 (<[i := S c]> l) = S (x + foldr Nat.add 0 l)). rewrite (IH i Hi). lia.
Qed.

Lemma worker_step_total ws ws' : worker_step step ws ws' -> progress_total ws' = S (progress_total ws).
Proof.
  intros [i item items storage counter found w Hi _]. unfold progress_total.
  replace (map w_counter (<[i:=mkWorker items (storage ++ found) (S counter)]> w))
    with (<[i := S counter]> (map w_counter w)) by (symmetry; apply (list_fmap_insert w_counter)).
  apply sum_insert_succ. by rewrite list_lookup_fmap, Hi.
Qed.

Lemma workers_steps f batches n ws :
  yields f (concat batches) -> nsteps (worker_step step) n (map start_worker batches) ws ->
  progress_total ws = n.
Proof.
  intros Hf Hn.
  assert (Hgen : forall k w1 w2, nsteps (worker_step step) k w1 w2 -> progress_total w2 = k + progress_total w1).
  { induction k as [|k IH]; intros w1 w2 Hk; inversion Hk; subst; [done|].
    match goal with Hs : worker_step step w1 ?y, Hr : nsteps _ k ?y w2 |- _ =>
      rewrite (IH _ _ Hr), (worker_step_total _ _ Hs) end. lia. }
  rewrite (Hgen _ _ _ Hn). replace (progress_total (map start_worker batches)) with 0; [lia|].
  unfold progress_total. clear. by induction batches.
Qed.

Lemma all_workers_finish f batches ws :
  yields f (concat batches) -> Forall2 (worker_ok f) batches ws ->
  exists ws', rtc (worker_step step) ws ws' /\ joined ws' = true.
Proof.
  intros Hf. remember (length (concat (map w_items ws))) as k eqn:Hk. revert ws Hk.
  induction (Nat.lt_wf_0 k) as [k _ IH]. intros ws -> Hok. destruct (joined ws) eqn:Hj; [exists ws; by split|].
  destruct (workers_progress f batches ws Hf Hok Hj) as [ws1 Hs].
  pose proof (worker_step_ok f batches ws ws1 Hf Hok Hs) as Hok1.
  destruct (IH (length (concat (map w_items ws1)))) with (ws := ws1) as (ws' & Hr & Hj'); [|done|done|].
  - pose proof (workers_total f batches ws Hok). pose proof (workers_total f batches ws1 Hok1).
    pose proof (worker_step_total _ _ Hs). lia.
  - exists ws'. split; [by eapply rtc_l|done].
Qed.
End Interleavings.

Lemma batch_sizes_nonneg itemsCount tasks :
  0 < tasks <= itemsCount -> Forall (fun z => (0 <= z)%Z) (batch_sizes itemsCount tasks).
Proof.
  intros Ht. apply Forall_forall. intros z Hz. unfold batch_sizes in Hz.
  apply list_elem_of_fmap in Hz as (k & -> & _). apply Z.lt_le_incl, batch_size_pos. lia.
Qed.

Lemma batches_partition {A} (input : list A) tasks :
  0 < tasks <= length input -> concat (cut_batches (batch_sizes (length input) tasks) input) = input.
Proof.
  intros Ht. apply cut_batches_concat; [by apply batch_sizes_nonneg|by apply batch_sizes_sum].
Qed.

(** Batch [k] has the size given, when the sizes before leave so much. *)
Lemma cut_batches_lookup {A} sizes : forall (l : list A) k size,
  Forall (fun z => (0 <= z)%Z) sizes -> foldr Z.add 0%Z sizes = Z.of_nat (length l) -> sizes !! k = Some (Z.of_nat size) ->
  exists batch, cut_batches sizes l !! k = Some batch /\ length batch = size.
Proof.
  induction sizes as [|z sizes IH]; intros l k size Hpos Hsum Hk; [done|].
  apply Forall_cons in Hpos as [Hz Hpos]. cbn [foldr] in Hsum.
  assert (0 <= foldr Z.add 0 sizes)%Z by (clear -Hpos; induction Hpos; cbn; lia).
  destruct k as [|k]; cbn in *.
  - injection Hk as ->. eexists. split; [done|]. rewrite length_take. lia.
  - apply IH; [done| |done]. rewrite length_drop. lia.
Qed.

(** C13: for any number of workers and as many items at least, up to INT_MAX: as
    long as twice the items less a batch is at most INT_MAX, cutting the items by
    the sizes [taskBatches] returns gives one batch per worker, the batches are the
    items in their order, and batch [k] has the quotient of items, one more for the
    first [items mod workers] ones, so none is empty and no two differ by more
    than one.  Beyond, the running sum overflows; with one worker it never does,
    with more it does not up to half of INT_MAX. *)
Theorem taskBatches_partition {A} (input : list A) tasks :
  0 < tasks <= length input -> (Z.of_nat (length input) <= int_max)%Z ->
  ((2 * Z.of_nat (length input) - Z.of_nat (length input / tasks) <= int_max)%Z ->
     exists sizes, taskBatches (length input) tasks = Ok sizes /\
       concat (cut_batches sizes input) = input /\ length (cut_batches sizes input) = tasks /\
       forall k, k < tasks -> exists batch, cut_batches sizes input !! k = Some batch /\ 0 < length batch /\
         length batch = length input / tasks + (if Nat.ltb k (length input mod tasks) then 1 else 0)) /\
  ((int_max < 2 * Z.of_nat (length input) - Z.of_nat (length input / tasks))%Z ->
     taskBatches (length input) tasks = Abort "signed integer overflow").
Proof.
  intros Ht Hn. rewrite Nat2Z.inj_div, taskBatches_cases by done. split; intros Hfit.
  - rewrite (proj2 (Z.leb_le _ _) Hfit). exists (batch_sizes (length input) tasks). split; [done|].
    split; [by apply batches_partition|]. split; [unfold batch_sizes; by rewrite length_cut_batches, !length_map, length_seq|].
    intros k Hk. destruct (cut_batches_lookup (batch_sizes (length input) tasks) input k
      (length input / tasks + if Nat.ltb k (length input mod tasks) then 1 else 0)) as (batch & Hb & Hl).
    + by apply batch_sizes_nonneg.
    + by apply batch_sizes_sum.
    + by apply batch_sizes_lookup.
    + exists batch. split; [done|]. assert (1 <= length input / tasks) by (apply Nat.div_le_lower_bound; lia). lia.
  - by rewrite (proj2 (Z.leb_gt _ _) Hfit).
Qed.

(** Seven items over three workers. *)
Lemma taskBatches_partition_witness :
  exists sizes, taskBatches 7 3 = Ok sizes /\ cut_batches sizes [1; 2; 3; 4; 5; 6; 7] = [[1; 2; 3]; [4; 5]; [6; 7]] /\
    concat (cut_batches sizes [1; 2; 3; 4; 5; 6; 7]) = [1; 2; 3; 4; 5; 6; 7].
Proof.
  destruct (proj1 (taskBatches_partition [1; 2; 3; 4; 5; 6; 7] 3 ltac:(cbn; lia) ltac:(unfold int_max; cbn; lia)))
    as (sizes & Hrun & Hcat & _); [unfold int_max; cbn; lia|].
  exists sizes. split; [exact Hrun|]. split; [|exact Hcat]. vm_compute in Hrun. injection Hrun as <-. reflexivity.
Defined.

(** The one result of [execute], shared with the clients of the executor. *)
Lemma execute_result {A B} (step : A -> outcome (list B)) tasks input out r :
  0 < tasks -> (2 * Z.of_nat (length input) <= int_max)%Z ->
  run_task step [] input = Ok r ->
  forall result, execute step tasks input out result <-> result = out ++ r.
Proof.
  intros Ht Hsize Hr. destruct (run_task_Ok step input [] r Hr) as [f Hf].
  assert (r = concat (map f input)) as ->.
  { rewrite (run_task_yields step f input [] Hf) in Hr. by injection Hr as <-. }
  assert (Hpar : input <> [] -> 0 < Nat.min (length input) tasks <= length input).
  { intros Hne. destruct input; [done|]. cbn [length]. lia. }
  assert (Hworkers : input <> [] -> forall ws,
    rtc (worker_step step) (map start_worker (cut_batches (batch_sizes (length input) (Nat.min (length input) tasks)) input)) ws ->
    Forall2 (worker_ok f) (cut_batches (batch_sizes (length input) (Nat.min (length input) tasks)) input) ws).
  { intros Hne ws Hrun. apply (workers_ok step); [|done]. by rewrite (batches_partition _ _ (Hpar Hne)). }
  intros result. split.
  - intros [[->| ->]|res Ht0 Hne Hone Hrun|res Ht0 Hne Hmany Hlen [batches ws Hb Hrun Hj]].
    + lia.
    + cbn. by rewrite app_nil_r.
    + rewrite (run_task_yields step f input out Hf) in Hrun. by injection Hrun as <-.
    + rewrite (taskBatches_run _ _ (Hpar Hne) Hsize) in Hb. injection Hb as <-.
      rewrite (workers_joined f _ ws (Hworkers Hne ws Hrun) Hj). by rewrite (batches_partition _ _ (Hpar Hne)).
  - intros ->. destruct (decide (input = [])) as [->|Hne].
    { cbn. rewrite app_nil_r. apply execute_nothing. by right. }
    destruct (decide (tasks = 1 \/ length input = 1)) as [H1|H1].
    + apply execute_sequentially; [lia|done|done|]. by apply run_task_yields.
    + apply execute_in_parallel; [lia|done|tauto|tauto|].
      destruct (all_workers_finish step f (cut_batches (batch_sizes (length input) (Nat.min (length input) tasks)) input)
        (map start_worker (cut_batches (batch_sizes (length input) (Nat.min (length input) tasks)) input)))
        as (ws & Hrun & Hj); [by rewrite (batches_partition _ _ (Hpar Hne))|by apply Hworkers|].
      assert (Hres : concat (map f input) = concat (map w_storage ws)).
      { rewrite (workers_joined f _ ws (Hworkers Hne ws Hrun) Hj). by rewrite (batches_partition _ _ (Hpar Hne)). }
      rewrite Hres. eapply parallel_result; [by apply (taskBatches_run _ _ (Hpar Hne) Hsize)|exact Hrun|done].
Qed.

(** C11: when the task succeeds on every item, [execute] has
    exactly one result whatever the number of threads and however they
    interleave: what was in the output, followed by what the sequential run of
    the task produces, in the order of the input. *)
Theorem execute_deterministic {A B} (step : A -> outcome (list B)) tasks input out r :
  0 < tasks -> (2 * Z.of_nat (length input) <= int_max)%Z ->
  run_task step [] input = Ok r ->
  forall result, execute step tasks input out result <-> result = out ++ r.
Proof. apply execute_result. Qed.

Definition double_even (n : nat) : outcome (list nat) := Ok (if Nat.even n then [n; n] else []).

Lemma execute_deterministic_witness :
  run_task double_even [] [1; 2; 3; 4] = Ok [2; 2; 4; 4] /\
  forall result, execute double_even 2 [1; 2; 3; 4] [0] result <-> result = [0; 2; 2; 4; 4].
Proof.
  split; [reflexivity|].
  apply (execute_deterministic double_even 2 [1; 2; 3; 4] [0] [2; 2; 4; 4]);
    [lia|unfold int_max; cbn; lia|reflexivity].
Defined.

(** While the threads run, the sum of the progress counters
    is the number of steps made; it equals the size of the input exactly when
    every thread is done, which is when the progress reporter stops; and until
    then some thread can make a step, so the threads neither block one another
    nor run on. *)
Theorem progress_reporter_agrees {A B} (step : A -> outcome (list B)) tasks input r n ws :
  0 < tasks <= length input -> run_task step [] input = Ok r ->
  nsteps (worker_step step) n (map start_worker (cut_batches (batch_sizes (length input) tasks) input)) ws ->
  progress_total ws = n /\ n <= length input /\
  (joined ws = true <-> progress_total ws = length input) /\
  (joined ws = false -> exists ws', worker_step step ws ws').
Proof.
  intros Ht Hr Hn. destruct (run_task_Ok step input [] r Hr) as [f Hf].
  assert (Hf' : yields step f (concat (cut_batches (batch_sizes (length input) tasks) input)))
    by (by rewrite batches_partition).
  assert (Hok : Forall2 (worker_ok f) (cut_batches (batch_sizes (length input) tasks) input) ws).
  { apply (workers_ok step); [done|]. apply rtc_nsteps. eauto. }
  pose proof (workers_steps step f _ n ws Hf' Hn) as Htotal.
  pose proof (workers_total f _ ws Hok) as Hsum. rewrite batches_partition in Hsum by done.
  split; [done|]. split; [lia|]. split.
  - rewrite joined_total. lia.
  - by apply (workers_progress step f _ ws Hf' Hok).
Qed.

Lemma progress_reporter_agrees_witness :
  exists ws, nsteps (worker_step double_even) 1
      (map start_worker (cut_batches (batch_sizes 4 2) [1; 2; 3; 4])) ws /\
    progress_total ws = 1 /\ 1 <= 4 /\ (joined ws = true <-> progress_total ws = 4) /\
    (joined ws = false -> exists ws', worker_step double_even ws ws').
Proof.
  assert (Hstep : nsteps (worker_step double_even) 1
    (map start_worker (cut_batches (batch_sizes 4 2) [1; 2; 3; 4]))
    (<[1 := mkWorker [4] ([] ++ []) 1]> (map start_worker (cut_batches (batch_sizes 4 2) [1; 2; 3; 4])))).
  { eapply nsteps_once, worker_step_at; reflexivity. }
  eexists. split; [exact Hstep|].
  apply (progress_reporter_agrees double_even 2 [1; 2; 3; 4] [2; 2; 4; 4] 1); [cbn; lia|reflexivity|exact Hstep].
Defined.
