(* ===== verification/Filters.v ===== *)
(** * Filters (lib/Filters/FilePathFilter.cpp, lib/Filters/NoDebugInfoFilter.cpp)

    [FilePathFilter] keeps or drops code by the path of its file and caches
    its answers; [NoDebugInfoFilter] drops code without a location.  Both
    filter functions, instructions and mutation points: the [*_view]
    definitions below are their instances of the three filter interfaces of
    Reachable.v.  The cache is guarded by a mutex, so the queries of several
    threads happen one after the other; [run_filter_ops] is any such sequence. *)

From stdpp Require Import base list strings gmap.
From Stdlib Require Import ZArith Lia Bool.
From S2P Require Import Prelude IR SourceLocation MutationPoint Reachable Samples.

(** Regular expressions of the grammar [std::regex::grep]: [regex_compile] is
    the constructor, which throws on a malformed expression, [regex_search]
    looks for a match anywhere in the text. *)
Class Regex := {
  regex : Type;
  regex_compile : string -> option regex;
  regex_search : string -> regex -> bool
}.

Section FilePathFilter.
Context `{LLVMPath, Regex}.

Record FilePathFilter := mkFilePathFilter {
  includeFilters : list regex;
  excludeFilters : list regex;
  cache : gmap string bool
}.

Definition newFilePathFilter : FilePathFilter := mkFilePathFilter [] [] ∅.

(** The loops over the expressions stop at the first match. *)
Fixpoint search_loop (sourceFilePath : string) (found : bool) (filters : list regex) (allow : bool) : bool :=
  match filters with
  | [] => allow
  | r :: rest =>
      if regex_search sourceFilePath r then found else search_loop sourceFilePath found rest allow
  end.

Definition path_allowed (f : FilePathFilter) (sourceFilePath : string) : bool :=
  match includeFilters f with
  | [] => search_loop sourceFilePath false (excludeFilters f) true
  | _ => search_loop sourceFilePath true (includeFilters f) false
  end.

(** [shouldSkip(const std::string &)] *)
Definition shouldSkip_path (f : FilePathFilter) (sourceFilePath : string) : bool * FilePathFilter :=
  let f :=
    match cache f !! sourceFilePath with
    | Some _ => f
    | None =>
        mkFilePathFilter (includeFilters f) (excludeFilters f)
          (<[sourceFilePath := path_allowed f sourceFilePath]> (cache f))
    end in
  (negb (default false (cache f !! sourceFilePath)), f).

(** [shouldSkip(const SourceLocation &)] *)
Definition shouldSkip_location (f : FilePathFilter) (location : SourceLocation)
    : outcome (bool * FilePathFilter) :=
  _ ← require (negb (isNull location)) "!location.isNull()";
  mret (shouldSkip_path f (filePath location)).

Definition shouldSkip_instruction (f : FilePathFilter) (instruction : Instruction)
    : outcome (bool * FilePathFilter) :=
  shouldSkip_location f (locationFromInstruction instruction).

Definition shouldSkip_function (f : FilePathFilter) (function : Function)
    : outcome (bool * FilePathFilter) :=
  shouldSkip_location f (locationFromFunction function).

Definition shouldSkip_point (f : FilePathFilter) (point : MutationPoint)
    : outcome (bool * FilePathFilter) :=
  shouldSkip_location f (sourceLocation point).

Definition exclude (filter : string) (f : FilePathFilter) : outcome FilePathFilter :=
  r ← of_option "std::regex_error" (regex_compile filter);
  mret (mkFilePathFilter (includeFilters f) (excludeFilters f ++ [r]) (cache f)).

Definition include (filter : string) (f : FilePathFilter) : outcome FilePathFilter :=
  r ← of_option "std::regex_error" (regex_compile filter);
  mret (mkFilePathFilter (includeFilters f ++ [r]) (excludeFilters f) (cache f)).

(** The calls the object serves, one at a time. *)
Inductive FilterOp :=
  | OpExclude (filter : string)
  | OpInclude (filter : string)
  | OpShouldSkip (sourceFilePath : string).

Definition run_filter_op (acc : list bool * FilePathFilter) (o : FilterOp)
    : outcome (list bool * FilePathFilter) :=
  let '(answers, f) := acc in
  match o with
  | OpExclude r => f ← exclude r f; mret (answers, f)
  | OpInclude r => f ← include r f; mret (answers, f)
  | OpShouldSkip p => let '(skip, f) := shouldSkip_path f p in mret (answers ++ [skip], f)
  end.

Definition run_filter_ops (ops : list FilterOp) (f : FilePathFilter) : outcome (list bool * FilePathFilter) :=
  fold_outcome run_filter_op ([], f) ops.

(** ** The decision, without the cache *)
Definition skips_path (f : FilePathFilter) (p : string) : bool :=
  if negb (bool_decide (length (includeFilters f) = 0))
  then negb (existsb (regex_search p) (includeFilters f))
  else existsb (regex_search p) (excludeFilters f).

(** Every cached answer is the one the current expressions give. *)
Definition cache_current (f : FilePathFilter) : Prop :=
  forall p b, cache f !! p = Some b -> b = path_allowed f p.

Lemma search_loop_spec p found l allow :
  search_loop p found l allow = if existsb (regex_search p) l then found else allow.
Proof. induction l as [|r l IH]; [done|]. cbn. by destruct (regex_search p r). Qed.

Lemma path_allowed_skips f p : negb (path_allowed f p) = skips_path f p.
Proof.
  unfold path_allowed, skips_path. destruct (includeFilters f) as [|r l].
  - cbn. rewrite search_loop_spec. by destruct (existsb _ _).
  - rewrite search_loop_spec. cbn. by destruct (regex_search p r || existsb _ l).
Qed.

Lemma shouldSkip_path_current f p :
  cache_current f ->
  exists f', shouldSkip_path f p = (skips_path f p, f') /\
    includeFilters f' = includeFilters f /\ excludeFilters f' = excludeFilters f /\ cache_current f'.
Proof.
  intros Hc. unfold shouldSkip_path. destruct (cache f !! p) as [b|] eqn:Hp.
  - exists f. rewrite Hp. cbn [default from_option id]. rewrite (Hc p b Hp), path_allowed_skips. done.
  - exists (mkFilePathFilter (includeFilters f) (excludeFilters f)
      (<[p := path_allowed f p]> (cache f))).
    split; [|split; [done|split; [done|]]].
    + cbn [cache]. rewrite lookup_insert_eq. cbn. by rewrite path_allowed_skips.
    + intros q b. cbn [cache]. destruct (decide (p = q)) as [<-|Hne].
      * rewrite lookup_insert_eq. by intros [= <-].
      * rewrite lookup_insert_ne by done. apply Hc.
Qed.

Lemma run_queries qs answers f f0 :
  cache_current f -> includeFilters f = includeFilters f0 -> excludeFilters f = excludeFilters f0 ->
  exists f', fold_outcome run_filter_op (answers, f) (map OpShouldSkip qs) =
      Ok (answers ++ map (skips_path f0) qs, f') /\
    includeFilters f' = includeFilters f0 /\ excludeFilters f' = excludeFilters f0 /\ cache_current f'.
Proof.
  revert answers f. induction qs as [|p qs IH]; intros answers f Hc Hi He.
  - exists f. cbn. by rewrite app_nil_r.
  - destruct (shouldSkip_path_current f p Hc) as (f1 & Hs & Hi1 & He1 & Hc1).
    cbn [map fold_outcome run_filter_op]. rewrite Hs. cbn [mbind outcome_bind mret outcome_ret].
    destruct (IH (answers ++ [skips_path f p]) f1 Hc1) as (f' & Hrun & ? & ? & ?); [congruence..|].
    exists f'. split; [|done]. rewrite Hrun, <-app_assoc. cbn.
    unfold skips_path at 1. by rewrite Hi, He.
Qed.
End FilePathFilter.

(** ** The filter as an instruction, function and point filter

    With a current cache the object answers by [skips_path], which the views
    use in its place. *)
Section Views.
Context `{LLVMPath, Regex}.

Definition filePath_location_view (f : FilePathFilter) (location : SourceLocation) : outcome bool :=
  r ← shouldSkip_location f location; mret r.1.

Definition filePath_functionFilter (f : FilePathFilter) : FunctionFilter :=
  mkFunctionFilter "file path" (fun x => filePath_location_view f (locationFromFunction x)).

Definition filePath_instructionFilter (f : FilePathFilter) : InstructionFilter :=
  mkInstructionFilter "file path" (fun x => filePath_location_view f (locationFromInstruction x)).

Definition filePath_mutationFilter (f : FilePathFilter) : MutationFilter :=
  mkMutationFilter "file path" (fun x => filePath_location_view f (sourceLocation x)).

Definition noDebugInfo_mutationFilter : MutationFilter :=
  mkMutationFilter "no debug info" (fun point => mret (isNull (sourceLocation point))).

Definition noDebugInfo_functionFilter : FunctionFilter :=
  mkFunctionFilter "no debug info" (fun function => mret (isNull (locationFromFunction function))).

Definition noDebugInfo_instructionFilter : InstructionFilter :=
  mkInstructionFilter "no debug info" (fun instruction => mret (isNull (locationFromInstruction instruction))).

Lemma filePath_location_view_Ok f location :
  cache_current f -> isNull location = false ->
  filePath_location_view f location = Ok (skips_path f (filePath location)).
Proof.
  intros Hc Hn. unfold filePath_location_view, shouldSkip_location. rewrite Hn.
  destruct (shouldSkip_path_current f (filePath location) Hc) as (f' & Hs & _).
  cbn -[shouldSkip_path]. by rewrite Hs.
Qed.
End Views.

(** ** Claims *)

(** Once configured the filter answers every sequence of
    queries by its expressions, whatever the cache holds by then: with include
    expressions a path is skipped when none matches it, and the exclude
    expressions do not count; without, it is skipped when some exclude
    expression matches.  The expressions are kept and no query fails. *)
Theorem filter_cache_transparent `{LLVMPath, Regex} f qs :
  cache_current f ->
  exists f', run_filter_ops (map OpShouldSkip qs) f = Ok (map (skips_path f) qs, f') /\
    cache_current f' /\
    (forall p, skips_path f p = true <->
       if bool_decide (length (includeFilters f) = 0)
       then exists r, r ∈ excludeFilters f /\ regex_search p r = true
       else forall r, r ∈ includeFilters f -> regex_search p r = false).
Proof.
  intros Hc. destruct (run_queries qs [] f f Hc eq_refl eq_refl) as (f' & Hrun & Hi & He & Hc').
  exists f'. split; [exact Hrun|]. split; [done|]. intros p. unfold skips_path.
  destruct (bool_decide (length (includeFilters f) = 0)); cbn [negb].
  - apply existsb_elem.
  - rewrite negb_true_iff, <-not_true_iff_false, existsb_elem. split.
    + intros Hno r Hr. apply not_true_iff_false. intros Ht. by apply Hno; exists r.
    + intros Hall (r & Hr & Ht). by rewrite (Hall r Hr) in Ht.
Qed.

(** Substring search: expressions without metacharacters. *)
#[global] Instance literal_regex : Regex := {|
  regex := string;
  regex_compile := Some;
  regex_search := fun text r => if String.index 0 r text then true else false
|}.

Definition sample_filter : FilePathFilter := @mkFilePathFilter literal_regex [] ["/test/"] ∅.

Lemma sample_filter_current : cache_current sample_filter.
Proof. intros p b Hp. cbn in Hp. by rewrite lookup_empty in Hp. Qed.

Lemma filter_cache_transparent_witness :
  exists f', run_filter_ops (map OpShouldSkip ["/src/a.cpp"; "/test/a.cpp"; "/src/a.cpp"])
      sample_filter = Ok ([false; true; false], f') /\
    cache_current f' /\
    (forall p, skips_path sample_filter p = true <->
       exists r, r ∈ excludeFilters sample_filter /\ regex_search p r = true).
Proof.
  exact (filter_cache_transparent sample_filter ["/src/a.cpp"; "/test/a.cpp"; "/src/a.cpp"] sample_filter_current).
Defined.

(** The cache outlives the configuration it was filled under: a path asked
    about once gets the same answer for ever, whatever expressions are added
    afterwards, even one that matches it.  So the expressions must all be
    added before the first query, as driver-cxx does. *)
Theorem filter_cache_outlives_configuration `{LLVMPath, Regex} f p ops answers f' :
  run_filter_ops (OpShouldSkip p :: ops) f = Ok (answers, f') ->
  shouldSkip_path f' p = ((shouldSkip_path f p).1, f').
Proof.
  intros Hrun.
  cbn [run_filter_ops fold_outcome] in Hrun. unfold run_filter_ops in Hrun. cbn [fold_outcome run_filter_op] in Hrun.
  set (s := shouldSkip_path f p) in *.
  assert (Hs : exists b, cache s.2 !! p = Some b /\ s.1 = negb b).
  { subst s. unfold shouldSkip_path. destruct (cache f !! p) as [b|] eqn:Hp; cbn [fst snd].
    - exists b. by rewrite Hp.
    - eexists. cbn [cache]. by rewrite lookup_insert_eq. }
  destruct s as [skip f1]. cbn [fst snd] in *. destruct Hs as (b & Hb & ->).
  cbn [mbind outcome_bind mret outcome_ret] in Hrun.
  assert (Hinv : cache f' !! p = Some b).
  { refine (fold_outcome_inv (fun acc => cache acc.2 !! p = Some b) _ _ _ _ _ Hb Hrun).
    clear -Hb. intros [ans g] o [ans' g'] _ Hg Ho. cbn [snd] in *. destruct o as [r|r|q]; cbn [run_filter_op] in Ho.
    - apply bind_Ok in Ho as (g1 & Hg1 & [= <- <-]). unfold exclude in Hg1.
      apply bind_Ok in Hg1 as (rr & _ & [= <-]). done.
    - apply bind_Ok in Ho as (g1 & Hg1 & [= <- <-]). unfold include in Hg1.
      apply bind_Ok in Hg1 as (rr & _ & [= <-]). done.
    - unfold shouldSkip_path in Ho. destruct (cache g !! q) as [c|] eqn:Hq; injection Ho as <- <-; [done|].
      cbn [cache]. destruct (decide (q = p)) as [->|]; [congruence|by rewrite lookup_insert_ne]. }
  unfold shouldSkip_path. rewrite Hinv. rewrite Hinv. done.
Qed.

Lemma filter_cache_outlives_configuration_witness :
  exists f', run_filter_ops [OpShouldSkip "/test/a.cpp"; OpExclude "/test/"] newFilePathFilter = Ok ([false], f') /\
    skips_path f' "/test/a.cpp" = true /\
    shouldSkip_path f' "/test/a.cpp" = (false, f').
Proof.
  eexists. split; [reflexivity|]. split; [reflexivity|].
  eapply (filter_cache_outlives_configuration newFilePathFilter "/test/a.cpp" [OpExclude "/test/"]). reflexivity.
Defined.
