(* ===== verification/Bitcode.v ===== *)
(** * Bitcode files and the preparation of mutants

    [Bitcode] (lib/Bitcode.cpp) owns a module and knows the mutation points
    found in it.  The tasks of
    lib/Parallelization/Tasks/MutantPreparationTasks.cpp give every point a
    clone of its function, move each mutated function's body aside and leave an
    indirect call in its place; ApplyMutationTask.cpp then mutates the clones.

    Points are shared by pointer between the driver and the bitcode: [Store]
    is the memory they live in and a [PointId] a pointer into it. *)

From stdpp Require Import base list strings sets sorting.
From Stdlib Require Import ZArith Lia Bool.
From S2P Require Import Prelude StdContainers StringFacts MutatorKind IR SourceLocation Irm Mutator Samples.
From S2P Require Import MutationPoint Reachable LogicalMutators Mutators.

Abbreviation PointId := nat.
Abbreviation Store := (list MutationPoint).

Record Bitcode := mkBitcode {
  bc_ptr : BitcodePtr;
  bc_module : Module;
  mutationPoints : list (FnId * list PointId)
}.

(** The constructor: the digest of the file is [md5]. *)
Definition newBitcode `{LLVMPath} (id : nat) (module : Module) (md5 : string) : Bitcode :=
  mkBitcode (mkBitcodePtr id (path_stem (mod_identifier module) +:+ "_" +:+ md5)) module [].

Definition addMutation (store : Store) (bitcode : Bitcode) (point : PointId) : outcome Bitcode :=
  p ← of_option "dangling mutation point" (store !! point);
  mret (mkBitcode (bc_ptr bitcode) (bc_module bitcode)
    (omap_update [] (fun points => points ++ [point]) (originalFunction p) (mutationPoints bitcode))).

(** ** Cache keys *)
Definition getInstrumentedUniqueIdentifier (b : Bitcode) : string :=
  bitcode_uniqueIdentifier (bc_ptr b) +:+ "_instrumented".

(** The order of [std::sort] on strings. *)
Definition str_le (a b : string) : Prop := key_lt b a = false.

#[global] Instance str_le_dec : RelDecision str_le.
Proof. intros a b. unfold str_le. apply _. Defined.

#[global] Instance str_le_total : Total str_le.
Proof. intros a b. unfold str_le. destruct (key_lt b a) eqn:E; [right; by apply key_lt_asym|by left]. Qed.

#[global] Instance str_le_trans : Transitive str_le.
Proof.
  unfold str_le. intros a b c H1 H2. destruct (key_lt c a) eqn:E; [|done].
  destruct (key_lt b c) eqn:E2.
  - pose proof (key_lt_trans _ _ _ E2 E). congruence.
  - pose proof (key_lt_total _ _ H2 E2) as ->. congruence.
Qed.

#[global] Instance str_le_antisymm : AntiSymm (=) str_le.
Proof. intros a b H1 H2. symmetry. by apply key_lt_total. Qed.

(** LLVM's MD5, in hexadecimal; [update] accumulates what it is given. *)
Class Hasher := { md5_hex : string -> string }.

Section CacheKey.
Context `{Hasher}.

Definition point_ids (store : Store) (points : list PointId) : outcome (list string) :=
  fold_outcome (fun ids point =>
    p ← of_option "dangling mutation point" (store !! point); mret (ids ++ [uniqueIdentifier p])) [] points.

Definition getMutatedUniqueIdentifier (store : Store) (b : Bitcode) : outcome string :=
  match mutationPoints b with
  | [] => mret (bitcode_uniqueIdentifier (bc_ptr b))
  | _ =>
      mutationPointsIds ← point_ids store (concat (map snd (mutationPoints b)));
      let sorted := merge_sort str_le mutationPointsIds in
      let result := md5_hex (String.concat "" sorted) in
      mret (bitcode_uniqueIdentifier (bc_ptr b) +:+ "_" +:+ result +:+ "_mutated")
  end.
End CacheKey.

(** ** Functions of a module *)

(** [Value::setName]: LLVM keeps the names of a module distinct, and changes a
    name that is taken. *)
Class LLVMNames := {
  uniquify : list string -> string -> string;
  uniquify_free used name : name ∉ used -> uniquify used name = name
}.

Definition fresh_fn (m : Module) : FnId := S (foldr Nat.max 0 (map fn_id (mod_functions m))).

Definition with_functions (m : Module) (l : list Function) : Module :=
  mkModule (mod_identifier m) (mod_sourceFileName m) l.

Definition add_function `{LLVMNames} (m : Module) (f : Function) : Module :=
  with_functions m (mod_functions m ++
    [mkFunction (fn_id f) (uniquify (map fn_name (mod_functions m)) (fn_name f)) (fn_blocks f) (fn_subprogram f)]).

(** The body of a function is replaced; the object stays. *)
Definition set_body (id : FnId) (blocks : list BasicBlock) (m : Module) : Module :=
  with_functions m (map (fun f =>
    if Nat.eqb (fn_id f) id then mkFunction (fn_id f) (fn_name f) blocks (fn_subprogram f) else f)
    (mod_functions m)).

(** [llvm::CloneFunction]: a new function of the module with the same body. *)
Definition CloneFunction (m : Module) (f : Function) : Function :=
  mkFunction (fresh_fn m) (fn_name f) (fn_blocks f) (fn_subprogram f).

(** ** MutantPreparationTasks *)
Section Preparation.
Context `{LLVMNames}.

Definition point_at (store : Store) (p : PointId) : outcome MutationPoint :=
  of_option "dangling mutation point" (store !! p).

(** The inner loop of [cloneFunctions]. *)
Definition clone_for (original : Function) (st : Module * Store) (point : PointId) : outcome (Module * Store) :=
  let '(module, store) := st in
  p ← point_at store point;
  let mutatedFunction := CloneFunction module original in
  let '(p, mutatedFunction) := setMutatedFunction p mutatedFunction in
  mret (add_function module mutatedFunction, <[point := p]> store).

Definition anyPoint (store : Store) (points : list PointId) : outcome MutationPoint :=
  front ← of_option "front() of an empty vector" (head points); point_at store front.

Definition clone_pair (st : Module * Store * list string) (pair : FnId * list PointId)
    : outcome (Module * Store * list string) :=
  let '(module, store, mutatedFunctions) := st in
  original ← of_option "dangling function" (function_at module pair.1);
  p ← anyPoint store pair.2;
  r ← fold_outcome (clone_for original) (module, store) pair.2;
  mret (r, mutatedFunctions ++ [getTrampolineName p]).

Definition cloneFunctions (module : Module) (store : Store) (map : list (FnId * list PointId))
    : outcome (Module * Store * list string) :=
  fold_outcome clone_pair (module, store, []) map.

Definition delete_pair (store : Store) (module : Module) (pair : FnId * list PointId) : outcome Module :=
  original ← of_option "dangling function" (function_at module pair.1);
  p ← anyPoint store pair.2;
  let originalCopy := CloneFunction module original in
  let originalCopy := mkFunction (fn_id originalCopy) (getOriginalFunctionName p)
    (fn_blocks originalCopy) (fn_subprogram originalCopy) in
  mret (set_body pair.1 [] (add_function module originalCopy)).

Definition deleteFunctions (store : Store) (module : Module) (map : list (FnId * list PointId)) : outcome Module :=
  fold_outcome (delete_pair store) module map.

(** The block "indirect_call": load the trampoline, call what it points to,
    return.  The arguments, which are passed through, and the result are not
    in the data model. *)
Definition indirect_call (trampoline : string) : BasicBlock :=
  mkBasicBlock 0 [
    mkInstruction 0 (OtherInst "load" [GlobalRef trampoline]) None;
    mkInstruction 1 (OtherInst "call" [InstRef 0]) None;
    mkInstruction 2 Ret None
  ].

Definition trampoline_pair (store : Store) (module : Module) (pair : FnId * list PointId) : outcome Module :=
  original ← of_option "dangling function" (function_at module pair.1);
  p ← anyPoint store pair.2;
  mret (set_body pair.1 (fn_blocks original ++ [indirect_call (getTrampolineName p)]) module).

Definition insertTrampolines (store : Store) (module : Module) (map : list (FnId * list PointId)) : outcome Module :=
  fold_outcome (trampoline_pair store) module map.
End Preparation.

Section Application.
Context `{LibIrm, LLVMNames}.

(** One item of ApplyMutationTask: [point->applyMutation()]. *)
Definition apply_point (store : Store) (module : Module) (point : PointId) : outcome Module :=
  p ← point_at store point;
  let clone := mutatedFunction p ≫= function_at module in
  f ← point_applyMutation p clone;
  id ← of_option "mutatedFunction != nullptr" (mutatedFunction p);
  mret (set_body id (fn_blocks f) module).

Definition applyMutations (store : Store) (module : Module) (points : list PointId) : outcome Module :=
  fold_outcome (apply_point store) module points.

(** The steps of [Driver::normalRunMutations] on one bitcode file, up to the
    compilation. *)
Definition prepare_mutants (store : Store) (b : Bitcode) (points : list PointId)
    : outcome (Module * Store * list string) :=
  b ← fold_outcome (addMutation store) b points;
  cloned ← cloneFunctions (bc_module b) store (mutationPoints b);
  let '(module, store, mutatedFunctions) := cloned in
  module ← deleteFunctions store module (mutationPoints b);
  module ← insertTrampolines store module (mutationPoints b);
  module ← applyMutations store module points;
  mret (module, store, mutatedFunctions).
End Application.

(** ** Looking functions up *)
Section Lookup.
Context `{LLVMNames}.

Definition fn_known (m : Module) (id : FnId) : Prop := is_Some (function_at m id).

Lemma fresh_fn_above m f : f ∈ mod_functions m -> fn_id f < fresh_fn m.
Proof.
  intros Hf. unfold fresh_fn. apply Nat.lt_succ_r. revert Hf.
  induction (mod_functions m) as [|g l IH]; [by intros ?%not_elem_of_nil|]. cbn.
  intros [->|Hf]%elem_of_cons; [lia|]. specialize (IH Hf). lia.
Qed.

Lemma function_at_elem m id f : function_at m id = Some f -> f ∈ mod_functions m /\ fn_id f = id.
Proof. intros [? ?]%find_first_Some. by bool_to_prop. Qed.

Lemma function_at_fresh m : function_at m (fresh_fn m) = None.
Proof.
  destruct (function_at m (fresh_fn m)) as [f|] eqn:E; [|done].
  apply function_at_elem in E as [Hf Hid]. apply fresh_fn_above in Hf. lia.
Qed.

Lemma function_at_add m f id :
  function_at m (fn_id f) = None ->
  function_at (add_function m f) id =
  if Nat.eqb (fn_id f) id
  then Some (mkFunction (fn_id f) (uniquify (map fn_name (mod_functions m)) (fn_name f)) (fn_blocks f) (fn_subprogram f))
  else function_at m id.
Proof.
  intros Hf. unfold function_at, add_function; cbn [mod_functions with_functions].
  rewrite find_first_app. cbn [find_first fn_id]. fold (function_at m id).
  destruct (Nat.eqb_spec (fn_id f) id) as [<-|Hne].
  - by rewrite Hf.
  - by destruct (function_at m id).
Qed.

Lemma function_at_set_body id blocks m id' :
  function_at (set_body id blocks m) id' =
  if Nat.eqb id id'
  then (fun f => mkFunction (fn_id f) (fn_name f) blocks (fn_subprogram f)) <$> function_at m id'
  else function_at m id'.
Proof.
  unfold function_at, set_body; cbn [mod_functions with_functions].
  induction (mod_functions m) as [|f l IH]; cbn; [by destruct (Nat.eqb id id')|].
  destruct (Nat.eqb_spec (fn_id f) id) as [<-|Hne]; cbn [fn_id].
  - destruct (Nat.eqb_spec (fn_id f) id') as [_|Hne']; [reflexivity|]. rewrite IH.
    by destruct (Nat.eqb_spec (fn_id f) id').
  - destruct (Nat.eqb_spec (fn_id f) id') as [<-|Hne']; [|exact IH].
    by destruct (Nat.eqb_spec id (fn_id f)).
Qed.

Definition names_of (m : Module) : list string := map fn_name (mod_functions m).

Lemma names_of_set_body id blocks m : names_of (set_body id blocks m) = names_of m.
Proof.
  unfold names_of, set_body; cbn. rewrite map_map. apply map_ext. intros f.
  by destruct (Nat.eqb (fn_id f) id).
Qed.

Lemma add_function_free m f :
  fn_name f ∉ names_of m ->
  names_of (add_function m f) = names_of m ++ [fn_name f] /\
  (function_at m (fn_id f) = None ->
   forall id, function_at (add_function m f) id = if Nat.eqb (fn_id f) id then Some f else function_at m id).
Proof.
  intros Hn. split.
  - unfold names_of, add_function; cbn. rewrite map_app. cbn. by rewrite uniquify_free.
  - intros Hid id. rewrite function_at_add by done. rewrite uniquify_free by done. by destruct f.
Qed.
End Lookup.

(** ** The points of a bitcode, by function *)

Lemma concat_update (M : list (FnId * list PointId)) k p :
  concat (map snd (omap_update [] (fun l => l ++ [p]) k M)) ≡ₚ p :: concat (map snd M).
Proof.
  unfold omap_update. induction M as [|[k' l] M IH]; [done|].
  cbn [omap_find omap_assign]. destruct (key_lt k k') eqn:E1; [done|]. destruct (key_lt k' k) eqn:E2.
  - cbn. rewrite IH. symmetry. apply Permutation_middle.
  - cbn. rewrite <-app_assoc. cbn. symmetry. apply Permutation_middle.
Qed.

Lemma elem_of_assign {V} (M : list (FnId * V)) k v k' v' :
  (k', v') ∈ omap_assign k v M -> (k' = k /\ v' = v) \/ (k', v') ∈ M.
Proof.
  induction M as [|[j w] M IH]; cbn [omap_assign].
  - intros [[= -> ->]|H]%elem_of_cons; [by left|by apply not_elem_of_nil in H].
  - destruct (key_lt k j); [|destruct (key_lt j k)]; intros [[= -> ->]|H]%elem_of_cons; try (by left).
    + by right.
    + right. by left.
    + destruct (IH H); [by left|right; by right].
    + right. by right.
Qed.

Section Grouping.
Context (store : Store).

(** Every entry holds the points of its function, at least one. *)
Record grouped (points : list PointId) (M : list (FnId * list PointId)) : Prop := {
  grouped_wf : omap_wf M;
  grouped_entry pair : pair ∈ M -> pair.2 <> [] /\
    forall pid, pid ∈ pair.2 -> exists p, store !! pid = Some p /\ originalFunction p = pair.1;
  grouped_all : concat (map snd M) ≡ₚ points
}.

Lemma addMutation_groups points b :
  mutationPoints b = [] -> (forall pid, pid ∈ points -> is_Some (store !! pid)) ->
  exists b', fold_outcome (addMutation store) b points = Ok b' /\
    bc_ptr b' = bc_ptr b /\ bc_module b' = bc_module b /\ grouped points (mutationPoints b').
Proof.
  intros Hb Hin.
  apply (fold_outcome_progress (fun dn b' => bc_ptr b' = bc_ptr b /\ bc_module b' = bc_module b /\
    grouped dn (mutationPoints b'))).
  { split; [done|]. split; [done|]. rewrite Hb. split; [apply omap_wf_nil| |done].
    intros pair Hp. by apply not_elem_of_nil in Hp. }
  intros dn pid rest t -> (Hptr & Hmod & [Hwf Hent Hall]).
  destruct (Hin pid) as [p Hp]; [apply elem_of_app; right; by left|].
  unfold addMutation. rewrite Hp. eexists. split; [reflexivity|]. cbn [mutationPoints bc_ptr bc_module].
  split; [done|]. split; [done|]. split.
  - by apply omap_wf_assign.
  - intros [k l] [[-> ->]|Hkl]%elem_of_assign; [|by apply Hent]. cbn [fst snd].
    split; [by destruct (default [] _)|]. intros q [Hq|[->|Hq]%elem_of_cons]%elem_of_app.
    + destruct (omap_find (originalFunction p) (mutationPoints t)) as [l0|] eqn:E; [|by apply not_elem_of_nil in Hq].
      apply omap_find_elem in E. exact (proj2 (Hent _ E) q Hq).
    + by exists p.
    + by apply not_elem_of_nil in Hq.
  - rewrite concat_update, Hall. apply Permutation_cons_append.
Qed.
End Grouping.

(** ** Correctness of the preparation *)
Definition with_clone (p : MutationPoint) (cid : FnId) : MutationPoint :=
  (setMutatedFunction p (mkFunction cid "" [] None)).1.

(** What the preparation needs: the points are those of functions of the
    module, and LLVM has no reason to change one of the names it gives. *)
Record preparable (m : Module) (store : Store) (points : list PointId) : Prop := {
  prep_known pid : pid ∈ points -> exists p, store !! pid = Some p /\ fn_known m (originalFunction p);
  prep_NoDup : NoDup points;
  prep_origin pid1 pid2 p1 p2 : pid1 ∈ points -> pid2 ∈ points ->
    store !! pid1 = Some p1 -> store !! pid2 = Some p2 ->
    bitcode p1 = bitcode p2 /\
    (originalFunction p1 = originalFunction p2 -> originalFunction_name p1 = originalFunction_name p2);
  prep_ids pid1 pid2 p1 p2 : pid1 ∈ points -> pid2 ∈ points ->
    store !! pid1 = Some p1 -> store !! pid2 = Some p2 ->
    uniqueIdentifier p1 = uniqueIdentifier p2 -> pid1 = pid2;
  prep_ids_free pid p : pid ∈ points -> store !! pid = Some p -> uniqueIdentifier p ∉ names_of m;
  prep_originals_free pid p : pid ∈ points -> store !! pid = Some p ->
    getOriginalFunctionName p ∉ names_of m;
  prep_apart pid1 pid2 p1 p2 : pid1 ∈ points -> pid2 ∈ points ->
    store !! pid1 = Some p1 -> store !! pid2 = Some p2 ->
    getOriginalFunctionName p1 <> uniqueIdentifier p2;
  prep_originals pid1 pid2 p1 p2 : pid1 ∈ points -> pid2 ∈ points ->
    store !! pid1 = Some p1 -> store !! pid2 = Some p2 ->
    getOriginalFunctionName p1 = getOriginalFunctionName p2 -> originalFunction p1 = originalFunction p2
}.

Section Cloning.
Context `{LLVMNames} (m0 : Module) (s0 : Store) (points : list PointId) (Hprep : preparable m0 s0 points).

(** The clone of a point, once made. *)
Definition cloned (pid : PointId) (m : Module) (s : Store) : Prop :=
  exists p f cid, s0 !! pid = Some p /\ function_at m0 (originalFunction p) = Some f /\
    s !! pid = Some (with_clone p cid) /\ function_at m0 cid = None /\
    function_at m cid = Some (mkFunction cid (uniqueIdentifier p) (fn_blocks f) (fn_subprogram f)).

Record clones_made (dn : list PointId) (st : Module * Store) : Prop := {
  cm_known id f : function_at m0 id = Some f -> function_at st.1 id = Some f;
  cm_names n : n ∈ names_of st.1 -> n ∈ names_of m0 \/
    exists pid p, pid ∈ dn /\ s0 !! pid = Some p /\ n = uniqueIdentifier p;
  cm_done pid : pid ∈ dn -> cloned pid st.1 st.2;
  cm_rest pid : pid ∉ dn -> st.2 !! pid = s0 !! pid
}.

Lemma clones_made_nil : clones_made [] (m0, s0).
Proof.
  split; try done; [by left|]. intros pid Hp. by apply not_elem_of_nil in Hp.
Qed.

Lemma clone_for_step dn st pid p f :
  clones_made dn st -> (forall q, q ∈ dn -> q ∈ points) -> pid ∈ points -> pid ∉ dn ->
  s0 !! pid = Some p -> function_at m0 (originalFunction p) = Some f ->
  exists st', clone_for f st pid = Ok st' /\ clones_made (dn ++ [pid]) st'.
Proof.
  intros [Hknown Hnames Hdone Hrest] Hdn Hpid Hnew Hp Hf. destruct st as [m s]. cbn [fst snd] in *.
  unfold clone_for, point_at. rewrite (Hrest pid Hnew), Hp. cbn [of_option mbind outcome_bind].
  assert (Hfree : uniqueIdentifier p ∉ names_of m).
  { intros [Hin|(q & pq & Hq & Hpq & Heq)]%Hnames.
    - exact (prep_ids_free _ _ _ Hprep pid p Hpid Hp Hin).
    - by rewrite (prep_ids _ _ _ Hprep pid q p pq) in Hnew by auto. }
  set (c := mkFunction (fresh_fn m) (uniqueIdentifier p) (fn_blocks f) (fn_subprogram f)).
  destruct (add_function_free m c Hfree) as [Hn Hat]. specialize (Hat (function_at_fresh m)).
  eexists. split; [reflexivity|]. cbn [setMutatedFunction CloneFunction fn_id fn_blocks fn_subprogram].
  fold c. change (getMutatedFunctionName p) with (uniqueIdentifier p). fold c.
  assert (Hfr : forall id g, function_at m id = Some g -> (fresh_fn m =? id) = false).
  { intros id g Hg. apply Nat.eqb_neq. intros <-. by rewrite function_at_fresh in Hg. }
  split; cbn [fst snd].
  - intros id g Hg. rewrite Hat. cbn [fn_id c]. rewrite (Hfr id g); by apply Hknown.
  - intros n. rewrite Hn. intros [Hin|Hin]%elem_of_app.
    + destruct (Hnames n Hin) as [|(q & pq & Hq & ? & ?)]; [by left|]. right. exists q, pq.
      split; [|done]. apply elem_of_app. by left.
    + apply list_elem_of_singleton in Hin as ->. right. exists pid, p. split; [|done].
      apply elem_of_app. right. by left.
  - intros q [Hq|Hq]%elem_of_app.
    + destruct (Hdone q Hq) as (pq & fq & cid & ? & ? & Hs & ? & Hcid). exists pq, fq, cid.
      split; [done|]. split; [done|]. split.
      * rewrite list_lookup_insert_ne; [done|]. intros ->. done.
      * split; [done|]. rewrite Hat. cbn [fn_id c]. by rewrite (Hfr cid _ Hcid).
    + apply list_elem_of_singleton in Hq as ->. exists p, f, (fresh_fn m). split; [done|]. split; [done|]. split.
      * rewrite list_lookup_insert_eq; [done|]. apply lookup_lt_is_Some. rewrite (Hrest pid Hnew). by exists p.
      * split; [|rewrite Hat; cbn [fn_id c]; by rewrite Nat.eqb_refl].
        destruct (function_at m0 (fresh_fn m)) as [g|] eqn:E; [|done].
        apply Hknown in E. by rewrite function_at_fresh in E.
  - intros q [Hq Hne]%not_elem_of_app. rewrite list_lookup_insert_ne; [by apply Hrest|].
    intros ->. apply Hne. by left.
Qed.
End Cloning.

Section Phases.
Context `{LLVMNames} (m0 : Module) (s0 : Store) (points : list PointId) (Hprep : preparable m0 s0 points).
Context (M : list (FnId * list PointId)) (HM : grouped s0 points M).

(** The trampoline of an entry. *)
Definition pair_point (pair : FnId * list PointId) (p : MutationPoint) : Prop :=
  exists pid rest, pair.2 = pid :: rest /\ s0 !! pid = Some p.

Lemma entry_points dn pair rest pid :
  M = dn ++ pair :: rest -> pid ∈ pair.2 -> pid ∈ points /\ pid ∉ concat (map snd dn).
Proof.
  intros HMeq Hpid. pose proof (grouped_all _ _ _ HM) as Hall. rewrite HMeq, concat_map_app in Hall. cbn in Hall.
  split.
  - rewrite <-Hall. apply elem_of_app. right. apply elem_of_app. by left.
  - pose proof (prep_NoDup _ _ _ Hprep) as Hnd. rewrite <-Hall in Hnd.
    apply NoDup_app in Hnd as (_ & Hdis & _). intros Hin. apply (Hdis pid Hin). apply elem_of_app. by left.
Qed.

Lemma done_points dn rest pid : M = dn ++ rest -> pid ∈ concat (map snd dn) -> pid ∈ points.
Proof.
  intros -> Hin. rewrite <-(grouped_all _ _ _ HM), concat_map_app. apply elem_of_app. by left.
Qed.

Lemma entry_NoDup pair : pair ∈ M -> NoDup pair.2.
Proof.
  intros (dn & rest & HMeq)%list_elem_of_split. pose proof (grouped_all _ _ _ HM) as Hall.
  rewrite HMeq, concat_map_app in Hall. cbn in Hall.
  pose proof (prep_NoDup _ _ _ Hprep) as Hnd. rewrite <-Hall in Hnd.
  by apply NoDup_app in Hnd as (_ & _ & (? & _)%NoDup_app).
Qed.

Lemma entry_function pair : pair ∈ M -> exists f, function_at m0 pair.1 = Some f.
Proof.
  intros Hpair. destruct (grouped_entry _ _ _ HM pair Hpair) as [Hne Hent].
  destruct pair as [fid [|pid l]]; [done|]. cbn [fst snd] in *.
  destruct (Hent pid) as (p & Hp & Ho); [by left|].
  assert (Hin : pid ∈ points).
  { rewrite <-(grouped_all _ _ _ HM). apply elem_of_concat_map. exists (fid, pid :: l). split; [done|]. by left. }
  destruct (prep_known _ _ _ Hprep pid Hin) as (p' & Hp' & [f Hf]). exists f. congruence.
Qed.

Lemma entry_point pair : pair ∈ M -> exists p, pair_point pair p /\ originalFunction p = pair.1.
Proof.
  intros Hpair. destruct (grouped_entry _ _ _ HM pair Hpair) as [Hne Hent].
  destruct pair as [fid [|pid l]]; [done|]. destruct (Hent pid) as (p & Hp & Ho); [by left|].
  exists p. split; [|done]. by exists pid, l.
Qed.

(** Phase 1 *)
Definition trampoline_names (l : list (FnId * list PointId)) (names : list string) : Prop :=
  Forall2 (fun pair name => exists p, pair_point pair p /\ name = getTrampolineName p) l names.

Lemma clone_pair_step dn pair rest st names :
  M = dn ++ pair :: rest -> clones_made m0 s0 (concat (map snd dn)) st -> trampoline_names dn names ->
  exists st' names', clone_pair (st, names) pair = Ok (st', names') /\
    clones_made m0 s0 (concat (map snd (dn ++ [pair]))) st' /\ trampoline_names (dn ++ [pair]) names'.
Proof.
  intros HMeq Hcm Hnames.
  assert (Hpair : pair ∈ M) by (rewrite HMeq; apply elem_of_app; right; by left).
  destruct (entry_function pair Hpair) as [f Hf].
  destruct (entry_point pair Hpair) as (p & (pid & l & Hl & Hp) & _).
  assert (Hpid : pid ∈ pair.2) by (rewrite Hl; by left).
  destruct (fold_outcome_progress (fun dn' st' => clones_made m0 s0 (concat (map snd dn) ++ dn') st')
    (clone_for f) pair.2 st) as (st' & Hrun & Hcm'); [by rewrite app_nil_r| |].
  { intros dn' q rest' t Hsplit Ht. rewrite app_assoc.
    assert (Hq : q ∈ pair.2) by (rewrite Hsplit; apply elem_of_app; right; by left).
    destruct (entry_points dn pair rest q HMeq Hq) as [Hqp Hqn].
    destruct (proj2 (grouped_entry _ _ _ HM pair Hpair) q Hq) as (pq & Hpq & Ho).
    apply (clone_for_step m0 s0 points Hprep _ _ _ pq); try done.
    - intros x [Hx|Hx]%elem_of_app; [by eapply done_points|].
      apply (entry_points dn pair rest); [done|]. rewrite Hsplit. apply elem_of_app. by left.
    - intros [Hx|Hx]%elem_of_app; [done|]. pose proof (entry_NoDup pair Hpair) as Hnd.
      rewrite Hsplit in Hnd. apply NoDup_app in Hnd as (_ & Hdis & _). apply (Hdis q Hx). by left.
    - by rewrite Ho. }
  exists st', (names ++ [getTrampolineName p]). destruct st as [m s]. split; [|split].
  - unfold clone_pair. cbn [fst snd] in *. pose proof (cm_known _ _ _ _ Hcm _ _ Hf) as Hk. cbn [fst] in Hk. rewrite Hk. cbn [of_option mbind outcome_bind].
    unfold anyPoint, point_at. rewrite Hl at 1. cbn [head of_option mbind outcome_bind].
    destruct (entry_points dn pair rest pid HMeq Hpid) as [_ Hnew].
    pose proof (cm_rest _ _ _ _ Hcm pid Hnew) as Hs. cbn in Hs. rewrite Hs, Hp.
    cbn [of_option mbind outcome_bind]. by rewrite Hrun.
  - rewrite concat_map_app. cbn. by rewrite app_nil_r.
  - apply Forall2_app; [done|]. constructor; [|constructor]. exists p. split; [|done]. by exists pid, l.
Qed.

Lemma cloneFunctions_correct :
  exists m s names, cloneFunctions m0 s0 M = Ok (m, s, names) /\
    clones_made m0 s0 points (m, s) /\ trampoline_names M names.
Proof.
  destruct (fold_outcome_progress (fun dn (st : Module * Store * list string) =>
    clones_made m0 s0 (concat (map snd dn)) st.1 /\ trampoline_names dn st.2) clone_pair M (m0, s0, []))
    as ([[m s] names] & Hrun & Hcm & Hn).
  - split; [apply clones_made_nil|constructor].
  - intros dn pair rest [st names] HMeq [Hcm Hn].
    destruct (clone_pair_step dn pair rest st names HMeq Hcm Hn) as (st' & names' & ? & ? & ?).
    by exists (st', names').
  - exists m, s, names. split; [done|]. split; [|done]. cbn [fst snd] in Hcm. destruct Hcm as [H1 H2 H3 H4].
    pose proof (grouped_all _ _ _ HM) as Hall. split.
    + done.
    + intros n Hin. destruct (H2 n Hin) as [|(pid & p & Hpid & ?)]; [by left|]. right. exists pid, p.
      by rewrite Hall in Hpid.
    + intros pid Hpid. apply H3. by rewrite Hall.
    + intros pid Hpid. apply H4. by rewrite Hall.
Qed.
End Phases.

Section MovingBodies.
Context `{LLVMNames} (m0 : Module) (s0 : Store) (points : list PointId) (Hprep : preparable m0 s0 points).
Context (M : list (FnId * list PointId)) (HM : grouped s0 points M).
Context (m1 : Module) (s1 : Store) (Hcm : clones_made m0 s0 points (m1, s1)).

Lemma pair_point_in pair p : pair ∈ M -> pair_point s0 pair p ->
  exists pid, pid ∈ points /\ pid ∈ pair.2 /\ s0 !! pid = Some p /\ originalFunction p = pair.1.
Proof.
  intros Hpair (pid & l & Hl & Hp). exists pid.
  destruct (proj2 (grouped_entry _ _ _ HM pair Hpair) pid) as (p' & Hp' & Ho); [rewrite Hl; by left|].
  split; [|split; [rewrite Hl; by left|split; [done|congruence]]].
  rewrite <-(grouped_all _ _ _ HM). apply elem_of_concat_map. exists pair. split; [done|]. rewrite Hl. by left.
Qed.

(** The later phases meet the points with their clones set. *)
Lemma anyPoint_cloned pair : pair ∈ M ->
  exists p f cid, pair_point s0 pair p /\ anyPoint s1 pair.2 = Ok (with_clone p cid) /\
    function_at m0 pair.1 = Some f /\ function_at m1 pair.1 = Some f.
Proof.
  intros Hpair. destruct (entry_point s0 points M HM pair Hpair) as (p & Hpp & _).
  destruct (pair_point_in pair p Hpair Hpp) as (pid & Hpid & _ & Hp & Ho).
  destruct Hpp as (pid' & l & Hl & Hp').
  assert (Hpid' : pid' ∈ points).
  { rewrite <-(grouped_all _ _ _ HM). apply elem_of_concat_map. exists pair. split; [done|]. rewrite Hl. by left. }
  destruct (cm_done _ _ _ _ Hcm pid' Hpid') as (q & f & cid & Hq & Hf & Hs & _). cbn [fst snd] in *.
  assert (q = p) as -> by congruence. exists p, f, cid. split; [by exists pid', l|].
  unfold anyPoint, point_at. rewrite Hl. cbn. rewrite Hs. cbn. split; [done|]. rewrite <-Ho.
  split; [done|]. apply (cm_known _ _ _ _ Hcm _ _ Hf).
Qed.

Lemma entry_new dn pair rest : M = dn ++ pair :: rest -> pair.1 ∉ map fst dn.
Proof.
  intros HMeq. pose proof (oset_wf_NoDup _ (grouped_wf _ _ _ HM)) as Hnd. unfold omap_keys in Hnd.
  rewrite HMeq, map_app in Hnd. apply NoDup_app in Hnd as (_ & Hdis & _). intros Hin.
  apply (Hdis _ Hin). by left.
Qed.

Lemma done_entry dn pair rest q : M = dn ++ pair :: rest -> q ∈ dn -> q ∈ M /\ q.1 <> pair.1.
Proof.
  intros HMeq Hq. split; [rewrite HMeq; apply elem_of_app; by left|].
  intros Heq. apply (entry_new dn pair rest HMeq). rewrite <-Heq. by apply (list_elem_of_fmap_2 fst).
Qed.

(** Phase 2 *)
Definition moved (pair : FnId * list PointId) (m : Module) : Prop :=
  exists p f oid, pair_point s0 pair p /\ function_at m0 pair.1 = Some f /\
    function_at m pair.1 = Some (mkFunction (fn_id f) (fn_name f) [] (fn_subprogram f)) /\
    function_at m1 oid = None /\
    function_at m oid = Some (mkFunction oid (getOriginalFunctionName p) (fn_blocks f) (fn_subprogram f)).

Record bodies_moved (dn : list (FnId * list PointId)) (m : Module) : Prop := {
  bm_known id : fn_known m1 id -> fn_known m id;
  bm_other id : fn_known m1 id -> id ∉ map fst dn -> function_at m id = function_at m1 id;
  bm_done pair : pair ∈ dn -> moved pair m;
  bm_names n : n ∈ names_of m -> n ∈ names_of m1 \/
    exists pair p, pair ∈ dn /\ pair_point s0 pair p /\ n = getOriginalFunctionName p
}.

Lemma original_name_free dn pair rest m p :
  M = dn ++ pair :: rest -> bodies_moved dn m -> pair_point s0 pair p -> getOriginalFunctionName p ∉ names_of m.
Proof.
  intros HMeq Hbm Hp Hin.
  assert (Hpair : pair ∈ M) by (rewrite HMeq; apply elem_of_app; right; by left).
  destruct (pair_point_in pair p Hpair Hp) as (pid & Hpid & _ & Hs & Ho).
  destruct (bm_names _ _ Hbm _ Hin) as [Hn|(q & pq & Hq & Hpq & Heq)].
  - destruct (cm_names _ _ _ _ Hcm _ Hn) as [H0|(q & pq & Hq & Hpq & Heq)].
    + exact (prep_originals_free _ _ _ Hprep pid p Hpid Hs H0).
    + exact (prep_apart _ _ _ Hprep pid q p pq Hpid Hq Hs Hpq Heq).
  - destruct (done_entry dn pair rest q HMeq Hq) as [HqM Hne].
    destruct (pair_point_in q pq HqM Hpq) as (qid & Hqid & _ & Hqs & Hqo).
    pose proof (prep_originals _ _ _ Hprep pid qid p pq Hpid Hqid Hs Hqs Heq). congruence.
Qed.

(** Moving a body aside: a new function gets it, the others keep theirs. *)
Lemma move_body m id f name :
  function_at m id = Some f -> name ∉ names_of m ->
  let c := mkFunction (fresh_fn m) name (fn_blocks f) (fn_subprogram f) in
  let m' := set_body id [] (add_function m c) in
  names_of m' = names_of m ++ [name] /\
  function_at m' id = Some (mkFunction (fn_id f) (fn_name f) [] (fn_subprogram f)) /\
  function_at m' (fresh_fn m) = Some c /\
  (forall other, id <> other -> fn_known m other -> function_at m' other = function_at m other).
Proof.
  intros Hf Hfree c m'. destruct (add_function_free m c Hfree) as [Hn Hat]. specialize (Hat (function_at_fresh m)).
  assert (Hnew : forall id, fn_known m id -> (fresh_fn m =? id) = false).
  { intros x [g Hg]. apply Nat.eqb_neq. intros <-. by rewrite function_at_fresh in Hg. }
  split; [unfold m'; by rewrite names_of_set_body, Hn|]. unfold m'. split; [|split].
  - rewrite function_at_set_body, Nat.eqb_refl, Hat. cbn [fn_id c]. rewrite (Hnew id) by (by exists f). by rewrite Hf.
  - rewrite function_at_set_body, Hat. cbn [fn_id c]. rewrite Nat.eqb_refl.
    destruct (Nat.eqb_spec id (fresh_fn m)) as [Heq|]; [|done]. rewrite Heq, function_at_fresh in Hf. done.
  - intros other Hne Hk. rewrite function_at_set_body, (proj2 (Nat.eqb_neq _ _) Hne), Hat. cbn [fn_id c].
    by rewrite (Hnew other Hk).
Qed.

Lemma delete_pair_step dn pair rest m :
  M = dn ++ pair :: rest -> bodies_moved dn m ->
  exists m', delete_pair s1 m pair = Ok m' /\ bodies_moved (dn ++ [pair]) m'.
Proof.
  intros HMeq Hbm.
  assert (Hpair : pair ∈ M) by (rewrite HMeq; apply elem_of_app; right; by left).
  destruct (anyPoint_cloned pair Hpair) as (p & f & cid & Hp & Hany & Hf0 & Hf1).
  assert (Hf : function_at m pair.1 = Some f).
  { rewrite (bm_other _ _ Hbm); [done|by exists f|by eapply entry_new]. }
  pose proof (original_name_free dn pair rest m p HMeq Hbm Hp) as Hfree.
  destruct (move_body m pair.1 f _ Hf Hfree) as (Hn & Hself & Hcopy & Hoff).
  unfold delete_pair. rewrite Hf, Hany. eexists. split; [reflexivity|].
  change (getOriginalFunctionName (with_clone p cid)) with (getOriginalFunctionName p).
  cbn [CloneFunction fn_id fn_blocks fn_subprogram]. split.
  - intros id Hk. destruct (decide (pair.1 = id)) as [<-|Hne]; [by eexists|].
    unfold fn_known. rewrite Hoff by (auto; by apply (bm_known _ _ Hbm)). by apply (bm_known _ _ Hbm).
  - intros id Hk. rewrite map_app. intros [Hid Hne]%not_elem_of_app.
    rewrite Hoff; [by apply (bm_other _ _ Hbm)| |by apply (bm_known _ _ Hbm)].
    intros <-. apply Hne. by left.
  - intros q [Hq|Hq]%elem_of_app.
    + destruct (bm_done _ _ Hbm q Hq) as (pq & fq & oid & Hpq & Hfq & Hmq & Ho1 & Hoid).
      destruct (done_entry dn pair rest q HMeq Hq) as [_ Hne]. exists pq, fq, oid.
      split; [done|]. split; [done|]. rewrite !Hoff; [done| |by eexists|done|by eexists].
      intros <-. congruence.
    + apply list_elem_of_singleton in Hq as ->. exists p, f, (fresh_fn m).
      split; [done|]. split; [done|]. split; [done|]. split; [|done].
      destruct (function_at m1 (fresh_fn m)) as [g|] eqn:E; [|done].
      destruct (bm_known _ _ Hbm (fresh_fn m)) as [h Hh]; [by exists g|]. by rewrite function_at_fresh in Hh.
  - intros n. rewrite Hn. intros [Hin|Hin]%elem_of_app.
    + destruct (bm_names _ _ Hbm n Hin) as [|(q & pq & Hq & ? & ?)]; [by left|]. right. exists q, pq.
      split; [|done]. apply elem_of_app. by left.
    + apply list_elem_of_singleton in Hin as ->. right. exists pair, p. split; [|done].
      apply elem_of_app. right. by left.
Qed.

Lemma deleteFunctions_correct :
  exists m2, deleteFunctions s1 m1 M = Ok m2 /\ bodies_moved M m2.
Proof.
  apply (fold_outcome_progress bodies_moved).
  - split; try done; [intros pair Hp; by apply not_elem_of_nil in Hp|by left].
  - intros. by eapply delete_pair_step.
Qed.

(** Phase 3 *)
Context (m2 : Module) (Hbm : bodies_moved M m2).

Definition redirected (pair : FnId * list PointId) (m : Module) : Prop :=
  exists p f, pair_point s0 pair p /\ function_at m0 pair.1 = Some f /\
    function_at m pair.1 = Some (mkFunction (fn_id f) (fn_name f) [indirect_call (getTrampolineName p)] (fn_subprogram f)).

Lemma insertTrampolines_correct :
  exists m3, insertTrampolines s1 m2 M = Ok m3 /\
    (forall id, id ∉ map fst M -> function_at m3 id = function_at m2 id) /\
    (forall pair, pair ∈ M -> redirected pair m3).
Proof.
  apply (fold_outcome_progress (fun dn m =>
    (forall id, id ∉ map fst dn -> function_at m id = function_at m2 id) /\
    (forall pair, pair ∈ dn -> redirected pair m))).
  { split; [done|]. intros pair Hp. by apply not_elem_of_nil in Hp. }
  intros dn pair rest m HMeq [Hoff Hdone].
  assert (Hpair : pair ∈ M) by (rewrite HMeq; apply elem_of_app; right; by left).
  destruct (anyPoint_cloned pair Hpair) as (p & f & cid & Hp & Hany & Hf0 & _).
  destruct (bm_done _ _ Hbm pair Hpair) as (p' & f' & oid & _ & Hf' & Hm & _).
  assert (f' = f) as -> by congruence.
  unfold trampoline_pair. rewrite Hoff by (by eapply entry_new). rewrite Hm, Hany.
  eexists. split; [reflexivity|]. change (getTrampolineName (with_clone p cid)) with (getTrampolineName p). split.
  - intros id. rewrite map_app. intros [Hid Hne]%not_elem_of_app. rewrite function_at_set_body.
    destruct (Nat.eqb_spec pair.1 id) as [<-|]; [exfalso; apply Hne; by left|by apply Hoff].
  - intros q [Hq|Hq]%elem_of_app.
    + destruct (done_entry dn pair rest q HMeq Hq) as [_ Hne]. destruct (Hdone q Hq) as (pq & fq & ? & ? & ?).
      exists pq, fq. rewrite function_at_set_body, (proj2 (Nat.eqb_neq _ _)) by auto. done.
    + apply list_elem_of_singleton in Hq as ->. exists p, f. split; [done|]. split; [done|].
      rewrite function_at_set_body, Nat.eqb_refl, Hoff by (by eapply entry_new). by rewrite Hm.
Qed.
End MovingBodies.

(** What a point has in the prepared module: its mutated clone, its function
    turned into an indirect call through the point's trampoline, and that
    function's body under the original's new name. *)
Definition prepared `{LibIrm} (m0 : Module) (s0 : Store) (m : Module) (s : Store) (pid : PointId) : Prop :=
  exists p f cid oid g,
    s0 !! pid = Some p /\ function_at m0 (originalFunction p) = Some f /\
    s !! pid = Some (with_clone p cid) /\
    point_applyMutation p (Some (mkFunction cid (getMutatedFunctionName p) (fn_blocks f) (fn_subprogram f))) = Ok g /\
    function_at m cid = Some (mkFunction cid (getMutatedFunctionName p) (fn_blocks g) (fn_subprogram f)) /\
    function_at m oid = Some (mkFunction oid (getOriginalFunctionName p) (fn_blocks f) (fn_subprogram f)) /\
    function_at m (originalFunction p) =
      Some (mkFunction (fn_id f) (fn_name f) [indirect_call (getTrampolineName p)] (fn_subprogram f)).

Section Applying.
Context `{LibIrm, LLVMNames} (m0 : Module) (s0 : Store) (points : list PointId)
  (Hprep : preparable m0 s0 points).
Context (m1 m3 : Module) (s1 : Store) (Hcm : clones_made m0 s0 points (m1, s1)).
Context (Hclones : forall id, function_at m0 id = None -> fn_known m1 id -> function_at m3 id = function_at m1 id).
Context (Happlies : forall pid p f clone, pid ∈ points -> s0 !! pid = Some p ->
  function_at m0 (originalFunction p) = Some f -> fn_blocks clone = fn_blocks f ->
  exists g, point_applyMutation p (Some clone) = Ok g).

Definition mutated (pid : PointId) (m : Module) : Prop :=
  exists p f cid g, s0 !! pid = Some p /\ function_at m0 (originalFunction p) = Some f /\
    s1 !! pid = Some (with_clone p cid) /\
    point_applyMutation p (Some (mkFunction cid (uniqueIdentifier p) (fn_blocks f) (fn_subprogram f))) = Ok g /\
    function_at m1 cid = Some (mkFunction cid (uniqueIdentifier p) (fn_blocks f) (fn_subprogram f)) /\
    function_at m cid = Some (mkFunction cid (uniqueIdentifier p) (fn_blocks g) (fn_subprogram f)).

Definition is_clone_of (dn : list PointId) (id : FnId) : Prop :=
  exists pid p, pid ∈ dn /\ s1 !! pid = Some p /\ mutatedFunction p = Some id.

Lemma clones_apart dn pid p p0 cid :
  (forall q, q ∈ dn -> q ∈ points) -> pid ∈ points -> pid ∉ dn -> s0 !! pid = Some p0 ->
  s1 !! pid = Some p -> mutatedFunction p = Some cid ->
  (exists f, function_at m1 cid = Some f /\ fn_name f = uniqueIdentifier p0) -> ~ is_clone_of dn cid.
Proof.
  intros Hdn Hpid Hnew Hp0 Hp Hcid (f & Hf & Hname) (q & pq & Hq & Hpq & Hqc).
  destruct (cm_done _ _ _ _ Hcm q (Hdn q Hq)) as (q0 & fq & qc & Hq0 & _ & Hs & _ & Hat). cbn [fst snd] in *.
  rewrite Hs in Hpq. injection Hpq as <-. cbn in Hqc. injection Hqc as ->.
  rewrite Hat in Hf. injection Hf as <-. cbn in Hname.
  rewrite (prep_ids _ _ _ Hprep q pid q0 p0) in Hq; auto.
Qed.

Lemma applyMutations_correct :
  exists m, applyMutations s1 m3 points = Ok m /\
    (forall id, ~ is_clone_of points id -> function_at m id = function_at m3 id) /\
    (forall pid, pid ∈ points -> mutated pid m).
Proof.
  apply (fold_outcome_progress (fun dn m =>
    (forall id, ~ is_clone_of dn id -> function_at m id = function_at m3 id) /\
    (forall pid, pid ∈ dn -> mutated pid m))).
  { split; [done|]. intros pid Hp. by apply not_elem_of_nil in Hp. }
  intros dn pid rest m Hsplit [Hoff Hdone].
  assert (Hpid : pid ∈ points) by (rewrite Hsplit; apply elem_of_app; right; by left).
  assert (Hdn : forall q, q ∈ dn -> q ∈ points) by (intros q Hq; rewrite Hsplit; apply elem_of_app; by left).
  assert (Hnew : pid ∉ dn).
  { intros Hin. pose proof (prep_NoDup _ _ _ Hprep) as Hnd. rewrite Hsplit in Hnd.
    apply NoDup_app in Hnd as (_ & Hdis & _). apply (Hdis pid Hin). by left. }
  destruct (cm_done _ _ _ _ Hcm pid Hpid) as (p & f & cid & Hp & Hf & Hs & Hno & Hat). cbn [fst snd] in *.
  assert (Hm : function_at m cid = Some (mkFunction cid (uniqueIdentifier p) (fn_blocks f) (fn_subprogram f))).
  { rewrite Hoff, Hclones; [done|done|by eexists|].
    eapply (clones_apart dn pid _ p); [done|done|done|done|exact Hs|reflexivity|by eexists]. }
  destruct (Happlies pid p f (mkFunction cid (uniqueIdentifier p) (fn_blocks f) (fn_subprogram f)) Hpid Hp Hf eq_refl)
    as [g Hg].
  unfold apply_point, point_at. rewrite Hs. cbn [of_option mbind outcome_bind].
  assert (Hclone : (mutatedFunction (with_clone p cid) ≫= function_at m) =
    Some (mkFunction cid (uniqueIdentifier p) (fn_blocks f) (fn_subprogram f))) by exact Hm.
  rewrite Hclone. change (point_applyMutation (with_clone p cid)) with (point_applyMutation p). rewrite Hg.
  exists (set_body cid (fn_blocks g) m). split; [reflexivity|]. split.
  - intros id Hid. rewrite function_at_set_body. destruct (Nat.eqb_spec cid id) as [<-|].
    + exfalso. apply Hid. exists pid, (with_clone p cid). split; [|done]. apply elem_of_app. right. by left.
    + apply Hoff. intros (q & pq & Hq & ?). apply Hid. exists q, pq. split; [|done]. apply elem_of_app. by left.
  - intros q [Hq|Hq]%elem_of_app.
    + destruct (Hdone q Hq) as (pq & fq & qc & gq & Hpq & Hfq & Hsq & Hgq & Hq1 & Hqm). exists pq, fq, qc, gq.
      rewrite function_at_set_body, (proj2 (Nat.eqb_neq _ _)); [done|]. intros <-.
      eapply (clones_apart dn pid _ p _ Hdn Hpid Hnew Hp Hs); [reflexivity|eexists; split; [exact Hat|reflexivity]|].
      exists q, (with_clone pq cid). done.
    + apply list_elem_of_singleton in Hq as ->. exists p, f, cid, g. rewrite function_at_set_body, Nat.eqb_refl, Hm. done.
Qed.
End Applying.

(** ** The phases put together *)
Section Stages.
Context `{LibIrm, LLVMNames} (m0 : Module) (s0 : Store) (points : list PointId) (Hprep : preparable m0 s0 points).
Context (M : list (FnId * list PointId)) (HM : grouped s0 points M).
Context (m1 : Module) (s1 : Store) (Hcm : clones_made m0 s0 points (m1, s1)).
Context (m2 : Module) (Hbm : bodies_moved m0 s0 m1 M m2).
Context (m3 : Module) (Hoff3 : forall id, id ∉ map fst M -> function_at m3 id = function_at m2 id).
Context (Hred : forall pair, pair ∈ M -> redirected m0 s0 pair m3).

Lemma entry_of_point pid p :
  pid ∈ points -> s0 !! pid = Some p -> exists pair, pair ∈ M /\ pair.1 = originalFunction p.
Proof using HM.
  intros Hpid Hp. rewrite <-(grouped_all _ _ _ HM) in Hpid. apply elem_of_concat_map in Hpid as (pair & Hpair & Hin).
  exists pair. split; [done|]. destruct (proj2 (grouped_entry _ _ _ HM pair Hpair) pid Hin) as (p' & Hp' & Ho). congruence.
Qed.

Lemma entry_known id : id ∈ map fst M -> fn_known m0 id.
Proof using Hprep HM.
  intros (pair & -> & Hpair)%list_elem_of_fmap. destruct (entry_function m0 s0 points Hprep M HM pair Hpair) as [f Hf].
  by exists f.
Qed.

Lemma other_kept id : id ∉ map fst M -> fn_known m1 id -> function_at m3 id = function_at m1 id.
Proof using Hbm Hoff3. intros Hid Hk. rewrite Hoff3 by done. by apply (bm_other _ _ _ _ _ Hbm). Qed.

Lemma clone_kept id : function_at m0 id = None -> fn_known m1 id -> function_at m3 id = function_at m1 id.
Proof using Hprep HM Hbm Hoff3.
  intros Hid Hk. apply other_kept; [|done]. intros Hin. destruct (entry_known id Hin) as [f Hf]. congruence.
Qed.

Lemma clone_of_new id : is_clone_of s1 points id -> function_at m0 id = None /\ fn_known m1 id.
Proof using Hcm.
  intros (q & pq & Hq & Hs & Hc). destruct (cm_done _ _ _ _ Hcm q Hq) as (q0 & fq & cid & _ & _ & Hs' & Hno & Hat).
  cbn [fst snd] in *. rewrite Hs in Hs'. injection Hs' as ->. cbn in Hc. injection Hc as ->. split; [done|by eexists].
Qed.

(** Two points of one function have the same names for its copies. *)
Lemma entry_names pid p pair p' :
  pid ∈ points -> s0 !! pid = Some p -> pair ∈ M -> pair.1 = originalFunction p -> pair_point s0 pair p' ->
  getTrampolineName p' = getTrampolineName p /\ getOriginalFunctionName p' = getOriginalFunctionName p.
Proof using Hprep HM.
  intros Hpid Hp Hpair Heq Hpp. destruct (pair_point_in s0 points M HM pair p' Hpair Hpp) as (pid' & Hpid' & _ & Hs & Ho).
  destruct (prep_origin _ _ _ Hprep pid pid' p p' Hpid Hpid' Hp Hs) as [Hbit Hname].
  unfold getTrampolineName, getOriginalFunctionName. by rewrite Hbit, Hname by congruence.
Qed.

Lemma point_prepared m pid :
  (forall id, ~ is_clone_of s1 points id -> function_at m id = function_at m3 id) ->
  pid ∈ points -> mutated m0 s0 m1 s1 pid m -> prepared m0 s0 m s1 pid.
Proof using Hprep HM Hcm Hbm Hoff3 Hred.
  intros Hoff Hpid (p & f & cid & g & Hp & Hf & Hs & Hg & H1 & Hm).
  destruct (entry_of_point pid p Hpid Hp) as (pair & Hpair & Heq).
  destruct (Hred pair Hpair) as (p2 & f2 & Hpp2 & Hf2 & Hr).
  destruct (bm_done _ _ _ _ _ Hbm pair Hpair) as (p3 & f3 & oid & Hpp3 & Hf3 & _ & Ho1 & Ho2).
  destruct (entry_names pid p pair p2 Hpid Hp Hpair Heq Hpp2) as [Ht _].
  destruct (entry_names pid p pair p3 Hpid Hp Hpair Heq Hpp3) as [_ Ho].
  rewrite Heq in *. assert (f2 = f) as -> by congruence. assert (f3 = f) as -> by congruence.
  exists p, f, cid, oid, g. unfold getMutatedFunctionName. do 5 (split; [done|]). split.
  - rewrite Hoff; [rewrite Hoff3; [by rewrite <-Ho|]|].
    + intros [h Hh]%entry_known. apply (cm_known _ _ _ _ Hcm) in Hh. cbn in Hh. congruence.
    + intros [_ [h Hh]]%clone_of_new. congruence.
  - rewrite Hoff; [by rewrite Hr, Ht|]. intros [Hno _]%clone_of_new. congruence.
Qed.

Lemma name_announced names pid p :
  trampoline_names s0 M names -> pid ∈ points -> s0 !! pid = Some p -> getTrampolineName p ∈ names.
Proof using Hprep HM.
  intros Hnames Hpid Hp. destruct (entry_of_point pid p Hpid Hp) as (pair & Hpair & Heq).
  pose proof Hpair as [k Hk]%list_elem_of_lookup.
  destruct (Forall2_lookup_l _ _ _ _ _ Hnames Hk) as (name & Hname & p2 & Hpp2 & ->).
  destruct (entry_names pid p pair p2 Hpid Hp Hpair Heq Hpp2) as [<- _]. by eapply list_elem_of_lookup_2.
Qed.

Lemma other_untouched m id f :
  (forall id, ~ is_clone_of s1 points id -> function_at m id = function_at m3 id) ->
  function_at m0 id = Some f ->
  (forall pid p, pid ∈ points -> s0 !! pid = Some p -> originalFunction p <> id) -> function_at m id = Some f.
Proof using HM Hcm Hbm Hoff3.
  intros Hoff Hf Hnone. rewrite Hoff by (intros [? _]%clone_of_new; congruence).
  pose proof (cm_known _ _ _ _ Hcm _ _ Hf) as Hf1. cbn [fst] in Hf1.
  rewrite other_kept; [done| |by exists f]. intros (pair & -> & Hpair)%list_elem_of_fmap.
  destruct (entry_point s0 points M HM pair Hpair) as (p & Hpp & Ho).
  destruct (pair_point_in s0 points M HM pair p Hpair Hpp) as (pid & Hpid & _ & Hp & _).
  by apply (Hnone pid p).
Qed.
End Stages.

(** ** Claims *)

(** C5: preparing the mutants of a bitcode file succeeds when every mutation
    applies to a copy of its function, and afterwards every point has what it
    needs: a function of its own, named by its identifier, with the original
    body mutated at the point; the original function reduced to an indirect
    call through the trampoline of the point, whose name is announced; the
    original body, unchanged, under the name the trampolines are first aimed
    at.  Functions without a point are untouched. *)
Theorem prepare_mutants_correct `{LibIrm, LLVMNames} store b points :
  mutationPoints b = [] -> preparable (bc_module b) store points ->
  (forall pid p f clone, pid ∈ points -> store !! pid = Some p ->
     function_at (bc_module b) (originalFunction p) = Some f -> fn_blocks clone = fn_blocks f ->
     exists g, point_applyMutation p (Some clone) = Ok g) ->
  exists module store' names, prepare_mutants store b points = Ok (module, store', names) /\
    (forall pid, pid ∈ points -> prepared (bc_module b) store module store' pid) /\
    (forall pid p, pid ∈ points -> store !! pid = Some p -> getTrampolineName p ∈ names) /\
    (forall id f, function_at (bc_module b) id = Some f ->
       (forall pid p, pid ∈ points -> store !! pid = Some p -> originalFunction p <> id) ->
       function_at module id = Some f).
Proof.
  intros Hb Hprep Happlies.
  destruct (addMutation_groups store points b Hb) as (b' & Hadd & _ & Hm0 & HM).
  { intros pid Hpid. destruct (prep_known _ _ _ Hprep pid Hpid) as (p & Hp & _). by exists p. }
  destruct (cloneFunctions_correct _ store points Hprep _ HM) as (m1 & s1 & names & Hclone & Hcm & Hnames).
  destruct (deleteFunctions_correct _ store points Hprep _ HM m1 s1 Hcm) as (m2 & Hdel & Hbm).
  destruct (insertTrampolines_correct _ store points _ HM m1 s1 Hcm m2 Hbm) as (m3 & Hins & Hoff3 & Hred).
  pose proof (clone_kept _ store points Hprep _ HM m1 m2 Hbm m3 Hoff3) as Hkept.
  destruct (applyMutations_correct _ store points Hprep m1 m3 s1 Hcm Hkept Happlies) as (m & Happ & Hoff & Hmut).
  exists m, s1, names. split; [|split; [|split]].
  - unfold prepare_mutants. rewrite Hadd. cbn [mbind outcome_bind]. rewrite Hm0, Hclone. cbn [mbind outcome_bind].
    rewrite Hdel. cbn [mbind outcome_bind]. rewrite Hins. cbn [mbind outcome_bind]. by rewrite Happ.
  - intros pid Hpid. by eapply point_prepared; [..|apply Hmut].
  - intros pid p. by eapply name_announced.
  - intros id f. by eapply other_untouched.
Qed.

#[global] Program Instance sample_names : LLVMNames :=
  {| uniquify used name := if decide (name ∈ used) then name +:+ ".1" else name |}.
Next Obligation. intros used name Hn. cbn. by rewrite decide_False. Qed.

(** The points of [Trivial AddToSub] and of [RemoveVoidFunctionMutator] in
    [sample_function]. *)
Definition sample_store : Store :=
  match newMutationPoint (Trivial cxx.AddToSub) (Some irm.AddToSub) sample_module sample_function sample_add
          "-" sample_bitcode "",
        newMutationPoint RemoveVoidFunctionMutator (Some irm.RemoveVoidFunctionCall) sample_module sample_function
          sample_call "" sample_bitcode "" with
  | Ok p, Ok q => [p; q]
  | _, _ => []
  end.

Definition sample_bitcode_file : Bitcode := mkBitcode sample_bitcode sample_module [].

Lemma sample_point_cases pid p : pid ∈ [0; 1] -> sample_store !! pid = Some p ->
  (pid = 0 /\ sample_store !! 0 = Some p) \/ (pid = 1 /\ sample_store !! 1 = Some p).
Proof. intros [->|[->|H]%elem_of_cons]%elem_of_cons; auto. by apply not_elem_of_nil in H. Qed.

Ltac sample_point H Hp :=
  destruct (sample_point_cases _ _ H Hp) as [[-> [= <-]]|[-> [= <-]]]; clear H Hp.

Lemma sample_preparable : preparable (bc_module sample_bitcode_file) sample_store [0; 1].
Proof.
  split.
  - intros pid [->|[->|H]%elem_of_cons]%elem_of_cons; [| |by apply not_elem_of_nil in H];
      (eexists; split; [reflexivity|]; eexists; reflexivity).
  - apply (bool_decide_unpack _). exact I.
  - intros pid1 pid2 p1 p2 H1 H2 Hp1 Hp2. sample_point H1 Hp1; sample_point H2 Hp2; done.
  - intros pid1 pid2 p1 p2 H1 H2 Hp1 Hp2 Heq. sample_point H1 Hp1; sample_point H2 Hp2; done.
  - intros pid p H Hp. sample_point H Hp; apply (bool_decide_unpack _); exact I.
  - intros pid p H Hp. sample_point H Hp; apply (bool_decide_unpack _); exact I.
  - intros pid1 pid2 p1 p2 H1 H2 Hp1 Hp2. sample_point H1 Hp1; sample_point H2 Hp2; done.
  - intros pid1 pid2 p1 p2 H1 H2 Hp1 Hp2 _. sample_point H1 Hp1; sample_point H2 Hp2; done.
Qed.

Lemma sample_applies pid p f clone : pid ∈ [0; 1] -> sample_store !! pid = Some p ->
  function_at (bc_module sample_bitcode_file) (originalFunction p) = Some f -> fn_blocks clone = fn_blocks f ->
  exists g, point_applyMutation p (Some clone) = Ok g.
Proof.
  intros H Hp. sample_point H Hp; intros [= <-] Hblocks;
    destruct clone as [id name blocks sub]; cbn in Hblocks; subst blocks; eexists; reflexivity.
Qed.

Lemma prepare_mutants_correct_witness :
  exists module store' names, prepare_mutants sample_store sample_bitcode_file [0; 1] = Ok (module, store', names) /\
    (forall pid, pid ∈ [0; 1] -> prepared sample_module sample_store module store' pid) /\
    (forall pid p, pid ∈ [0; 1] -> sample_store !! pid = Some p -> getTrampolineName p ∈ names) /\
    (forall id f, function_at sample_module id = Some f ->
       (forall pid p, pid ∈ [0; 1] -> sample_store !! pid = Some p -> originalFunction p <> id) ->
       function_at module id = Some f).
Proof.
  exact (prepare_mutants_correct sample_store sample_bitcode_file [0; 1] eq_refl sample_preparable sample_applies).
Defined.

(** *** Cache keys *)
Lemma point_ids_spec (store : Store) (points : list PointId) acc :
  (forall pid, pid ∈ points -> is_Some (store !! pid)) ->
  fold_outcome (fun ids point =>
    p ← of_option "dangling mutation point" (store !! point); mret (ids ++ [uniqueIdentifier p])) acc points =
  Ok (acc ++ map (fun pid => default "" (uniqueIdentifier <$> store !! pid)) points).
Proof.
  revert acc. induction points as [|pid points IH]; intros acc Hin; [by rewrite app_nil_r|]. cbn.
  destruct (Hin pid) as [p Hp]; [by left|]. rewrite Hp. cbn. rewrite IH by (intros; apply Hin; by right).
  by rewrite <-app_assoc.
Qed.

(** The name under which the compiled mutants of a bitcode file are cached
    depends on the set of its mutation points only, not on the order in which
    the map happens to hold them (its keys are addresses, which differ from
    run to run), so the same mutants are found again. *)
Theorem cache_key_stable `{Hasher} store1 store2 b1 b2 points1 points2 :
  bc_ptr b1 = bc_ptr b2 ->
  concat (map snd (mutationPoints b1)) = points1 -> concat (map snd (mutationPoints b2)) = points2 ->
  points1 <> [] ->
  (forall pid, pid ∈ points1 -> is_Some (store1 !! pid)) ->
  (forall pid, pid ∈ points2 -> is_Some (store2 !! pid)) ->
  map (fun pid => uniqueIdentifier <$> store1 !! pid) points1 ≡ₚ
  map (fun pid => uniqueIdentifier <$> store2 !! pid) points2 ->
  exists key, getMutatedUniqueIdentifier store1 b1 = Ok key /\ getMutatedUniqueIdentifier store2 b2 = Ok key.
Proof.
  intros Hptr H1 H2 Hne Hs1 Hs2 Hperm.
  assert (Hne2 : points2 <> []).
  { intros ->. cbn in Hperm. symmetry in Hperm. apply Permutation_nil in Hperm. by destruct points1. }
  unfold getMutatedUniqueIdentifier, point_ids. rewrite H1, H2, !point_ids_spec by done. rewrite Hptr.
  destruct (mutationPoints b1) as [|e1 M1]; [by subst points1|].
  destruct (mutationPoints b2) as [|e2 M2]; [by subst points2|]. cbn [mbind outcome_bind app].
  eexists. split; [reflexivity|]. do 2 f_equal.
  set (ids1 := map _ points1). set (ids2 := map _ points2).
  assert (Hids : ids1 ≡ₚ ids2).
  { apply (Permutation_map (default "")) in Hperm. by rewrite !map_map in Hperm. }
  assert (Hsort : merge_sort str_le ids1 = merge_sort str_le ids2).
  { apply (Sorted_unique str_le); try apply Sorted_merge_sort; try apply _.
    by rewrite !merge_sort_Permutation. }
  by rewrite Hsort.
Qed.

Definition two_points (l : list (FnId * list PointId)) : Bitcode := mkBitcode sample_bitcode sample_module l.

Definition concatenating_hasher : Hasher := {| md5_hex := fun s => s |}.

Lemma cache_key_stable_witness :
  exists key, getMutatedUniqueIdentifier (H:=concatenating_hasher) sample_store (two_points [(5, [0]); (7, [1])]) = Ok key /\
    getMutatedUniqueIdentifier (H:=concatenating_hasher) sample_store (two_points [(5, [1]); (7, [0])]) = Ok key.
Proof.
  apply (cache_key_stable (H:=concatenating_hasher) sample_store sample_store (two_points [(5, [0]); (7, [1])])
    (two_points [(5, [1]); (7, [0])]) [0; 1] [1; 0]); [done|done|done|done| | |].
  - intros pid [->|[->|H]%elem_of_cons]%elem_of_cons; [by eexists|by eexists|by apply not_elem_of_nil in H].
  - intros pid [->|[->|H]%elem_of_cons]%elem_of_cons; [by eexists|by eexists|by apply not_elem_of_nil in H].
  - apply perm_swap.
Defined.
