(* ===== verification/Preparation.v ===== *)
(** * Preparing the mutants of a program (lib/Driver.cpp: normalRunMutations)

    The preparation of Bitcode.v, phase by phase over all the files of the
    program, as the driver runs it: every point is handed to its file, then the
    functions of all files are cloned, then their originals deleted, and so on.
    A phase changes a file and the points of that file only, so the files are
    prepared as if one after the other; and a phase, which an executor spreads
    over threads file by file, is here a loop over the files. *)

From stdpp Require Import base list strings.
From Stdlib Require Import ZArith Lia Bool.
From S2P Require Import Prelude StdContainers StringFacts IR SourceLocation Irm Mutator Samples MutationPoint Reachable Mutators Bitcode.

(** ** The phases *)
Section Phases.
Context `{LibIrm, LLVMNames}.

(** [point->getBitcode()] *)
Definition file_of (files : list Bitcode) (ptr : BitcodePtr) : option nat :=
  fst <$> list_find (fun b => bitcode_id (bc_ptr b) = bitcode_id ptr) files.

Definition at_file (f : Bitcode -> PointId -> outcome Bitcode) (store : Store) (files : list Bitcode) (pid : PointId)
    : outcome (list Bitcode) :=
  p ← point_at store pid;
  i ← of_option "dangling bitcode" (file_of files (bitcode p));
  b ← of_option "dangling bitcode" (files !! i);
  b ← f b pid;
  mret (<[i := b]> files).

Definition set_module (module : Module) (b : Bitcode) : Bitcode := mkBitcode (bc_ptr b) module (mutationPoints b).

(** CloneMutatedFunctionsTask *)
Definition clone_file (st : list Bitcode * Store * list string) (b : Bitcode) : outcome (list Bitcode * Store * list string) :=
  let '(files, store, mutatedFunctions) := st in
  cloned ← cloneFunctions (bc_module b) store (mutationPoints b);
  let '(module, store, names) := cloned in
  mret (files ++ [set_module module b], store, mutatedFunctions ++ names).

Definition each_file (f : Bitcode -> outcome Module) (files : list Bitcode) : outcome (list Bitcode) :=
  fold_outcome (fun files b => module ← f b; mret (files ++ [set_module module b])) [] files.

(** DeleteOriginalFunctionsTask, InsertMutationTrampolinesTask *)
Definition delete_file (store : Store) (b : Bitcode) : outcome Module := deleteFunctions store (bc_module b) (mutationPoints b).
Definition trampoline_file (store : Store) (b : Bitcode) : outcome Module := insertTrampolines store (bc_module b) (mutationPoints b).

(** ApplyMutationTask *)
Definition apply_file (store : Store) (b : Bitcode) (pid : PointId) : outcome Bitcode :=
  module ← apply_point store (bc_module b) pid; mret (set_module module b).

(** [normalRunMutations], up to the compilation. *)
Definition prepare_files (store : Store) (files : list Bitcode) (points : list PointId)
    : outcome (list Bitcode * Store * list string) :=
  files ← fold_outcome (at_file (addMutation store) store) files points;
  cloned ← fold_outcome clone_file ([], store, []) files;
  let '(files, store, mutatedFunctions) := cloned in
  files ← each_file (delete_file store) files;
  files ← each_file (trampoline_file store) files;
  files ← fold_outcome (at_file (apply_file store) store) files points;
  mret (files, store, mutatedFunctions).
End Phases.

(** ** What a phase reads and changes *)
Definition agree (points : list PointId) (s s' : Store) : Prop := forall pid, pid ∈ points -> s !! pid = s' !! pid.

Lemma agree_sub points points' s s' : (forall pid, pid ∈ points' -> pid ∈ points) -> agree points s s' -> agree points' s s'.
Proof. intros Hsub Ha pid Hpid. by apply Ha, Hsub. Qed.

Lemma agree_insert points s s' pid p : agree points s s' -> pid ∈ points -> is_Some (s !! pid) -> agree points (<[pid := p]> s) (<[pid := p]> s').
Proof.
  intros Ha Hpid [x Hx] q Hq. destruct (decide (pid = q)) as [<-|Hne].
  - pose proof Hx as Hx'. rewrite (Ha pid Hpid) in Hx'.
    rewrite !list_lookup_insert_eq; [done|by eapply lookup_lt_Some..].
  - rewrite !list_lookup_insert_ne by done. by apply Ha.
Qed.

(** All the points of a map. *)
Abbreviation points_in M := (concat (map snd M)).

Lemma in_map {A} (M : list (FnId * list A)) pair x : pair ∈ M -> x ∈ pair.2 -> x ∈ points_in M.
Proof. intros Hp Hx. apply elem_of_concat_map. eauto. Qed.

Section Locality.
Context `{LLVMNames}.

Lemma anyPoint_agree points s s' l : (forall pid, pid ∈ l -> pid ∈ points) -> agree points s s' -> anyPoint s l = anyPoint s' l.
Proof.
  intros Hl Ha. unfold anyPoint. destruct l as [|pid l]; [done|]. cbn. unfold point_at. by rewrite (Ha pid) by (apply Hl; by left).
Qed.

Lemma clone_for_agree points original m s s' pid m1 s1 :
  agree points s s' -> pid ∈ points -> clone_for original (m, s) pid = Ok (m1, s1) ->
  exists s1', clone_for original (m, s') pid = Ok (m1, s1') /\ agree points s1 s1'.
Proof.
  intros Ha Hpid. unfold clone_for, point_at. rewrite <-(Ha pid Hpid). destruct (s !! pid) as [p|] eqn:Hp; [|done].
  cbn. intros [= <- <-]. eexists. split; [reflexivity|]. apply agree_insert; [done..|by exists p].
Qed.

(** Cloning depends on the points of its map only ... *)
Lemma cloneFunctions_agree m s s' M m1 s1 names :
  agree (points_in M) s s' -> cloneFunctions m s M = Ok (m1, s1, names) ->
  exists s1', cloneFunctions m s' M = Ok (m1, s1', names) /\ agree (points_in M) s1 s1'.
Proof.
  intros Ha Hrun.
  destruct (fold_outcome_sim (fun x y => x.1.1 = y.1.1 /\ x.2 = y.2 /\ agree (points_in M) x.1.2 y.1.2)
    clone_pair clone_pair M (m, s, []) (m, s', []) (m1, s1, names)) as ([[m1' s1'] names'] & Hrun' & Hm & Hn & Ha'); [| |done|].
  - intros pair [[mx sx] nx] [[my sy] ny] [[mx1 sx1] nx1] Hpair (Hm & Hn & Hxy) Hstep. cbn in Hm, Hn, Hxy. subst my ny.
    unfold clone_pair in *. destruct (function_at mx pair.1) as [original|]; [|done]. cbn [of_option mbind outcome_bind] in *.
    rewrite <-(anyPoint_agree (points_in M) sx sy) by (done || intros; by eapply in_map).
    destruct (anyPoint sx pair.2) as [p| |]; [|done..]. cbn [mbind outcome_bind] in *.
    apply bind_Ok in Hstep as ([mz sz] & Hinner & [= <- <- <-]).
    destruct (fold_outcome_sim (fun x y => x.1 = y.1 /\ agree (points_in M) x.2 y.2) (clone_for original) (clone_for original) pair.2
      (mx, sx) (mx, sy) (mz, sz)) as ([mz' sz'] & Hinner' & Hmz & Hsz); [|done..|].
    + intros pid [ma sa] [mb sb] [ma1 sa1] Hpid [Hmm Hab] Hc. cbn in Hmm, Hab. subst mb.
      destruct (clone_for_agree (points_in M) original ma sa sb pid ma1 sa1) as (sb1 & ? & ?); [done|by eapply in_map|done|].
      by exists (ma1, sb1).
    + cbn in Hmz, Hsz. subst mz'. rewrite Hinner'. by eexists.
  - done.
  - cbn in Hm, Hn, Ha'. subst. by exists s1'.
Qed.

(** ... and changes these only. *)
Lemma cloneFunctions_frame m s M m1 s1 names pid :
  cloneFunctions m s M = Ok (m1, s1, names) -> pid ∉ points_in M -> s1 !! pid = s !! pid.
Proof.
  intros Hrun Hpid.
  apply (fold_outcome_inv (fun x : Module * Store * list string => x.1.2 !! pid = s !! pid) clone_pair M _ _) in Hrun; [done| |done].
  intros [[mx sx] nx] pair [[my sy] ny] Hpair Hx Hstep. unfold clone_pair in Hstep.
  apply bind_Ok in Hstep as (original & _ & Hstep). apply bind_Ok in Hstep as (p & _ & Hstep).
  apply bind_Ok in Hstep as ([mz sz] & Hinner & [= <- <- <-]). cbn in Hx |- *.
  apply (fold_outcome_inv (fun x : Module * Store => x.2 !! pid = s !! pid) (clone_for original) pair.2 _ _) in Hinner; [done| |done].
  intros [ma sa] q [mb sb] Hq Ha Hc. unfold clone_for in Hc. apply bind_Ok in Hc as (x & _ & Hc). cbn in Hc. injection Hc as _ <-.
  cbn in Ha |- *. rewrite list_lookup_insert_ne; [done|]. intros ->. by apply Hpid, (in_map M pair).
Qed.

(** Of a point cloning changes nothing but the clone it remembers. *)
Lemma cloneFunctions_keeps {B} (g : MutationPoint -> B) m s M m1 s1 names pid :
  (forall p f, g (setMutatedFunction p f).1 = g p) ->
  cloneFunctions m s M = Ok (m1, s1, names) -> g <$> s1 !! pid = g <$> s !! pid.
Proof.
  intros Hg Hrun.
  apply (fold_outcome_inv (fun x : Module * Store * list string => g <$> x.1.2 !! pid = g <$> s !! pid)
    clone_pair M _ _) in Hrun; [done| |done].
  intros [[mx sx] nx] pair [[my sy] ny] Hpair Hx Hstep. unfold clone_pair in Hstep.
  apply bind_Ok in Hstep as (original & _ & Hstep). apply bind_Ok in Hstep as (p & _ & Hstep).
  apply bind_Ok in Hstep as ([mz sz] & Hinner & [= <- <- <-]). cbn in Hx |- *.
  apply (fold_outcome_inv (fun x : Module * Store => g <$> x.2 !! pid = g <$> s !! pid)
    (clone_for original) pair.2 _ _) in Hinner; [done| |done].
  intros [ma sa] q [mb sb] Hq Ha Hc. unfold clone_for, point_at in Hc. destruct (sa !! q) as [x|] eqn:Hxq; [|done].
  cbn in Hc. injection Hc as _ <-. cbn in Ha |- *. destruct (decide (q = pid)) as [->|Hne].
  - rewrite list_lookup_insert_eq by (by eapply lookup_lt_Some). rewrite <-Ha, Hxq. cbn. f_equal. exact (Hg x (CloneFunction ma original)).
  - by rewrite list_lookup_insert_ne.
Qed.

Lemma deleteFunctions_agree m s s' M : agree (points_in M) s s' -> deleteFunctions s m M = deleteFunctions s' m M.
Proof.
  intros Ha. apply fold_outcome_ext. intros x pair Hpair. unfold delete_pair.
  by rewrite (anyPoint_agree (points_in M) s s') by (done || intros; by eapply in_map).
Qed.

Lemma insertTrampolines_agree m s s' M : agree (points_in M) s s' -> insertTrampolines s m M = insertTrampolines s' m M.
Proof.
  intros Ha. apply fold_outcome_ext. intros x pair Hpair. unfold trampoline_pair.
  by rewrite (anyPoint_agree (points_in M) s s') by (done || intros; by eapply in_map).
Qed.
End Locality.

Lemma applyMutations_agree `{LibIrm, LLVMNames} m s s' points : agree points s s' -> applyMutations s m points = applyMutations s' m points.
Proof.
  intros Ha. apply fold_outcome_ext. intros x pid Hpid. unfold apply_point, point_at. by rewrite (Ha pid Hpid).
Qed.

(** ** Handing the points to their files *)
Section Dispatch.
Context `{LibIrm, LLVMNames}.

Definition belongs (store : Store) (b : Bitcode) (pid : PointId) : bool :=
  match store !! pid with Some p => Nat.eqb (bitcode_id (bc_ptr b)) (bitcode_id (bitcode p)) | None => false end.

Definition points_of (store : Store) (b : Bitcode) (points : list PointId) : list PointId := List.filter (belongs store b) points.

Abbreviation ids files := (map (fun b => bitcode_id (bc_ptr b)) files).

(** Every point is of a file. *)
Definition owned (store : Store) (files : list Bitcode) (points : list PointId) : Prop :=
  forall pid, pid ∈ points -> exists p, store !! pid = Some p /\ bitcode_id (bitcode p) ∈ ids files.

Lemma file_of_spec files ptr :
  bitcode_id ptr ∈ ids files -> exists i b, file_of files ptr = Some i /\ files !! i = Some b /\ bitcode_id (bc_ptr b) = bitcode_id ptr.
Proof.
  intros (b & Hid & Hb)%list_elem_of_fmap. unfold file_of.
  destruct (list_find _ files) as [[i x]|] eqn:E; cbn.
  - apply list_find_Some in E as (Hx & Hid' & _). by exists i, x.
  - exfalso. apply list_find_None in E. rewrite Forall_forall in E. by apply (E b Hb).
Qed.

Lemma same_file (files : list Bitcode) i j b b' :
  NoDup (ids files) -> files !! i = Some b -> files !! j = Some b' -> bitcode_id (bc_ptr b) = bitcode_id (bc_ptr b') -> i = j.
Proof.
  intros Hnd Hi Hj Heq. apply (NoDup_lookup _ i j (bitcode_id (bc_ptr b)) Hnd); rewrite list_lookup_fmap.
  - by rewrite Hi.
  - by rewrite Hj, Heq.
Qed.

Lemma points_of_ptr store b b' points : bitcode_id (bc_ptr b) = bitcode_id (bc_ptr b') -> points_of store b points = points_of store b' points.
Proof. intros Heq. unfold points_of, belongs. by rewrite Heq. Qed.

Lemma elem_of_points_of store b points pid : pid ∈ points_of store b points <-> pid ∈ points /\ belongs store b pid = true.
Proof. unfold points_of. by rewrite !list_elem_of_In, filter_In. Qed.

(** A loop over the points works on every file as a loop over its own. *)
Lemma dispatch f store points : forall files files',
  (forall b pid b', f b pid = Ok b' -> bc_ptr b' = bc_ptr b) ->
  NoDup (ids files) -> owned store files points ->
  Forall2 (fun b b' => fold_outcome f b (points_of store b points) = Ok b') files files' ->
  fold_outcome (at_file f store) files points = Ok files'.
Proof.
  induction points as [|pid points IH]; intros files files' Hptr Hnd Hown Hall.
  { cbn. f_equal. induction Hall as [|b b' files files' Hb _ IH]; [done|]. cbn in Hb. injection Hb as ->.
    f_equal. apply IH; [by apply NoDup_cons in Hnd as [_ Hnd]|]. intros pid Hp. by apply not_elem_of_nil in Hp. }
  destruct (Hown pid) as (p & Hp & Hid); [by left|]. destruct (file_of_spec _ _ Hid) as (i & b & Hf & Hb & Hbid).
  assert (Hat : at_file f store files pid = (b ← f b pid; mret (<[i := b]> files))).
  { unfold at_file, point_at. rewrite Hp. cbn [of_option mbind outcome_bind]. rewrite Hf. cbn [of_option mbind outcome_bind].
    by rewrite Hb. }
  cbn [fold_outcome]. rewrite Hat.
  destruct (Forall2_lookup_l _ _ _ _ _ Hall Hb) as (b' & Hb' & Hrun).
  assert (Hbel : belongs store b pid = true) by (unfold belongs; rewrite Hp; by apply Nat.eqb_eq).
  unfold points_of in Hrun. cbn [List.filter] in Hrun. rewrite Hbel in Hrun. cbn [fold_outcome] in Hrun.
  destruct (f b pid) as [b1| |] eqn:Hstep; [|done..]. cbn [mbind outcome_bind mret outcome_ret] in *.
  pose proof (Hptr _ _ _ Hstep) as Hb1.
  assert (Hids : ids (<[i := b1]> files) = ids files).
  { rewrite list_fmap_insert. apply list_insert_id. by rewrite list_lookup_fmap, Hb, Hb1. }
  apply IH; [done|by rewrite Hids|intros q Hq; rewrite Hids; apply Hown; by right|].
  apply Forall2_same_length_lookup_2; [rewrite length_insert; by eapply Forall2_length|].
  intros j x x' Hx Hx'. destruct (decide (i = j)) as [<-|Hne].
  - rewrite list_lookup_insert_eq in Hx by (by eapply lookup_lt_Some). injection Hx as <-.
    assert (x' = b') as -> by congruence. rewrite (points_of_ptr store b1 b) by by rewrite Hb1. exact Hrun.
  - rewrite list_lookup_insert_ne in Hx by done. pose proof (Forall2_lookup_lr _ _ _ _ _ _ Hall Hx Hx') as Hj.
    unfold points_of in Hj. cbn [List.filter] in Hj. replace (belongs store x pid) with false in Hj; [exact Hj|].
    symmetry. unfold belongs. rewrite Hp. apply Nat.eqb_neq. intros Heq. apply Hne.
    eapply same_file; [exact Hnd|done..|congruence].
Qed.

(** ** The phases on all the files *)

(** The points of the files still to come, which the store has as at first. *)
Lemma clone_files store files : forall results done S names,
  NoDup (ids files) ->
  Forall (fun b => forall pid, pid ∈ points_in (mutationPoints b) -> belongs store b pid = true) files ->
  Forall2 (fun b r => cloneFunctions (bc_module b) store (mutationPoints b) = Ok r) files results ->
  (forall b, b ∈ files -> agree (points_in (mutationPoints b)) store S) ->
  exists S', fold_outcome clone_file (done, S, names) files =
      Ok (done ++ zip_with (fun b r => set_module r.1.1 b) files results, S', names ++ concat (map snd results)) /\
    Forall2 (fun b r => agree (points_in (mutationPoints b)) r.1.2 S') files results /\
    forall pid, (forall b, b ∈ files -> pid ∉ points_in (mutationPoints b)) -> S' !! pid = S !! pid.
Proof.
  induction files as [|b files IH]; intros results dn S names Hnd Hbel Hres Hag.
  { inversion Hres; subst. exists S. cbn. rewrite !app_nil_r. by repeat split. }
  inversion Hres as [|? [[m1 s1] n1] ? results' Hb Hrest]; subst. apply NoDup_cons in Hnd as [Hfresh Hnd].
  apply Forall_cons in Hbel as [Hbb Hbel].
  destruct (cloneFunctions_agree _ _ S _ _ _ _ (Hag b ltac:(by left)) Hb) as (S1 & HS1 & Hag1).
  assert (Hdisj : forall x pid, x ∈ files -> pid ∈ points_in (mutationPoints x) -> pid ∉ points_in (mutationPoints b)).
  { intros x pid Hx Hp Hq. rewrite Forall_forall in Hbel. pose proof (Hbb _ Hq) as H1. pose proof (Hbel _ Hx _ Hp) as H2.
    unfold belongs in H1, H2. destruct (store !! pid); [|done]. bool_to_prop. apply Hfresh. rewrite H1, <-H2.
    by apply (list_elem_of_fmap_2 (fun b => bitcode_id (bc_ptr b))). }
  destruct (IH results' (dn ++ [set_module m1 b]) S1 (names ++ n1) Hnd Hbel Hrest) as (S' & Hrun & Hags & Hframe).
  { intros x Hx pid Hp. rewrite (cloneFunctions_frame _ _ _ _ _ _ pid HS1) by by apply (Hdisj x).
    apply (Hag x); [by right|done]. }
  exists S'. split; [|split].
  - assert (Hstep : clone_file (dn, S, names) b = Ok (dn ++ [set_module m1 b], S1, names ++ n1)) by (unfold clone_file; by rewrite HS1).
    cbn [fold_outcome]. rewrite Hstep. cbn [mbind outcome_bind mret outcome_ret]. rewrite Hrun.
    cbn [zip_with map concat snd fst]. by rewrite <-!app_assoc.
  - constructor; [|done]. intros pid Hp. cbn [fst snd]. rewrite (Hag1 pid Hp). symmetry. apply Hframe.
    intros x Hx Hq. by apply (Hdisj x pid).
  - intros pid Hno. rewrite Hframe by (intros x Hx; apply Hno; by right).
    apply (cloneFunctions_frame _ _ _ _ _ _ pid HS1). apply Hno. by left.
Qed.

Lemma clone_files_keep {B} (g : MutationPoint -> B) files st pid r :
  (forall p f, g (setMutatedFunction p f).1 = g p) ->
  fold_outcome clone_file st files = Ok r -> g <$> r.1.2 !! pid = g <$> st.1.2 !! pid.
Proof.
  intros Hg. apply (fold_outcome_inv (fun x => g <$> x.1.2 !! pid = g <$> st.1.2 !! pid)); [|done].
  intros [[fx sx] nx] b [[fy sy] ny] _ Hx Hstep. unfold clone_file in Hstep.
  apply bind_Ok in Hstep as ([[m s] n] & Hc & [= <- <- <-]). cbn in Hx |- *.
  by rewrite (cloneFunctions_keeps g _ _ _ _ _ _ pid Hg Hc).
Qed.

Lemma prepare_files_keep {B} (g : MutationPoint -> B) store files points files' store' names pid :
  (forall p f, g (setMutatedFunction p f).1 = g p) ->
  prepare_files store files points = Ok (files', store', names) -> g <$> store' !! pid = g <$> store !! pid.
Proof.
  intros Hg Hrun. unfold prepare_files in Hrun. apply bind_Ok in Hrun as (files1 & _ & Hrun).
  apply bind_Ok in Hrun as ([[files2 s] n] & Hclone & Hrun). apply bind_Ok in Hrun as (f3 & _ & Hrun).
  apply bind_Ok in Hrun as (f4 & _ & Hrun). apply bind_Ok in Hrun as (f5 & _ & [= <- <- <-]).
  exact (clone_files_keep g files1 _ pid _ Hg Hclone).
Qed.

Lemma each_file_run f files modules :
  Forall2 (fun b m => f b = Ok m) files modules -> each_file f files = Ok (zip_with set_module modules files).
Proof.
  intros Hall. unfold each_file.
  enough (Hgen : forall acc, fold_outcome (fun files b => module ← f b; mret (files ++ [set_module module b])) acc files =
    Ok (acc ++ zip_with set_module modules files)) by exact (Hgen []).
  induction Hall as [|b m files modules Hb _ IH]; intros acc; [by rewrite app_nil_r|].
  cbn [fold_outcome zip_with]. rewrite Hb. cbn [mbind outcome_bind mret outcome_ret]. by rewrite IH, <-app_assoc.
Qed.
End Dispatch.

Lemma Forall2_maps {A B C} (P : B -> C -> Prop) (f : A -> B) (g : A -> C) l :
  Forall (fun x => P (f x) (g x)) l -> Forall2 P (map f l) (map g l).
Proof. induction 1; by constructor. Qed.

Lemma zip_with_maps {A B C D} (h : B -> C -> D) (f : A -> B) (g : A -> C) l :
  zip_with h (map f l) (map g l) = map (fun x => h (f x) (g x)) l.
Proof. induction l as [|x l IH]; [done|]. cbn. by rewrite IH. Qed.

(** ** A file on its way through the phases *)
Section Stages.
Context `{LibIrm, LLVMNames} (store : Store) (points : list PointId).

Record Passage := mkPassage {
  ps_file : Bitcode;
  ps_added : Bitcode;
  ps_cloned : Module;
  ps_deleted : Module;
  ps_redirected : Module;
  ps_module : Module;
  ps_store : Store;
  ps_names : list string
}.

Abbreviation own z := (points_of store (ps_file z) points).
Abbreviation its_map z := (mutationPoints (ps_added z)).
Definition ps_result (z : Passage) : Module * Store * list string := (ps_module z, ps_store z, ps_names z).

Record passes (z : Passage) : Prop := {
  pa_added : fold_outcome (addMutation store) (ps_file z) (own z) = Ok (ps_added z);
  pa_ptr : bc_ptr (ps_added z) = bc_ptr (ps_file z);
  pa_points pid : pid ∈ points_in (its_map z) <-> pid ∈ own z;
  pa_cloned : cloneFunctions (bc_module (ps_added z)) store (its_map z) = Ok (ps_cloned z, ps_store z, ps_names z);
  pa_deleted : deleteFunctions (ps_store z) (ps_cloned z) (its_map z) = Ok (ps_deleted z);
  pa_redirected : insertTrampolines (ps_store z) (ps_deleted z) (its_map z) = Ok (ps_redirected z);
  pa_applied : applyMutations (ps_store z) (ps_redirected z) (own z) = Ok (ps_module z)
}.

Lemma prepare_passes b r :
  mutationPoints b = [] -> prepare_mutants store b (points_of store b points) = Ok r ->
  exists z, passes z /\ ps_file z = b /\ ps_result z = r.
Proof.
  intros Hb Hrun. unfold prepare_mutants in Hrun. apply bind_Ok in Hrun as (b1 & Hadd & Hrun).
  apply bind_Ok in Hrun as ([[m1 s1] n1] & Hclone & Hrun). apply bind_Ok in Hrun as (m2 & Hdel & Hrun).
  apply bind_Ok in Hrun as (m3 & Hins & Hrun). apply bind_Ok in Hrun as (m & Happ & [= <-]).
  exists (mkPassage b b1 m1 m2 m3 m s1 n1). split; [|done].
  destruct (addMutation_groups store (points_of store b points) b Hb) as (b' & Hadd' & Hptr & _ & HM).
  { intros pid (_ & Hbel)%elem_of_points_of. unfold belongs in Hbel. destruct (store !! pid) as [p|]; [by exists p|done]. }
  assert (b' = b1) as -> by congruence.
  split; cbn [ps_file ps_added ps_cloned ps_deleted ps_redirected ps_module ps_store ps_names]; try done.
  intros pid. by rewrite (grouped_all _ _ _ HM).
Qed.

Lemma all_pass files results :
  Forall (fun b => mutationPoints b = []) files ->
  Forall2 (fun b r => prepare_mutants store b (points_of store b points) = Ok r) files results ->
  exists zs, Forall passes zs /\ map ps_file zs = files /\ map ps_result zs = results.
Proof.
  intros Hnone Hall. induction Hall as [|b r files results Hr _ IH]; [by exists []|].
  apply Forall_cons in Hnone as [Hb Hnone]. destruct (IH Hnone) as (zs & Hzs & <- & <-).
  destruct (prepare_passes b r Hb Hr) as (z & Hz & <- & <-). exists (z :: zs). split; [by constructor|done].
Qed.

(** Where the files are after each phase. *)
Definition after (module : Passage -> Module) (z : Passage) : Bitcode := set_module (module z) (ps_added z).

Lemma each_file_after (f : Bitcode -> outcome Module) (from to : Passage -> Module) zs :
  Forall (fun z => f (after from z) = Ok (to z)) zs ->
  each_file f (map (after from) zs) = Ok (map (after to) zs).
Proof.
  intros Hall. rewrite (each_file_run f (map (after from) zs) (map to zs)) by by apply Forall2_maps. by rewrite zip_with_maps.
Qed.

Lemma addMutation_ptr b pid b' : addMutation store b pid = Ok b' -> bc_ptr b' = bc_ptr b.
Proof. unfold addMutation. intros Hb. by apply bind_Ok in Hb as (p & _ & [= <-]). Qed.

(** Only the file a point is of matters to who owns it. *)
Lemma points_of_agree S b b' :
  (forall pid, bitcode <$> S !! pid = bitcode <$> store !! pid) -> bc_ptr b = bc_ptr b' ->
  points_of S b points = points_of store b' points.
Proof.
  intros Hbit Hptr. unfold points_of. apply filter_ext. intros pid. unfold belongs. rewrite Hptr.
  specialize (Hbit pid). by destruct (S !! pid), (store !! pid); simplify_eq/=; rewrite ?Hbit.
Qed.

(** What the stores left by the files have in common with one store. *)
Section Common.
Context (S : Store) (z : Passage) (Hz : passes z) (Hag : agree (points_in (its_map z)) (ps_store z) S).

Lemma delete_after : delete_file S (after ps_cloned z) = Ok (ps_deleted z).
Proof. rewrite <-(pa_deleted _ Hz). symmetry. by apply deleteFunctions_agree. Qed.

Lemma trampoline_after : trampoline_file S (after ps_deleted z) = Ok (ps_redirected z).
Proof. rewrite <-(pa_redirected _ Hz). symmetry. by apply insertTrampolines_agree. Qed.

Lemma own_agree : agree (own z) (ps_store z) S.
Proof. apply (agree_sub (points_in (its_map z))); [intros pid; apply (pa_points _ Hz)|done]. Qed.
End Common.

(** Applying to the module of a file is applying to the file. *)
Lemma apply_fold S b l m :
  applyMutations S (bc_module b) l = Ok m -> fold_outcome (apply_file S) b l = Ok (set_module m b).
Proof.
  revert b. induction l as [|pid l IH]; intros b Hrun; [injection Hrun as <-; by destruct b|].
  unfold applyMutations in Hrun. apply bind_Ok in Hrun as (m1 & Hm1 & Hrun). 
  assert (Hstep : apply_file S b pid = Ok (set_module m1 b)) by (unfold apply_file; by rewrite Hm1).
  cbn [fold_outcome]. rewrite Hstep. cbn [mbind outcome_bind]. by rewrite (IH (set_module m1 b) Hrun).
Qed.
End Stages.

(** The files of the passes keep their pointers. *)
Lemma after_ptr `{LibIrm, LLVMNames} store points zs :
  (forall z, z ∈ zs -> passes store points z) ->
  forall module, map bc_ptr (map (after module) zs) = map bc_ptr (map ps_file zs).
Proof. intros Hzs module. rewrite !map_map. apply map_ext_in. intros z Hz%list_elem_of_In. apply (pa_ptr _ _ _ (Hzs z Hz)). Qed.

(** The last phase, on the files as the third one leaves them. *)
Lemma apply_files `{LibIrm, LLVMNames} store points S zs :
  (forall z, z ∈ zs -> passes store points z) ->
  (forall z, z ∈ zs -> agree (points_in (mutationPoints (ps_added z))) (ps_store z) S) ->
  (forall pid, bitcode <$> S !! pid = bitcode <$> store !! pid) ->
  NoDup (map (fun b => bitcode_id (bc_ptr b)) (map ps_file zs)) -> owned store (map ps_file zs) points ->
  fold_outcome (at_file (apply_file S) S) (map (after ps_redirected) zs) points = Ok (map (after ps_module) zs).
Proof.
  intros Hzs Hag Hbit Hnd Hown. pose proof (after_ptr store points zs Hzs ps_redirected) as Hptr. apply dispatch.
  - intros b pid b' Hb. unfold apply_file in Hb. by apply bind_Ok in Hb as (m & _ & [= <-]).
  - rewrite <-map_map with (g := bitcode_id), Hptr, map_map. exact Hnd.
  - intros pid Hpid. destruct (Hown pid Hpid) as (p & Hp & Hin). specialize (Hbit pid). rewrite Hp in Hbit.
    destruct (S !! pid) as [p'|]; [|done]. injection Hbit as Hbit. exists p'. split; [done|].
    rewrite Hbit, <-map_map with (g := bitcode_id), Hptr, map_map. exact Hin.
  - apply Forall2_maps, Forall_forall. intros z Hz.
    rewrite (points_of_agree store points S _ (ps_file z) Hbit) by apply (pa_ptr _ _ _ (Hzs z Hz)).
    apply (apply_fold S (after ps_redirected z)). cbn [after set_module bc_module].
    rewrite <-(applyMutations_agree _ (ps_store z) S _ (own_agree store points S z (Hzs z Hz) (Hag z Hz))).
    apply (pa_applied _ _ _ (Hzs z Hz)).
Qed.

(** ** Claims *)

(** C6: preparing all the files of a program together is preparing each with the
    points that belong to it: whatever the order of the points and of the files,
    every file ends as it would by itself, its points too, the names of the
    trampolines come file by file, and other points are left alone. *)
Theorem prepare_files_separately `{LibIrm, LLVMNames} store files points results :
  NoDup (map (fun b => bitcode_id (bc_ptr b)) files) -> Forall (fun b => mutationPoints b = []) files ->
  owned store files points ->
  Forall2 (fun b r => prepare_mutants store b (points_of store b points) = Ok r) files results ->
  exists files' store', prepare_files store files points = Ok (files', store', concat (map snd results)) /\
    map bc_ptr files' = map bc_ptr files /\ map bc_module files' = map (fun r => r.1.1) results /\
    Forall2 (fun b r => agree (points_of store b points) r.1.2 store') files results /\
    forall pid, pid ∉ points -> store' !! pid = store !! pid.
Proof.
  intros Hnd Hnone Hown Hres. destruct (all_pass store points files results Hnone Hres) as (zs & Hzs & <- & <-).
  rewrite Forall_forall in Hzs.
  assert (Hadded : fold_outcome (at_file (addMutation store) store) (map ps_file zs) points = Ok (map ps_added zs)).
  { apply dispatch; [apply addMutation_ptr|done|done|]. apply Forall2_maps, Forall_forall. intros z Hz. by apply pa_added, Hzs. }
  assert (Hids : map (fun b => bitcode_id (bc_ptr b)) (map ps_added zs) = map (fun b => bitcode_id (bc_ptr b)) (map ps_file zs)).
  { rewrite !map_map. apply map_ext_in. intros z Hz%list_elem_of_In. by rewrite (pa_ptr _ _ _ (Hzs z Hz)). }
  assert (Hbel : forall z pid, z ∈ zs -> pid ∈ points_in (mutationPoints (ps_added z)) -> pid ∈ points /\ belongs store (ps_added z) pid = true).
  { intros z pid Hz [Hp Hb]%(pa_points _ _ _ (Hzs z Hz))%elem_of_points_of. split; [done|]. unfold belongs in *.
    by rewrite (pa_ptr _ _ _ (Hzs z Hz)). }
  destruct (clone_files store (map ps_added zs) (map (fun z => (ps_cloned z, ps_store z, ps_names z)) zs) [] store [])
    as (S & Hclone & Hag & Hframe).
  { by rewrite Hids. }
  { apply Forall_forall. intros b (z & -> & Hz)%list_elem_of_fmap pid Hp. by apply (Hbel z pid Hz). }
  { apply Forall2_maps, Forall_forall. intros z Hz. by apply (pa_cloned _ _ _ (Hzs z Hz)). }
  { done. }
  pose proof (fun pid => clone_files_keep bitcode _ _ pid _ (fun _ _ => eq_refl) Hclone) as Hbit. cbn [fst snd] in Hbit.
  rewrite zip_with_maps in Hclone. cbn [app fst] in Hclone.
  change (map _ zs) with (map (after ps_cloned) zs) in Hclone at 2.
  assert (Hag' : forall z, z ∈ zs -> agree (points_in (mutationPoints (ps_added z))) (ps_store z) S).
  { intros z Hz. apply list_elem_of_lookup in Hz as [i Hi]. apply (Forall2_lookup_lr _ _ _ i (ps_added z) (ps_cloned z, ps_store z, ps_names z) Hag); by rewrite list_lookup_fmap, Hi. }
  pose proof (after_ptr store points zs Hzs) as Hptr.
  exists (map (after ps_module) zs), S. split; [|split; [apply Hptr|split; [by rewrite !map_map|split]]].
  - unfold prepare_files. rewrite Hadded. cbn [mbind outcome_bind]. rewrite Hclone. cbn [mbind outcome_bind].
    rewrite (each_file_after (delete_file S) ps_cloned ps_deleted).
    2: { apply Forall_forall. intros z Hz. apply (delete_after store points S z (Hzs z Hz) (Hag' z Hz)). }
    cbn [mbind outcome_bind]. rewrite (each_file_after (trampoline_file S) ps_deleted ps_redirected).
    2: { apply Forall_forall. intros z Hz. apply (trampoline_after store points S z (Hzs z Hz) (Hag' z Hz)). }
    cbn [mbind outcome_bind]. rewrite (apply_files store points S zs Hzs Hag' Hbit Hnd Hown).
    cbn [mbind outcome_bind mret outcome_ret]. by rewrite !map_map.
  - apply Forall2_maps, Forall_forall. intros z Hz. apply (own_agree store points S z (Hzs z Hz) (Hag' z Hz)).
  - intros pid Hno. apply Hframe. intros b (z & -> & Hz)%list_elem_of_fmap Hp. by apply Hno, (Hbel z pid Hz).
Qed.

(** Two files with the same module and the points of [sample_store] each. *)
Definition moved_to (ptr : BitcodePtr) (p : MutationPoint) : MutationPoint :=
  {| mutator := mutator p; irMutator := irMutator p; address := address p; bitcode := ptr;
     originalFunction := originalFunction p; originalFunction_name := originalFunction_name p;
     mutatedFunction := mutatedFunction p; uniqueIdentifier := uniqueIdentifier p;
     point_diagnostics := point_diagnostics p; point_replacement := point_replacement p;
     sourceLocation := sourceLocation p; reachableTests := reachableTests p |}.

Definition second_file : Bitcode := mkBitcode (mkBitcodePtr 1 "sum_c4ca4") sample_module [].
Definition two_files : list Bitcode := [sample_bitcode_file; second_file].
Definition two_store : Store := sample_store ++ map (moved_to (bc_ptr second_file)) sample_store.

Definition sample_results : list (Module * Store * list string) :=
  map (fun b => match prepare_mutants two_store b (points_of two_store b [3; 0; 2; 1]) with Ok r => r | _ => (bc_module b, [], []) end) two_files.

Lemma prepare_files_separately_witness :
  exists files' store', prepare_files two_store two_files [3; 0; 2; 1] =
      Ok (files', store', ["sum_sum_d41d8_trampoline"; "sum_sum_c4ca4_trampoline"]) /\
    map bc_ptr files' = map bc_ptr two_files /\ map bc_module files' = map (fun r => r.1.1) sample_results /\
    Forall2 (fun b r => agree (points_of two_store b [3; 0; 2; 1]) r.1.2 store') two_files sample_results /\
    forall pid, pid ∉ [3; 0; 2; 1] -> store' !! pid = two_store !! pid.
Proof.
  refine (prepare_files_separately two_store two_files [3; 0; 2; 1] sample_results _ _ _ _).
  - apply (bool_decide_unpack _). vm_compute. exact I.
  - repeat constructor.
  - intros pid Hpid. repeat (apply elem_of_cons in Hpid as [->|Hpid]); [..|by apply not_elem_of_nil in Hpid];
      (eexists; split; [reflexivity|]; apply (bool_decide_unpack _); exact I).
  - repeat constructor; vm_compute; reflexivity.
Defined.
