(* ===== verification/MutantExecution.v ===== *)
(** * Running the mutants

    Trampolines (lib/Toolchain/Trampolines.cpp) are memory cells holding the
    address a mutated function's indirect call jumps to.  MutantExecutionTask
    (lib/Parallelization/Tasks/MutantExecutionTask.cpp) aims one trampoline at
    a mutant, runs the tests that reach it in the sandbox, and aims it back.
    Every task has a JIT engine and trampolines of its own, so the tasks share
    nothing but the points, which they only read.

    The sandbox runs a test in a forked process, which gets a copy of the
    memory: [sandbox n memory test timeout capture] is the result of the [n]-th
    run of the task. *)

From stdpp Require Import base list strings gmap.
From Stdlib Require Import ZArith Lia Bool.
From S2P Require Import Prelude StdContainers StringFacts MutatorKind IR SourceLocation Irm Mutator Samples.
From S2P Require Import MutationPoint Reachable Bitcode.

(** ** include/mull/ExecutionResult.h *)
Inductive ExecutionStatus :=
  | Invalid | Failed | Passed | Timedout | Crashed | AbnormalExit | DryRun | FailFast.

#[global] Instance ExecutionStatus_eq_dec : EqDecision ExecutionStatus.
Proof. solve_decision. Defined.

Definition executionStatusAsString (status : ExecutionStatus) : string :=
  match status with
  | Invalid => "Invalid"
  | Failed => "Failed"
  | Passed => "Passed"
  | Timedout => "Timedout"
  | Crashed => "Crashed"
  | AbnormalExit => "AbnormalExit"
  | DryRun => "DryRun"
  | FailFast => "FailFast"
  end.

Record ExecutionResult := mkExecutionResult {
  status : ExecutionStatus;
  exitStatus : Z;
  runningTime : Z;
  stdoutOutput : string;
  stderrOutput : string
}.

Definition newExecutionResult : ExecutionResult := mkExecutionResult Invalid 0 0 "" "".

Definition with_status (s : ExecutionStatus) (r : ExecutionResult) : ExecutionResult :=
  mkExecutionResult s (exitStatus r) (runningTime r) (stdoutOutput r) (stderrOutput r).

(** ** include/mull/TestFrameworks/Test.h; the instrumentation record of a
    test is in Instrumentation.v *)
Record Test := mkTest {
  testName : string;
  programName : string;
  driverFunctionName : string;
  arguments : list string;
  testBody : option FnId;
  executionResult : ExecutionResult
}.

Definition newTest (test program driverFunctionName : string) (args : list string) (testBody : option FnId) : Test :=
  mkTest test program driverFunctionName args testBody newExecutionResult.

Definition setExecutionResult (t : Test) (result : ExecutionResult) : Test :=
  mkTest (testName t) (programName t) (driverFunctionName t) (arguments t) (testBody t) result.

(** ** include/mull/MutationResult.h *)
Record MutationResult := mkMutationResult {
  mr_result : ExecutionResult;
  mr_point : PointId;
  mr_distance : Z;
  mr_test : TestId
}.

(** ** Trampolines *)

(** Memory cells of 64 bits, indeterminate until first written. *)
Abbreviation Memory := (list (option Z)).
Abbreviation Pointer := nat.

(** LLVM's name mangling for the target: a prefix or nothing. *)
Class Mangler := {
  getNameWithPrefix : string -> string;
  mangling_prefix : string;
  mangling_is_prefix name : getNameWithPrefix name = mangling_prefix +:+ name
}.

(** [JITEngine::getSymbol]: address 0 for an unknown symbol. *)
Record JITEngine := mkJIT { symbolTable : gmap string Z }.
Definition getSymbol (jit : JITEngine) (name : string) : Z := default 0%Z (symbolTable jit !! name).

Section Trampolines.
Context `{Mangler}.

Record Trampolines := mkTrampolines {
  trampolineNames : list string;
  _trampolines : list (string * Pointer)
}.

Definition newTrampolines (names : list string) : Trampolines := mkTrampolines names [].

(** [new uint64_t] happens before [insert] finds the name taken. *)
Definition allocate_one (st : Trampolines * Memory) (name : string) : Trampolines * Memory :=
  let '(t, memory) := st in
  (mkTrampolines (trampolineNames t) (omap_insert (getNameWithPrefix name) (length memory) (_trampolines t)),
   memory ++ [None]).

Definition allocateTrampolines (t : Trampolines) (memory : Memory) : Trampolines * Memory :=
  foldl allocate_one (t, memory) (trampolineNames t).

Definition findTrampoline (t : Trampolines) (name : string) : option Pointer :=
  omap_find name (_trampolines t).

(** [name.substr(0, name.length() - 11)]: the subtraction is modular. *)
Definition original_symbol (name : string) : string :=
  (if Nat.ltb (String.length name) (String.length "_trampoline") then name
   else String.substring 0 (String.length name - String.length "_trampoline") name) +:+ "_original".

Definition fixup_one (jit : JITEngine) (t : Trampolines) (memory : Memory) (pair : string * Pointer)
    : outcome Memory :=
  let name := pair.1 in
  let originalName := original_symbol name in
  trampoline ← of_option "it != _trampolines.end()" (findTrampoline t name);
  let address := getSymbol jit originalName in
  _ ← require (negb (Z.eqb address 0)) "address";
  mret (<[trampoline := Some address]> memory).

Definition fixupOriginalFunctions (t : Trampolines) (jit : JITEngine) (memory : Memory) : outcome Memory :=
  fold_outcome (fixup_one jit t) memory (_trampolines t).
End Trampolines.

(** ** MutantExecutionTask *)
Section MutantExecutionTask.
Context `{Mangler} (store : Store) (tests : list Test).
Context (sandbox : nat -> Memory -> TestId -> Z -> bool -> ExecutionResult).
Context (failFastEnabled captureMutantOutput : bool).
Context (jit : JITEngine) (trampolines : Trampolines).

Definition test_at (t : TestId) : outcome Test := of_option "dangling test" (tests !! t).

(** The loop over the tests of one point: the results, whether a test failed
    already, the number of runs so far. *)
Definition run_reachable_test (memory : Memory) (point : PointId)
    (st : list MutationResult * bool * nat) (reachableTest : TestId * Z) : outcome (list MutationResult * bool * nat) :=
  let '(results, atLeastOneTestFailed, runs) := st in
  let '(test, distance) := reachableTest in
  if failFastEnabled && atLeastOneTestFailed then
    mret (results ++ [mkMutationResult (with_status FailFast newExecutionResult) point distance test],
          atLeastOneTestFailed, runs)
  else
    t ← test_at test;
    timeout ← long_op (runningTime (executionResult t) * 10);
    let sandboxTimeout := Z.max 30 timeout in
    let result := sandbox runs memory test sandboxTimeout captureMutantOutput in
    _ ← require (negb (bool_decide (status result = Invalid))) "Expect to see valid TestResult";
    mret (results ++ [mkMutationResult result point distance test],
          atLeastOneTestFailed || negb (bool_decide (status result = Passed)), S runs).

Definition run_mutant (st : Memory * list MutationResult * nat) (point : PointId)
    : outcome (Memory * list MutationResult * nat) :=
  let '(memory, storage, runs) := st in
  mutationPoint ← point_at store point;
  let trampolineName := getNameWithPrefix (getTrampolineName mutationPoint) in
  let mutatedFunctionName := getNameWithPrefix (getMutatedFunctionName mutationPoint) in
  trampoline ← of_option "null trampoline" (findTrampoline trampolines trampolineName);
  let address := getSymbol jit mutatedFunctionName in
  originalAddress ← of_option "indeterminate value" (mjoin (memory !! trampoline));
  let memory := <[trampoline := Some address]> memory in
  r ← fold_outcome (run_reachable_test memory point) ([], false, runs) (reachableTests mutationPoint);
  let '(results, _, runs) := r in
  mret (<[trampoline := Some originalAddress]> memory, storage ++ results, runs).

Definition run_mutants (memory : Memory) (points : list PointId) : outcome (Memory * list MutationResult * nat) :=
  fold_outcome run_mutant (memory, [], 0) points.
End MutantExecutionTask.

(** The whole task: its trampolines are allocated and aimed at the originals
    when it starts. *)
Definition MutantExecutionTask `{Mangler} (store : Store) (tests : list Test)
    (sandbox : nat -> Memory -> TestId -> Z -> bool -> ExecutionResult)
    (failFastEnabled captureMutantOutput : bool) (jit : JITEngine) (mutatedFunctionNames : list string)
    (points : list PointId) : outcome (list MutationResult) :=
  let '(trampolines, memory) := allocateTrampolines (newTrampolines mutatedFunctionNames) [] in
  memory ← fixupOriginalFunctions trampolines jit memory;
  r ← run_mutants store tests sandbox failFastEnabled captureMutantOutput jit trampolines memory points;
  let '(_, results, _) := r in
  mret results.

(** DryRunMutantExecutionTask: every run is assumed, none is made. *)
Definition dry_run_test (tests : list Test) (point : PointId) (reachableTest : TestId * Z) : outcome MutationResult :=
  let '(test, distance) := reachableTest in
  t ← test_at tests test;
  timeout ← long_op (runningTime (executionResult t) * 10);
  mret (mkMutationResult (mkExecutionResult DryRun 0 timeout "" "") point distance test).

Definition dry_run_mutant (store : Store) (tests : list Test) (point : PointId) : outcome (list MutationResult) :=
  mutationPoint ← point_at store point;
  fold_outcome (fun storage t => r ← dry_run_test tests point t; mret (storage ++ [r]))
    [] (reachableTests mutationPoint).

(** ** Aiming the trampolines *)
Section Aiming.
Context `{Mangler}.

Lemma original_symbol_suffix x :
  original_symbol (getNameWithPrefix (x +:+ "_trampoline")) = getNameWithPrefix (x +:+ "_original").
Proof.
  rewrite !mangling_is_prefix, <-!string_app_assoc. generalize (mangling_prefix +:+ x) as y. intros y.
  unfold original_symbol. rewrite string_length_app.
  destruct (Nat.ltb_spec (String.length y + String.length "_trampoline") (String.length "_trampoline")); [lia|].
  replace (String.length y + String.length "_trampoline" - String.length "_trampoline") with (String.length y) by lia.
  by rewrite substring_app_l.
Qed.

(** The cells of the trampolines are distinct. *)
Record allocated (names : list string) (t : Trampolines) (memory : Memory) : Prop := {
  al_wf : omap_wf (_trampolines t);
  al_find name : name ∈ names -> is_Some (findTrampoline t (getNameWithPrefix name));
  al_only mangled c : findTrampoline t mangled = Some c ->
    c < length memory /\ exists name, name ∈ names /\ mangled = getNameWithPrefix name;
  al_inj n1 n2 c : findTrampoline t n1 = Some c -> findTrampoline t n2 = Some c -> n1 = n2
}.

Lemma allocate_one_spec names t memory name :
  allocated names t memory ->
  allocated (names ++ [name]) (allocate_one (t, memory) name).1 (allocate_one (t, memory) name).2.
Proof.
  intros [Hwf Hfind Honly Hinj]. unfold findTrampoline in *. split; cbn [allocate_one fst snd _trampolines].
  - by apply omap_wf_insert.
  - intros n Hn. unfold findTrampoline; cbn [_trampolines]. rewrite omap_find_insert.
    apply elem_of_app in Hn as [Hn|Hn].
    + destruct (Hfind n Hn) as [c ->]. by eexists.
    + apply list_elem_of_singleton in Hn as ->. rewrite String.eqb_refl. by destruct (omap_find _ _); eexists.
  - intros k c. unfold findTrampoline; cbn [_trampolines]. rewrite omap_find_insert, length_app. cbn.
    destruct (omap_find k (_trampolines t)) as [d|] eqn:E.
    + intros [= ->]. destruct (Honly k c E) as (? & n & Hn & ->). split; [lia|]. exists n. split; [|done].
      apply elem_of_app. by left.
    + destruct (String.eqb_spec (getNameWithPrefix name) k) as [<-|]; [|done]. intros [= <-]. split; [lia|].
      exists name. split; [|done]. apply elem_of_app. right. by left.
  - intros n1 n2 c. unfold findTrampoline; cbn [_trampolines]. rewrite !omap_find_insert.
    destruct (omap_find n1 (_trampolines t)) as [d1|] eqn:E1, (omap_find n2 (_trampolines t)) as [d2|] eqn:E2.
    + intros [= ->] [= ->]. by eapply Hinj.
    + intros [= ->]. case_match; [|done]. intros [= <-]. destruct (Honly _ _ E1); lia.
    + case_match; [|done]. intros [= <-] [= ->]. destruct (Honly _ _ E2); lia.
    + do 2 (case_match; [|done]). bool_to_prop. congruence.
Qed.

Lemma allocateTrampolines_spec names :
  exists t memory, allocateTrampolines (newTrampolines names) [] = (t, memory) /\ allocated names t memory.
Proof.
  unfold allocateTrampolines. cbn [trampolineNames newTrampolines].
  enough (Hgen : forall rest dn t memory, allocated dn t memory ->
    exists t' memory', foldl allocate_one (t, memory) rest = (t', memory') /\ allocated (dn ++ rest) t' memory').
  { apply (Hgen names [] (newTrampolines names) []). split; [apply omap_wf_nil|by intros ? ?%not_elem_of_nil|done|done]. }
  induction rest as [|name rest IH]; intros dn t memory Hal.
  - exists t, memory. by rewrite app_nil_r.
  - pose proof (allocate_one_spec dn t memory name Hal) as Hal'. cbn [foldl].
    destruct (allocate_one (t, memory) name) as [t1 m1]. destruct (IH _ _ _ Hal') as (t' & m' & ? & Hal2).
    exists t', m'. by rewrite <-app_assoc in Hal2.
Qed.

(** Every trampoline holds the address of its function's original body. *)
Definition aimed (jit : JITEngine) (t : Trampolines) (memory : Memory) : Prop :=
  forall name c, findTrampoline t name = Some c -> memory !! c = Some (Some (getSymbol jit (original_symbol name))).

Lemma fixupOriginalFunctions_spec names jit t memory :
  allocated names t memory ->
  (forall name, name ∈ names -> getSymbol jit (original_symbol (getNameWithPrefix name)) <> 0%Z) ->
  exists memory', fixupOriginalFunctions t jit memory = Ok memory' /\ aimed jit t memory'.
Proof.
  intros [Hwf Hfind Honly Hinj] Hsym.
  destruct (fold_outcome_progress (fun dn m => length m = length memory /\
    forall name c, (name, c) ∈ dn -> m !! c = Some (Some (getSymbol jit (original_symbol name))))
    (fixup_one jit t) (_trampolines t) memory) as (m & Hrun & _ & Hm).
  - split; [done|]. intros ? ? Hn. by apply not_elem_of_nil in Hn.
  - intros dn [name c] rest m Hsplit [Hlen Hdone].
    assert (Hf : findTrampoline t name = Some c).
    { unfold findTrampoline. apply omap_elem_find; [done|]. rewrite Hsplit. apply elem_of_app. right. by left. }
    destruct (Honly _ _ Hf) as (Hc & n & Hn & ->). unfold fixup_one. cbn [fst snd]. rewrite Hf.
    rewrite (proj2 (Z.eqb_neq _ _) (Hsym n Hn)). eexists. split; [reflexivity|].
    split; [by rewrite length_insert|]. intros k d [Hk|Hk]%elem_of_app.
    + assert (Hkf : findTrampoline t k = Some d).
      { unfold findTrampoline. apply omap_elem_find; [done|]. rewrite Hsplit. apply elem_of_app. by left. }
      destruct (decide (c = d)) as [<-|Hne].
      * rewrite (Hinj _ _ _ Hkf Hf). rewrite list_lookup_insert_eq; [done|lia].
      * rewrite list_lookup_insert_ne by done. by apply Hdone.
    + apply list_elem_of_singleton in Hk as [= -> ->]. rewrite list_lookup_insert_eq; [done|lia].
  - exists m. split; [done|]. intros name c Hf. apply Hm. by apply omap_find_elem.
Qed.

Lemma trampolines_aimed names jit :
  (forall name, name ∈ names -> getSymbol jit (original_symbol (getNameWithPrefix name)) <> 0%Z) ->
  exists t memory memory', allocateTrampolines (newTrampolines names) [] = (t, memory) /\
    fixupOriginalFunctions t jit memory = Ok memory' /\ aimed jit t memory' /\
    (forall name, name ∈ names -> is_Some (findTrampoline t (getNameWithPrefix name))).
Proof.
  intros Hsym. destruct (allocateTrampolines_spec names) as (t & memory & Hal & Hspec).
  destruct (fixupOriginalFunctions_spec names jit t memory Hspec Hsym) as (memory' & Hfix & Haim).
  exists t, memory, memory'. split; [done|]. split; [done|]. split; [done|]. apply (al_find _ _ _ Hspec).
Qed.
End Aiming.

(** ** One mutant at a time *)
Section Isolation.
Context `{Mangler} (store : Store) (tests : list Test).
Context (sandbox : nat -> Memory -> TestId -> Z -> bool -> ExecutionResult).
Context (failFastEnabled capture : bool) (jit : JITEngine).
Context (Hvalid : forall n memory t timeout, status (sandbox n memory t timeout capture) <> Invalid).

(** What the task needs of a point. *)
Definition runnable (points : list PointId) (names : list string) : Prop :=
  forall pid, pid ∈ points -> exists p, store !! pid = Some p /\ getTrampolineName p ∈ names /\
    forall t d, (t, d) ∈ reachableTests p -> exists test, tests !! t = Some test /\
      (0 <= runningTime (executionResult test) <= 922337203685477580)%Z.

Definition timeout_of (t : TestId) : Z :=
  match tests !! t with Some test => Z.max 30 (runningTime (executionResult test) * 10) | None => 30 end.

(** The [k]-th run of a point whose first run is run [n] of the task. *)
Definition run_result (memory : Memory) (pid : PointId) (n k : nat) (t : TestId * Z) : MutationResult :=
  mkMutationResult (sandbox (n + k) memory t.1 (timeout_of t.1) capture) pid t.2 t.1.

Definition fail_fast_result (pid : PointId) (t : TestId * Z) : MutationResult :=
  mkMutationResult (with_status FailFast newExecutionResult) pid t.2 t.1.

(** The results of one point: the tests that ran, and those skipped because
    the last one that ran failed. *)
Definition point_results (memory : Memory) (pid : PointId) (n : nat) (l : list (TestId * Z))
    (results : list MutationResult) : Prop :=
  exists ran skipped, l = ran ++ skipped /\
    results = imap (run_result memory pid n) ran ++ map (fail_fast_result pid) skipped /\
    (failFastEnabled = true -> forall k t, ran !! k = Some t -> S k < length ran ->
       status (mr_result (run_result memory pid n k t)) = Passed) /\
    (skipped <> [] -> failFastEnabled = true /\ exists before t, ran = before ++ [t] /\
       status (mr_result (run_result memory pid n (length before) t)) <> Passed).

Lemma long_op_timeout test :
  (0 <= runningTime (executionResult test) <= 922337203685477580)%Z ->
  long_op (runningTime (executionResult test) * 10) = Ok (runningTime (executionResult test) * 10)%Z.
Proof.
  intros Ht. apply long_op_Ok. unfold long_min, long_max. lia.
Qed.

Lemma run_reachable_test_runs memory pid acc failed runs t d test :
  failFastEnabled && failed = false -> tests !! t = Some test ->
  (0 <= runningTime (executionResult test) <= 922337203685477580)%Z ->
  run_reachable_test tests sandbox failFastEnabled capture memory pid (acc, failed, runs) (t, d) =
  Ok (acc ++ [run_result memory pid runs 0 (t, d)],
      failed || negb (bool_decide (status (mr_result (run_result memory pid runs 0 (t, d))) = Passed)), S runs).
Proof.
  intros Hff Ht Htime. unfold run_reachable_test, test_at. rewrite Hff, Ht. cbn [of_option mbind outcome_bind].
  rewrite (long_op_timeout test Htime). cbn [mbind outcome_bind]. unfold run_result, timeout_of. cbn [fst snd mr_result].
  rewrite Ht, Nat.add_0_r, (bool_decide_eq_false_2 _ (Hvalid _ _ _ _)). done.
Qed.

Lemma run_skipped memory pid acc runs l :
  failFastEnabled = true ->
  fold_outcome (run_reachable_test tests sandbox failFastEnabled capture memory pid) (acc, true, runs) l =
  Ok (acc ++ map (fail_fast_result pid) l, true, runs).
Proof.
  intros Hff. revert acc. induction l as [|[t d] l IH]; intros acc; [by rewrite app_nil_r|].
  cbn [fold_outcome run_reachable_test]. rewrite Hff. cbn [andb mret outcome_ret mbind outcome_bind].
  rewrite Hff in IH. rewrite IH, <-app_assoc. done.
Qed.

Lemma run_result_shift memory pid n k t : run_result memory pid n (S k) t = run_result memory pid (S n) k t.
Proof. unfold run_result. by rewrite Nat.add_succ_r. Qed.

Lemma run_point_tests memory pid l acc failed runs :
  failFastEnabled && failed = false ->
  (forall t d, (t, d) ∈ l -> exists test, tests !! t = Some test /\
     (0 <= runningTime (executionResult test) <= 922337203685477580)%Z) ->
  exists results failed' runs',
    fold_outcome (run_reachable_test tests sandbox failFastEnabled capture memory pid) (acc, failed, runs) l =
      Ok (acc ++ results, failed', runs') /\
    point_results memory pid runs l results.
Proof.
  revert acc failed runs. induction l as [|[t d] l IH]; intros acc failed runs Hff Hok.
  { exists [], failed, runs. split; [by rewrite app_nil_r|]. exists [], []. split; [done|]. split; [done|].
    split; [done|]. intros Hne. done. }
  destruct (Hok t d) as (test & Ht & Htime); [by left|].
  cbn [fold_outcome]. rewrite (run_reachable_test_runs _ _ _ _ _ _ _ test Hff Ht Htime). cbn [mbind outcome_bind].
  set (r := run_result memory pid runs 0 (t, d)).
  destruct (failFastEnabled && negb (bool_decide (status (mr_result r) = Passed))) eqn:Hstop.
  - apply andb_true_iff in Hstop as [Hffe Hnp]. rewrite Hnp, orb_true_r, run_skipped by done.
    eexists (r :: map (fail_fast_result pid) l), _, _. split; [by rewrite <-app_assoc|].
    exists [(t, d)], l. split; [done|]. split; [done|]. split.
    + intros _ k x _ Hk. cbn in Hk. lia.
    + intros _. split; [done|]. exists [], (t, d). split; [done|].
      apply negb_true_iff, bool_decide_eq_false in Hnp. exact Hnp.
  - destruct (IH (acc ++ [r]) (failed || negb (bool_decide (status (mr_result r) = Passed))) (S runs))
      as (results & failed' & runs' & Hrun & ran & skipped & Hl & Hres & Hpass & Hskip).
    { destruct failFastEnabled; [|done]. cbn in *. by rewrite Hff. }
    { intros t' d' Hin. apply (Hok t' d'). by right. }
    exists (r :: results), failed', runs'. split; [by rewrite Hrun, <-app_assoc|].
    exists ((t, d) :: ran), skipped. split; [by rewrite Hl|]. split; [|split].
    + cbn [imap]. rewrite Hres. cbn. f_equal. f_equal. apply imap_ext. intros k x _. symmetry. apply run_result_shift.
    + intros Hffe [|k] x Hx Hk.
      * injection Hx as <-. fold r. rewrite Hffe in Hstop. cbn in Hstop. bool_to_prop. done.
      * rewrite run_result_shift. apply Hpass; [done|done|cbn in Hk; lia].
    + intros Hne. destruct (Hskip Hne) as (Hffe & before & x & -> & Hx). split; [done|].
      exists ((t, d) :: before), x. split; [done|]. cbn [length]. by rewrite run_result_shift.
Qed.

(** A point is run with its own trampoline aimed at its mutant, every other
    trampoline at the original; its first run is run [n] of the task. *)
Definition tested_at (t : Trampolines) (memory : Memory) (pid : PointId) (n : nat) (results : list MutationResult)
    : Prop :=
  exists p c, store !! pid = Some p /\ findTrampoline t (getNameWithPrefix (getTrampolineName p)) = Some c /\
    memory !! c = Some (Some (getSymbol jit (getNameWithPrefix (getOriginalFunctionName p)))) /\
    point_results (<[c := Some (getSymbol jit (getNameWithPrefix (getMutatedFunctionName p)))]> memory)
      pid n (reachableTests p) results.

Definition tested (t : Trampolines) (memory : Memory) (pid : PointId) (results : list MutationResult) : Prop :=
  exists n, tested_at t memory pid n results.

Lemma run_mutant_at names t memory storage runs pid :
  aimed jit t memory -> runnable [pid] names ->
  (forall name, name ∈ names -> is_Some (findTrampoline t (getNameWithPrefix name))) ->
  exists results runs', run_mutant store tests sandbox failFastEnabled capture jit t (memory, storage, runs) pid =
      Ok (memory, storage ++ results, runs') /\ tested_at t memory pid runs results.
Proof.
  intros Haim Hrun Hfind. destruct (Hrun pid) as (p & Hp & Hname & Htests); [by left|].
  destruct (Hfind _ Hname) as [c Hc].
  pose proof (Haim _ _ Hc) as Hcell. unfold getTrampolineName in Hcell.
  rewrite <-!string_app_assoc, original_symbol_suffix, !string_app_assoc in Hcell.
  fold (getOriginalFunctionName p) in Hcell.
  unfold run_mutant, point_at. rewrite Hp. cbn [of_option mbind outcome_bind]. rewrite Hc. cbn [of_option mbind outcome_bind].
  rewrite Hcell. cbn [mjoin option_join of_option mbind outcome_bind].
  set (memory1 := <[c := Some (getSymbol jit (getNameWithPrefix (getMutatedFunctionName p)))]> memory).
  destruct (run_point_tests memory1 pid (reachableTests p) [] false runs) as (results & failed & runs' & Hf & Hres);
    [by rewrite andb_false_r|done|].
  rewrite Hf. cbn [mbind outcome_bind]. exists results, runs'. split.
  - unfold memory1. rewrite list_insert_insert_eq. by rewrite list_insert_id.
  - by exists p, c.
Qed.

Lemma run_mutants_spec names t memory points :
  aimed jit t memory -> runnable points names ->
  (forall name, name ∈ names -> is_Some (findTrampoline t (getNameWithPrefix name))) ->
  exists parts runs, run_mutants store tests sandbox failFastEnabled capture jit t memory points =
      Ok (memory, concat parts, runs) /\ Forall2 (tested t memory) points parts.
Proof.
  intros Haim Hrun Hfind.
  destruct (fold_outcome_progress (fun dn (st : Memory * list MutationResult * nat) =>
    exists parts, st.1 = (memory, concat parts) /\ Forall2 (tested t memory) dn parts)
    (run_mutant store tests sandbox failFastEnabled capture jit t) points (memory, [], 0))
    as ([[m storage] runs] & Hf & parts & Hst & Hparts).
  - exists []. split; [done|constructor].
  - intros dn pid rest [st runs] Hsplit (parts & Hst & Hparts). cbn [fst] in Hst. subst st.
    destruct (run_mutant_at names t memory (concat parts) runs pid Haim) as (results & runs' & Hstep & Htested); [|done|].
    { intros q Hq. apply list_elem_of_singleton in Hq as ->. apply Hrun. rewrite Hsplit.
      apply elem_of_app. right. by left. }
    eexists. split; [exact Hstep|]. exists (parts ++ [results]). cbn [fst]. split.
    + rewrite concat_app. cbn. by rewrite app_nil_r.
    + apply Forall2_app; [done|]. constructor; [by exists runs|done].
  - cbn [fst] in Hst. injection Hst as -> ->. by exists parts, runs.
Qed.
End Isolation.

(** ** Claims *)

(** C1: a mutant execution task runs every point it is given, and for each the
    tests that reach it in order, one result per test, with the time limit of
    ten times the original run and at least 30 ms.  Every run of a point sees
    the memory in which exactly the trampoline of that point is aimed at its
    mutant and every other trampoline at the original function: what an
    earlier point changed was changed back.  With fail-fast the tests after the
    first that does not pass are not run but marked. *)
Theorem mutants_run_isolated `{Mangler} store tests sandbox failFastEnabled capture jit names points :
  (forall n memory t timeout, status (sandbox n memory t timeout capture) <> Invalid) ->
  (forall name, name ∈ names -> getSymbol jit (original_symbol (getNameWithPrefix name)) <> 0%Z) ->
  runnable store tests points names ->
  exists t memory parts,
    MutantExecutionTask store tests sandbox failFastEnabled capture jit names points = Ok (concat parts) /\
    aimed jit t memory /\
    Forall2 (tested store tests sandbox failFastEnabled capture jit t memory) points parts.
Proof.
  intros Hvalid Hsym Hrun.
  destruct (trampolines_aimed names jit Hsym) as (t & memory0 & memory & Hal & Hfix & Haim & Hfind).
  destruct (run_mutants_spec store tests sandbox failFastEnabled capture jit Hvalid names t memory points Haim Hrun Hfind)
    as (parts & runs & Hruns & Hparts).
  exists t, memory, parts. split; [|done]. unfold MutantExecutionTask. rewrite Hal, Hfix. cbn [mbind outcome_bind].
  by rewrite Hruns.
Qed.

(** The first mutant of [sample_store] breaks the test, the second does not. *)
Definition sample_tested_store : Store := map (fun p => addReachableTest (addReachableTest p 0 1) 1 2) sample_store.

Definition sample_tests : list Test :=
  let passed := mkExecutionResult Passed 0 12 "" "" in
  [setExecutionResult (newTest "first" "mull" "main" [] None) passed;
   setExecutionResult (newTest "second" "mull" "main" [] None) passed].

#[global] Program Instance plain_names : Mangler := {| getNameWithPrefix name := name; mangling_prefix := "" |}.
Next Obligation. done. Qed.

Definition sample_trampoline : string := "sum_sum_d41d8_trampoline".

Definition sample_jit : JITEngine := mkJIT
  (<["sum_sum_d41d8_original" := 100%Z]> (<["sum_d41d8_1_0_1_cxx_add_to_sub" := 200%Z]>
   (<["sum_d41d8_1_0_0_remove_void_function_mutator" := 300%Z]> ∅))).

Definition sample_sandbox (n : nat) (memory : Memory) (test : TestId) (timeout : Z) (capture : bool) : ExecutionResult :=
  mkExecutionResult (if bool_decide (memory = [Some 200%Z]) then Failed else Passed) 0 1 "" "".

Lemma sample_sandbox_valid n memory t timeout :
  status (sample_sandbox n memory t timeout true) <> Invalid.
Proof. unfold sample_sandbox. by destruct (bool_decide _). Qed.

Lemma sample_runnable : runnable sample_tested_store sample_tests [0; 1] [sample_trampoline].
Proof.
  intros pid [->|[->|H]%elem_of_cons]%elem_of_cons; [| |by apply not_elem_of_nil in H];
    (eexists; split; [reflexivity|]; split; [left|]; intros t d;
     intros [[= -> ->]|[[= -> ->]|Ht]%elem_of_cons]%elem_of_cons; [| |by apply not_elem_of_nil in Ht];
     (eexists; split; [reflexivity|]; cbn; lia)).
Defined.

Lemma mutants_run_isolated_witness :
  exists t memory parts,
    MutantExecutionTask sample_tested_store sample_tests sample_sandbox true true sample_jit [sample_trampoline] [0; 1] =
      Ok (concat parts) /\
    map (fun r => status (mr_result r)) (concat parts) = [Failed; FailFast; Passed; Passed] /\
    Forall2 (tested sample_tested_store sample_tests sample_sandbox true true sample_jit t memory) [0; 1] parts.
Proof.
  destruct (mutants_run_isolated sample_tested_store sample_tests sample_sandbox true true sample_jit [sample_trampoline] [0; 1])
    as (t & memory & parts & Hrun & _ & Hparts).
  - exact sample_sandbox_valid.
  - intros name Hn. apply list_elem_of_singleton in Hn as ->. vm_compute. done.
  - exact sample_runnable.
  - exists t, memory, parts. split; [done|]. split; [|done].
    assert (Hc : MutantExecutionTask sample_tested_store sample_tests sample_sandbox true true sample_jit
      [sample_trampoline] [0; 1] = Ok (concat parts)) by exact Hrun.
    revert Hc. generalize (concat parts) as l. intros l. vm_compute. by intros [= <-].
Defined.

Lemma imap_lookup_run tests sandbox capture memory pid n ran k t :
  ran !! k = Some t ->
  run_result tests sandbox capture memory pid n k t ∈ imap (run_result tests sandbox capture memory pid n) ran.
Proof. intros Hk. apply (list_elem_of_lookup_2 _ k). by rewrite list_lookup_imap, Hk. Qed.

(** The results of a point are all passes exactly when every test that reaches
    it passes. *)
Lemma point_results_verdict tests sandbox failFastEnabled capture memory pid n l results :
  point_results tests sandbox failFastEnabled capture memory pid n l results ->
  (forall r, r ∈ results -> status (mr_result r) = Passed) <->
  (forall k t, l !! k = Some t -> status (sandbox (n + k) memory t.1 (timeout_of tests t.1) capture) = Passed).
Proof.
  intros (ran & skipped & -> & -> & _ & Hskip). split.
  - intros Hall k t Hk. destruct skipped as [|s skipped].
    + rewrite app_nil_r in *.
      apply (Hall (run_result tests sandbox capture memory pid n k t)). by apply imap_lookup_run.
    + specialize (Hall (fail_fast_result pid s)). cbn in Hall. exfalso.
      discriminate Hall. apply elem_of_app. right. by left.
  - intros Hall. destruct skipped as [|s skipped].
    + rewrite !app_nil_r in *. intros r (k & Hk)%list_elem_of_lookup. rewrite list_lookup_imap in Hk.
      destruct (ran !! k) as [t|] eqn:E; [|done]. injection Hk as <-. by apply Hall.
    + destruct Hskip as (_ & before & t & -> & Hfail); [done|]. exfalso. apply Hfail.
      apply (Hall (length before) t). rewrite <-app_assoc, lookup_app_r by lia. by rewrite Nat.sub_diag.
Qed.

(** Skipping the tests of a mutant after the first failure does not change
    its verdict: run from the same state with fail-fast and without, a mutant
    leaves the memory as it was, and its results are all passes in the one case
    exactly when they are in the other. *)
Theorem fail_fast_keeps_verdict `{Mangler} store tests sandbox capture jit names t memory runs pid
    (Hvalid : forall n memory t timeout, status (sandbox n memory t timeout capture) <> Invalid)
    (Haimed : aimed jit t memory) (Hrunnable : runnable store tests [pid] names)
    (Htrampolines : forall name, name ∈ names -> is_Some (findTrampoline t (getNameWithPrefix name))) :
  exists fast runs1 full runs2,
    run_mutant store tests sandbox true capture jit t (memory, [], runs) pid = Ok (memory, fast, runs1) /\
    run_mutant store tests sandbox false capture jit t (memory, [], runs) pid = Ok (memory, full, runs2) /\
    ((forall r, r ∈ fast -> status (mr_result r) = Passed) <-> (forall r, r ∈ full -> status (mr_result r) = Passed)).
Proof.
  destruct (run_mutant_at store tests sandbox true capture jit Hvalid names t memory [] runs pid Haimed Hrunnable Htrampolines)
    as (fast & runs1 & Hfast & p & c & Hp & Hc & _ & Hr1).
  destruct (run_mutant_at store tests sandbox false capture jit Hvalid names t memory [] runs pid Haimed Hrunnable Htrampolines)
    as (full & runs2 & Hfull & p' & c' & Hp' & Hc' & _ & Hr2).
  exists fast, runs1, full, runs2. split; [exact Hfast|]. split; [exact Hfull|]. simplify_eq.
  by rewrite (point_results_verdict _ _ _ _ _ _ _ _ _ Hr1), (point_results_verdict _ _ _ _ _ _ _ _ _ Hr2).
Qed.

(** One trampoline, aimed at the original. *)
Definition sample_trampolines : Trampolines * Memory := allocateTrampolines (newTrampolines [sample_trampoline]) [].

Lemma sample_aimed : aimed sample_jit sample_trampolines.1 [Some 100%Z].
Proof.
  intros name c Hc. change (omap_find name [(sample_trampoline, 0)] = Some c) in Hc.
  assert (Hname : (name, c) ∈ [(sample_trampoline, 0)]) by (by apply omap_find_elem).
  apply list_elem_of_singleton in Hname as [= -> ->]. reflexivity.
Defined.

Lemma fail_fast_keeps_verdict_witness :
  exists fast runs1 full runs2,
    run_mutant sample_tested_store sample_tests sample_sandbox true true sample_jit sample_trampolines.1 ([Some 100%Z], [], 0) 0 =
      Ok ([Some 100%Z], fast, runs1) /\
    run_mutant sample_tested_store sample_tests sample_sandbox false true sample_jit sample_trampolines.1 ([Some 100%Z], [], 0) 0 =
      Ok ([Some 100%Z], full, runs2) /\
    ((forall r, r ∈ fast -> status (mr_result r) = Passed) <-> (forall r, r ∈ full -> status (mr_result r) = Passed)).
Proof.
  apply (fail_fast_keeps_verdict sample_tested_store sample_tests sample_sandbox true sample_jit [sample_trampoline]).
  - exact sample_sandbox_valid.
  - exact sample_aimed.
  - intros pid ->%list_elem_of_singleton. apply sample_runnable. left.
  - intros name ->%list_elem_of_singleton. by eexists.
Defined.
