(* ===== verification/ClangAST.v ===== *)
(** * The syntax trees the tool looks at

    With the flags of the compilation at hand mull parses the sources with
    clang, to tell the mutants that correspond to source code from those that
    do not.  The data model keeps of clang's tree what mull reads: the class
    of an expression with the few attributes asked for, its source range and
    its children.  A traversal ([RecursiveASTVisitor::TraverseDecl]) is the
    sequence of nodes it visits, in order. *)

From stdpp Require Import base list strings.
From Stdlib Require Import ZArith.
From S2P Require Import Prelude.

(** [clang::SourceLocation] with what the source manager says of it. *)
Record Loc := mkLoc {
  loc_valid : bool;
  loc_isFileID : bool;
  loc_fileID : nat;
  loc_offset : Z;
  loc_filename : string;
  (** expansion line and column *)
  loc_line : Z;
  loc_column : Z;
  loc_systemHeader : bool;
  (** the place in the order of the translation unit, which
      [BeforeThanCompare] compares *)
  loc_order : Z
}.

#[global] Instance Loc_eq_dec : EqDecision Loc.
Proof. solve_decision. Defined.

Inductive BinaryOperatorKind :=
  | BO_PtrMemD | BO_PtrMemI
  | BO_Mul | BO_Div | BO_Rem | BO_Add | BO_Sub | BO_Shl | BO_Shr
  | BO_Cmp | BO_LT | BO_GT | BO_LE | BO_GE | BO_EQ | BO_NE
  | BO_And | BO_Xor | BO_Or | BO_LAnd | BO_LOr
  | BO_Assign | BO_MulAssign | BO_DivAssign | BO_RemAssign | BO_AddAssign | BO_SubAssign
  | BO_ShlAssign | BO_ShrAssign | BO_AndAssign | BO_XorAssign | BO_OrAssign
  | BO_Comma.

#[global] Instance BinaryOperatorKind_eq_dec : EqDecision BinaryOperatorKind.
Proof. solve_decision. Defined.

Inductive UnaryOperatorKind :=
  | UO_PostInc | UO_PostDec | UO_PreInc | UO_PreDec | UO_AddrOf | UO_Deref | UO_Plus | UO_Minus
  | UO_Not | UO_LNot | UO_Real | UO_Imag | UO_Extension | UO_Coawait.

#[global] Instance UnaryOperatorKind_eq_dec : EqDecision UnaryOperatorKind.
Proof. solve_decision. Defined.

Abbreviation DeclId := nat.

(** What is asked of a type. *)
Record TypeInfo := mkTypeInfo { isVoidType : bool; isRealType : bool }.

Inductive CallClass := PlainCall | CXXMemberCall | CXXOperatorCall.

Inductive StmtClass :=
  | BinaryOperator (opcode : BinaryOperatorKind) (operatorLoc : Loc)
  | UnaryOperator (opcode : UnaryOperatorKind) (operatorLoc : Loc)
  | CallExpr (class : CallClass) (type : option TypeInfo) (exprLoc operatorLoc : Loc)
  | IntegerLiteral
  | FloatingLiteral
  | DeclRefExpr (decl : DeclId)
  | PredefinedExpr
  (** a node [Expr::IgnoreImplicit] looks through *)
  | ImplicitExpr
  | OtherExpr
  (** a statement that is not an expression *)
  | OtherStmt.

Inductive Stmt := mkStmt {
  stmt_id : nat;
  stmt_class : StmtClass;
  stmt_begin : Loc;
  stmt_end : Loc;
  stmt_children : list (option Stmt)
}.

Definition is_expr (s : Stmt) : bool :=
  match stmt_class s with OtherStmt => false | _ => true end.

Definition isVoid (t : option TypeInfo) : bool :=
  match t with Some ty => isVoidType ty | None => false end.

(** A variable: its location, its initialiser. *)
Record VarDecl := mkVarDecl {
  var_location : Loc;
  var_declarationOnly : bool;
  var_init : option Stmt
}.

(** The visits of a traversal. *)
Inductive Visit :=
  | VisitFunctionDecl (name : string)
  | VisitVarDecl (decl : VarDecl)
  | VisitStmt (s : Stmt).
