(* ===== verification/ASTSearch.v ===== *)
(** * The search for mutations in the sources (lib/AST)

    [ASTVisitor] walks a translation unit and records, per kind of mutator,
    the places where the source code has something to mutate;
    [ASTMutationStorage] holds them by file, kind and position;
    [ASTMutationFilter] drops the mutation points that are at no such place.
    The search over a whole program is in ASTFinder.v.  Debug messages are left
    out: they change nothing. *)

From stdpp Require Import base list strings gmap.
From Stdlib Require Import ZArith Lia Bool.
From S2P Require Import Prelude MutatorKind IR SourceLocation Irm Mutator Samples MutationPoint Reachable.
From S2P Require Import Filters ClangAST.

(** [llvm::sys::fs::is_regular_file] *)
Class FileSystem := { is_regular_file : string -> bool }.

(** ** ASTMutationStorage *)
Abbreviation LineColumnHash := Z.

(** Every operation is on [int]. *)
Definition lineColumnHash (line column : Z) : outcome LineColumnHash :=
  _ ← require (Z.ltb 0 line) "line > 0";
  _ ← require (Z.ltb 0 column) "column > 0";
  sum ← int_op (line + column);
  sum1 ← int_op (sum + 1);
  product ← int_op (sum * sum1);
  int_op (Z.quot product 2 + line).

Record ASTMutation := mkASTMutation {
  am_mutatorKind : MutatorKind;
  am_line : Z;
  am_column : Z;
  am_stmt : Stmt
}.

Abbreviation SingleMutationTypeBucket := (gmap Z ASTMutation).
Abbreviation SingleASTUnitMutations := (gmap MutatorKind SingleMutationTypeBucket).
Abbreviation ASTMutationStorage := (gmap string SingleASTUnitMutations).

(** [unordered_map::emplace]: an existing entry stays. *)
Definition emplace `{Countable K} {V} (k : K) (v : V) (m : gmap K V) : gmap K V :=
  match m !! k with Some _ => m | None => <[k := v]> m end.

Section Storage.
Context `{FileSystem}.

Definition source_file_ok (sourceFile : string) : bool :=
  is_regular_file sourceFile || String.eqb sourceFile "input.cc".

(** The common part of [getMutation] and [mutationExists]. *)
Definition kind_bucket (storage : ASTMutationStorage) (sourceFile : string) (mutatorKind : MutatorKind)
    : outcome SingleMutationTypeBucket :=
  _ ← require (source_file_ok sourceFile) "is_regular_file(sourceFile)";
  astUnitMutations ← of_option "storage.count(sourceFile) > 0" (storage !! sourceFile);
  of_option "astUnitMutations.count(mutatorKind) > 0" (astUnitMutations !! mutatorKind).

Definition getMutation (storage : ASTMutationStorage) (sourceFile : string) (mutatorKind : MutatorKind)
    (line column : Z) : outcome ASTMutation :=
  oneMutationBucket ← kind_bucket storage sourceFile mutatorKind;
  hash ← lineColumnHash line column;
  of_option "oneMutationBucket.count(hash) > 0" (oneMutationBucket !! hash).

Definition mutationExists (storage : ASTMutationStorage) (sourceFile : string) (mutatorKind : MutatorKind)
    (line column : Z) : outcome bool :=
  oneMutationBucket ← kind_bucket storage sourceFile mutatorKind;
  hash ← lineColumnHash line column;
  mret (bool_decide (is_Some (oneMutationBucket !! hash))).

(** Recording in the mutations of a unit: the bucket is created on demand. *)
Definition record_mutation (mutatorKind : MutatorKind) (stmt : Stmt) (line column : Z)
    (singleUnitMutations : SingleASTUnitMutations) : outcome SingleASTUnitMutations :=
  hash ← lineColumnHash line column;
  let m := emplace mutatorKind ∅ singleUnitMutations in
  mret (<[mutatorKind := emplace hash (mkASTMutation mutatorKind line column stmt) (default ∅ (m !! mutatorKind))]> m).

Definition saveMutation (storage : ASTMutationStorage) (sourceFile : string) (mutatorKind : MutatorKind)
    (expression : Stmt) (line column : Z) : outcome ASTMutationStorage :=
  _ ← require (source_file_ok sourceFile) "is_regular_file(sourceFile)";
  let storage := emplace sourceFile ∅ storage in
  unit ← record_mutation mutatorKind expression line column (default ∅ (storage !! sourceFile));
  mret (<[sourceFile := unit]> storage).

(** [count]: an [int] sum over all the buckets. *)
Definition count (storage : ASTMutationStorage) : nat :=
  map_fold (fun _ unit n => map_fold (fun _ bucket n => n + size bucket) n unit) 0 storage.
End Storage.

(** ** ASTVisitor *)
Definition BINARY_MUTATIONS : list (BinaryOperatorKind * MutatorKind) := [
  (BO_Add, CXX_AddToSub);
  (BO_Sub, CXX_SubToAdd);
  (BO_Mul, CXX_MulToDiv);
  (BO_Div, CXX_DivToMul);
  (BO_Rem, CXX_RemToDiv);

  (BO_AddAssign, CXX_AddAssignToSubAssign);
  (BO_SubAssign, CXX_SubAssignToAddAssign);
  (BO_MulAssign, CXX_MulAssignToDivAssign);
  (BO_DivAssign, CXX_DivAssignToMulAssign);
  (BO_RemAssign, CXX_RemAssignToDivAssign);

  (BO_EQ, CXX_EqualToNotEqual);
  (BO_NE, CXX_NotEqualToEqual);
  (BO_GT, CXX_GreaterThanToLessOrEqual);
  (BO_LT, CXX_LessThanToGreaterOrEqual);
  (BO_GE, CXX_GreaterOrEqualToLessThan);
  (BO_LE, CXX_LessOrEqualToGreaterThan);

  (BO_GT, CXX_GreaterThanToGreaterOrEqual);
  (BO_LT, CXX_LessThanToLessOrEqual);
  (BO_GE, CXX_GreaterOrEqualToGreaterThan);
  (BO_LE, CXX_LessOrEqualToLessThan);

  (BO_And, CXX_Bitwise_AndToOr);
  (BO_Or, CXX_Bitwise_OrToAnd);
  (BO_Xor, CXX_Bitwise_XorToOr);
  (BO_Shl, CXX_LShiftToRShift);
  (BO_Shr, CXX_RShiftToLShift);

  (BO_AndAssign, CXX_Bitwise_AndAssignToOrAssign);
  (BO_OrAssign, CXX_Bitwise_OrAssignToAndAssign);
  (BO_XorAssign, CXX_Bitwise_XorAssignToOrAssign);
  (BO_ShlAssign, CXX_LShiftAssignToRShiftAssign);
  (BO_ShrAssign, CXX_RShiftAssignToLShiftAssign);

  (BO_LAnd, CXX_Logical_AndToOr);
  (BO_LOr, CXX_Logical_OrToAnd)
].

Record ASTVisitor := mkASTVisitor {
  singleUnitMutations : SingleASTUnitMutations;
  shouldSkipCurrentFunction : bool
}.

Definition newASTVisitor : ASTVisitor := mkASTVisitor ∅ false.

Section Visitor.
Context `{FileSystem, Regex} (filePathFilter : FilePathFilter) (mutatorKindSet : MutatorKindSet).

Definition saveMutationPoint (v : ASTVisitor) (mutatorKind : MutatorKind) (stmt : Stmt) (location : Loc)
    : outcome ASTVisitor :=
  let beginLine := loc_line location in
  let beginColumn := loc_column location in
  let sourceFilePath := loc_filename location in
  if empty_string sourceFilePath then mret v
  else if negb (source_file_ok sourceFilePath) then
    (* diagnostics.error ends the process *)
    Exit 1
  else
    mutations ← record_mutation mutatorKind stmt beginLine beginColumn (singleUnitMutations v);
    mret (mkASTVisitor mutations (shouldSkipCurrentFunction v)).

(** The loop over the table stops at the first selected entry. *)
Definition binary_mutation (opcode : BinaryOperatorKind) : option MutatorKind :=
  snd <$> find_first (fun mutation => bool_decide (opcode = mutation.1) && includesMutator mutatorKindSet mutation.2)
            BINARY_MUTATIONS.

Definition VisitFunctionDecl' (v : ASTVisitor) (name : string) : ASTVisitor :=
  mkASTVisitor (singleUnitMutations v) (String.eqb name "main").

Definition VisitExpr (v : ASTVisitor) (expr : Stmt) : outcome ASTVisitor :=
  if shouldSkipCurrentFunction v then mret v
  else
    let exprLocation := stmt_begin expr in
    if loc_systemHeader exprLocation then mret v
    else
      let sourceLocation := loc_filename exprLocation in
      if empty_string sourceLocation then mret v
      else if (shouldSkip_path filePathFilter sourceLocation).1 then mret v
      else
        match stmt_class expr with
        | BinaryOperator opcode binaryOperatorLocation =>
            match binary_mutation opcode with
            | Some kind => saveMutationPoint v kind expr binaryOperatorLocation
            | None => mret v
            end
        | CallExpr _ type _ _ =>
            if includesMutator mutatorKindSet MutatorKind.RemoveVoidFunctionMutator then
              if isVoid type then saveMutationPoint v MutatorKind.RemoveVoidFunctionMutator expr exprLocation else mret v
            else if includesMutator mutatorKindSet MutatorKind.ReplaceCallMutator then
              saveMutationPoint v MutatorKind.ReplaceCallMutator expr exprLocation
            else mret v
        | _ => mret v
        end.

Definition visit (v : ASTVisitor) (n : Visit) : outcome ASTVisitor :=
  match n with
  | VisitFunctionDecl name => mret (VisitFunctionDecl' v name)
  | VisitVarDecl _ => mret v
  | VisitStmt s => if is_expr s then VisitExpr v s else mret v
  end.

(** [visitor.TraverseDecl(translationUnit)] *)
Definition traverse (unit : list Visit) : outcome SingleASTUnitMutations :=
  v ← fold_outcome visit newASTVisitor unit;
  mret (singleUnitMutations v).
End Visitor.

(** ** ASTMutationFilter *)
Section Filter.
Context `{FileSystem, LLVMPath} (storage : ASTMutationStorage) (module : Module).

Definition ASTMutationFilter_shouldSkip (point : MutationPoint) : outcome bool :=
  instruction ← getOriginalValue module point;
  let mutatorKind := mutatorKind (mutator point) in
  match inst_debug instruction with
  | None => mret true
  | Some debugInfo =>
      let line := to_int (dl_line debugInfo) in
      let column := to_int (dl_column debugInfo) in
      _ ← require (negb (Z.leb line 0 || Z.leb column 0)) "ASTMutationFilter: Unknown edge case.";
      let fullSourcePath := filePath (locationFromInstruction instruction) in
      _ ← require (is_regular_file fullSourcePath) "is_regular_file(fullSourcePath)";
      astMutationExists ← mutationExists storage fullSourcePath mutatorKind line column;
      mret (negb astMutationExists)
  end.
End Filter.

(** ** The position hash *)

(** Cantor's pairing, where [int] can hold what it computes. *)
Definition pairing (line column : Z) : Z := (line + column) * (line + column + 1) / 2 + line.

Lemma lineColumnHash_spec line column :
  (0 < line)%Z -> (0 < column)%Z ->
  lineColumnHash line column =
  if (line + column <=? 46340)%Z then Ok (pairing line column) else Abort "signed integer overflow".
Proof.
  intros Hl Hc. unfold lineColumnHash, pairing. rewrite (proj2 (Z.ltb_lt 0 line)), (proj2 (Z.ltb_lt 0 column)) by done.
  cbn [require mbind outcome_bind]. set (s := (line + column)%Z). assert (Hls : (line < s)%Z) by (unfold s; lia).
  clearbody s. destruct (Z.leb_spec s 46340) as [Hs|Hs].
  - rewrite (int_op_Ok s) by (apply in_int_spec; unfold int_min, int_max; lia). cbn [mbind outcome_bind].
    rewrite (int_op_Ok (s + 1)) by (apply in_int_spec; unfold int_min, int_max; lia). cbn [mbind outcome_bind].
    assert (0 <= s * (s + 1) <= 46340 * 46341)%Z by nia.
    rewrite (int_op_Ok (s * (s + 1))) by (apply in_int_spec; unfold int_min, int_max; lia). cbn [mbind outcome_bind].
    rewrite Z.quot_div_nonneg by lia. apply int_op_Ok, in_int_spec.
    pose proof (Z.div_pos (s * (s + 1)) 2). pose proof (Z.div_le_upper_bound (s * (s + 1)) 2 (46340 * 46341)).
    pose proof (Z.div_le_mono (s * (s + 1)) (46340 * 46341) 2).
    change (46340 * 46341 / 2)%Z with 1073720970%Z in *. unfold int_min, int_max. lia.
  - destruct (Z.leb_spec s int_max) as [H1|H1]; [|by rewrite (int_op_overflow s)].
    rewrite (int_op_Ok s) by (apply in_int_spec; unfold int_min in *; lia). cbn [mbind outcome_bind].
    destruct (Z.leb_spec (s + 1) int_max) as [H2|H2]; [|by rewrite (int_op_overflow (s + 1))].
    rewrite (int_op_Ok (s + 1)) by (apply in_int_spec; unfold int_min in *; lia). cbn [mbind outcome_bind].
    rewrite (int_op_overflow (s * (s + 1))); [done|]. unfold int_max in *. nia.
Qed.

(** Consecutive products are even. *)
Lemma triangle_exact s : (2 * (s * (s + 1) / 2) = s * (s + 1))%Z.
Proof.
  destruct (Z.Even_or_Odd s) as [[k ->]|[k ->]].
  - replace (2 * k * (2 * k + 1))%Z with (k * (2 * k + 1) * 2)%Z by ring. rewrite Z.div_mul by lia. ring.
  - replace ((2 * k + 1) * (2 * k + 1 + 1))%Z with ((2 * k + 1) * (k + 1) * 2)%Z by ring. rewrite Z.div_mul by lia. ring.
Qed.

Lemma pairing_inj l1 c1 l2 c2 :
  (0 < l1)%Z -> (0 < c1)%Z -> (0 < l2)%Z -> (0 < c2)%Z -> pairing l1 c1 = pairing l2 c2 -> l1 = l2 /\ c1 = c2.
Proof.
  intros H1 H2 H3 H4 Heq. unfold pairing in Heq.
  pose proof (triangle_exact (l1 + c1)). pose proof (triangle_exact (l2 + c2)).
  set (t1 := ((l1 + c1) * (l1 + c1 + 1) / 2)%Z) in *. set (t2 := ((l2 + c2) * (l2 + c2 + 1) / 2)%Z) in *.
  clearbody t1 t2. destruct (Z.lt_trichotomy (l1 + c1) (l2 + c2)) as [Hlt|[Hs|Hlt]].
  - exfalso. assert ((l1 + c1 + 1) * (l1 + c1 + 2) <= (l2 + c2) * (l2 + c2 + 1))%Z by nia. lia.
  - assert (t1 = t2) by (rewrite Hs in *; lia). lia.
  - exfalso. assert ((l2 + c2 + 1) * (l2 + c2 + 2) <= (l1 + c1) * (l1 + c1 + 1))%Z by nia. lia.
Qed.

Lemma lineColumnHash_Ok line column h :
  lineColumnHash line column = Ok h -> (0 < line)%Z /\ (0 < column)%Z /\ h = pairing line column.
Proof.
  intros Hh. destruct (Z.ltb_spec 0 line) as [Hl|Hl]; [destruct (Z.ltb_spec 0 column) as [Hc|Hc]|].
  - rewrite lineColumnHash_spec in Hh by done. destruct (_ <=? _)%Z; [|done]. by injection Hh as <-.
  - unfold lineColumnHash in Hh. rewrite (proj2 (Z.ltb_lt _ _) Hl), (proj2 (Z.ltb_ge _ _) Hc) in Hh. done.
  - unfold lineColumnHash in Hh. rewrite (proj2 (Z.ltb_ge _ _) Hl) in Hh. done.
Qed.

(** The hash of a position is defined exactly for positive lines and
    columns whose sum is at most 46340 (beyond, the products overflow [int]),
    and distinct positions have distinct hashes, so a bucket keyed by the hash
    confuses no two places of a file. *)
Theorem lineColumnHash_injective l1 c1 l2 c2 :
  ((exists h, lineColumnHash l1 c1 = Ok h) <-> (0 < l1 /\ 0 < c1 /\ l1 + c1 <= 46340)%Z) /\
  (forall h, lineColumnHash l1 c1 = Ok h -> lineColumnHash l2 c2 = Ok h -> l1 = l2 /\ c1 = c2).
Proof.
  split; [split|].
  - intros [h Hh]. destruct (lineColumnHash_Ok _ _ _ Hh) as (Hl & Hc & _). split; [done|]. split; [done|].
    rewrite lineColumnHash_spec in Hh by done. by destruct (Z.leb_spec (l1 + c1) 46340).
  - intros (Hl & Hc & Hs). exists (pairing l1 c1). rewrite lineColumnHash_spec by done.
    by rewrite (proj2 (Z.leb_le _ _) Hs).
  - intros h (? & ? & ->)%lineColumnHash_Ok (? & ? & Heq)%lineColumnHash_Ok. by apply pairing_inj.
Qed.

(** ** What a traversal records *)
Section Places.
Context `{FileSystem, Regex} (filter : FilePathFilter) (kinds : MutatorKindSet).

(** The mutation of an expression: its kind and the place it is at. *)
Definition expr_mutation (e : Stmt) : option (MutatorKind * Loc) :=
  match stmt_class e with
  | BinaryOperator op loc => (fun k => (k, loc)) <$> binary_mutation kinds op
  | CallExpr _ type _ _ =>
      if includesMutator kinds MutatorKind.RemoveVoidFunctionMutator
      then if isVoid type then Some (MutatorKind.RemoveVoidFunctionMutator, stmt_begin e) else None
      else if includesMutator kinds MutatorKind.ReplaceCallMutator
      then Some (MutatorKind.ReplaceCallMutator, stmt_begin e) else None
  | _ => None
  end.

Definition in_scope (e : Stmt) : bool :=
  is_expr e && negb (loc_systemHeader (stmt_begin e)) && negb (empty_string (loc_filename (stmt_begin e))) &&
  negb (shouldSkip_path filter (loc_filename (stmt_begin e))).1.

(** The places of a unit, outside [main]. *)
Fixpoint places (in_main : bool) (unit : list Visit) : list (MutatorKind * Loc) :=
  match unit with
  | [] => []
  | VisitFunctionDecl name :: rest => places (String.eqb name "main") rest
  | VisitVarDecl _ :: rest => places in_main rest
  | VisitStmt e :: rest =>
      (if negb in_main && in_scope e then
         match expr_mutation e with
         | Some (k, loc) => if empty_string (loc_filename loc) then [] else [(k, loc)]
         | None => []
         end
       else []) ++ places in_main rest
  end.

Lemma visit_stmt v e :
  visit filter kinds v (VisitStmt e) =
  if negb (shouldSkipCurrentFunction v) && in_scope e then
    match expr_mutation e with
    | Some (k, loc) => saveMutationPoint v k e loc
    | None => Ok v
    end
  else Ok v.
Proof.
  unfold visit, VisitExpr, in_scope. destruct (is_expr e) eqn:He; [|by rewrite andb_false_r].
  destruct (shouldSkipCurrentFunction v); [done|].
  destruct (loc_systemHeader (stmt_begin e)); [done|]. destruct (empty_string (loc_filename (stmt_begin e))); [done|].
  destruct (shouldSkip_path filter (loc_filename (stmt_begin e))).1; [done|]. cbn [negb andb]. unfold expr_mutation.
  destruct (stmt_class e); try done; [by destruct (binary_mutation kinds opcode)|].
  destruct (includesMutator kinds MutatorKind.RemoveVoidFunctionMutator).
  - by destruct (isVoid type).
  - by destruct (includesMutator kinds MutatorKind.ReplaceCallMutator).
Qed.

(** A bucket entry at a hash. *)
Definition recorded (m : SingleASTUnitMutations) (k : MutatorKind) (h : Z) : Prop :=
  exists bucket am, m !! k = Some bucket /\ bucket !! h = Some am.

Definition bucket_nonempty (m : SingleASTUnitMutations) : Prop :=
  forall k bucket, m !! k = Some bucket -> exists h am, bucket !! h = Some am.

Lemma record_mutation_spec k s l c m m' :
  record_mutation k s l c m = Ok m' ->
  exists h, lineColumnHash l c = Ok h /\
    (forall k' h', recorded m' k' h' <-> (k' = k /\ h' = h) \/ recorded m k' h') /\
    (bucket_nonempty m -> bucket_nonempty m').
Proof.
  unfold record_mutation. intros (h & Hh & [= <-])%bind_Ok. exists h. split; [done|].
  set (bucket := default ∅ (emplace k ∅ m !! k)).
  assert (Hb : forall h' am, bucket !! h' = Some am -> exists b0, m !! k = Some b0 /\ b0 !! h' = Some am).
  { intros h' am. unfold bucket, emplace. destruct (m !! k) as [b0|] eqn:E.
    - rewrite E. cbn [default from_option id]. intros Ham. by exists b0.
    - rewrite lookup_insert_eq. cbn [default from_option id]. by rewrite lookup_empty. }
  assert (Hb' : forall b0, m !! k = Some b0 -> bucket = b0).
  { intros b0 E. unfold bucket, emplace. rewrite E. by rewrite E. }
  set (bucket' := emplace h (mkASTMutation k l c s) bucket).
  assert (Hat : is_Some (bucket' !! h)).
  { unfold bucket', emplace. destruct (bucket !! h) eqn:E; [by rewrite E|]. rewrite lookup_insert_eq. by eexists. }
  assert (Hother : forall h', h' <> h -> bucket' !! h' = bucket !! h').
  { intros h' Hne. unfold bucket', emplace. destruct (bucket !! h); [done|]. by rewrite lookup_insert_ne. }
  assert (Hout : forall k', k' <> k -> (<[k := bucket']> (emplace k ∅ m)) !! k' = m !! k').
  { intros k' Hne. rewrite lookup_insert_ne by done. unfold emplace. destruct (m !! k); [done|].
    by rewrite lookup_insert_ne. }
  split.
  - intros k' h'. unfold recorded. destruct (decide (k' = k)) as [->|Hne].
    + rewrite lookup_insert_eq. destruct (decide (h' = h)) as [->|Hh'].
      * split; [by left|]. intros _. destruct Hat as [am Ham]. by exists bucket', am.
      * split.
        -- intros (b & am & [= <-] & Ham). right. rewrite (Hother h' Hh') in Ham.
           destruct (Hb h' am Ham) as (b0 & ? & ?). by exists b0, am.
        -- intros [[_ ?]|(b0 & am & Hm & Ham)]; [done|]. exists bucket', am. split; [done|].
           rewrite (Hother h' Hh'), (Hb' b0 Hm). done.
    + rewrite (Hout k' Hne). split; [by right|]. intros [[? _]|?]; done.
  - intros Hne k' b. destruct (decide (k' = k)) as [->|Hk].
    + rewrite lookup_insert_eq. intros [= <-]. destruct Hat as [am Ham]. by exists h, am.
    + rewrite (Hout k' Hk). apply Hne.
Qed.

Lemma traverse_fold unit v v' :
  fold_outcome (visit filter kinds) v unit = Ok v' ->
  (forall k h, recorded (singleUnitMutations v') k h <->
     recorded (singleUnitMutations v) k h \/
     exists loc, (k, loc) ∈ places (shouldSkipCurrentFunction v) unit /\
                 lineColumnHash (loc_line loc) (loc_column loc) = Ok h) /\
  (bucket_nonempty (singleUnitMutations v) -> bucket_nonempty (singleUnitMutations v')) /\
  (forall k loc, (k, loc) ∈ places (shouldSkipCurrentFunction v) unit ->
     exists h, lineColumnHash (loc_line loc) (loc_column loc) = Ok h).
Proof.
  revert v. induction unit as [|n unit IH]; intros v Hrun.
  { injection Hrun as <-. split; [|split; [done|intros ? ? H1; by apply not_elem_of_nil in H1]].
    intros k h. split; [by left|].
    intros [?|(loc & Hin & _)]; [done|]. by apply not_elem_of_nil in Hin. }
  cbn [fold_outcome] in Hrun. destruct n as [name|d|e].
  - cbn [visit mret outcome_ret mbind outcome_bind] in Hrun. apply IH in Hrun. exact Hrun.
  - cbn [visit mret outcome_ret mbind outcome_bind] in Hrun. apply IH in Hrun. exact Hrun.
  - rewrite visit_stmt in Hrun. cbn [places].
    destruct (negb (shouldSkipCurrentFunction v) && in_scope e) eqn:Hscope; [|by apply IH in Hrun].
    destruct (expr_mutation e) as [[k0 loc0]|] eqn:Hm; [|by apply IH in Hrun].
    unfold saveMutationPoint in Hrun.
    destruct (empty_string (loc_filename loc0)); [by apply IH in Hrun|].
    destruct (source_file_ok (loc_filename loc0)); [|done]. cbn [negb] in Hrun.
    destruct (record_mutation k0 e (loc_line loc0) (loc_column loc0) (singleUnitMutations v)) as [m1|c|w] eqn:Hrec; [|done|done].
    cbn [mbind outcome_bind mret outcome_ret] in Hrun. apply IH in Hrun as (Hrun & Hne & Hdef).
    cbn [singleUnitMutations shouldSkipCurrentFunction] in *.
    apply record_mutation_spec in Hrec as (h0 & Hh0 & Hrec & Hne0). split; [|split; [by auto|]].
    2: { cbn [app]. intros k loc [[= -> ->]|Hin]%elem_of_cons; [by exists h0|by eapply Hdef]. }
    intros k h. rewrite Hrun, Hrec. cbn [app]. split.
    + intros [[[-> ->]|?]|(loc & Hin & Hh)]; [right; exists loc0; split; [by left|done]|by left|].
      right. exists loc. split; [by right|done].
    + intros [?|(loc & [[= -> ->]|Hin]%elem_of_cons & Hh)]; [by left; right| |].
      * left. left. split; [done|]. congruence.
      * right. by exists loc.
Qed.

Lemma traverse_records unit m :
  traverse filter kinds unit = Ok m ->
  (forall k h, recorded m k h <->
     exists loc, (k, loc) ∈ places false unit /\ lineColumnHash (loc_line loc) (loc_column loc) = Ok h) /\
  (forall k, is_Some (m !! k) <-> exists loc, (k, loc) ∈ places false unit).
Proof.
  unfold traverse. intros (v & Hrun & [= <-])%bind_Ok. apply traverse_fold in Hrun as (Hrec & Hne & Hdef).
  cbn [newASTVisitor singleUnitMutations shouldSkipCurrentFunction] in *.
  assert (Hempty : forall k h, ~ recorded ∅ k h).
  { intros k h (b & am & Hb & _). by rewrite lookup_empty in Hb. }
  assert (Hall : forall k h, recorded (singleUnitMutations v) k h <->
    exists loc, (k, loc) ∈ places false unit /\ lineColumnHash (loc_line loc) (loc_column loc) = Ok h).
  { intros k h. rewrite Hrec. split; [intros [?%Hempty|?]; done|by right]. }
  split; [done|]. intros k. split.
  - intros [b Hb]. destruct (Hne ltac:(intros k' b' Hb'; by rewrite lookup_empty in Hb') k b Hb) as (h & am & Ham).
    destruct (proj1 (Hall k h)) as (loc & Hin & _); [by exists b, am|]. by exists loc.
  - intros [loc Hin].
    destruct (Hdef k loc Hin) as [h Hh]. destruct (proj2 (Hall k h)) as (b & am & Hb & _); [by exists loc|]. by exists b.
Qed.
End Places.

(** ** Claims *)

(** A place of a unit at a position. *)
Definition place_at `{FileSystem, Regex} (filter : FilePathFilter) (kinds : MutatorKindSet) (unit : list Visit)
    (k : MutatorKind) (l c : Z) : Prop :=
  exists loc, (k, loc) ∈ places filter kinds false unit /\ loc_line loc = l /\ loc_column loc = c.

Lemma kind_bucket_found `{FileSystem} storage file m k :
  source_file_ok file = true -> storage !! file = Some m ->
  kind_bucket storage file k = of_option "astUnitMutations.count(mutatorKind) > 0" (m !! k).
Proof. intros Hf Hs. unfold kind_bucket. by rewrite Hf, Hs. Qed.

(** Once a file has been searched, asking whether a mutation of some kind
    exists at a position of the file answers yes exactly when the search met
    the kind there.  When it did not but met the kind elsewhere in the file
    the answer is no; when it met the kind nowhere in the file there is no
    answer: an assertion fails. *)
Theorem mutationExists_agrees `{FileSystem, Regex} filter kinds unit m storage file k l c :
  traverse filter kinds unit = Ok m -> storage !! file = Some m -> source_file_ok file = true ->
  (0 < l /\ 0 < c /\ l + c <= 46340)%Z ->
  (mutationExists storage file k l c = Ok true <-> place_at filter kinds unit k l c) /\
  (mutationExists storage file k l c = Ok false <->
     ~ place_at filter kinds unit k l c /\ exists loc, (k, loc) ∈ places filter kinds false unit) /\
  (~ (exists loc, (k, loc) ∈ places filter kinds false unit) <->
     mutationExists storage file k l c = Abort "astUnitMutations.count(mutatorKind) > 0").
Proof.
  intros Hrun Hs Hf (Hl & Hc & Hsum). destruct (traverse_records filter kinds unit m Hrun) as [Hrec Hbucket].
  assert (Hh : lineColumnHash l c = Ok (pairing l c)).
  { rewrite lineColumnHash_spec by done. by rewrite (proj2 (Z.leb_le _ _) Hsum). }
  assert (Hplace : place_at filter kinds unit k l c <-> recorded m k (pairing l c)).
  { rewrite Hrec. unfold place_at. split; intros (loc & Hin & Hloc); exists loc; split; try done.
    - destruct Hloc as [-> ->]. done.
    - apply lineColumnHash_Ok in Hloc as (? & ? & Heq). symmetry in Heq. by apply pairing_inj in Heq. }
  rewrite Hplace, <-Hbucket. unfold mutationExists. rewrite (kind_bucket_found _ _ m) by done.
  destruct (m !! k) as [b|] eqn:Hb.
  - cbn [of_option mbind outcome_bind]. rewrite Hh. cbn [mbind outcome_bind].
    assert (Hr : recorded m k (pairing l c) <-> is_Some (b !! pairing l c)).
    { unfold recorded. rewrite Hb. split; [intros (b' & am & [= <-] & Ham); by exists am|intros [am Ham]; by exists b, am]. }
    rewrite Hr. destruct (bool_decide_reflect (is_Some (b !! pairing l c))) as [Hd|Hd].
    + split; [done|]. split; [split; [done|intros [? _]; done]|]. split; [intros Hno; by destruct Hno|done].
    + split; [split; [done|by intros ?]|]. split; [|split; [intros Hno; by destruct Hno|done]]. split; [|done].
      intros _. split; [done|by eexists].
  - cbn [of_option mbind outcome_bind].
    assert (Hno : ~ recorded m k (pairing l c)) by (intros (b' & am & Hb' & _); congruence).
    split; [split; [done|intros ?; done]|]. split; [split; [done|intros [_ [? ?]]; done]|].
    split; [done|]. intros _ [? ?]. done.
Qed.

#[global] Instance all_regular : FileSystem := {| is_regular_file := fun _ => true |}.

Definition sample_loc (l c : Z) : Loc := mkLoc true true 1 (100 * l + c) "/home/dev/sum.cpp" l c false (100 * l + c).

(** [int sum(int a) { return a > 2; }] *)
Definition sample_unit : list Visit := [
  VisitFunctionDecl "sum";
  VisitStmt (mkStmt 1 OtherStmt (sample_loc 3 3) (sample_loc 3 15) []);
  VisitStmt (mkStmt 2 (BinaryOperator BO_GT (sample_loc 3 12)) (sample_loc 3 10) (sample_loc 3 14) [])].

Definition sample_kinds : MutatorKindSet :=
  create [CXX_GreaterThanToLessOrEqual; CXX_GreaterThanToGreaterOrEqual; CXX_PostIncToPostDec].

Lemma mutationExists_agrees_witness :
  exists m, traverse newFilePathFilter sample_kinds sample_unit = Ok m /\
    mutationExists {["/home/dev/sum.cpp" := m]} "/home/dev/sum.cpp" CXX_GreaterThanToLessOrEqual 3 12 = Ok true /\
    mutationExists {["/home/dev/sum.cpp" := m]} "/home/dev/sum.cpp" CXX_PostIncToPostDec 3 12 =
      Abort "astUnitMutations.count(mutatorKind) > 0".
Proof.
  eexists. split; [reflexivity|].
  assert (Hpos : (0 < 3 /\ 0 < 12 /\ 3 + 12 <= 46340)%Z) by lia. split.
  - refine (proj2 (proj1 (mutationExists_agrees newFilePathFilter sample_kinds sample_unit _ _ _ _ _ _
      eq_refl (lookup_singleton_eq _ _) eq_refl Hpos)) _).
    exists (sample_loc 3 12). split; [left|done].
  - refine (proj1 (proj2 (proj2 (mutationExists_agrees newFilePathFilter sample_kinds sample_unit _ _ _ _ _ _
      eq_refl (lookup_singleton_eq _ _) eq_refl Hpos))) _).
    intros (loc & [=]%list_elem_of_singleton).
Defined.

(** The kinds of comparison and of boundary mutators of one operator. *)
Definition comparison_boundary : list (BinaryOperatorKind * MutatorKind * MutatorKind) := [
  (BO_GT, CXX_GreaterThanToLessOrEqual, CXX_GreaterThanToGreaterOrEqual);
  (BO_LT, CXX_LessThanToGreaterOrEqual, CXX_LessThanToLessOrEqual);
  (BO_GE, CXX_GreaterOrEqualToLessThan, CXX_GreaterOrEqualToGreaterThan);
  (BO_LE, CXX_LessOrEqualToGreaterThan, CXX_LessOrEqualToLessThan)
].

Lemma binary_mutation_selected kinds op k : binary_mutation kinds op = Some k -> includesMutator kinds k = true.
Proof.
  unfold binary_mutation. destruct (find_first _ _) as [[o k']|] eqn:E; [|done]. cbn. intros [= <-].
  apply find_first_Some in E as [_ Hk]. by bool_to_prop.
Qed.

Lemma places_expr `{FileSystem, Regex} filter kinds in_main unit k loc :
  (k, loc) ∈ places filter kinds in_main unit -> exists e, expr_mutation kinds e = Some (k, loc).
Proof.
  revert in_main. induction unit as [|n unit IH]; intros in_main Hin; [by apply not_elem_of_nil in Hin|].
  destruct n as [name|d|e]; cbn [places] in Hin; [by eapply IH|by eapply IH|].
  apply elem_of_app in Hin as [Hin|Hin]; [|by eapply IH].
  destruct (negb in_main && in_scope filter e); [|by apply not_elem_of_nil in Hin].
  destruct (expr_mutation kinds e) as [[k' loc']|] eqn:E; [|by apply not_elem_of_nil in Hin].
  destruct (empty_string (loc_filename loc')); [by apply not_elem_of_nil in Hin|].
  apply list_elem_of_singleton in Hin as [= -> ->]. by exists e.
Qed.

(** C38: an operator is recorded under one kind only, the first selected one of
    the table: when the comparison mutator of an operator and its boundary
    mutator are both selected (as the groups of mutators select them), no
    place is ever recorded for the boundary mutator, in any source. *)
Theorem boundary_kinds_shadowed `{FileSystem, Regex} filter kinds unit m op comparison boundary :
  (op, comparison, boundary) ∈ comparison_boundary ->
  includesMutator kinds comparison = true -> traverse filter kinds unit = Ok m -> m !! boundary = None.
Proof.
  intros Hin Hcmp Hrun. destruct (m !! boundary) as [b|] eqn:Hb; [|done]. exfalso.
  destruct (traverse_records filter kinds unit m Hrun) as [_ Hbucket].
  destruct (proj1 (Hbucket boundary)) as (loc & Hp); [by eexists|].
  apply places_expr in Hp as [e He]. unfold expr_mutation in He.
  assert (Hop : forall o, binary_mutation kinds o <> Some boundary).
  { intros o. unfold comparison_boundary in Hin. clear -Hin Hcmp.
    repeat (apply elem_of_cons in Hin as [[= -> -> ->]|Hin]; [
      destruct o; unfold binary_mutation; cbn -[includesMutator]; rewrite ?Hcmp; repeat case_match; done|]).
    by apply not_elem_of_nil in Hin. }
  destruct (stmt_class e); try done.
  - destruct (binary_mutation kinds opcode) as [k|] eqn:E; [|done]. injection He as -> _. by apply (Hop opcode).
  - assert (Hne : boundary <> MutatorKind.RemoveVoidFunctionMutator /\ boundary <> MutatorKind.ReplaceCallMutator).
    { clear -Hin. unfold comparison_boundary in Hin.
      repeat (apply elem_of_cons in Hin as [[= -> -> ->]|Hin]; [done|]). by apply not_elem_of_nil in Hin. }
    repeat case_match; simplify_eq; tauto.
Qed.

Lemma boundary_kinds_shadowed_witness :
  exists m, traverse newFilePathFilter sample_kinds sample_unit = Ok m /\ m !! CXX_GreaterThanToGreaterOrEqual = None.
Proof.
  eexists. split; [reflexivity|].
  apply (boundary_kinds_shadowed newFilePathFilter sample_kinds sample_unit _ BO_GT CXX_GreaterThanToLessOrEqual);
    [left|reflexivity|reflexivity].
Defined.
