(* ===== verification/CompilationDatabase.v ===== *)
(** * The compilation database (lib/JunkDetection/CXX/CompilationDatabase.cpp)

    The flags to parse a source file with: those of the command line of mull,
    those recorded in the bitcode, those of a compile_commands.json.  LLVM's
    YAML reader is the parameter [read_commands]. *)

From stdpp Require Import base list strings.
From Stdlib Require Import ZArith Lia Bool Ascii.
From S2P Require Import Prelude StdContainers StringFacts Diagnostics SourceLocation Samples.

Open Scope char_scope.

(** ** Unescaping *)

(** [std::regex_replace] with a regular expression that matches exactly the
    two characters [a b] and the replacement [r]: left to right, without
    overlap. *)
Fixpoint replace_pair (a b r : ascii) (s : string) : string :=
  match s with
  | EmptyString => EmptyString
  | String c rest =>
      match rest with
      | String d rest' =>
          if Ascii.eqb c a && Ascii.eqb d b then String r (replace_pair a b r rest')
          else String c (replace_pair a b r rest)
      | EmptyString => s
      end
  end.

Definition backslash : ascii := "\".
(** the double quote *)
Definition quote : ascii := "034".

Definition undoEscapingString (s : string) : string :=
  let unescaped := replace_pair backslash quote quote s in
  replace_pair backslash backslash backslash unescaped.

Close Scope char_scope.

(** ** Flags *)
Fixpoint drop_c (flags : list string) : list string :=
  match flags with
  | [] => []
  | flag :: it =>
      if String.eqb flag "-c" then match it with [] => [] | _ :: it => drop_c it end
      else flag :: drop_c it
  end.

Definition filterFlags (flags : list string) (stripCompiler : bool) : list string :=
  match flags with
  | [] => []
  | _ :: rest => drop_c (if stripCompiler then rest else flags)
  end.

(** [std::isspace] in the C locale. *)
Definition is_space (c : ascii) : bool :=
  let n := nat_of_ascii c in (Nat.leb 9 n && Nat.leb n 13) || Nat.eqb n 32.

(** Reading words with [>>] to the end of the stream: [value] is the word being
    read. *)
Fixpoint words (value : string) (s : string) : list string :=
  match s with
  | EmptyString => if empty_string value then [] else [value]
  | String c rest =>
      if is_space c then (if empty_string value then [] else [value]) ++ words "" rest
      else words (value +:+ String c "") rest
  end.

Definition flagsFromString (s : string) : list string := words "" s.

Record CompileCommand := mkCompileCommand {
  cc_directory : string;
  cc_file : string;
  cc_output : string;
  cc_command : string;
  cc_arguments : list string
}.

Definition flagsFromCommand (command : CompileCommand) : list string :=
  match cc_arguments command with
  | [] => filterFlags (flagsFromString (cc_command command)) true
  | arguments => filterFlags arguments true
  end.

(** [erase(remove(begin, end, value), end)] *)
Definition erase_value (value : string) (flags : list string) : list string :=
  List.filter (fun flag => negb (String.eqb flag value)) flags.

Definition flagsFromCommand_extra (command : CompileCommand) (extraFlags : list string) : list string :=
  map undoEscapingString (erase_value (cc_file command) (flagsFromCommand command)) ++ extraFlags.

Section Database.
Context `{LLVMPath}.
(** [MemoryBuffer::getFile] and [json >> commands]: nothing when the file
    cannot be read, else what was read and whether there was an error. *)
Context (read_commands : string -> option (list CompileCommand * bool)).

Definition database_entry (extraFlags : list string) (database : list (string * list string))
    (command : CompileCommand) : list (string * list string) :=
  let filePath := cc_file command in
  let filePath :=
    if negb (empty_string filePath) && negb (is_absolute filePath)
    then cc_directory command +:+ get_separator +:+ filePath else filePath in
  omap_assign filePath (flagsFromCommand_extra command extraFlags) database.

Definition loadDatabaseFromFile (path : string) (extraFlags : list string) : D (list (string * list string)) :=
  if empty_string path then mret []
  else
    commands ←
      match read_commands path with
      | None =>
          _ ← warning ("Can not read compilation database: " +:+ path); mret []
      | Some (commands, error) =>
          _ ← (if error : bool then warning ("Can not read compilation database: " +:+ path) else mret tt);
          mret commands
      end;
    mret (foldl (database_entry extraFlags) [] commands).

Definition bitcode_entry (extraFlags : list string) (merged : list (string * list string))
    (bitcodeFileEntry : string * string) : list (string * list string) :=
  let fileFlagsArray := flagsFromString bitcodeFileEntry.2 in
  let fileFlagsArray := filterFlags fileFlagsArray true in
  let fileFlagsArray := erase_value bitcodeFileEntry.1 fileFlagsArray in
  omap_assign bitcodeFileEntry.1 (fileFlagsArray ++ extraFlags) merged.

Definition createBitcodeFlags (bitcodeFlags : list (string * string)) (extraFlags : list string)
    : list (string * list string) :=
  foldl (bitcode_entry extraFlags) [] bitcodeFlags.

Record CompilationDatabase := mkCompilationDatabase {
  extraFlags : list string;
  database : list (string * list string);
  bitcodeFlags : list (string * list string)
}.

Definition newCompilationDatabase (path flags : string) (bitcodeFlags : list (string * string))
    : D CompilationDatabase :=
  let extraFlags := filterFlags (flagsFromString flags) false in
  database ← loadDatabaseFromFile path extraFlags;
  mret (mkCompilationDatabase extraFlags database (createBitcodeFlags bitcodeFlags extraFlags)).

Definition compilationFlagsForFile (db : CompilationDatabase) (filepath : string) : list string :=
  match database db, bitcodeFlags db with
  | [], [] => extraFlags db
  | _, _ =>
      match omap_find filepath (bitcodeFlags db) with
      | Some flags => flags
      | None =>
          match omap_find (path_filename filepath) (bitcodeFlags db) with
          | Some flags => flags
          | None =>
              let dotlessPath := remove_dots filepath in
              match omap_find dotlessPath (bitcodeFlags db) with
              | Some flags => flags
              | None =>
                  match omap_find filepath (database db) with
                  | Some flags => flags
                  | None =>
                      match omap_find (path_filename filepath) (database db) with
                      | Some flags => flags
                      | None =>
                          let dotlessPath := remove_dots dotlessPath in
                          match omap_find dotlessPath (database db) with
                          | Some flags => flags
                          | None => extraFlags db
                          end
                      end
                  end
              end
          end
      end
  end.
End Database.

(** ** Shell escaping *)

(** What the writer of a database does to a parameter. *)
Fixpoint escape (s : string) : string :=
  match s with
  | EmptyString => EmptyString
  | String c rest =>
      if Ascii.eqb c quote || Ascii.eqb c backslash
      then String backslash (String c (escape rest)) else String c (escape rest)
  end.

(** The intermediate text: backslashes doubled, quotes bare. *)
Fixpoint half_escape (s : string) : string :=
  match s with
  | EmptyString => EmptyString
  | String c rest =>
      if Ascii.eqb c backslash then String backslash (String backslash (half_escape rest))
      else String c (half_escape rest)
  end.

Lemma replace_pair_other a b r c s :
  Ascii.eqb c a = false -> replace_pair a b r (String c s) = String c (replace_pair a b r s).
Proof. intros Hc. cbn [replace_pair]. destruct s; [done|]. by rewrite Hc. Qed.

(** An escaped text starts with a quote nowhere. *)
Lemma escape_head s c rest : escape s = String c rest -> Ascii.eqb c quote = false.
Proof.
  destruct s as [|d s]; [done|]. cbn [escape].
  destruct (Ascii.eqb d quote) eqn:E; cbn [orb]; [by intros [= <- _]|].
  destruct (Ascii.eqb d backslash); intros [= <- _]; done.
Qed.

Lemma unquote_escape s : replace_pair backslash quote quote (escape s) = half_escape s.
Proof.
  induction s as [|c s IH]; [done|]. cbn [escape half_escape].
  destruct (Ascii.eqb_spec c quote) as [->|Hq]; cbn [orb].
  - cbn [Ascii.eqb]. change (Ascii.eqb quote backslash) with false. cbn iota.
    cbn [replace_pair]. change (Ascii.eqb backslash backslash && Ascii.eqb quote quote) with true. cbn iota. by rewrite IH.
  - destruct (Ascii.eqb_spec c backslash) as [->|Hb].
    + cbn [replace_pair]. change (Ascii.eqb backslash backslash && Ascii.eqb backslash quote) with false. cbn iota.
      f_equal. rewrite <-IH. destruct (escape s) as [|d rest] eqn:E; [done|].
      by rewrite (escape_head _ _ _ E), andb_false_r.
    + rewrite replace_pair_other by (by apply Ascii.eqb_neq). by rewrite IH.
Qed.

Lemma unescape_half s : replace_pair backslash backslash backslash (half_escape s) = s.
Proof.
  induction s as [|c s IH]; [done|]. cbn [half_escape]. destruct (Ascii.eqb_spec c backslash) as [->|Hb].
  - cbn [replace_pair]. change (Ascii.eqb backslash backslash && Ascii.eqb backslash backslash) with true. cbn iota.
    by rewrite IH.
  - rewrite replace_pair_other by (by apply Ascii.eqb_neq). by rewrite IH.
Qed.

(** Unescaping undoes shell escaping: a parameter in which every double
    quote and every backslash was preceded by a backslash is restored, for
    every text, whatever runs of backslashes and quotes it holds. *)
Theorem undoEscapingString_escape s : undoEscapingString (escape s) = s.
Proof. unfold undoEscapingString. by rewrite unquote_escape, unescape_half. Qed.

(** ** Words *)
Definition is_word (w : string) : bool := negb (empty_string w) && str_all (fun c => negb (is_space c)) w.

Lemma words_word value w rest :
  str_all (fun c => negb (is_space c)) w = true -> words value (w +:+ rest) = words (value +:+ w) rest.
Proof.
  revert value. induction w as [|c w IH]; intros value Hw; [by rewrite string_app_nil_r|].
  cbn [str_all] in Hw. apply andb_true_iff in Hw as [Hc Hw]. apply negb_true_iff in Hc.
  change (String c w +:+ rest) with (String c (w +:+ rest)). cbn [words]. rewrite Hc.
  rewrite IH by done. by rewrite string_app_assoc.
Qed.

Lemma flagsFromString_join l :
  forallb is_word l = true -> flagsFromString (String.concat " " l) = l.
Proof.
  induction l as [|w l IH]; [done|]. cbn [forallb]. intros [Hw Hl]%andb_true_iff. specialize (IH Hl).
  unfold is_word in Hw. apply andb_true_iff in Hw as [Hne Hw]. unfold flagsFromString in *.
  destruct l as [|w' l].
  - cbn [String.concat]. rewrite <-(string_app_nil_r w) at 1. rewrite words_word by done.
    change ("" +:+ w) with w. cbn [words]. apply negb_true_iff in Hne. by rewrite Hne.
  - change (String.concat " " (w :: w' :: l)) with (w +:+ " " +:+ String.concat " " (w' :: l)).
    rewrite words_word by done. change ("" +:+ w) with w.
    change (words w (" " +:+ String.concat " " (w' :: l))) with
      ((if empty_string w then [] else [w]) ++ words "" (String.concat " " (w' :: l))).
    apply negb_true_iff in Hne. by rewrite IH, Hne.
Qed.

(** A command line cut into words gives back the words it was joined from,
    so the two ways a database can spell a command, as an array of arguments
    or as one string, give the same flags. *)
Theorem flagsFromCommand_spelling dir file out arguments :
  forallb is_word arguments = true ->
  flagsFromCommand (mkCompileCommand dir file out (String.concat " " arguments) []) =
  flagsFromCommand (mkCompileCommand dir file out "" arguments).
Proof.
  intros Hw. unfold flagsFromCommand. cbn [cc_arguments cc_command].
  rewrite (flagsFromString_join arguments Hw). by destruct arguments.
Qed.

Lemma flagsFromCommand_spelling_witness :
  flagsFromCommand (mkCompileCommand "/build" "a.cpp" "" "clang++ -DX=1 -o a.o -c a.cpp" []) =
  flagsFromCommand (mkCompileCommand "/build" "a.cpp" "" "" ["clang++"; "-DX=1"; "-o"; "a.o"; "-c"; "a.cpp"]).
Proof.
  exact (flagsFromCommand_spelling "/build" "a.cpp" "" ["clang++"; "-DX=1"; "-o"; "a.o"; "-c"; "a.cpp"] eq_refl).
Defined.

(** ** Lookup *)
Definition ends_with_flags (extra flags : list string) : Prop := exists own, flags = own ++ extra.

Lemma assign_all (P : list string -> Prop) (m : list (string * list string)) k v :
  (forall key flags, omap_find key m = Some flags -> P flags) -> P v ->
  forall key flags, omap_find key (omap_assign k v m) = Some flags -> P flags.
Proof.
  intros Hm Hv key flags. destruct (decide (k = key)) as [<-|Hne].
  - rewrite omap_find_assign_eq. by intros [= <-].
  - rewrite omap_find_assign_ne by auto. apply Hm.
Qed.

Lemma foldl_all {A} (P : list string -> Prop) (f : list (string * list string) -> A -> list (string * list string)) l :
  (forall m x, (forall key flags, omap_find key m = Some flags -> P flags) ->
     forall key flags, omap_find key (f m x) = Some flags -> P flags) ->
  forall key flags, omap_find key (foldl f [] l) = Some flags -> P flags.
Proof.
  intros Hf. induction l as [|x l IH] using rev_ind; [done|]. rewrite foldl_snoc. by apply Hf.
Qed.

(** Whatever the sources of flags say of a file, the flags it is parsed
    with end with the flags given on mull's command line (less [-c] and its
    file), which therefore win; a file no source knows gets exactly these. *)
Theorem compilationFlags_end_with_extra `{LLVMPath} read_commands path flags bitcode db d d' file :
  newCompilationDatabase read_commands path flags bitcode d = (Ok db, d') ->
  ends_with_flags (filterFlags (flagsFromString flags) false) (compilationFlagsForFile db file) /\
  (Forall (fun key => omap_find key (bitcodeFlags db) = None /\ omap_find key (database db) = None)
     [file; path_filename file; remove_dots file; remove_dots (remove_dots file)] ->
   compilationFlagsForFile db file = filterFlags (flagsFromString flags) false).
Proof.
  unfold newCompilationDatabase. set (extra := filterFlags (flagsFromString flags) false). intros Hdb.
  rewrite D_bind_run in Hdb. destruct (loadDatabaseFromFile read_commands path extra d) as [[db0|c|w] d1] eqn:Hload; [|done|done].
  injection Hdb as <- <-. cbn [bitcodeFlags database].
  assert (Hb : forall key flags, omap_find key (createBitcodeFlags bitcode extra) = Some flags -> ends_with_flags extra flags).
  { apply foldl_all. intros m x Hm. apply assign_all; [done|]. by eexists. }
  assert (Hd : forall key flags, omap_find key db0 = Some flags -> ends_with_flags extra flags).
  { assert (Hcommands : forall commands key flags, omap_find key (foldl (database_entry extra) [] commands) = Some flags ->
      ends_with_flags extra flags).
    { intros commands. apply foldl_all. intros m x Hm. apply assign_all; [done|]. by eexists. }
    unfold loadDatabaseFromFile in Hload. destruct (empty_string path); [by injection Hload as <- _|].
    rewrite D_bind_run in Hload. destruct (_ d) as [[commands|c|w] d2]; [|done|done].
    injection Hload as <- _. apply Hcommands. }
  assert (Hself : ends_with_flags extra extra) by (by exists []).
  unfold compilationFlagsForFile. cbn [bitcodeFlags database extraFlags]. split.
  - repeat case_match; eauto.
  - intros Hnone. rewrite !Forall_cons in Hnone.
    destruct Hnone as ([-> ->] & [-> ->] & [-> _] & [_ ->] & _). by repeat case_match.
Qed.

Lemma compilationFlags_end_with_extra_witness :
  exists db d', newCompilationDatabase (fun _ => None) "" "-O2 -c x.cpp" [("/a.cpp", "clang -g -c /a.cpp")] newDiagnostics = (Ok db, d') /\
    compilationFlagsForFile db "/a.cpp" = ["-g"; "-O2"] /\
    ends_with_flags ["-O2"] (compilationFlagsForFile db "/a.cpp").
Proof.
  do 2 eexists. split; [reflexivity|]. split; [reflexivity|].
  exact (proj1 (compilationFlags_end_with_extra (fun _ => None) "" "-O2 -c x.cpp" [("/a.cpp", "clang -g -c /a.cpp")]
    _ newDiagnostics _ "/a.cpp" eq_refl)).
Defined.
