(* ===== verification/Driver.v ===== *)
(** * The driver (lib/Driver.cpp)

    The stages of a run and how they are chained: functions under test are
    filtered, their instructions selected, mutation points searched for and
    filtered, mutants run.  Every stage hands its items to a task executor, so
    a stage is a relation: the results the executor can produce with the
    configured number of workers, in any interleaving. *)

From stdpp Require Import base list strings.
From Stdlib Require Import ZArith Lia Bool.
From S2P Require Import Prelude StdContainers MutatorKind IR SourceLocation Irm Mutator Samples MutationPoint.
From S2P Require Import Reachable Mutators Executor Filters Bitcode MutantExecution.

(** ** lib/Config *)
Record ParallelizationConfig := mkParallelizationConfig {
  workers : nat;
  testExecutionWorkers : nat;
  mutantExecutionWorkers : nat
}.

Definition newParallelizationConfig : ParallelizationConfig := mkParallelizationConfig 0 0 0.

Definition singleThreadParallelization : ParallelizationConfig := mkParallelizationConfig 1 1 1.

(** [hardware_concurrency] is what the standard library says, 0 if unknown. *)
Definition normalize (hardware_concurrency : nat) (c : ParallelizationConfig) : ParallelizationConfig :=
  let defaultWorkers := Nat.max hardware_concurrency 1 in
  let w := if Nat.eqb (workers c) 0 then defaultWorkers else workers c in
  mkParallelizationConfig w
    (if Nat.eqb (testExecutionWorkers c) 0 then w else testExecutionWorkers c)
    (if Nat.eqb (mutantExecutionWorkers c) 0 then w else mutantExecutionWorkers c).

Definition defaultConfig (hardware_concurrency : nat) : ParallelizationConfig :=
  normalize hardware_concurrency newParallelizationConfig.

Inductive IDEDiagnosticsKind := DiagnosticsNone | DiagnosticsSurvived | DiagnosticsKilled | DiagnosticsAll.

Definition diagnosticsToString (diagnostics : IDEDiagnosticsKind) : string :=
  match diagnostics with
  | DiagnosticsNone => "none"
  | DiagnosticsSurvived => "survived"
  | DiagnosticsKilled => "killed"
  | DiagnosticsAll => "all"
  end.

Record CustomTestDefinition := mkCustomTestDefinition {
  ctd_testName : string;
  ctd_methodName : string;
  ctd_programName : string;
  ctd_callArguments : list string
}.

Record Configuration := mkConfiguration {
  dryRunEnabled : bool;
  failFastEnabled : bool;
  cacheEnabled : bool;
  captureTestOutput : bool;
  captureMutantOutput : bool;
  timeout : Z;
  maxDistance : Z;
  ide_diagnostics : IDEDiagnosticsKind;
  bitcodePaths : list string;
  objectFilePaths : list string;
  dynamicLibraryPaths : list string;
  cacheDirectory : string;
  parallelization : ParallelizationConfig;
  customTests : list CustomTestDefinition
}.

Definition MullDefaultTimeoutMilliseconds : Z := 3000.

Definition newConfiguration : Configuration :=
  mkConfiguration false false false true true MullDefaultTimeoutMilliseconds 128 DiagnosticsNone [] [] [] ""
    singleThreadParallelization [].

(** ** The items of the filtering and searching tasks *)

(** FunctionFilterTask *)
Definition function_filter_step (filter : FunctionFilter) (functionUnderTest : FunctionUnderTest)
    : outcome (list FunctionUnderTest) :=
  skip ← ffilter_shouldSkip filter (fut_function functionUnderTest);
  mret (if skip : bool then [] else [functionUnderTest]).

(** MutationFilterTask *)
Definition mutation_filter_step (filter : MutationFilter) (point : MutationPoint) : outcome (list MutationPoint) :=
  skip ← mfilter_shouldSkip filter point;
  mret (if skip : bool then [] else [point]).

(** InstructionSelectionTask: the function is changed in place. *)
Definition instruction_selection_step (filters : list InstructionFilter) (functionUnderTest : FunctionUnderTest)
    : outcome (list FunctionUnderTest) :=
  f ← selectInstructions filters functionUnderTest; mret [f].

(** SearchMutationPointsTask: [bitcode_of] is the bitcode file, registered
    under its identifier, that owns the module of a function, and that module. *)
Section Search.
Context `{LLVMPath, LibIrm} (mutators : list Mutator) (bitcode_of : FnId -> Module * BitcodePtr).

Definition with_tests (functionUnderTest : FunctionUnderTest) (mutant : MutationPoint) : MutationPoint :=
  foldl (fun mutant reachableTest => addReachableTest mutant reachableTest.1 reachableTest.2) mutant
    (fut_reachableTests functionUnderTest).

Definition search_step (functionUnderTest : FunctionUnderTest) : outcome (list MutationPoint) :=
  let '(module, bitcode) := bitcode_of (fn_id (fut_function functionUnderTest)) in
  fold_outcome (fun storage mutator =>
    mutants ← getMutations mutator module bitcode functionUnderTest;
    mret (storage ++ map (with_tests functionUnderTest) mutants)) [] mutators.
End Search.

(** ** The stages *)

(** The filters are applied one after the other, each to what the previous one
    left. *)
Inductive filterMutations (workers : nat) : list MutationFilter -> list MutationPoint -> list MutationPoint -> Prop :=
  | filterMutations_done mutations : filterMutations workers [] mutations mutations
  | filterMutations_step filter filters mutations tmp result :
      execute (mutation_filter_step filter) workers mutations [] tmp ->
      filterMutations workers filters tmp result ->
      filterMutations workers (filter :: filters) mutations result.

Inductive filterFunctions (workers : nat) : list FunctionFilter -> list FunctionUnderTest -> list FunctionUnderTest -> Prop :=
  | filterFunctions_done functions : filterFunctions workers [] functions functions
  | filterFunctions_step filter filters functions tmp result :
      execute (function_filter_step filter) workers functions [] tmp ->
      filterFunctions workers filters tmp result ->
      filterFunctions workers (filter :: filters) functions result.

Definition driver_selectInstructions (workers : nat) (filters : list InstructionFilter)
    (functions result : list FunctionUnderTest) : Prop :=
  execute (instruction_selection_step filters) workers functions [] result.

(** MutationsFinder::getMutationPoints *)
Definition getMutationPoints `{LLVMPath, LibIrm} (workers : nat) (mutators : list Mutator)
    (bitcode_of : FnId -> Module * BitcodePtr) (functions : list FunctionUnderTest) (points : list MutationPoint) : Prop :=
  execute (search_step mutators bitcode_of) workers functions [] points.

(** [findMutationPoints], from what the original tests reached; [n_tests] is
    the number of tests found. *)
Inductive findMutationPoints `{LLVMPath, LibIrm} (config : Configuration) (mutators : list Mutator)
    (functionFilters : list FunctionFilter) (instructionFilters : list InstructionFilter)
    (bitcode_of : FnId -> Module * BitcodePtr) (n_tests : nat) (reachable : list ReachableFunction)
    : list MutationPoint -> Prop :=
  | findMutationPoints_none :
      n_tests = 0 ->
      findMutationPoints config mutators functionFilters instructionFilters bitcode_of n_tests reachable []
  | findMutationPoints_some filtered selected points :
      n_tests <> 0 ->
      filterFunctions (workers (parallelization config)) functionFilters (mergeReachableFunctions reachable) filtered ->
      driver_selectInstructions (workers (parallelization config)) instructionFilters filtered selected ->
      getMutationPoints (workers (parallelization config)) mutators bitcode_of selected points ->
      findMutationPoints config mutators functionFilters instructionFilters bitcode_of n_tests reachable points.

(** [runMutations]: [normalRun] is [normalRunMutations] of Run.v: the
    preparation of every bitcode file, the compilation, and the executor over
    [MutantExecutionTask]. *)
Inductive runMutations (config : Configuration) (store : Store) (tests : list Test)
    (normalRun : list PointId -> list MutationResult -> Prop) (points : list PointId) : list MutationResult -> Prop :=
  | runMutations_none : points = [] -> runMutations config store tests normalRun points []
  | runMutations_dry results :
      points <> [] -> dryRunEnabled config = true ->
      execute (dry_run_mutant store tests) (workers (parallelization config)) points [] results ->
      runMutations config store tests normalRun points results
  | runMutations_normal results :
      points <> [] -> dryRunEnabled config = false -> normalRun points results ->
      runMutations config store tests normalRun points results.

(** ** Lemmas *)
Lemma normalize_positive hw c : 0 < workers (normalize hw c).
Proof. unfold normalize; cbn. destruct (Nat.eqb_spec (workers c) 0); lia. Qed.

Lemma run_task_total {A B} (step : A -> outcome (list B)) (f : A -> list B) items :
  (forall x, x ∈ items -> step x = Ok (f x)) -> run_task step [] items = Ok (concat (map f items)).
Proof. intros Hf. by rewrite (run_task_yields step f items [] Hf). Qed.

(** A stage whose step answers has one result. *)
Lemma execute_total {A B} (step : A -> outcome (list B)) (f : A -> list B) tasks items result :
  0 < tasks -> (2 * Z.of_nat (length items) <= int_max)%Z -> (forall x, x ∈ items -> step x = Ok (f x)) ->
  execute step tasks items [] result <-> result = concat (map f items).
Proof.
  intros Ht Hsize Hf. rewrite (execute_result step tasks items [] _ Ht Hsize (run_task_total step f items Hf)).
  done.
Qed.

Lemma concat_filter {A} (p : A -> bool) l :
  concat (map (fun x => if p x then [] else [x]) l) = List.filter (fun x => negb (p x)) l.
Proof. induction l as [|x l IH]; [done|]. cbn. rewrite IH. by destruct (p x). Qed.

Lemma filter_length_le {A} (p : A -> bool) (l : list A) : length (List.filter p l) <= length l.
Proof. induction l as [|x l IH]; [done|]. cbn. destruct (p x); cbn; lia. Qed.

(** The answer of a filter, when it answers. *)
Definition answer (f : MutationFilter) (p : MutationPoint) : bool :=
  match mfilter_shouldSkip f p with Ok b => b | _ => false end.

Definition keep (f : MutationFilter) (l : list MutationPoint) : list MutationPoint :=
  List.filter (fun p => negb (answer f p)) l.

(** Every filter answers on the points the earlier ones kept. *)
Fixpoint answer_in_turn (filters : list MutationFilter) (l : list MutationPoint) : Prop :=
  match filters with
  | [] => True
  | f :: rest =>
      (forall p, p ∈ l -> exists b, mfilter_shouldSkip f p = Ok b) /\ answer_in_turn rest (keep f l)
  end.

Lemma mutation_filter_step_answer f p :
  (exists b, mfilter_shouldSkip f p = Ok b) ->
  mutation_filter_step f p = Ok (if answer f p then [] else [p]).
Proof. intros [b Hb]. unfold mutation_filter_step, answer. by rewrite Hb. Qed.

Lemma filterMutations_result workers filters l result :
  0 < workers -> (2 * Z.of_nat (length l) <= int_max)%Z -> answer_in_turn filters l ->
  filterMutations workers filters l result <-> result = foldl (fun l f => keep f l) l filters.
Proof.
  intros Hw. revert l. induction filters as [|f filters IH]; intros l Hsize Hans.
  - split; [by inversion 1|intros ->; constructor].
  - destruct Hans as [Hf Hrest].
    assert (Hexec : forall tmp, execute (mutation_filter_step f) workers l [] tmp <-> tmp = keep f l).
    { intros tmp. rewrite (execute_total _ (fun p => if answer f p then [] else [p])); [|done|done|].
      - by rewrite concat_filter.
      - intros p Hp. by apply mutation_filter_step_answer, Hf. }
    assert (Hsize' : (2 * Z.of_nat (length (keep f l)) <= int_max)%Z).
    { unfold keep. pose proof (filter_length_le (fun p => negb (answer f p)) l). lia. }
    cbn [foldl]. rewrite <-(IH (keep f l) Hsize' Hrest). split.
    + inversion 1; subst. match goal with H : execute _ _ _ _ _ |- _ => apply Hexec in H as -> end. done.
    + intros Hr. econstructor; [by apply Hexec|done].
Qed.

Section Chain.
Context `{LLVMPath, Regex}.

(** The filters driver-cxx installs first, in this order. *)
Definition driver_filters (f : FilePathFilter) : list MutationFilter :=
  [noDebugInfo_mutationFilter; filePath_mutationFilter f].

Lemma driver_filters_answer f l : cache_current f -> answer_in_turn (driver_filters f) l.
Proof.
  intros Hc. cbn. split; [intros p _; by eexists|]. split; [|done]. intros p Hp.
  unfold keep in Hp. rewrite list_elem_of_In, filter_In in Hp. destruct Hp as [_ Hp].
  unfold answer in Hp. cbn in Hp. apply negb_true_iff in Hp.
  eexists. by apply filePath_location_view_Ok.
Qed.

Lemma driver_filters_keep f l :
  cache_current f ->
  foldl (fun l f => keep f l) l (driver_filters f) =
  List.filter (fun p => negb (isNull (sourceLocation p)) && negb (skips_path f (filePath (sourceLocation p)))) l.
Proof.
  intros Hc. cbn [foldl driver_filters]. unfold keep.
  induction l as [|p l IH]; [done|]. cbn [List.filter]. unfold answer at 2; cbn [noDebugInfo_mutationFilter mfilter_shouldSkip mret outcome_ret].
  destruct (isNull (sourceLocation p)) eqn:Hn; cbn [negb andb]; [exact IH|]. cbn [List.filter].
  unfold answer at 1; cbn [filePath_mutationFilter mfilter_shouldSkip].
  rewrite (filePath_location_view_Ok f _ Hc Hn). destruct (skips_path f (filePath (sourceLocation p))); cbn [negb]; [exact IH|].
  by rewrite IH.
Qed.
End Chain.

(** ** Claims *)

(** The filters of driver-cxx never fail, although the path filter asserts
    that a point has a location: behind the filter on debug information, which
    comes first, it is only asked about points that have one.  Whatever the
    number of workers and however they interleave, the points kept are those
    with a location in a file the path filter lets through, in their order. *)
Theorem driver_filters_result `{LLVMPath, Regex} workers f points result :
  0 < workers -> (2 * Z.of_nat (length points) <= int_max)%Z -> cache_current f ->
  filterMutations workers (driver_filters f) points result <->
  result = List.filter (fun p => negb (isNull (sourceLocation p)) && negb (skips_path f (filePath (sourceLocation p)))) points.
Proof.
  intros Hw Hsize Hc. rewrite (filterMutations_result workers _ points result Hw Hsize (driver_filters_answer f points Hc)).
  by rewrite driver_filters_keep.
Qed.

Lemma driver_filters_result_witness :
  filterMutations 4 (driver_filters sample_filter) sample_store sample_store.
Proof.
  apply (driver_filters_result 4 sample_filter sample_store sample_store);
    [lia|unfold int_max; cbn; lia|exact sample_filter_current|reflexivity].
Defined.

Lemma with_tests_fields f m :
  reachableTests (with_tests f m) = reachableTests m ++ fut_reachableTests f /\
  uniqueIdentifier (with_tests f m) = uniqueIdentifier m /\ address (with_tests f m) = address m /\
  mutator (with_tests f m) = mutator m /\ originalFunction (with_tests f m) = originalFunction m.
Proof.
  unfold with_tests. induction (fut_reachableTests f) as [|t l IH] using rev_ind; [by rewrite app_nil_r|].
  rewrite foldl_snoc. destruct IH as (IH1 & IH2 & IH3 & IH4 & IH5). cbn [addReachableTest reachableTests uniqueIdentifier address mutator originalFunction].
  rewrite IH1, IH2, IH3, IH4, IH5, app_assoc. by destruct t.
Qed.

Lemma search_step_total `{LLVMPath, LibIrm} mutators bitcode_of f (found : Mutator -> list MutationPoint) :
  (forall mu, mu ∈ mutators ->
     getMutations mu (bitcode_of (fn_id (fut_function f))).1 (bitcode_of (fn_id (fut_function f))).2 f = Ok (found mu)) ->
  search_step mutators bitcode_of f = Ok (concat (map (fun mu => map (with_tests f) (found mu)) mutators)).
Proof.
  unfold search_step. destruct (bitcode_of (fn_id (fut_function f))) as [module bitcode]. cbn [fst snd].
  intros Hfound. enough (Hgen : forall acc, fold_outcome (fun storage mutator =>
      mutants ← getMutations mutator module bitcode f; mret (storage ++ map (with_tests f) mutants)) acc mutators =
    Ok (acc ++ concat (map (fun mu => map (with_tests f) (found mu)) mutators))) by exact (Hgen []).
  induction mutators as [|mu mutators IH]; intros acc; [by rewrite app_nil_r|]. cbn [fold_outcome].
  rewrite Hfound by (by left). cbn [mbind outcome_bind mret outcome_ret].
  rewrite IH by (intros; apply Hfound; by right). cbn. by rewrite app_assoc.
Qed.

(** C21: the search yields, whatever the number of workers and their
    interleaving, function by function and mutator by mutator in the order
    given, the points each mutator creates in the function; every point of a
    function carries exactly the tests that reach the function, with their
    distances, and keeps its identity. *)
Theorem getMutationPoints_result `{LLVMPath, LibIrm} workers mutators bitcode_of functions
    (found : FunctionUnderTest -> Mutator -> list MutationPoint) points :
  0 < workers -> (2 * Z.of_nat (length functions) <= int_max)%Z ->
  (forall f mu, f ∈ functions -> mu ∈ mutators ->
     getMutations mu (bitcode_of (fn_id (fut_function f))).1 (bitcode_of (fn_id (fut_function f))).2 f = Ok (found f mu) /\
     Forall (fun p => reachableTests p = []) (found f mu)) ->
  getMutationPoints workers mutators bitcode_of functions points ->
  points = concat (map (fun f => concat (map (fun mu => map (with_tests f) (found f mu)) mutators)) functions) /\
  (forall f mu p, f ∈ functions -> mu ∈ mutators -> p ∈ found f mu ->
     with_tests f p ∈ points /\ reachableTests (with_tests f p) = fut_reachableTests f /\
     uniqueIdentifier (with_tests f p) = uniqueIdentifier p).
Proof.
  intros Hw Hsize Hfound Hrun. unfold getMutationPoints in Hrun.
  apply (execute_total _ (fun f => concat (map (fun mu => map (with_tests f) (found f mu)) mutators))) in Hrun;
    [|done|done|].
  2: { intros f Hf. apply search_step_total. intros mu Hmu. apply (Hfound f mu Hf Hmu). }
  split; [done|]. intros f mu p Hf Hmu Hp. destruct (with_tests_fields f p) as (Ht & Hid & _).
  destruct (Hfound f mu Hf Hmu) as [_ Hnone]. rewrite Forall_forall in Hnone. rewrite (Hnone p Hp) in Ht.
  split; [|done]. rewrite Hrun. apply elem_of_concat_map. exists f. split; [done|].
  apply elem_of_concat_map. exists mu. split; [done|]. by apply (list_elem_of_fmap_2 (with_tests f)).
Qed.

Definition sample_under_test : FunctionUnderTest :=
  mkUnderTest sample_function [(0, 1%Z); (1, 3%Z)] (instructions sample_function).

Definition sample_found (f : FunctionUnderTest) (mu : Mutator) : list MutationPoint :=
  match getMutations mu sample_module sample_bitcode f with Ok l => l | _ => [] end.

Lemma getMutationPoints_result_witness :
  exists points, getMutationPoints 1 [Trivial cxx.AddToSub] (fun _ => (sample_module, sample_bitcode)) [sample_under_test] points /\
    map reachableTests points = [[(0, 1%Z); (1, 3%Z)]] /\
    points = concat (map (fun f => concat (map (fun mu => map (with_tests f) (sample_found f mu)) [Trivial cxx.AddToSub])) [sample_under_test]).
Proof.
  assert (Hrun : exists points, getMutationPoints 1 [Trivial cxx.AddToSub] (fun _ => (sample_module, sample_bitcode))
    [sample_under_test] points /\ map reachableTests points = [[(0, 1%Z); (1, 3%Z)]]).
  { eexists. split; [apply execute_sequentially; [done|done|by left|reflexivity]|reflexivity]. }
  destruct Hrun as (points & Hrun & Htests). exists points. split; [done|]. split; [done|].
  apply (getMutationPoints_result 1 [Trivial cxx.AddToSub] (fun _ => (sample_module, sample_bitcode)) [sample_under_test]
    sample_found points); [lia|unfold int_max; cbn; lia| |done].
  intros f mu Hf Hmu. apply list_elem_of_singleton in Hf as ->. apply list_elem_of_singleton in Hmu as ->.
  split; [reflexivity|]. vm_compute. by repeat constructor.
Defined.
