(* ===== verification/JunkDetection.v ===== *)
(** * Junk detection (lib/JunkDetection/CXX)

    A mutation point is junk when no expression of the source corresponds to
    it.  [CXXJunkDetector] finds the declaration the point is in and walks it
    with a visitor chosen by the kind of mutator; the visitors either look for
    one node at exactly the position of the point, or for the smallest node of
    some sort around it. *)

From stdpp Require Import base list strings sorting gmap.
From Stdlib Require Import ZArith Lia Bool.
From S2P Require Import Prelude MutatorKind IR SourceLocation Irm Mutator Samples MutationPoint ClangAST.
From S2P Require Import ASTSearch.

(** ** Declarations of a translation unit (ASTStorage.cpp) *)
Record Decl := mkDecl {
  decl_id : nat;
  decl_hasBody : bool;
  decl_begin : Loc;
  decl_end : Loc;
  (** what [TraverseDecl] visits in it *)
  decl_nodes : list Visit
}.

(** [BeforeThanCompare] *)
Definition before (a b : Loc) : bool := Z.ltb (loc_order a) (loc_order b).

(** [DeclVisitor::addDecl] *)
Definition addDecl (declarations : list Decl) (decl : Decl) : list Decl :=
  if negb (decl_hasBody decl) then declarations
  else if loc_systemHeader (decl_begin decl) then declarations
  else declarations ++ [decl].

(** [std::unique]: an element equal to the last one kept is dropped. *)
Fixpoint unique_after {A} (same : A -> A -> bool) (last : A) (l : list A) : list A :=
  match l with
  | [] => []
  | x :: rest => if same last x then unique_after same last rest else x :: unique_after same x rest
  end.

Definition std_unique {A} (same : A -> A -> bool) (l : list A) : list A :=
  match l with
  | [] => []
  | x :: rest => x :: unique_after same x rest
  end.

(** The comparators of [recordDeclarations]. *)
Definition sort_le (lhs rhs : Decl) : Prop := before (decl_begin rhs) (decl_begin lhs) = false.

#[global] Instance sort_le_dec : RelDecision sort_le.
Proof. intros a b. unfold sort_le. apply _. Defined.

Definition uniqueComparator (lhs rhs : Decl) : bool := negb (before (decl_end lhs) (decl_begin rhs)).

(** [visited] are the functions and function templates of the unit. *)
Definition recordDeclarations (visited : list Decl) : list Decl :=
  let decls := foldl addDecl [] visited in
  std_unique uniqueComparator (merge_sort sort_le decls).

(** [std::lower_bound]: the binary search, [less] comparing an element with the
    value looked for. *)
Fixpoint lower_bound {A} (fuel : nat) (less : A -> bool) (l : list A) (first len : nat) : nat :=
  match fuel with
  | O => first
  | S fuel =>
      if Nat.eqb len 0 then first
      else
        let half := len / 2 in
        match l !! (first + half) with
        | Some middle =>
            if less middle then lower_bound fuel less l (first + half + 1) (len - half - 1)
            else lower_bound fuel less l first half
        | None => first
        end
  end.

Definition getDecl (decls : list Decl) (location : Loc) : option Decl :=
  match decls with
  | [] => None
  | _ =>
      match decls !! lower_bound (S (length decls)) (fun decl => before (decl_end decl) location) decls 0 (length decls) with
      | None => None
      | Some lower =>
          if before (decl_begin lower) location && before location (decl_end lower) then Some lower else None
      end
  end.

(** ** InstructionRangeVisitor *)

(** [SourceRange::isInvalid] *)
Definition range_valid (e : Stmt) : bool := loc_valid (stmt_begin e) && loc_valid (stmt_end e).

Definition locationInRange (e : Stmt) (location : Loc) : outcome bool :=
  if loc_isFileID location then
    _ ← require (loc_valid location) "mutantLocation.isValid()";
    _ ← require (loc_valid (stmt_begin e)) "begin.isValid()";
    let sameSourceFile := Nat.eqb (loc_fileID location) (loc_fileID (stmt_begin e)) in
    let inRange := Z.leb (loc_offset (stmt_begin e)) (loc_offset location) &&
                   Z.leb (loc_offset location) (loc_offset (stmt_end e)) in
    mret (sameSourceFile && inRange)
  else mret false.

(** The difference of two [unsigned] offsets. *)
Definition range_length (e : Stmt) : Z := to_uint32 (loc_offset (stmt_end e) - loc_offset (stmt_begin e)).

Definition isRangeSmallerThanRange (first second : Stmt) : outcome bool :=
  _ ← require (range_valid first) "first.isValid()";
  _ ← require (range_valid second) "second.isValid()";
  mret (if Z.ltb (range_length first) (range_length second) then true
        else if Z.ltb (range_length second) (range_length first) then false
        else true).

Definition visitRangeWithASTExpr (location : Loc) (bestMatchingASTNode : option Stmt) (expression : Stmt)
    : outcome (option Stmt) :=
  if negb (range_valid expression) then mret bestMatchingASTNode
  else
    inRange ← locationInRange expression location;
    if inRange : bool then
      match bestMatchingASTNode with
      | None => mret (Some expression)
      | Some best =>
          smaller ← isRangeSmallerThanRange expression best;
          mret (Some (if smaller : bool then expression else best))
      end
    else mret bestMatchingASTNode.

(** ** ScalarValueVisitor: constants *)
Fixpoint IgnoreImplicit (s : Stmt) : Stmt :=
  match s with
  | mkStmt _ ImplicitExpr _ _ (Some child :: _) => IgnoreImplicit child
  | _ => s
  end.

Definition ignore_implicit_child (child : Stmt) : Stmt := if is_expr child then IgnoreImplicit child else child.

Section Constants.
(** The variable a reference designates, if it is one. *)
Context (variable : DeclId -> option VarDecl).

(** [isConstant] and [isDeclRefConstant], which call one another: [fuel]
    bounds the depth of the stack. *)
Fixpoint isConstant (fuel : nat) (statement : Stmt) : outcome bool :=
  match fuel with
  | O => Abort "stack overflow"
  | S fuel =>
      match stmt_class statement with
      | IntegerLiteral => mret true
      | FloatingLiteral => mret true
      | DeclRefExpr decl =>
          match variable decl with
          | None => mret false
          | Some varDecl =>
              match var_init varDecl with
              | None => mret false
              | Some init =>
                  c ← isConstant fuel (IgnoreImplicit init);
                  if c : bool then mret true
                  else
                    (fix children l : outcome bool :=
                       match l with
                       | [] => mret true
                       | None :: _ => Abort "null child"
                       | Some child :: rest =>
                           c ← isConstant fuel (ignore_implicit_child child);
                           if c : bool then children rest else mret false
                       end) (stmt_children init)
              end
          end
      | _ => mret false
      end
  end.

(** [ScalarValueVisitor::VisitExpr] *)
Definition scalar_child (fuel : nat) (location : Loc) (expression : Stmt) (best : option Stmt) (child : option Stmt)
    : outcome (option Stmt) :=
  match child with
  | None => mret best
  | Some child =>
      c ← isConstant fuel (ignore_implicit_child child);
      if c : bool then visitRangeWithASTExpr location best expression else mret best
  end.

Definition scalar_visit (fuel : nat) (location : Loc) (best : option Stmt) (expression : Stmt) : outcome (option Stmt) :=
  match stmt_class expression with
  | PredefinedExpr => mret best
  | _ =>
      let expression := IgnoreImplicit expression in
      fold_outcome (scalar_child fuel location expression) best (stmt_children expression)
  end.
End Constants.

(** ** The visitors *)
Inductive Visitor :=
  | BinaryVisitor (opcode : BinaryOperatorKind)
  | UnaryVisitor (opcode : UnaryOperatorKind)
  | VarDeclVisitor
  | RemoveVoidFunctionVisitor
  | ReplaceCallVisitor
  | NegateConditionVisitor
  | ScalarValueVisitor.

(** Found: the traversal stops. *)
Definition found_once (matchingExpression : option Stmt) (e : Stmt) : outcome (option Stmt * bool) :=
  _ ← require (match matchingExpression with None => true | _ => false end) "Already found";
  mret (Some e, false).

Definition at_loc (a b : Loc) : bool := bool_decide (a = b).

Definition VisitBinaryOperator (opcode : BinaryOperatorKind) (location : Loc) (matching : option Stmt) (n : Visit)
    : outcome (option Stmt * bool) :=
  match n with
  | VisitStmt e =>
      match stmt_class e with
      | BinaryOperator op operatorLoc =>
          if negb (bool_decide (op = opcode)) then mret (matching, true)
          else if at_loc operatorLoc location then found_once matching e
          else mret (matching, true)
      | _ => mret (matching, true)
      end
  | _ => mret (matching, true)
  end.

Definition VisitUnaryOperator (opcode : UnaryOperatorKind) (location : Loc) (matching : option Stmt) (n : Visit)
    : outcome (option Stmt * bool) :=
  match n with
  | VisitStmt e =>
      match stmt_class e with
      | UnaryOperator op operatorLoc =>
          if negb (bool_decide (op = opcode)) then mret (matching, true)
          else if at_loc operatorLoc location then found_once matching e
          else mret (matching, true)
      | _ => mret (matching, true)
      end
  | _ => mret (matching, true)
  end.

Definition VisitVarDecl' (location : Loc) (matching : option Stmt) (n : Visit) : outcome (option Stmt * bool) :=
  match n with
  | VisitVarDecl decl =>
      if var_declarationOnly decl then mret (matching, true)
      else
        match var_init decl with
        | None => mret (matching, true)
        | Some init =>
            if at_loc (var_location decl) location then found_once matching init else mret (matching, true)
        end
  | _ => mret (matching, true)
  end.

(** [validCallExpr] *)
Definition validCallExpr (location : Loc) (type : option TypeInfo) (callLocation : Loc) : bool :=
  isVoid type && at_loc callLocation location.

(** A call is visited as [CallExpr] first, then as the class it is of. *)
Definition VisitCallExprs (location : Loc) (matching : option Stmt) (n : Visit) : outcome (option Stmt * bool) :=
  match n with
  | VisitStmt e =>
      match stmt_class e with
      | CallExpr class type exprLoc operatorLoc =>
          if validCallExpr location type (stmt_begin e) then found_once matching e
          else
            match class with
            | PlainCall => mret (matching, true)
            | CXXMemberCall =>
                if validCallExpr location type exprLoc then found_once matching e else mret (matching, true)
            | CXXOperatorCall =>
                if validCallExpr location type operatorLoc then found_once matching e else mret (matching, true)
            end
      | _ => mret (matching, true)
      end
  | _ => mret (matching, true)
  end.

(** [ReplaceCallVisitor::handleCallExpr] *)
Definition handleCallExpr (location : Loc) (best : option Stmt) (e : Stmt) (type : option TypeInfo) : outcome (option Stmt) :=
  if match type with Some t => isRealType t | None => false end then visitRangeWithASTExpr location best e
  else mret best.

Definition VisitReplaceCall (location : Loc) (best : option Stmt) (n : Visit) : outcome (option Stmt * bool) :=
  match n with
  | VisitStmt e =>
      match stmt_class e with
      | CallExpr class type _ _ =>
          best ← handleCallExpr location best e type;
          best ← match class with PlainCall => mret best | _ => handleCallExpr location best e type end;
          mret (best, true)
      | _ => mret (best, true)
      end
  | _ => mret (best, true)
  end.

Definition VisitNegation (location : Loc) (best : option Stmt) (n : Visit) : outcome (option Stmt * bool) :=
  match n with
  | VisitStmt e =>
      match stmt_class e with
      | UnaryOperator UO_LNot _ => best ← visitRangeWithASTExpr location best e; mret (best, true)
      | _ => mret (best, true)
      end
  | _ => mret (best, true)
  end.

Definition VisitScalar (variable : DeclId -> option VarDecl) (fuel : nat) (location : Loc) (best : option Stmt)
    (n : Visit) : outcome (option Stmt * bool) :=
  match n with
  | VisitStmt e =>
      if is_expr e then best ← scalar_visit variable fuel location best e; mret (best, true)
      else mret (best, true)
  | _ => mret (best, true)
  end.

Definition visit_with (variable : DeclId -> option VarDecl) (fuel : nat) (v : Visitor) (location : Loc)
    : option Stmt -> Visit -> outcome (option Stmt * bool) :=
  match v with
  | BinaryVisitor opcode => VisitBinaryOperator opcode location
  | UnaryVisitor opcode => VisitUnaryOperator opcode location
  | VarDeclVisitor => VisitVarDecl' location
  | RemoveVoidFunctionVisitor => VisitCallExprs location
  | ReplaceCallVisitor => VisitReplaceCall location
  | NegateConditionVisitor => VisitNegation location
  | ScalarValueVisitor => VisitScalar variable fuel location
  end.

(** [TraverseDecl]: a visit that returns false ends the traversal. *)
Fixpoint TraverseDecl {S} (visit : S -> Visit -> outcome (S * bool)) (s : S) (nodes : list Visit) : outcome S :=
  match nodes with
  | [] => mret s
  | n :: rest =>
      r ← visit s n;
      let '(s, continue) := r in
      if continue : bool then TraverseDecl visit s rest else mret s
  end.

(** ** ThreadSafeASTUnit and ASTStorage *)

(** A parsed unit: the files clang knows, its declarations, the location it
    gives a position of a file. *)
Record ASTUnit := mkASTUnit {
  au_files : list string;
  au_visited : list Decl;
  au_getLocation : string -> Z -> Z -> Loc
}.

(** [findFileEntry(const std::string &)] *)
Definition findFileEntry_path (unit : ASTUnit) (filePath : string) : option string :=
  find_first (String.eqb filePath) (au_files unit).

Definition findFileEntry (unit : ASTUnit) (point : MutationPoint) : outcome (option string) :=
  let location := sourceLocation point in
  _ ← require (negb (isNull location)) "Missing debug information?";
  mret (match findFileEntry_path unit (filePath location) with
        | Some file => Some file
        | None => findFileEntry_path unit (unitFilePath location)
        end).

Definition getLocation (unit : ASTUnit) (point : MutationPoint) : outcome Loc :=
  entry ← findFileEntry unit point;
  file ← of_option "file" entry;
  let mutantLocation := sourceLocation point in
  _ ← require (negb (isNull mutantLocation)) "!mutantLocation.isNull()";
  let location := au_getLocation unit file (line mutantLocation) (column mutantLocation) in
  _ ← require (loc_valid location) "location.isValid()";
  mret location.

Section Detector.
Context `{FileSystem}.
(** Parsing with the flags of the compilation database; nothing when clang
    gives up on the file.  [findAST] keeps what it parsed, so asking twice
    is asking once. *)
Context (parse : string -> option ASTUnit).
Context (variable : DeclId -> option VarDecl) (fuel : nat).

(** [findAST(point)]: a unit that could not be parsed is a null pointer in
    the object returned, which every use dereferences. *)
Definition findAST (point : MutationPoint) : outcome ASTUnit :=
  _ ← require (negb (isNull (sourceLocation point))) "Missing debug information?";
  of_option "null ASTUnit" (parse (unitFilePath (sourceLocation point))).

Definition isJunkMutation (v : Visitor) (storage : ASTMutationStorage) (point : MutationPoint)
    : outcome (bool * ASTMutationStorage) :=
  ast ← findAST point;
  location ← getLocation ast point;
  if loc_systemHeader location then mret (true, storage)
  else
    match getDecl (recordDeclarations (au_visited ast)) location with
    | None => mret (true, storage)
    | Some decl =>
        found ← TraverseDecl (visit_with variable fuel v location) None (decl_nodes decl);
        match found with
        | Some mutantExpression =>
            let sourceFile := unitFilePath (sourceLocation point) in
            storage ← saveMutation storage sourceFile (mutatorKind (mutator point)) mutantExpression
                        (loc_line location) (loc_column location);
            mret (false, storage)
        | None => mret (true, storage)
        end
    end.
End Detector.

(** The switch of [isJunk]. *)
Definition visitor_of (k : MutatorKind) : Visitor :=
  match k with
  | MutatorKind.RemoveVoidFunctionMutator => RemoveVoidFunctionVisitor
  | MutatorKind.ReplaceCallMutator => ReplaceCallVisitor
  | MutatorKind.NegateMutator => NegateConditionVisitor
  | MutatorKind.ScalarValueMutator => ScalarValueVisitor
  | CXX_LessThanToLessOrEqual => BinaryVisitor BO_LT
  | CXX_LessOrEqualToLessThan => BinaryVisitor BO_LE
  | CXX_GreaterThanToGreaterOrEqual => BinaryVisitor BO_GT
  | CXX_GreaterOrEqualToGreaterThan => BinaryVisitor BO_GE
  | CXX_EqualToNotEqual => BinaryVisitor BO_EQ
  | CXX_NotEqualToEqual => BinaryVisitor BO_NE
  | CXX_GreaterThanToLessOrEqual => BinaryVisitor BO_GT
  | CXX_GreaterOrEqualToLessThan => BinaryVisitor BO_GE
  | CXX_LessThanToGreaterOrEqual => BinaryVisitor BO_LT
  | CXX_LessOrEqualToGreaterThan => BinaryVisitor BO_LE
  | CXX_AddToSub => BinaryVisitor BO_Add
  | CXX_AddAssignToSubAssign => BinaryVisitor BO_AddAssign
  | CXX_PreIncToPreDec => UnaryVisitor UO_PreInc
  | CXX_PostIncToPostDec => UnaryVisitor UO_PostInc
  | CXX_SubToAdd => BinaryVisitor BO_Sub
  | CXX_SubAssignToAddAssign => BinaryVisitor BO_SubAssign
  | CXX_PreDecToPreInc => UnaryVisitor UO_PreDec
  | CXX_PostDecToPostInc => UnaryVisitor UO_PostDec
  | CXX_MulToDiv => BinaryVisitor BO_Mul
  | CXX_MulAssignToDivAssign => BinaryVisitor BO_MulAssign
  | CXX_DivToMul => BinaryVisitor BO_Div
  | CXX_DivAssignToMulAssign => BinaryVisitor BO_DivAssign
  | CXX_RemToDiv => BinaryVisitor BO_Rem
  | CXX_RemAssignToDivAssign => BinaryVisitor BO_RemAssign
  | CXX_BitwiseNotToNoop => UnaryVisitor UO_Not
  | CXX_UnaryMinusToNoop => UnaryVisitor UO_Minus
  | CXX_LShiftToRShift => BinaryVisitor BO_Shl
  | CXX_LShiftAssignToRShiftAssign => BinaryVisitor BO_ShlAssign
  | CXX_RShiftToLShift => BinaryVisitor BO_Shr
  | CXX_RShiftAssignToLShiftAssign => BinaryVisitor BO_ShrAssign
  | CXX_Bitwise_AndToOr => BinaryVisitor BO_And
  | CXX_Bitwise_AndAssignToOrAssign => BinaryVisitor BO_AndAssign
  | CXX_Bitwise_OrToAnd => BinaryVisitor BO_Or
  | CXX_Bitwise_OrAssignToAndAssign => BinaryVisitor BO_OrAssign
  | CXX_Bitwise_XorToOr => BinaryVisitor BO_Xor
  | CXX_Bitwise_XorAssignToOrAssign => BinaryVisitor BO_XorAssign
  | CXX_AssignConst => BinaryVisitor BO_Assign
  | CXX_InitConst => VarDeclVisitor
  | CXX_Logical_AndToOr => BinaryVisitor BO_LAnd
  | CXX_Logical_OrToAnd => BinaryVisitor BO_LOr
  end.

Definition isJunk `{FileSystem} (parse : string -> option ASTUnit) (variable : DeclId -> option VarDecl) (fuel : nat)
    (storage : ASTMutationStorage) (point : MutationPoint) : outcome (bool * ASTMutationStorage) :=
  if isNull (sourceLocation point) then mret (true, storage)
  else isJunkMutation parse variable fuel (visitor_of (mutatorKind (mutator point))) storage point.

(** JunkMutationFilter *)
Definition JunkMutationFilter_shouldSkip `{FileSystem} := isJunk.

(** ** Binary search *)

(** The elements below a border compare less, the others do not. *)
Definition partitioned {A} (less : A -> bool) (l : list A) (border : nat) : Prop :=
  border <= length l /\ forall i x, l !! i = Some x -> less x = Nat.ltb i border.

Lemma lower_bound_spec {A} (less : A -> bool) (l : list A) border fuel first len :
  partitioned less l border -> first <= border -> border <= first + len -> first + len <= length l -> len < fuel ->
  lower_bound fuel less l first len = border.
Proof.
  intros [Hb Hp]. revert first len. induction fuel as [|fuel IH]; intros first len H1 H2 H3 H4; [lia|]. cbn [lower_bound].
  destruct (Nat.eqb_spec len 0) as [->|Hlen]; [lia|].
  assert (Hhalf : len / 2 < len) by (apply Nat.div_lt; lia).
  destruct (lookup_lt_is_Some_2 l (first + len / 2)) as [x Hx]; [lia|]. rewrite Hx, (Hp _ _ Hx).
  destruct (Nat.ltb_spec (first + len / 2) border); apply IH; lia.
Qed.

(** ** Declarations in order *)

(** Ranges one after the other, each possibly a single position. *)
Definition ordered (decls : list Decl) : Prop :=
  Forall (fun d => (loc_order (decl_begin d) <= loc_order (decl_end d))%Z) decls /\
  StronglySorted (fun a b => (loc_order (decl_end a) < loc_order (decl_begin b))%Z) decls.

Definition contains (d : Decl) (location : Loc) : Prop :=
  (loc_order (decl_begin d) < loc_order location < loc_order (decl_end d))%Z.

(** A strongly sorted list relates its elements by position. *)
Lemma StronglySorted_lookup {A} (R : A -> A -> Prop) l i j x y :
  StronglySorted R l -> l !! i = Some x -> l !! j = Some y -> i < j -> R x y.
Proof.
  intros Hs. revert i j. induction Hs as [|a l Hs IH Ha]; intros i j Hi Hj Hlt; [done|].
  destruct j as [|j]; [lia|]. destruct i as [|i]; cbn in Hi, Hj.
  - injection Hi as <-. rewrite Forall_forall in Ha. by apply Ha; eapply list_elem_of_lookup_2.
  - apply (IH i j); [done..|lia].
Qed.

Lemma ordered_partition decls location :
  ordered decls ->
  exists border, partitioned (fun decl => before (decl_end decl) location) decls border.
Proof.
  intros [Hr Hs]. induction decls as [|d decls IH]; [by exists 0|].
  apply Forall_cons in Hr as [Hd Hr]. apply StronglySorted_inv in Hs as [Hs Hall].
  destruct (IH Hr Hs) as (border & Hb & Hp). destruct (before (decl_end d) location) eqn:E.
  - exists (S border). split; [cbn; lia|]. intros [|i] x Hx; cbn in Hx; [by injection Hx as <-|]. by apply Hp.
  - exists 0. split; [lia|]. intros i x Hx. change (i <? 0) with false.
    unfold before in *. apply Z.ltb_ge in E. apply Z.ltb_ge.
    destruct i as [|i]; cbn in Hx; [by injection Hx as <-|].
    rewrite Forall_forall in Hall, Hr. apply list_elem_of_lookup_2 in Hx.
    specialize (Hall _ Hx). specialize (Hr _ Hx). lia.
Qed.

Lemma getDecl_ordered decls location d :
  ordered decls -> getDecl decls location = Some d <-> d ∈ decls /\ contains d location.
Proof.
  intros Hord. destruct (ordered_partition decls location Hord) as (border & Hpart).
  assert (Hgd : getDecl decls location =
    match decls !! border with
    | Some lower => if before (decl_begin lower) location && before location (decl_end lower) then Some lower else None
    | None => None
    end).
  { unfold getDecl. destruct decls as [|d0 decls0] eqn:E; [done|]. rewrite <-E in *.
    rewrite (lower_bound_spec _ _ border); [done|done|lia|apply Hpart|lia|lia]. }
  rewrite Hgd. unfold contains, before. destruct Hpart as [Hb Hp]. split.
  - destruct (decls !! border) as [lower|] eqn:Hl; [|done].
    destruct (loc_order (decl_begin lower) <? loc_order location)%Z eqn:E1; [|done].
    destruct (loc_order location <? loc_order (decl_end lower))%Z eqn:E2; [|done]. intros [= <-].
    apply Z.ltb_lt in E1, E2. split; [by eapply list_elem_of_lookup_2|done].
  - intros [Hin [H1 H2]]. apply list_elem_of_lookup in Hin as [i Hi].
    assert (Hge : border <= i).
    { pose proof (Hp i d Hi) as Hless. unfold before in Hless. destruct (Nat.ltb_spec i border); [|done].
      apply Z.ltb_lt in Hless. lia. }
    assert (Heq : border = i).
    { destruct (decide (border = i)) as [|Hne]; [done|]. exfalso.
      destruct (lookup_lt_is_Some_2 decls border) as [x Hx]; [apply lookup_lt_Some in Hi; lia|].
      pose proof (Hp border x Hx) as Hless. rewrite Nat.ltb_irrefl in Hless. unfold before in Hless. apply Z.ltb_ge in Hless.
      destruct Hord as [_ Hs]. pose proof (StronglySorted_lookup _ _ _ _ _ _ Hs Hx Hi ltac:(lia)) as Hlt. cbn in Hlt. lia. }
    subst i. rewrite Hi. by rewrite (proj2 (Z.ltb_lt _ _) H1), (proj2 (Z.ltb_lt _ _) H2).
Qed.

(** ** What recordDeclarations keeps *)

(** The declarations [addDecl] records. *)
Definition recordable (d : Decl) : bool := decl_hasBody d && negb (loc_systemHeader (decl_begin d)).

Lemma foldl_addDecl visited acc : foldl addDecl acc visited = acc ++ List.filter recordable visited.
Proof.
  revert acc. induction visited as [|d visited IH]; intros acc; cbn; [by rewrite app_nil_r|].
  rewrite IH. unfold addDecl, recordable.
  destruct (decl_hasBody d), (loc_systemHeader (decl_begin d)); cbn; rewrite <-?app_assoc; done.
Qed.

(** [outer] covers [inner]. *)
Definition covers (outer inner : Decl) : Prop :=
  (loc_order (decl_begin outer) <= loc_order (decl_begin inner))%Z /\
  (loc_order (decl_end inner) <= loc_order (decl_end outer))%Z.

Definition disjoint_ranges (a b : Decl) : Prop :=
  (loc_order (decl_end a) < loc_order (decl_begin b))%Z \/ (loc_order (decl_end b) < loc_order (decl_begin a))%Z.

(** Declarations nest like the source text does: two of them are apart or one
    is within the other, and two that begin together end together (a function
    template begins with its [template] keyword, before the function in it). *)
Definition nested_ranges (decls : list Decl) : Prop :=
  Forall (fun d => (loc_order (decl_begin d) <= loc_order (decl_end d))%Z) decls /\
  forall a b, a ∈ decls -> b ∈ decls ->
    (disjoint_ranges a b \/ covers a b \/ covers b a) /\
    (loc_order (decl_begin a) = loc_order (decl_begin b) -> loc_order (decl_end a) = loc_order (decl_end b)).

Lemma nested_ranges_proper decls decls' :
  (forall d, d ∈ decls' -> d ∈ decls) -> nested_ranges decls -> nested_ranges decls'.
Proof.
  intros Hsub [Hr Hn]. split; [|by intros a b Ha Hb; apply Hn; apply Hsub].
  rewrite Forall_forall in *. intros d Hd. by apply Hr, Hsub.
Qed.

Lemma uniqueComparator_false a b :
  uniqueComparator a b = false <-> (loc_order (decl_end a) < loc_order (decl_begin b))%Z.
Proof. unfold uniqueComparator, before. rewrite negb_false_iff. apply Z.ltb_lt. Qed.

Lemma sort_le_iff a b : sort_le a b <-> (loc_order (decl_begin a) <= loc_order (decl_begin b))%Z.
Proof. unfold sort_le, before. apply Z.ltb_ge. Qed.

#[global] Instance sort_le_trans : Transitive sort_le.
Proof. intros a b c. rewrite !sort_le_iff. lia. Qed.

#[global] Instance sort_le_total : Total sort_le.
Proof. intros a b. rewrite !sort_le_iff. lia. Qed.

Lemma unique_after_sub {A} (same : A -> A -> bool) last l x : x ∈ unique_after same last l -> x ∈ l.
Proof.
  revert last. induction l as [|y l IH]; intros last; cbn; [done|].
  destruct (same last y); [by intros H; right; eapply IH|].
  rewrite !elem_of_cons. intros [->|H]; [by left|right; by eapply IH].
Qed.

Lemma unique_after_ordered last l :
  StronglySorted sort_le (last :: l) ->
  Forall (fun d => (loc_order (decl_begin d) <= loc_order (decl_end d))%Z) (last :: l) ->
  StronglySorted (fun a b => (loc_order (decl_end a) < loc_order (decl_begin b))%Z)
    (last :: unique_after uniqueComparator last l).
Proof.
  revert last. induction l as [|y l IH]; intros last Hs Hr; cbn; [by repeat constructor|].
  apply StronglySorted_inv in Hs as [Hs Hall]. apply Forall_cons in Hr as [Hl Hr].
  pose proof Hall as Hall'. apply Forall_cons in Hall' as [Hy Hall'].
  destruct (uniqueComparator last y) eqn:E.
  - apply StronglySorted_inv in Hs as [Hs _]. apply Forall_cons in Hr as [_ Hr].
    apply IH; [by constructor|by constructor].
  - apply uniqueComparator_false in E. pose proof (IH y Hs Hr) as Hrest. constructor; [done|].
    constructor; [done|]. apply Forall_forall. intros z Hz. apply unique_after_sub in Hz.
    apply StronglySorted_inv in Hs as [_ Hyl]. rewrite Forall_forall in Hyl. specialize (Hyl z Hz).
    apply sort_le_iff in Hyl. lia.
Qed.

Lemma unique_after_covers last l x :
  StronglySorted sort_le (last :: l) -> nested_ranges (last :: l) -> x ∈ last :: l ->
  exists d, d ∈ last :: unique_after uniqueComparator last l /\ covers d x.
Proof.
  revert last. induction l as [|y l IH]; intros last Hs Hn Hx.
  - apply list_elem_of_singleton in Hx as ->. exists last. split; [by left|unfold covers; lia].
  - apply elem_of_cons in Hx as [->|Hx]; [exists last; split; [by left|unfold covers; lia]|]. cbn.
    pose proof Hs as Hs'. apply StronglySorted_inv in Hs' as [Hs' Hall].
    destruct (uniqueComparator last y) eqn:E.
    + assert (Hly : covers last y).
      { destruct Hn as [Hr Hn]. destruct (Hn last y) as [Hc Heq]; [by left|by right; left|].
        apply Forall_cons in Hall as [Hb _]. apply sort_le_iff in Hb.
        apply Forall_cons in Hr as [_ Hr]. apply Forall_cons in Hr as [Hy _].
        assert (~ (loc_order (decl_end last) < loc_order (decl_begin y))%Z) by (intros H; apply uniqueComparator_false in H; congruence).
        unfold covers, disjoint_ranges in *. destruct Hc as [[?|?]|[?|?]]; lia. }
      apply elem_of_cons in Hx as [->|Hx]; [exists last; split; [by left|done]|].
      apply IH; [..|by right].
      * apply StronglySorted_inv in Hs' as [Hs' _]. apply Forall_cons in Hall as [_ Hall]. by constructor.
      * eapply nested_ranges_proper; [|exact Hn]. intros d. rewrite !elem_of_cons. naive_solver.
    + destruct (IH y Hs') as (d & Hd & Hc); [|done|exists d; split; [by right|done]].
      eapply nested_ranges_proper; [|exact Hn]. intros d. rewrite !elem_of_cons. naive_solver.
Qed.

Lemma elem_of_recordable visited d :
  d ∈ merge_sort sort_le (foldl addDecl [] visited) <-> d ∈ visited /\ recordable d = true.
Proof.
  rewrite merge_sort_Permutation, foldl_addDecl. cbn. rewrite !list_elem_of_In, filter_In. done.
Qed.

Lemma recordDeclarations_spec visited :
  nested_ranges (List.filter recordable visited) ->
  ordered (recordDeclarations visited) /\
  (forall d, d ∈ recordDeclarations visited -> d ∈ visited /\ recordable d = true) /\
  (forall x, x ∈ visited -> recordable x = true -> exists d, d ∈ recordDeclarations visited /\ covers d x).
Proof.
  intros Hn. unfold recordDeclarations.
  pose proof (StronglySorted_merge_sort sort_le (foldl addDecl [] visited)) as Hs.
  pose proof (elem_of_recordable visited) as Hin.
  assert (Hn' : nested_ranges (merge_sort sort_le (foldl addDecl [] visited))).
  { eapply nested_ranges_proper; [|exact Hn]. intros d. by rewrite Hin, !list_elem_of_In, filter_In. }
  destruct (merge_sort sort_le (foldl addDecl [] visited)) as [|d0 l]; cbn [std_unique].
  - split; [split; constructor|]. split; [by intros d ?%elem_of_nil|]. intros x Hx Hr.
    exfalso. by apply (elem_of_nil x), Hin.
  - assert (Hsub : forall d, d ∈ d0 :: unique_after uniqueComparator d0 l -> d ∈ d0 :: l).
    { intros d. rewrite !elem_of_cons. intros [?|?%unique_after_sub]; auto. }
    split; [split|split].
    + destruct Hn' as [Hr _]. rewrite Forall_forall in *. auto.
    + apply unique_after_ordered; [done|apply Hn'].
    + intros d Hd. by apply Hin, Hsub.
    + intros x Hx Hr. by apply unique_after_covers; [..|apply Hin].
Qed.

(** A point's declaration is found when there is one.  Whatever order clang
    visits the functions in, the declaration [getDecl] returns is one that has a
    body, is not from a system header and strictly contains the location; and
    if any such declaration contains the location, one that covers it is
    returned: sorting, dropping the nested ones and the binary search over the
    ends of the ranges lose nothing. *)
Theorem getDecl_finds (visited : list Decl) (location : Loc)
    (Hnested : nested_ranges (List.filter recordable visited)) :
  (forall d, getDecl (recordDeclarations visited) location = Some d ->
     d ∈ visited /\ recordable d = true /\ contains d location) /\
  (forall d, d ∈ visited -> recordable d = true -> contains d location ->
     exists outer, getDecl (recordDeclarations visited) location = Some outer /\ covers outer d).
Proof.
  destruct (recordDeclarations_spec visited Hnested) as (Hord & Hsub & Hcov). split.
  - intros d Hd. apply getDecl_ordered in Hd as [Hd Hc]; [|done]. destruct (Hsub d Hd). auto.
  - intros d Hd Hr Hc. destruct (Hcov d Hd Hr) as (outer & Ho & Hco). exists outer. split; [|done].
    apply getDecl_ordered; [done|]. split; [done|]. unfold contains, covers in *. lia.
Qed.

(** ** Visitors that look for one node *)

Definition is_single (v : Visitor) : bool :=
  match v with
  | BinaryVisitor _ | UnaryVisitor _ | VarDeclVisitor | RemoveVoidFunctionVisitor => true
  | _ => false
  end.

(** The node at [location] such a visitor is after: the operator, the
    initialiser of the variable or the call of a function without a result. *)
Definition node_at (v : Visitor) (location : Loc) (n : Visit) : option Stmt :=
  match v, n with
  | BinaryVisitor opcode, VisitStmt e =>
      match stmt_class e with
      | BinaryOperator op operatorLoc =>
          if bool_decide (op = opcode /\ operatorLoc = location) then Some e else None
      | _ => None
      end
  | UnaryVisitor opcode, VisitStmt e =>
      match stmt_class e with
      | UnaryOperator op operatorLoc =>
          if bool_decide (op = opcode /\ operatorLoc = location) then Some e else None
      | _ => None
      end
  | VarDeclVisitor, VisitVarDecl decl =>
      if negb (var_declarationOnly decl) && bool_decide (var_location decl = location) then var_init decl else None
  | RemoveVoidFunctionVisitor, VisitStmt e =>
      match stmt_class e with
      | CallExpr class type exprLoc operatorLoc =>
          let places := match class with
                        | PlainCall => [stmt_begin e]
                        | CXXMemberCall => [stmt_begin e; exprLoc]
                        | CXXOperatorCall => [stmt_begin e; operatorLoc]
                        end in
          if isVoid type && bool_decide (location ∈ places) then Some e else None
      | _ => None
      end
  | _, _ => None
  end.

Lemma single_visit variable fuel v location n :
  is_single v = true ->
  visit_with variable fuel v location None n =
    Ok (match node_at v location n with Some e => (Some e, false) | None => (None, true) end).
Proof.
  intros Hv. destruct v as [op|op| | | | |]; try done; destruct n as [f|d|e]; try done; cbn [visit_with node_at].
  - unfold VisitBinaryOperator, at_loc. destruct (stmt_class e); try done. repeat case_bool_decide; naive_solver.
  - unfold VisitUnaryOperator, at_loc. destruct (stmt_class e); try done. repeat case_bool_decide; naive_solver.
  - unfold VisitVarDecl', at_loc. destruct (var_declarationOnly d); [done|]. cbn.
    destruct (var_init d); repeat case_bool_decide; done.
  - unfold VisitCallExprs, validCallExpr, at_loc. destruct (stmt_class e) as [| |class type el ol| | | | | | |]; try done.
    destruct (isVoid type), class; cbn; repeat case_bool_decide; set_solver.
Qed.

(** The traversal returns the first node of the declaration that fits, and the
    assertion that nothing was found before holds. *)
Lemma single_traverse variable fuel v location nodes :
  is_single v = true ->
  TraverseDecl (visit_with variable fuel v location) None nodes = Ok (head (omap (node_at v location) nodes)).
Proof.
  intros Hv. induction nodes as [|n nodes IH]; cbn [TraverseDecl omap list_omap]; [done|].
  rewrite single_visit by done. cbn. destruct (node_at v location n); [done|]. exact IH.
Qed.

Lemma head_omap_Some {A B} (f : A -> option B) l : is_Some (head (omap f l)) <-> exists x, x ∈ l /\ is_Some (f x).
Proof.
  induction l as [|a l IH]; cbn.
  - split; [by intros [? ?]|]. by intros (x & ?%elem_of_nil & _).
  - destruct (f a) eqn:E; cbn.
    + split; [intros _; exists a; split; [by left|by rewrite E]|by eexists].
    + rewrite IH. split; intros (x & Hx & Hf); exists x; (split; [|done]); [by right|].
      apply elem_of_cons in Hx as [->|Hx]; [|done]. rewrite E in Hf. by destruct Hf.
Qed.

(** Walking a declaration walks the declarations within it. *)
Definition walks_inner (visited : list Decl) : Prop :=
  forall a b, a ∈ visited -> b ∈ visited -> covers a b -> decl_nodes b ⊆ decl_nodes a.

(** The source has, at the location, a node the visitor is after, in a function
    with a body outside of the system headers. *)
Definition source_node (v : Visitor) (visited : list Decl) (location : Loc) : Prop :=
  exists d n, d ∈ visited /\ recordable d = true /\ contains d location /\
    n ∈ decl_nodes d /\ is_Some (node_at v location n).

Lemma found_source_node v visited location :
  nested_ranges (List.filter recordable visited) -> walks_inner visited ->
  (exists d, getDecl (recordDeclarations visited) location = Some d /\
     is_Some (head (omap (node_at v location) (decl_nodes d)))) <-> source_node v visited location.
Proof.
  intros Hn Hw. destruct (recordDeclarations_spec visited Hn) as (Hord & Hsub & Hcov). split.
  - intros (d & Hd & Hnode). apply getDecl_ordered in Hd as [Hd Hc]; [|done].
    destruct (Hsub d Hd) as [Hv Hr]. apply head_omap_Some in Hnode as (n & ? & ?). by exists d, n.
  - intros (d & n & Hd & Hr & Hc & Hin & Hnode). destruct (Hcov d Hd Hr) as (outer & Ho & Hco). exists outer. split.
    + apply getDecl_ordered; [done|]. split; [done|]. unfold contains, covers in *. lia.
    + apply head_omap_Some. exists n. split; [|done]. destruct (Hsub outer Ho). by apply (Hw outer d).
Qed.

Lemma saveMutation_Ok `{FileSystem} storage file kind e l c :
  source_file_ok file = true -> (0 < l)%Z -> (0 < c)%Z -> (l + c <= 46340)%Z ->
  exists storage', saveMutation storage file kind e l c = Ok storage'.
Proof.
  intros Hf Hl Hc Hlc. unfold saveMutation, record_mutation. rewrite Hf. cbn.
  rewrite lineColumnHash_spec by done. apply Z.leb_le in Hlc as ->. by eexists.
Qed.

Section Verdicts.
Context `{FileSystem} (parse : string -> option ASTUnit) (variable : DeclId -> option VarDecl) (fuel : nat).

(** C22: for the mutators of operators, initialisers and calls of void
    functions the verdict of the junk detector is exact: a point is kept if
    and only if the source has, at its location, a node of the mutator's sort
    inside a function with a body that is not from a system header; any other
    point is junk and leaves the record of mutations alone.  No assertion
    fails on the way. *)
Theorem junk_verdict (storage : ASTMutationStorage) (point : MutationPoint) (unit : ASTUnit) (location : Loc)
    (Hdebug : isNull (sourceLocation point) = false)
    (Hparse : parse (unitFilePath (sourceLocation point)) = Some unit)
    (Hlocation : getLocation unit point = Ok location)
    (Hfile : source_file_ok (unitFilePath (sourceLocation point)) = true)
    (Hposition : (0 < loc_line location /\ 0 < loc_column location /\ loc_line location + loc_column location <= 46340)%Z)
    (Hkind : is_single (visitor_of (mutatorKind (mutator point))) = true)
    (Hnested : nested_ranges (List.filter recordable (au_visited unit)))
    (Hwalk : walks_inner (au_visited unit)) :
  let expected := loc_systemHeader location = false /\
    source_node (visitor_of (mutatorKind (mutator point))) (au_visited unit) location in
  (expected -> exists storage', isJunk parse variable fuel storage point = Ok (false, storage')) /\
  (~ expected -> isJunk parse variable fuel storage point = Ok (true, storage)).
Proof.
  intros expected. unfold expected. rewrite <-(found_source_node _ _ _ Hnested Hwalk).
  unfold isJunk, isJunkMutation, findAST. rewrite Hdebug, Hparse. cbn [negb require of_option mbind outcome_bind].
  rewrite Hlocation. cbn [mbind outcome_bind]. destruct (loc_systemHeader location); [split; [by intros [? _]|done]|].
  destruct (getDecl _ location) as [d|]; [|split; [by intros (_ & ? & ? & _)|done]].
  rewrite single_traverse by done. cbn [mbind outcome_bind].
  destruct (head _) as [e|] eqn:Hnode; cbn [mbind outcome_bind].
  - split; [intros _|intros []; split; [done|]; exists d; by rewrite Hnode].
    destruct Hposition as (Hl & Hc & Hlc).
    destruct (saveMutation_Ok storage _ (mutatorKind (mutator point)) e _ _ Hfile Hl Hc Hlc) as [s' ->]. by exists s'.
  - split; [|done]. intros [_ (d' & [= <-] & Hd)]. rewrite Hnode in Hd. by destruct Hd.
Qed.
End Verdicts.

(** ** Constants *)
Section ConstantsFacts.
Context (variable : DeclId -> option VarDecl).

(** What the comment above [isConstant] says, with the two ways in which the
    initialiser of a variable can be one. *)
Inductive constant : Stmt -> Prop :=
  | constant_int s : stmt_class s = IntegerLiteral -> constant s
  | constant_float s : stmt_class s = FloatingLiteral -> constant s
  | constant_init s decl vd init :
      stmt_class s = DeclRefExpr decl -> variable decl = Some vd -> var_init vd = Some init ->
      constant (IgnoreImplicit init) -> constant s
  | constant_children s decl vd init :
      stmt_class s = DeclRefExpr decl -> variable decl = Some vd -> var_init vd = Some init ->
      (forall child, Some child ∈ stmt_children init -> constant (ignore_implicit_child child)) -> constant s.

(** What the search for constants looks at below a variable. *)
Definition parts (init : Stmt) : list Stmt :=
  IgnoreImplicit init :: map ignore_implicit_child (omap (fun child => child) (stmt_children init)).

(** No variable is initialised, directly or through others, from itself. *)
Definition acyclic (rank : DeclId -> nat) : Prop :=
  forall decl vd init s decl', variable decl = Some vd -> var_init vd = Some init -> s ∈ parts init ->
    stmt_class s = DeclRefExpr decl' -> rank decl' < rank decl.

(** Initialisers have no null children. *)
Definition no_null_children : Prop :=
  forall decl vd init, variable decl = Some vd -> var_init vd = Some init -> None ∉ stmt_children init.

(** The stack a statement needs. *)
Definition depth (rank : DeclId -> nat) (s : Stmt) : nat :=
  match stmt_class s with DeclRefExpr decl => S (rank decl) | _ => 0 end.

(** The loop over the children of an initialiser. *)
Definition all_constant (fuel : nat) : list (option Stmt) -> outcome bool :=
  fix children l : outcome bool :=
    match l with
    | [] => mret true
    | None :: _ => Abort "null child"
    | Some child :: rest =>
        c ← isConstant variable fuel (ignore_implicit_child child);
        if c : bool then children rest else mret false
    end.

Lemma all_constant_spec fuel l :
  None ∉ l ->
  (forall child, Some child ∈ l -> exists b, isConstant variable fuel (ignore_implicit_child child) = Ok b /\
     (b = true <-> constant (ignore_implicit_child child))) ->
  exists b, all_constant fuel l = Ok b /\
    (b = true <-> forall child, Some child ∈ l -> constant (ignore_implicit_child child)).
Proof.
  induction l as [|[child|] l IH]; intros Hnull Hl.
  - exists true. split; [done|]. split; [by intros _ child ?%elem_of_nil|done].
  - destruct (Hl child) as (b & Hb & Hiff); [by left|]. cbn. rewrite Hb. cbn. destruct b.
    + destruct IH as (b' & Hb' & Hiff'); [set_solver|intros c Hc; apply Hl; by right|].
      exists b'. split; [exact Hb'|]. rewrite Hiff'. split; [|intros H c Hc; apply H; by right].
      intros H c Hc. apply elem_of_cons in Hc as [[= ->]|Hc]; [by apply Hiff|by apply H].
    + exists false. split; [done|]. split; [done|]. intros H. apply Hiff, H. by left.
  - exfalso. apply Hnull. by left.
Qed.

Lemma constant_DeclRef_inv s decl :
  stmt_class s = DeclRefExpr decl -> constant s ->
  exists vd init, variable decl = Some vd /\ var_init vd = Some init /\
    (constant (IgnoreImplicit init) \/
     forall child, Some child ∈ stmt_children init -> constant (ignore_implicit_child child)).
Proof. intros Hs Hc. destruct Hc as [s Hc|s Hc|s d vd i Hc|s d vd i Hc]; rewrite Hs in Hc; simplify_eq; eauto 6. Qed.

Lemma isConstant_spec rank fuel s :
  acyclic rank -> no_null_children -> depth rank s < fuel ->
  exists b, isConstant variable fuel s = Ok b /\ (b = true <-> constant s).
Proof.
  intros Hac Hnn. revert s. induction fuel as [|fuel IH]; intros s Hf; [lia|].
  cbn [isConstant]. unfold depth in Hf.
  destruct (stmt_class s) as [| | | | |decl| | | |] eqn:Hs;
    try (exists false; split; [done|]; split; [done|]; intros Hc; inversion Hc; congruence).
  - exists true. split; [done|]. split; [by constructor 1|done].
  - exists true. split; [done|]. split; [by constructor 2|done].
  - destruct (variable decl) as [vd|] eqn:Hvd; cycle 1.
    { exists false. split; [done|]. split; [done|]. intros (vd & ? & ? & _)%(constant_DeclRef_inv _ _ Hs). congruence. }
    destruct (var_init vd) as [init|] eqn:Hi; cycle 1.
    { exists false. split; [done|]. split; [done|].
      intros (vd' & init & ? & ? & _)%(constant_DeclRef_inv _ _ Hs). congruence. }
    assert (Hdeep : forall p, p ∈ parts init -> depth rank p < fuel).
    { intros p Hp. unfold depth. destruct (stmt_class p) eqn:E; try lia.
      pose proof (Hac _ _ _ _ _ Hvd Hi Hp E). lia. }
    destruct (IH (IgnoreImplicit init)) as (b & Hb & Hiff); [apply Hdeep; by left|].
    change (fix children (l : list (option Stmt)) : outcome bool := _) with (all_constant fuel).
    rewrite Hb. cbn [mbind outcome_bind]. destruct b.
    { exists true. split; [done|]. split; [|done]. intros _. by eapply constant_init; [..|apply Hiff]. }
    destruct (all_constant_spec fuel (stmt_children init)) as (b' & Hb' & Hiff'); [by eapply Hnn| |].
    { intros child Hchild. apply IH, Hdeep. right. apply list_elem_of_fmap. exists child. split; [done|].
      apply list_elem_of_omap. by exists (Some child). }
    exists b'. split; [done|]. rewrite Hiff'. split; [by intros H; eapply constant_children|].
    intros (vd' & init' & ? & ? & [H|H])%(constant_DeclRef_inv _ _ Hs); simplify_eq; [|done].
    apply Hiff in H. done.
Qed.

(** The test for constants is what its comment describes, and it ends
    when no variable is initialised from itself: the stack it needs is the
    number of variables met on the way, and more stack changes nothing. *)
Theorem isConstant_correct (rank : DeclId -> nat) (s : Stmt)
    (Hacyclic : acyclic rank) (Hchildren : no_null_children) :
  exists b, (b = true <-> constant s) /\ forall fuel, depth rank s < fuel -> isConstant variable fuel s = Ok b.
Proof.
  destruct (isConstant_spec rank (S (depth rank s)) s Hacyclic Hchildren) as (b & _ & Hiff); [lia|].
  exists b. split; [done|]. intros fuel Hf.
  destruct (isConstant_spec rank fuel s Hacyclic Hchildren Hf) as (b' & Hb' & Hiff').
  rewrite Hb'. f_equal. apply eq_true_iff_eq. by rewrite Hiff', Hiff.
Qed.

(** But for a variable initialised from itself ([int a = a;] is valid) it
    recurses for ever, so it exhausts a stack of any size. *)
Theorem isConstant_self_reference (decl : DeclId) (vd : VarDecl) (init s : Stmt)
    (Hvariable : variable decl = Some vd) (Hinit : var_init vd = Some init)
    (Hself : stmt_class (IgnoreImplicit init) = DeclRefExpr decl) (Hs : stmt_class s = DeclRefExpr decl) :
  forall fuel, isConstant variable fuel s = Abort "stack overflow".
Proof.
  intros fuel. revert s Hs. induction fuel as [|fuel IH]; intros s Hs; [done|].
  cbn [isConstant]. rewrite Hs, Hvariable, Hinit. by rewrite (IH _ Hself).
Qed.
End ConstantsFacts.

(** ** Visitors that look for the smallest node around the location *)

Definition around (location : Loc) (e : Stmt) : Prop :=
  range_valid e = true /\ loc_isFileID location = true /\ loc_fileID location = loc_fileID (stmt_begin e) /\
  (loc_offset (stmt_begin e) <= loc_offset location <= loc_offset (stmt_end e))%Z.

(** [best] is a smallest of the expressions [P] around the location, if there
    is one. *)
Definition smallest (location : Loc) (P : Stmt -> Prop) (best : option Stmt) : Prop :=
  match best with
  | None => forall e, P e -> ~ around location e
  | Some b => P b /\ around location b /\ forall e, P e -> around location e -> (range_length b <= range_length e)%Z
  end.

Lemma smallest_proper location (P Q : Stmt -> Prop) best :
  (forall e, P e <-> Q e) -> smallest location P best -> smallest location Q best.
Proof. intros HPQ. destruct best; cbn; naive_solver. Qed.

Lemma locationInRange_spec location e :
  loc_valid location = true -> range_valid e = true ->
  exists b, locationInRange e location = Ok b /\ (b = true <-> around location e).
Proof.
  intros Hv Hr. pose proof Hr as Hr'. unfold range_valid in Hr'. apply andb_true_iff in Hr' as [Hb _].
  unfold locationInRange, around. destruct (loc_isFileID location) eqn:Hf.
  - rewrite Hv, Hb. eexists. split; [reflexivity|].
    rewrite !andb_true_iff, Nat.eqb_eq, !Z.leb_le. tauto.
  - exists false. split; [done|]. split; [done|]. by intros (_ & ? & _).
Qed.

Lemma visitRange_smallest location P best e :
  loc_valid location = true -> smallest location P best ->
  exists best', visitRangeWithASTExpr location best e = Ok best' /\ smallest location (fun x => P x \/ x = e) best'.
Proof.
  intros Hv Hbest. unfold visitRangeWithASTExpr. destruct (range_valid e) eqn:Hr; cbn [negb]; cycle 1.
  { exists best. split; [done|]. destruct best; cbn in *; unfold around in *; naive_solver congruence. }
  destruct (locationInRange_spec location e Hv Hr) as (b & -> & Hb). cbn [mbind outcome_bind]. destruct b; cycle 1.
  { exists best. split; [done|]. assert (~ around location e) by (intros H; by apply Hb in H).
    destruct best; cbn in *; naive_solver. }
  destruct Hb as [Hb _]. specialize (Hb eq_refl). destruct best as [best|]; cbn in Hbest.
  - destruct Hbest as (HP & Ha & Hmin). unfold isRangeSmallerThanRange. rewrite Hr, (proj1 Ha).
    cbn [require mbind outcome_bind]. eexists. split; [reflexivity|].
    destruct (Z.ltb_spec (range_length e) (range_length best)); [|destruct (Z.ltb_spec (range_length best) (range_length e))];
      cbn; (split; [tauto|split; [done|]]); intros x [Hx| ->] Hax; try (specialize (Hmin x Hx Hax)); lia.
  - eexists. split; [reflexivity|]. cbn. split; [by right|]. split; [done|].
    intros x [Hx| ->] Hax; [by apply Hbest in Hx|lia].
Qed.

Section RangeVisitors.
Context (variable : DeclId -> option VarDecl).

(** The expressions such a visitor considers in a node: the calls that return
    a number, the negations, the expressions with a constant operand. *)
Definition candidate (v : Visitor) (n : Visit) (e : Stmt) : Prop :=
  match v, n with
  | ReplaceCallVisitor, VisitStmt s =>
      s = e /\ exists class type exprLoc operatorLoc,
        stmt_class s = CallExpr class (Some type) exprLoc operatorLoc /\ isRealType type = true
  | NegateConditionVisitor, VisitStmt s => s = e /\ exists l, stmt_class s = UnaryOperator UO_LNot l
  | ScalarValueVisitor, VisitStmt s =>
      is_expr s = true /\ stmt_class s <> PredefinedExpr /\ IgnoreImplicit s = e /\
      exists child, Some child ∈ stmt_children e /\ constant variable (ignore_implicit_child child)
  | _, _ => False
  end.

Definition is_range_visitor (v : Visitor) : bool :=
  match v with ReplaceCallVisitor | NegateConditionVisitor | ScalarValueVisitor => true | _ => false end.

(** The stack suffices for the constants the traversal tests. *)
Definition enough_stack (rank : DeclId -> nat) (fuel : nat) (nodes : list Visit) : Prop :=
  forall s child, VisitStmt s ∈ nodes -> Some child ∈ stmt_children (IgnoreImplicit s) ->
    depth rank (ignore_implicit_child child) < fuel.

Lemma scalar_children_smallest rank fuel location e children P best :
  loc_valid location = true -> acyclic variable rank -> no_null_children variable ->
  (forall child, Some child ∈ children -> depth rank (ignore_implicit_child child) < fuel) ->
  smallest location P best ->
  exists best', fold_outcome (scalar_child variable fuel location e) best children = Ok best' /\
    smallest location (fun x => P x \/ (x = e /\ exists child, Some child ∈ children /\
      constant variable (ignore_implicit_child child))) best'.
Proof.
  intros Hv Hac Hnn. revert P best. induction children as [|[child|] children IH]; intros P best Hf Hbest.
  - exists best. split; [done|]. eapply smallest_proper; [|exact Hbest]. intros x. cbn.
    split; [by left|intros [?|(_ & c & ?%elem_of_nil & _)]; done].
  - cbn [fold_outcome scalar_child]. destruct (isConstant_spec variable rank fuel (ignore_implicit_child child) Hac Hnn)
      as (b & -> & Hb); [apply Hf; by left|]. cbn [mbind outcome_bind]. destruct b.
    + destruct (visitRange_smallest location P best e Hv Hbest) as (best1 & -> & Hbest1).
      cbn [mbind outcome_bind]. destruct (IH _ _ (fun c Hc => Hf c (list_elem_of_further _ _ _ Hc)) Hbest1) as (best2 & Hrun & Hbest2).
      exists best2. split; [exact Hrun|]. eapply smallest_proper; [|exact Hbest2]. intros x. cbn.
      setoid_rewrite elem_of_cons. naive_solver.
    + cbn [mret outcome_ret mbind outcome_bind].
      destruct (IH _ _ (fun c Hc => Hf c (list_elem_of_further _ _ _ Hc)) Hbest) as (best2 & Hrun & Hbest2).
      exists best2. split; [exact Hrun|]. eapply smallest_proper; [|exact Hbest2]. intros x. cbn.
      setoid_rewrite elem_of_cons. naive_solver.
  - cbn. destruct (IH _ _ (fun c Hc => Hf c (list_elem_of_further _ _ _ Hc)) Hbest) as (best2 & Hrun & Hbest2).
    exists best2. split; [exact Hrun|]. eapply smallest_proper; [|exact Hbest2]. intros x. cbn.
    setoid_rewrite elem_of_cons. naive_solver.
Qed.

Lemma smallest_none location v n (P : Stmt -> Prop) best :
  (forall x, ~ candidate v n x) -> smallest location P best ->
  smallest location (fun x => P x \/ candidate v n x) best.
Proof. intros Hno. apply smallest_proper. naive_solver. Qed.

Lemma smallest_one location v n e (P : Stmt -> Prop) best :
  (forall x, candidate v n x <-> x = e) -> smallest location (fun x => P x \/ x = e) best ->
  smallest location (fun x => P x \/ candidate v n x) best.
Proof. intros He. apply smallest_proper. naive_solver. Qed.

Lemma handleCallExpr_smallest location best s (P : Stmt -> Prop) t :
  loc_valid location = true -> isRealType t = true -> smallest location (fun x => P x) best ->
  exists best', handleCallExpr location best s (Some t) = Ok best' /\ smallest location (fun x => P x \/ x = s) best'.
Proof. intros Hv Ht Hbest. unfold handleCallExpr. rewrite Ht. by apply visitRange_smallest. Qed.

(** A call is considered once or twice. *)
Lemma VisitReplaceCall_step location s P best :
  loc_valid location = true -> smallest location P best ->
  exists best', VisitReplaceCall location best (VisitStmt s) = Ok (best', true) /\
    smallest location (fun x => P x \/ candidate ReplaceCallVisitor (VisitStmt s) x) best'.
Proof.
  intros Hv Hbest. unfold VisitReplaceCall.
  destruct (stmt_class s) as [| |class [t|] el ol| | | | | | |] eqn:Hs;
    try (exists best; split; [first [done|by destruct class]|]; apply smallest_none; [|done];
         intros x (_ & ? & ? & ? & ? & ? & _); congruence).
  destruct (isRealType t) eqn:Ht; cycle 1.
  { exists best. split; [unfold handleCallExpr; rewrite Ht; by destruct class|]. apply smallest_none; [|done].
    intros x (_ & ? & ? & ? & ? & ? & ?). congruence. }
  assert (Heq : forall x, candidate ReplaceCallVisitor (VisitStmt s) x <-> x = s).
  { intros x. split; [by intros [-> _]|intros ->]. split; [done|]. by exists class, t, el, ol. }
  destruct (handleCallExpr_smallest location best s P t) as (best1 & -> & Hbest1); [done..|].
  destruct (handleCallExpr_smallest location best1 s _ t Hv Ht Hbest1) as (best2 & Hrun & Hbest2).
  cbn [mbind outcome_bind]. destruct class.
  - exists best1. split; [done|]. by apply (smallest_one _ _ _ s).
  - rewrite Hrun. exists best2. split; [done|]. apply (smallest_one _ _ _ s); [done|].
    eapply smallest_proper; [|exact Hbest2]. naive_solver.
  - rewrite Hrun. exists best2. split; [done|]. apply (smallest_one _ _ _ s); [done|].
    eapply smallest_proper; [|exact Hbest2]. naive_solver.
Qed.

Lemma VisitNegation_step location s P best :
  loc_valid location = true -> smallest location P best ->
  exists best', VisitNegation location best (VisitStmt s) = Ok (best', true) /\
    smallest location (fun x => P x \/ candidate NegateConditionVisitor (VisitStmt s) x) best'.
Proof.
  intros Hv Hbest. unfold VisitNegation.
  destruct (stmt_class s) as [|op l| | | | | | | |] eqn:Hs; [| |..];
    try (exists best; split; [done|]; apply smallest_none; [|done]; intros x (_ & ? & ?); congruence).
  destruct op; try (exists best; split; [done|]; apply smallest_none; [|done]; intros x (_ & ? & ?); congruence).
  destruct (visitRange_smallest location P best s Hv Hbest) as (best1 & -> & Hbest1). exists best1. split; [done|].
  apply (smallest_one _ _ _ s); [|done]. intros x. split; [by intros [-> _]|intros ->]. split; [done|]. by exists l.
Qed.

Lemma VisitScalar_step rank fuel location s P best :
  loc_valid location = true -> acyclic variable rank -> no_null_children variable ->
  enough_stack rank fuel [VisitStmt s] -> smallest location P best ->
  exists best', VisitScalar variable fuel location best (VisitStmt s) = Ok (best', true) /\
    smallest location (fun x => P x \/ candidate ScalarValueVisitor (VisitStmt s) x) best'.
Proof.
  intros Hv Hac Hnn Hstack Hbest. unfold VisitScalar.
  destruct (is_expr s) eqn:He; cycle 1.
  { exists best. split; [done|]. apply smallest_none; [|done]. intros x (? & _). congruence. }
  destruct (scalar_children_smallest rank fuel location (IgnoreImplicit s) (stmt_children (IgnoreImplicit s)) P best)
    as (best1 & Hrun & Hbest1); [done..|intros child; apply Hstack; by left|done|].
  unfold scalar_visit. destruct (stmt_class s) eqn:Hs;
    try (exists best1; rewrite Hrun; split; [done|]; eapply smallest_proper; [|exact Hbest1];
         intros x; cbn; naive_solver congruence).
  exists best. split; [done|]. apply smallest_none; [|done]. by intros x (_ & ? & _).
Qed.

Lemma range_visit_step rank fuel v location n P best :
  is_range_visitor v = true -> loc_valid location = true -> acyclic variable rank -> no_null_children variable ->
  enough_stack rank fuel [n] -> smallest location P best ->
  exists best', visit_with variable fuel v location best n = Ok (best', true) /\
    smallest location (fun x => P x \/ candidate v n x) best'.
Proof.
  intros Hk Hv Hac Hnn Hstack Hbest. destruct n as [f|d|s];
    [exists best; destruct v; (split; [done|]; apply smallest_none; [by intros x Hx|done])..|].
  destruct v; try done; cbn [visit_with].
  - by apply VisitReplaceCall_step.
  - by apply VisitNegation_step.
  - by apply (VisitScalar_step rank).
Qed.

(** C23: for the mutators of calls, negations and constants, whose points have
    no node at exactly their location, the traversal of a function returns a
    smallest of the expressions of the mutator's sort around the location, and
    nothing when there is none: the order of the traversal does not matter for
    the size of the range. *)
Theorem range_visitor_smallest (rank : DeclId -> nat) (fuel : nat) (v : Visitor) (location : Loc) (nodes : list Visit)
    (Hvisitor : is_range_visitor v = true) (Hlocation : loc_valid location = true)
    (Hacyclic : acyclic variable rank) (Hchildren : no_null_children variable)
    (Hstack : enough_stack rank fuel nodes) :
  exists best, TraverseDecl (visit_with variable fuel v location) None nodes = Ok best /\
    smallest location (fun e => exists n, n ∈ nodes /\ candidate v n e) best.
Proof.
  enough (Hgen : forall P best, smallest location P best ->
    exists best', TraverseDecl (visit_with variable fuel v location) best nodes = Ok best' /\
      smallest location (fun e => P e \/ exists n, n ∈ nodes /\ candidate v n e) best').
  { destruct (Hgen (fun _ => False) None) as (best & Hrun & Hbest); [by intros e []|]. exists best. split; [done|].
    eapply smallest_proper; [|exact Hbest]. naive_solver. }
  induction nodes as [|n nodes IH]; intros P best Hbest.
  - exists best. split; [done|]. eapply smallest_proper; [|exact Hbest]. intros e.
    split; [by left|intros [?|(n & ?%elem_of_nil & _)]; done].
  - destruct (range_visit_step rank fuel v location n P best) as (best1 & Hrun & Hbest1); [done..| |done|].
    { intros s c Hs Hc. apply (Hstack s c); [|done]. apply list_elem_of_singleton in Hs as ->. by left. }
    cbn [TraverseDecl]. rewrite Hrun. cbn [mbind outcome_bind].
    destruct (IH (fun s c Hs => Hstack s c (list_elem_of_further _ _ _ Hs)) _ _ Hbest1) as (best2 & Hrun2 & Hbest2).
    exists best2. split; [done|]. eapply smallest_proper; [|exact Hbest2]. intros e. setoid_rewrite elem_of_cons. naive_solver.
Qed.
End RangeVisitors.

(** ** A concrete unit *)

(** [const int k = 2; int sum(int a) { auto f = [](int x) { return x + k; }; return f(a); }],
    one token a line. *)
Definition sample_ref : Stmt :=
  mkStmt 2 ImplicitExpr (sample_loc 3 14) (sample_loc 3 14)
    [Some (mkStmt 1 (DeclRefExpr 0) (sample_loc 3 14) (sample_loc 3 14) [])].
Definition sample_operand : Stmt := mkStmt 3 OtherExpr (sample_loc 3 9) (sample_loc 3 9) [].
Definition sample_addition : Stmt :=
  mkStmt 4 (BinaryOperator BO_Add (sample_loc 3 10)) (sample_loc 3 9) (sample_loc 3 14) [Some sample_operand; Some sample_ref].

Definition sample_nodes : list Visit := [VisitStmt sample_addition; VisitStmt sample_operand; VisitStmt sample_ref].

Definition sample_variables (decl : DeclId) : option VarDecl :=
  if Nat.eqb decl 0
  then Some (mkVarDecl (sample_loc 1 11) false
               (Some (mkStmt 0 IntegerLiteral (sample_loc 1 15) (sample_loc 1 15) [])))
  else None.

Definition sample_lambda : Decl := mkDecl 2 true (sample_loc 3 1) (sample_loc 3 30) sample_nodes.
Definition sample_sum : Decl := mkDecl 1 true (sample_loc 2 1) (sample_loc 5 1) (VisitFunctionDecl "sum" :: sample_nodes).
Definition sample_log : Decl := mkDecl 0 false (sample_loc 1 1) (sample_loc 1 9) [].

Definition sample_ast : ASTUnit := mkASTUnit ["/home/dev/sum.cpp"] [sample_lambda; sample_log; sample_sum] (fun _ => sample_loc).

Lemma sample_nested : nested_ranges [sample_lambda; sample_sum].
Proof.
  split; [repeat constructor; cbn; lia|].
  intros a b Ha Hb. rewrite !elem_of_cons, elem_of_nil in Ha, Hb. unfold disjoint_ranges, covers.
  destruct Ha as [-> |[-> |[]]], Hb as [-> |[-> |[]]]; cbn; lia.
Defined.

Lemma sample_walks : walks_inner (au_visited sample_ast).
Proof.
  intros a b Ha Hb [Hc1 Hc2]. cbn in Ha, Hb. rewrite !elem_of_cons, elem_of_nil in Ha, Hb.
  destruct Ha as [-> |[-> |[-> |[]]]], Hb as [-> |[-> |[-> |[]]]]; cbn in *; try lia; set_solver.
Defined.

Lemma getDecl_finds_witness :
  getDecl (recordDeclarations (au_visited sample_ast)) (sample_loc 3 10) = Some sample_sum /\
  exists outer, getDecl (recordDeclarations (au_visited sample_ast)) (sample_loc 3 10) = Some outer /\ covers outer sample_lambda.
Proof.
  split; [reflexivity|].
  apply (proj2 (getDecl_finds (au_visited sample_ast) (sample_loc 3 10) sample_nested) sample_lambda);
    [left|reflexivity|split; reflexivity].
Defined.

Definition sample_parse (file : string) : option ASTUnit :=
  if String.eqb file "/home/dev/sum.cpp" then Some sample_ast else None.

Lemma junk_verdict_witness :
  exists p, sample_point (Trivial cxx.AddToSub) = Ok p /\
    exists storage', isJunk sample_parse sample_variables 0 ∅ p = Ok (false, storage').
Proof.
  eexists. split; [reflexivity|].
  match goal with
  | |- exists s, isJunk _ _ _ _ ?p = _ =>
      refine (proj1 (junk_verdict sample_parse sample_variables 0 ∅ p sample_ast (sample_loc 3 10)
        eq_refl eq_refl eq_refl eq_refl _ eq_refl sample_nested sample_walks) _)
  end.
  - cbn. lia.
  - split; [reflexivity|]. exists sample_lambda, (VisitStmt sample_addition).
    split; [left|]. split; [reflexivity|]. split; [split; reflexivity|]. split; [left|]. by eexists.
Defined.

Lemma sample_acyclic : acyclic sample_variables (fun _ => 0).
Proof.
  intros decl vd init s decl' Hvd Hi Hs Hd. exfalso. unfold sample_variables in Hvd. destruct (Nat.eqb decl 0); [|done].
  simplify_eq/=. apply list_elem_of_singleton in Hs as ->. done.
Defined.

Lemma sample_no_null : no_null_children sample_variables.
Proof.
  intros decl vd init Hvd Hi. unfold sample_variables in Hvd. destruct (Nat.eqb decl 0); [|done].
  simplify_eq/=. apply not_elem_of_nil.
Defined.

Lemma isConstant_correct_witness :
  isConstant sample_variables 2 (IgnoreImplicit sample_ref) = Ok true /\
  exists b, (b = true <-> constant sample_variables (IgnoreImplicit sample_ref)) /\
    forall fuel, 1 < fuel -> isConstant sample_variables fuel (IgnoreImplicit sample_ref) = Ok b.
Proof.
  split; [reflexivity|].
  exact (isConstant_correct sample_variables (fun _ => 0) (IgnoreImplicit sample_ref) sample_acyclic sample_no_null).
Defined.

(** [int a = a;] *)
Definition sample_loop : VarDecl := mkVarDecl (sample_loc 1 5) false (Some sample_ref).

Lemma isConstant_self_reference_witness :
  isConstant (fun decl => if Nat.eqb decl 0 then Some sample_loop else None) 1000 (IgnoreImplicit sample_ref)
    = Abort "stack overflow".
Proof.
  apply (isConstant_self_reference _ 0 sample_loop sample_ref (IgnoreImplicit sample_ref) eq_refl eq_refl eq_refl eq_refl).
Defined.

Lemma range_visitor_smallest_witness :
  exists best, TraverseDecl (visit_with sample_variables 2 ScalarValueVisitor (sample_loc 3 10)) None sample_nodes = Ok best /\
    smallest (sample_loc 3 10) (fun e => exists n, n ∈ sample_nodes /\ candidate sample_variables ScalarValueVisitor n e) best.
Proof.
  apply (range_visitor_smallest sample_variables (fun _ => 0) 2 ScalarValueVisitor (sample_loc 3 10) sample_nodes
    eq_refl eq_refl sample_acyclic sample_no_null).
  intros s child _ _. unfold depth. destruct (stmt_class _); repeat constructor.
Defined.

Example scalar_of_sample :
  TraverseDecl (visit_with sample_variables 2 ScalarValueVisitor (sample_loc 3 10)) None sample_nodes = Ok (Some sample_addition).
Proof. reflexivity. Qed.
