(* ===== verification/Sandbox.v ===== *)
(** * The process sandbox (lib/Sandbox/ProcessSandbox.cpp)

    [ForkTimerSandbox::run] runs a test in a forked worker under a timer, waits
    for the worker and reads off how it ended.  The worker, a process running
    native code, is a step relation over what it writes and how it ends; the
    timer may strike at any of its steps.  The parent's part is executable: the
    status it reports and the output it reads from the pipes.  Processes,
    signals and pipes behave as POSIX says: a write to a full pipe waits, and a
    process that is waited for is reported once. *)

From stdpp Require Import base list strings relations.
From Stdlib Require Import ZArith Lia Bool Ascii.
From S2P Require Import Prelude StringFacts MutantExecution.

Definition MullExitCode : Z := 0.
Definition MullTimeoutCode : Z := 239.

(** ** The parent *)

(** The status [waitpid] delivers: eight bits of an exit code, or a signal. *)
Inductive WaitStatus :=
  | Exited (code : Z)
  | Signaled (signal : Z).

Definition exited (code : Z) : WaitStatus := Exited (code mod 256).

Definition WIFEXITED (w : WaitStatus) : bool := match w with Exited _ => true | _ => false end.
Definition WIFSIGNALED (w : WaitStatus) : bool := match w with Signaled _ => true | _ => false end.
Definition WEXITSTATUS (w : WaitStatus) : Z := match w with Exited code => code | Signaled _ => 0 end.

(** The cascade of conditions after [waitpid]. *)
Definition worker_status (sharedStatus : ExecutionStatus) (w : WaitStatus) : ExecutionStatus :=
  if WIFSIGNALED w then Crashed
  else if WIFEXITED w && Z.eqb (WEXITSTATUS w) MullTimeoutCode then Timedout
  else if WIFEXITED w && negb (Z.eqb (WEXITSTATUS w) MullExitCode) then AbnormalExit
  else if WIFEXITED w && Z.eqb (WEXITSTATUS w) MullExitCode && bool_decide (sharedStatus = Invalid) then Passed
  else sharedStatus.

(** [handle_timeout]: the seconds and microseconds of the timer.  [setitimer]
    rejects a negative value, and a zero value disarms the timer. *)
Definition timer_value (timeoutMilliseconds : Z) : Z * Z :=
  (Z.quot timeoutMilliseconds 1000, Z.rem timeoutMilliseconds 1000 * 1000)%Z.

Inductive Timer := Armed (microseconds : Z) | Disarmed | Rejected.

Definition setitimer (value : Z * Z) : Timer :=
  let '(tv_sec, tv_usec) := value in
  if Z.ltb tv_sec 0 || Z.ltb tv_usec 0 || Z.leb 1000000 tv_usec then Rejected
  else if Z.eqb tv_sec 0 && Z.eqb tv_usec 0 then Disarmed
  else Armed (tv_sec * 1000000 + tv_usec).

Definition handle_timeout (timeoutMilliseconds : Z) : Timer := setitimer (timer_value timeoutMilliseconds).

(** What successive calls of [read] return. *)
Inductive Reads :=
  | ReadEOF
  | ReadError
  | ReadBytes (chunk : string) (rest : Reads).

(** [Pipe::capture]: [output.append(buffer)] on the null-terminated buffer; a
    failed read returns -1, and [buffer[-1]] is written. *)
Fixpoint capture_loop (output : string) (reads : Reads) : outcome string :=
  match reads with
  | ReadEOF => mret output
  | ReadError => Abort "buffer[-1]"
  | ReadBytes chunk rest => capture_loop (output +:+ c_string chunk) rest
  end.

Definition capture (shouldCapture : bool) (reads : Reads) : outcome string :=
  if shouldCapture then capture_loop "" reads else mret "".

(** Reading a pipe nobody writes to any more delivers its bytes, at most seven
    at a time, then the end of file. *)
Inductive delivers : string -> Reads -> Prop :=
  | delivers_end : delivers "" ReadEOF
  | delivers_bytes chunk content rest :
      0 < String.length chunk <= 7 -> delivers content rest ->
      delivers (chunk +:+ content) (ReadBytes chunk rest).

(** ** The worker *)
Inductive Stream := Stdout | Stderr.

#[global] Instance Stream_eq_dec : EqDecision Stream.
Proof. solve_decision. Defined.

(** How the function run in the worker ends. *)
Inductive Ending :=
  | Returns (status : ExecutionStatus)
  | Exits (code : Z)
  | Raises (signal : Z)
  | NeverEnds.

(** The bytes it writes, in order, and its end. *)
Record Behaviour := mkBehaviour {
  writes : list (Stream * ascii);
  ending : Ending
}.

Inductive WorkerState :=
  | Running (todo : list (Stream * ascii))
  (** the status is stored, [_exit] is next *)
  | Returned
  | Ended (w : WaitStatus).

Record System := mkSystem {
  worker : WorkerState;
  sharedStatus : ExecutionStatus;
  pipe_of : Stream -> string
}.

Section Run.
Context (capacity : nat) (shouldCapture : bool) (timer : Timer) (b : Behaviour).

Definition put (pipe : Stream -> string) (s : Stream) (c : ascii) : Stream -> string :=
  fun t => if decide (s = t) then pipe t +:+ String c "" else pipe t.

(** The new mapping is zeroed, which is [Invalid].  A rejected timer ends the
    worker through [Diagnostics::error]. *)
Definition start : System :=
  mkSystem (match timer with Rejected => Ended (exited 1) | _ => Running (writes b) end) Invalid (fun _ => "").

Inductive step : System -> System -> Prop :=
  | step_write s c todo shared pipe :
      shouldCapture = true -> String.length (pipe s) < capacity ->
      step (mkSystem (Running ((s, c) :: todo)) shared pipe) (mkSystem (Running todo) shared (put pipe s c))
  | step_write_closed s c todo shared pipe :
      shouldCapture = false ->
      step (mkSystem (Running ((s, c) :: todo)) shared pipe) (mkSystem (Running todo) shared pipe)
  | step_return status shared pipe :
      ending b = Returns status ->
      step (mkSystem (Running []) shared pipe) (mkSystem Returned status pipe)
  | step_leave shared pipe :
      step (mkSystem Returned shared pipe) (mkSystem (Ended (exited MullExitCode)) shared pipe)
  | step_exit code shared pipe :
      ending b = Exits code ->
      step (mkSystem (Running []) shared pipe) (mkSystem (Ended (exited code)) shared pipe)
  | step_raise signal shared pipe :
      ending b = Raises signal ->
      step (mkSystem (Running []) shared pipe) (mkSystem (Ended (Signaled signal)) shared pipe)
  | step_alarm microseconds w shared pipe :
      timer = Armed microseconds -> (match w with Ended _ => False | _ => True end) ->
      step (mkSystem w shared pipe) (mkSystem (Ended (exited MullTimeoutCode)) shared pipe).

(** [ForkTimerSandbox::run]: a result the parent can return. *)
Inductive ForkTimerSandbox_run : ExecutionResult -> Prop :=
  | sandbox_result w shared pipe out err stdoutOutput stderrOutput runningTime :
      rtc step start (mkSystem (Ended w) shared pipe) ->
      delivers (pipe Stdout) out -> delivers (pipe Stderr) err ->
      capture shouldCapture out = Ok stdoutOutput -> capture shouldCapture err = Ok stderrOutput ->
      ForkTimerSandbox_run
        (mkExecutionResult (worker_status shared w) (WEXITSTATUS w) runningTime stdoutOutput stderrOutput).
End Run.

(** [ForkWatchdogSandbox::run] keeps the time in a process of its own and waits
    for the first of the two to end. *)
Definition watchdog_status (sharedStatus : ExecutionStatus) (w : WaitStatus) : ExecutionStatus :=
  if WIFSIGNALED w then Crashed
  else if WIFEXITED w && negb (Z.eqb (WEXITSTATUS w) MullExitCode) then AbnormalExit
  else if WIFEXITED w && Z.eqb (WEXITSTATUS w) MullExitCode && bool_decide (sharedStatus = Invalid) then Passed
  else sharedStatus.

Inductive exitedPID := timerPID | workerPID (status : WaitStatus).

(** What the watchdog leaves in the shared result. *)
Definition watchdog_result (sharedStatus : ExecutionStatus) (pid : exitedPID) : ExecutionStatus :=
  match pid with
  | timerPID => Timedout
  | workerPID status => watchdog_status sharedStatus status
  end.

(** The first process to end: the one that keeps the time may do so whatever
    the worker has come to, which is killed then. *)
Definition ends_first (pid : exitedPID) (st : System) : Prop :=
  match pid with
  | timerPID => True
  | workerPID status => worker st = Ended status
  end.

Inductive ForkWatchdogSandbox_run (capacity : nat) (shouldCapture : bool) (b : Behaviour) : ExecutionResult -> Prop :=
  | watchdog_run pid st out err stdoutOutput stderrOutput runningTime :
      rtc (step capacity shouldCapture Disarmed b) (start Disarmed b) st -> ends_first pid st ->
      delivers (pipe_of st Stdout) out -> delivers (pipe_of st Stderr) err ->
      capture shouldCapture out = Ok stdoutOutput -> capture shouldCapture err = Ok stderrOutput ->
      ForkWatchdogSandbox_run capacity shouldCapture b
        (mkExecutionResult (watchdog_result (sharedStatus st) pid) 0 runningTime stdoutOutput stderrOutput).

(** [NullProcessSandbox::run] *)
Definition NullProcessSandbox_run (function : outcome ExecutionStatus) : outcome ExecutionResult :=
  status ← function;
  mret (with_status status newExecutionResult).

(** ** The timer *)

(** A positive timeout arms the timer with exactly that time; zero disarms it. *)
Lemma handle_timeout_positive ms : (0 < ms)%Z -> handle_timeout ms = Armed (ms * 1000).
Proof.
  intros Hms. unfold handle_timeout, timer_value, setitimer.
  pose proof (Z.quot_rem' ms 1000) as Hqr. pose proof (Z.rem_bound_pos ms 1000 ltac:(lia) ltac:(lia)) as Hr.
  pose proof (Z.quot_pos ms 1000 ltac:(lia) ltac:(lia)) as Hq.
  set (q := Z.quot ms 1000) in *. set (r := Z.rem ms 1000) in *. clearbody q r.
  rewrite (proj2 (Z.ltb_ge q 0)), (proj2 (Z.ltb_ge (r * 1000) 0)), (proj2 (Z.leb_gt 1000000 (r * 1000))) by lia. cbn [orb].
  destruct (Z.eqb_spec q 0) as [->|]; [destruct (Z.eqb_spec (r * 1000) 0); [lia|]|]; cbn [andb]; f_equal; lia.
Qed.

Lemma handle_timeout_zero : handle_timeout 0 = Disarmed.
Proof. reflexivity. Qed.

(** ** The output *)

Fixpoint sent (l : list (Stream * ascii)) (s : Stream) : string :=
  match l with
  | [] => ""
  | (t, c) :: l => if decide (t = s) then String c (sent l s) else sent l s
  end.

Lemma sent_app l1 l2 s : sent (l1 ++ l2) s = sent l1 s +:+ sent l2 s.
Proof. induction l1 as [|[t c] l1 IH]; cbn; [done|]. rewrite IH. by destruct (decide (t = s)). Qed.


(** No null character is written. *)
Definition no_nul (l : list (Stream * ascii)) : Prop := forall s c, (s, c) ∈ l -> c <> nul.

Lemma sent_lacks l s : no_nul l -> lacks nul (sent l s) = true.
Proof.
  induction l as [|[t c] l IH]; intros Hn; [done|].
  assert (Hl : lacks nul (sent l s) = true) by (apply IH; intros t' c' Hin; apply (Hn t' c'); by right).
  cbn [sent]. destruct (decide (t = s)); [|done].
  change (negb (Ascii.eqb nul c) && lacks nul (sent l s) = true). rewrite Hl, andb_true_r.
  destruct (Ascii.eqb_spec nul c) as [<-|]; [|done]. exfalso. by apply (Hn t nul); [left|].
Qed.

(** Seven bytes at a time or fewer, what is read is what was written. *)
Lemma capture_loop_delivers content reads output :
  delivers content reads -> lacks nul content = true -> capture_loop output reads = Ok (output +:+ content).
Proof.
  intros Hd. revert output. induction Hd as [|chunk content rest Hlen Hd IH]; intros output Hn.
  - cbn. by rewrite string_app_nil_r.
  - unfold lacks in Hn. rewrite str_all_app in Hn. apply andb_true_iff in Hn as [H1 H2]. cbn.
    rewrite (c_string_lacks chunk H1), IH by exact H2. by rewrite string_app_assoc.
Qed.

(** ** What the worker can reach *)

(** How the worker ends when the timer leaves it the time. *)
Definition natural_end (e : Ending) : option (WaitStatus * ExecutionStatus) :=
  match e with
  | Returns status => Some (exited MullExitCode, status)
  | Exits code => Some (exited code, Invalid)
  | Raises signal => Some (Signaled signal, Invalid)
  | NeverEnds => None
  end.

(** The status that stands for it: leaving the process with code 0 passes. *)
Definition natural_status (e : Ending) : option ExecutionStatus :=
  match e with
  | Returns Invalid => Some Passed
  | Returns status => Some status
  | Exits code =>
      Some (if Z.eqb (code mod 256) MullTimeoutCode then Timedout
            else if Z.eqb (code mod 256) MullExitCode then Passed else AbnormalExit)
  | Raises _ => Some Crashed
  | NeverEnds => None
  end.

Lemma natural_status_end e w shared :
  natural_end e = Some (w, shared) -> natural_status e = Some (worker_status shared w).
Proof.
  destruct e as [status|code|signal|]; cbn; intros H; [| | |done]; injection H as <- <-.
  - by destruct status.
  - unfold worker_status, exited. cbn [WIFSIGNALED WIFEXITED WEXITSTATUS andb].
    destruct (Z.eqb (code mod 256) MullTimeoutCode); [done|]. by destruct (Z.eqb (code mod 256) MullExitCode).
  - done.
Qed.

Lemma natural_status_is_end e status :
  natural_status e = Some status -> exists w shared, natural_end e = Some (w, shared).
Proof. destruct e; cbn; intros; by eauto. Qed.

Section Reachable.
Context (capacity : nat) (shouldCapture : bool) (microseconds : Z) (b : Behaviour).

(** [dn] is what was written so far. *)
Definition worker_at (dn : list (Stream * ascii)) (st : System) : Prop :=
  exists todo, writes b = dn ++ todo /\
    (forall s, pipe_of st s = if shouldCapture then sent dn s else "") /\
    (shouldCapture = true -> forall s, String.length (sent dn s) <= capacity) /\
    match worker st with
    | Running t => t = todo /\ sharedStatus st = Invalid
    | Returned => todo = [] /\ ending b = Returns (sharedStatus st)
    | Ended w => (todo = [] /\ natural_end (ending b) = Some (w, sharedStatus st)) \/ w = exited MullTimeoutCode
    end.

Lemma worker_at_start : worker_at [] (start (Armed microseconds) b).
Proof. exists (writes b). split; [done|]. split; [by destruct shouldCapture|]. split; [cbn; lia|done]. Qed.

Lemma sent_snoc dn s c t : sent (dn ++ [(s, c)]) t = if decide (s = t) then sent dn t +:+ String c "" else sent dn t.
Proof. rewrite sent_app. cbn. destruct (decide (s = t)); [done|by rewrite string_app_nil_r]. Qed.

Lemma worker_at_write dn s c todo shared pipe :
  worker_at dn (mkSystem (Running ((s, c) :: todo)) shared pipe) ->
  (shouldCapture = true -> String.length (pipe s) < capacity) ->
  worker_at (dn ++ [(s, c)]) (mkSystem (Running todo) shared (if shouldCapture then put pipe s c else pipe)).
Proof.
  intros (rest & Hw & Hp & Hc & [<- Hs]) Hlt. exists todo. cbn [pipe_of worker sharedStatus] in *.
  split; [by rewrite <-app_assoc|]. split; [|split; [|done]].
  - intros t. rewrite sent_snoc. specialize (Hp t). destruct shouldCapture; [|done]. unfold put.
    by destruct (decide (s = t)); rewrite Hp.
  - intros Hcap t. rewrite sent_snoc. destruct (decide (s = t)) as [<-|]; [|by apply Hc].
    rewrite string_length_app. specialize (Hlt Hcap). rewrite Hp, Hcap in Hlt. cbn. lia.
Qed.

Lemma worker_at_step dn st st' :
  worker_at dn st -> step capacity shouldCapture (Armed microseconds) b st st' -> exists dn', worker_at dn' st'.
Proof.
  intros Hat Hstep. destruct Hstep as [s c todo shared pipe Hcap Hlt|s c todo shared pipe Hcap|status shared pipe He
    |shared pipe|code shared pipe He|signal shared pipe He|us w shared pipe _ Hw].
  - exists (dn ++ [(s, c)]). pose proof (worker_at_write dn s c todo shared pipe Hat (fun _ => Hlt)) as Hn.
    by rewrite Hcap in Hn.
  - exists (dn ++ [(s, c)]). pose proof (worker_at_write dn s c todo shared pipe Hat) as Hn.
    rewrite Hcap in Hn. by apply Hn.
  - destruct Hat as (todo & Hw & Hp & Hc & [<- _]). exists dn, []. done.
  - destruct Hat as (todo & Hw & Hp & Hc & [-> He]). exists dn, []. split; [done|]. split; [done|]. split; [done|].
    left. cbn in *. by rewrite He.
  - destruct Hat as (todo & Hw & Hp & Hc & [<- Hs]). exists dn, []. cbn in Hs. subst shared.
    split; [done|]. split; [done|]. split; [done|]. left. cbn. by rewrite He.
  - destruct Hat as (todo & Hw & Hp & Hc & [<- Hs]). exists dn, []. cbn in Hs. subst shared.
    split; [done|]. split; [done|]. split; [done|]. left. cbn. by rewrite He.
  - destruct Hat as (todo & Hwr & Hp & Hc & _). exists dn, todo. split; [done|]. split; [done|]. split; [done|]. by right.
Qed.

Lemma reachable_worker_at st :
  rtc (step capacity shouldCapture (Armed microseconds) b) (start (Armed microseconds) b) st -> exists dn, worker_at dn st.
Proof.
  apply (rtc_ind_r (fun st => exists dn, worker_at dn st)); [exists []; apply worker_at_start|].
  intros st1 st2 _ Hstep [dn Hdn]. by eapply worker_at_step.
Qed.

(** The writes can all be made when they fit. *)
Lemma writes_done dn todo shared pipe :
  worker_at dn (mkSystem (Running todo) shared pipe) ->
  (shouldCapture = true -> forall s, String.length (sent (writes b) s) <= capacity) ->
  exists pipe', rtc (step capacity shouldCapture (Armed microseconds) b)
      (mkSystem (Running todo) shared pipe) (mkSystem (Running []) shared pipe') /\
    worker_at (writes b) (mkSystem (Running []) shared pipe').
Proof.
  intros Hat Hfit. revert dn pipe Hat. induction todo as [|[s c] todo IH]; intros dn pipe Hat.
  - exists pipe. split; [done|]. pose proof Hat as (todo & Hw & _ & _ & [<- _]). rewrite app_nil_r in Hw. by rewrite Hw.
  - assert (Hroom : shouldCapture = true -> String.length (pipe s) < capacity).
    { intros Hcap. destruct Hat as (rest & Hw & Hp & _ & [<- _]). specialize (Hp s). rewrite Hcap in Hp. cbn in Hp.
      rewrite Hp. specialize (Hfit Hcap s). rewrite Hw, sent_app, string_length_app in Hfit. cbn in Hfit.
      destruct (decide (s = s)); [|done]. cbn in Hfit. lia. }
    destruct (IH _ _ (worker_at_write dn s c todo shared pipe Hat Hroom)) as (pipe' & Hrun & Hat').
    exists pipe'. split; [|done]. eapply rtc_l; [|exact Hrun].
    destruct shouldCapture eqn:Hcap; [apply step_write; auto|by apply step_write_closed].
Qed.
End Reachable.

Lemma some_reads content : exists reads, delivers content reads.
Proof.
  induction content as [|c content [reads IH]]; [exists ReadEOF; constructor|].
  exists (ReadBytes (String c "") reads). change (String c content) with (String c "" +:+ content).
  constructor; [cbn; lia|done].
Qed.

(** What the parent reads of a stream of which [content] was written. *)
Lemma capture_content (shouldCapture : bool) content reads output :
  delivers (if shouldCapture then content else "") reads -> lacks nul content = true ->
  capture shouldCapture reads = Ok output -> output = if shouldCapture then content else "".
Proof.
  intros Hd Hn. destruct shouldCapture; cbn; [|by intros [= <-]].
  rewrite (capture_loop_delivers _ _ "" Hd Hn). by intros [= <-].
Qed.

Lemma no_nul_prefix dn todo : no_nul (dn ++ todo) -> no_nul dn.
Proof. intros Hn s c Hin. apply (Hn s c), elem_of_app. by left. Qed.

Lemma worker_status_timeout shared : worker_status shared (exited MullTimeoutCode) = Timedout.
Proof. reflexivity. Qed.

(** From an end of the worker the parent returns a result. *)
Lemma run_of_end capacity (shouldCapture : bool) us b w shared pipe dn :
  rtc (step capacity shouldCapture (Armed us) b) (start (Armed us) b) (mkSystem (Ended w) shared pipe) ->
  no_nul (writes b) -> writes b = dn ++ drop (length dn) (writes b) ->
  (forall s, pipe s = if shouldCapture then sent dn s else "") ->
  exists r, ForkTimerSandbox_run capacity shouldCapture (Armed us) b r /\ status r = worker_status shared w.
Proof.
  intros Hrun Hn Hw Hp. destruct (some_reads (pipe Stdout)) as [out Hout]. destruct (some_reads (pipe Stderr)) as [err Herr].
  assert (Hread : forall s reads, delivers (pipe s) reads -> exists o, capture shouldCapture reads = Ok o).
  { intros s reads Hd. destruct shouldCapture; [|by eexists]. exists (pipe s). cbn.
    rewrite (capture_loop_delivers _ _ "" Hd); [done|]. rewrite Hp. apply sent_lacks. rewrite Hw in Hn. by eapply no_nul_prefix. }
  destruct (Hread _ _ Hout) as [o Ho]. destruct (Hread _ _ Herr) as [e He].
  eexists. split; [by apply (sandbox_result _ _ _ _ w shared pipe out err o e 0)|done].
Qed.

Lemma end_by_alarm capacity shouldCapture us b st :
  exists w, rtc (step capacity shouldCapture (Armed us) b) st (mkSystem (Ended w) (sharedStatus st) (pipe_of st)).
Proof.
  destruct st as [[todo| |w] shared pipe]; [exists (exited MullTimeoutCode)..|exists w]; cbn;
    [apply rtc_once, (step_alarm _ _ _ _ us); done..|done].
Qed.

(** C19: a run under the timer always comes to an end, and its result tells
    what happened: either the worker ended by itself, with the status it
    returned, [Crashed] after a signal, [Passed] or [AbnormalExit] after an exit
    of its own, and the captured output is all it wrote; or it was stopped, the
    status is [Timedout] and the captured output is what it had written so far.
    ([Timedout] is also reported for a worker that exits with the code of the
    timer; output is exact as long as no null character is written.) *)
Theorem ForkTimerSandbox_result capacity (shouldCapture : bool) timeout b :
  (0 < timeout)%Z -> no_nul (writes b) ->
  (forall st, rtc (step capacity shouldCapture (handle_timeout timeout) b) (start (handle_timeout timeout) b) st ->
     exists w shared pipe, rtc (step capacity shouldCapture (handle_timeout timeout) b) st (mkSystem (Ended w) shared pipe)) /\
  (exists r, ForkTimerSandbox_run capacity shouldCapture (handle_timeout timeout) b r) /\
  (forall r, ForkTimerSandbox_run capacity shouldCapture (handle_timeout timeout) b r ->
     exists dn todo, writes b = dn ++ todo /\
       (status r = Timedout \/ todo = [] /\ natural_status (ending b) = Some (status r)) /\
       stdoutOutput r = (if shouldCapture then sent dn Stdout else "") /\
       stderrOutput r = (if shouldCapture then sent dn Stderr else "")).
Proof.
  intros Htime Hn. rewrite handle_timeout_positive by done. split; [|split].
  - intros st _. destruct (end_by_alarm capacity shouldCapture (timeout * 1000) b st) as [w Hw]. eauto.
  - destruct (end_by_alarm capacity shouldCapture (timeout * 1000) b (start (Armed (timeout * 1000)) b)) as [w Hw].
    destruct (run_of_end _ _ _ _ _ _ _ [] Hw Hn) as (r & Hr & _); [done|by destruct shouldCapture|by exists r].
  - intros r [w shared pipe out err o e time Hrun Hout Herr Ho He].
    destruct (reachable_worker_at _ _ _ _ _ Hrun) as (dn & todo & Hw & Hp & _ & Hend). cbn [worker sharedStatus pipe_of] in *.
    exists dn, todo. split; [done|]. cbn [status stdoutOutput stderrOutput]. rewrite Hw in Hn. apply no_nul_prefix in Hn. split.
    + destruct Hend as [[-> Hnat]| ->]; [right|left; apply worker_status_timeout].
      split; [done|]. by apply natural_status_end.
    + rewrite Hp in Hout, Herr. split; (eapply capture_content; [eassumption|by apply sent_lacks|done]).
Qed.

(** C39: capturing output can change the verdict.  The parent reads the pipes
    only after the worker has ended, so a test that writes more than a pipe
    holds waits for ever and is reported as [Timedout], whatever it would have
    returned.  With its output closed, or with output that fits, the same test can
    report its own status: some run does (others may still be stopped by the
    timer). *)
Theorem full_pipe_times_out capacity (shouldCapture : bool) timeout b r result :
  (0 < timeout)%Z -> no_nul (writes b) -> natural_status (ending b) = Some result ->
  let fits := forall s, String.length (sent (writes b) s) <= capacity in
  (shouldCapture = true -> ~ fits ->
     ForkTimerSandbox_run capacity shouldCapture (handle_timeout timeout) b r -> status r = Timedout) /\
  (shouldCapture = false \/ fits ->
     exists r, ForkTimerSandbox_run capacity shouldCapture (handle_timeout timeout) b r /\ status r = result).
Proof.
  intros Htime Hn Hres fits. rewrite handle_timeout_positive by done. split.
  - intros Hcap Hfull [w shared pipe out err o e time Hrun _ _ _ _]. cbn [status].
    destruct (reachable_worker_at _ _ _ _ _ Hrun) as (dn & todo & Hw & _ & Hc & [[-> _]| ->]); [|apply worker_status_timeout].
    exfalso. apply Hfull. rewrite app_nil_r in Hw. intros s. rewrite Hw. by apply Hc.
  - intros Hfit. destruct (natural_status_is_end _ _ Hres) as (w & shared & Hend).
    destruct (writes_done capacity shouldCapture (timeout * 1000) b [] (writes b) Invalid (fun _ => "")) as (pipe & Hrun & Hat).
    { apply (worker_at_start capacity shouldCapture (timeout * 1000)). }
    { intros Hcap. destruct Hfit; [congruence|done]. }
    assert (Hlast : rtc (step capacity shouldCapture (Armed (timeout * 1000)) b) (mkSystem (Running []) Invalid pipe)
      (mkSystem (Ended w) shared pipe)).
    { destruct (ending b) eqn:He; cbn in Hend; [| | |done]; injection Hend as <- <-.
      - eapply rtc_l; [by apply step_return|]. apply rtc_once, step_leave.
      - by apply rtc_once, step_exit.
      - by apply rtc_once, step_raise. }
    destruct Hat as (todo & Hw & Hp & _).
    pose proof (transitivity Hrun Hlast) as Hall.
    destruct (run_of_end _ _ _ _ w shared pipe (writes b) Hall Hn) as (r' & Hr' & Hs);
      [by rewrite drop_all, app_nil_r|done|].
    exists r'. split; [done|]. rewrite Hs. apply natural_status_end in Hend. congruence.
Qed.

(** A test that prints "ab" and passes. *)
Definition sample_behaviour : Behaviour := mkBehaviour [(Stdout, "a"%char); (Stdout, "b"%char)] (Returns Passed).

Lemma sample_no_nul : no_nul (writes sample_behaviour).
Proof. intros s c [[= -> ->]|[[= -> ->]|H]%elem_of_cons]%elem_of_cons; [done|done|by apply elem_of_nil in H]. Defined.

Lemma ForkTimerSandbox_result_witness :
  exists r, ForkTimerSandbox_run 65536 true (handle_timeout 30) sample_behaviour r.
Proof. exact (proj1 (proj2 (ForkTimerSandbox_result 65536 true 30 sample_behaviour eq_refl sample_no_nul))). Defined.

(** With a pipe of one byte the test does not get through. *)
Lemma full_pipe_times_out_witness :
  (forall r, ForkTimerSandbox_run 1 true (handle_timeout 30) sample_behaviour r -> status r = Timedout) /\
  exists r, ForkTimerSandbox_run 1 false (handle_timeout 30) sample_behaviour r /\ status r = Passed.
Proof.
  split.
  - intros r. apply (proj1 (full_pipe_times_out 1 true 30 sample_behaviour r Passed eq_refl sample_no_nul eq_refl) eq_refl).
    intros Hfit. specialize (Hfit Stdout). vm_compute in Hfit. lia.
  - apply (proj2 (full_pipe_times_out 1 false 30 sample_behaviour newExecutionResult Passed eq_refl sample_no_nul eq_refl)).
    by left.
Defined.

(** What mutant execution asks of a sandbox: no result is [Invalid]. *)
Lemma ForkTimerSandbox_valid capacity shouldCapture timeout b r :
  (0 < timeout)%Z -> ForkTimerSandbox_run capacity shouldCapture (handle_timeout timeout) b r -> status r <> Invalid.
Proof.
  intros Htime. rewrite handle_timeout_positive by done. intros [w shared pipe out err o e time Hrun _ _ _ _]. cbn [status].
  destruct (reachable_worker_at _ _ _ _ _ Hrun) as (dn & todo & _ & _ & _ & [[_ Hend]| ->]); [|done].
  apply natural_status_end in Hend. cbn [sharedStatus] in Hend. intros Heq. rewrite Heq in Hend. clear -Hend.
  destruct (ending b) as [[]|code| |]; cbn in Hend; try done. repeat case_match; done.
Qed.

(** ** The two sandboxes with a timer *)
Section Sandboxes.
Context (capacity : nat) (shouldCapture : bool) (microseconds : Z) (b : Behaviour).

Abbreviation timed := (rtc (step capacity shouldCapture (Armed microseconds) b) (start (Armed microseconds) b)).
Abbreviation untimed := (rtc (step capacity shouldCapture Disarmed b) (start Disarmed b)).

(** An alarm only cuts a run short. *)
Lemma timed_untimed st :
  timed st ->
  untimed st \/ worker st = Ended (exited MullTimeoutCode) /\ exists st', untimed st' /\ pipe_of st' = pipe_of st.
Proof.
  intros H. pattern st. revert st H. apply rtc_ind_r; [by left|].
  intros st1 st2 _ Hstep [Hst1|(Hw & _)].
  - destruct Hstep; try (left; eapply rtc_r; [exact Hst1|]; by (constructor || (econstructor; eauto))).
    right. split; [done|]. by eexists.
  - destruct Hstep; cbn in Hw; try done. by subst w.
Qed.

Lemma untimed_timed st : untimed st -> timed st.
Proof.
  change (start Disarmed b) with (start (Armed microseconds) b). apply (rtc_subrel _ _).
  intros x y Hstep. destruct Hstep; try done; by (constructor || (econstructor; eauto)).
Qed.

(** Without the alarm the code of the timer is seen only when the test exits
    with it. *)
Lemma untimed_code st :
  untimed st -> worker st = Ended (exited MullTimeoutCode) ->
  exists code, ending b = Exits code /\ (code mod 256 = MullTimeoutCode)%Z.
Proof.
  intros H. pattern st. revert st H. apply rtc_ind_r; [done|].
  intros st1 st2 _ Hstep _. destruct Hstep; cbn; intros Hw; try done.
  injection Hw as Hw. by eauto.
Qed.

(** The pipes are as they were just before the worker ended. *)
Lemma before_the_end st :
  untimed st ->
  exists st', untimed st' /\ pipe_of st' = pipe_of st /\ (match worker st' with Ended _ => False | _ => True end).
Proof.
  intros H. pattern st. revert st H. apply rtc_ind_r; [by exists (start Disarmed b)|].
  intros st1 st2 Hst1 Hstep _. pose proof (rtc_r _ _ _ Hst1 Hstep) as Hst2.
  destruct Hstep; try done; first [by eexists; split; [exact Hst2|]|by eexists; split; [exact Hst1|]].
Qed.

Lemma statuses_agree shared w :
  w <> exited MullTimeoutCode -> watchdog_status shared w = worker_status shared w.
Proof.
  destruct w as [code|signal]; [|done]. unfold worker_status, watchdog_status, exited. cbn. intros Hne.
  destruct (Z.eqb_spec code MullTimeoutCode) as [->|]; [by contradiction Hne|done].
Qed.
End Sandboxes.

(** The two sandboxes that keep the time are interchangeable: whatever the
    test, unless it exits with the code of the timer, what one of them can
    report (status and output) the other can report too. *)
Theorem sandboxes_agree capacity shouldCapture timeout b statusReported output errors :
  (0 < timeout)%Z ->
  (forall code, ending b = Exits code -> (code mod 256)%Z <> MullTimeoutCode) ->
  let reported (r : ExecutionResult) := status r = statusReported /\ stdoutOutput r = output /\ stderrOutput r = errors in
  (exists r, ForkTimerSandbox_run capacity shouldCapture (handle_timeout timeout) b r /\ reported r) <->
  (exists r, ForkWatchdogSandbox_run capacity shouldCapture b r /\ reported r).
Proof.
  intros Htime Hcode reported. rewrite handle_timeout_positive by done. subst reported. cbn. split.
  - intros (r & [w shared pipe out err o e time Hrun Hout Herr Ho He] & Hs & <- & <-).
    cbn [status stdoutOutput stderrOutput] in *. destruct (timed_untimed _ _ _ _ _ Hrun) as [Hun|(Hw & st & Hun & Hp)].
    + eexists. split; [by apply (watchdog_run _ _ _ (workerPID w) _ out err o e 0 Hun)|].
      split; [|done]. cbn. rewrite <-Hs. apply statuses_agree. intros ->.
      destruct (untimed_code _ _ _ _ Hun eq_refl) as (code & Hend & Hmod). by apply (Hcode code).
    + cbn in Hw, Hp. injection Hw as ->. eexists.
      split; [apply (watchdog_run _ _ _ timerPID st out err o e 0 Hun I); by rewrite ?Hp|]. done.
  - intros (r & [pid st out err o e time Hrun Hpid Hout Herr Ho He] & Hs & <- & <-).
    cbn [status stdoutOutput stderrOutput] in *. pose proof (untimed_timed _ _ (timeout * 1000) _ _ Hrun) as Ht.
    destruct pid as [|w]; cbn in *.
    + destruct (before_the_end _ _ _ _ Hrun) as (st' & Hun & Hp & Hw).
      pose proof (untimed_timed _ _ (timeout * 1000) _ _ Hun) as Ht'.
      destruct st' as [w shared pipe]. cbn in Hp, Hw. subst pipe.
      exists (mkExecutionResult Timedout MullTimeoutCode 0 o e). split; [|split; [exact Hs|done]].
      apply (sandbox_result _ _ _ _ (exited MullTimeoutCode) shared (pipe_of st) out err o e 0); [|done..].
      eapply rtc_r; [exact Ht'|]. by apply (step_alarm _ _ _ _ (timeout * 1000)).
    + destruct st as [worker_state shared pipe]. cbn in *. subst worker_state.
      eexists. split; [by apply (sandbox_result _ _ _ _ w shared pipe out err o e 0)|]. split; [|done]. cbn.
      rewrite <-Hs. symmetry. apply statuses_agree. intros ->.
      destruct (untimed_code _ _ _ _ Hrun eq_refl) as (code & Hend & Hmod). by apply (Hcode code).
Qed.

(** The test that prints and passes passes in both. *)
Lemma sandboxes_agree_witness :
  (exists r, ForkTimerSandbox_run 1 false (handle_timeout 30) sample_behaviour r /\
     status r = Timedout /\ stdoutOutput r = "" /\ stderrOutput r = "") <->
  (exists r, ForkWatchdogSandbox_run 1 false sample_behaviour r /\
     status r = Timedout /\ stdoutOutput r = "" /\ stderrOutput r = "").
Proof. apply (sandboxes_agree 1 false 30 sample_behaviour Timedout "" "" eq_refl). discriminate. Defined.
