(* ===== verification/Pipes.v ===== *)
(** * The pipes of the sandboxes (lib/Sandbox/ProcessSandbox.cpp)

    The class [Pipe] takes what a worker prints to mull.  Sandbox.v looks at the
    bytes; this file at the file descriptors: which descriptor leads where in
    the worker and in mull, and what happens when [pipe], [fork] or [dup2]
    fails.

    The table of descriptors of a process is a finite map.  System calls behave
    as POSIX says: a new descriptor is the lowest unused one, [fork] copies the
    table, [dup2] closes its target first.  Whether a call succeeds is up to the
    system: the answers to successive attempts are an argument. *)

From stdpp Require Import base list strings gmap.
From Stdlib Require Import ZArith Lia Bool.
From S2P Require Import Prelude Diagnostics MutantExecution Sandbox.

(** What a descriptor leads to. *)
Inductive Description :=
  | Terminal
  | File (name : string)
  | ReadEnd (pipe : nat)
  | WriteEnd (pipe : nat).

Abbreviation Table := (gmap nat Description).

Record Process := mkProcess {
  process_id : nat;
  descriptors : Table
}.

Fixpoint lowest_from (fuel fd : nat) (t : Table) : nat :=
  match fuel with
  | O => fd
  | S fuel => match t !! fd with Some _ => lowest_from fuel (S fd) t | None => fd end
  end.

(** The lowest unused descriptor. *)
Definition lowest (t : Table) : nat := lowest_from (size t) 0 t.

Inductive Errno := EINTR | Errno_other (strerror : string).

(** What the system answers to successive attempts of a call. *)
Inductive Attempts :=
  | Succeeds
  | Fails (errno : Errno) (next : Attempts).

(** [fork]: the worker is a copy of the process, or there is none. *)
Definition mullFork (processName : string) (failure : option string) : D unit :=
  match failure with
  | Some strerror => error ("fork(" +:+ processName +:+ "): " +:+ strerror)
  | None => mret tt
  end.

(** A variable for a descriptor; [None] is an indeterminate value. *)
Abbreviation Descriptor := (option Z).

Record Pipe := mkPipe {
  creator : nat;
  pipe_read : Descriptor;
  pipe_write : Descriptor;
  shouldCapture : bool
}.

(** The loop around a call that is repeated when interrupted: whether it
    succeeded in the end. *)
Fixpoint retry (what : string) (attempts : Attempts) : D bool :=
  match attempts with
  | Succeeds => mret true
  | Fails EINTR next => retry what next
  | Fails (Errno_other strerror) _ => _ ← warning (what +:+ ": " +:+ strerror); mret false
  end.

(** [Pipe::Pipe]; [pipes] is filled only if the call succeeds. *)
Definition newPipe (id : nat) (attempts : Attempts) (shouldCaptureOutput : bool) (p : Process) : D (Pipe * Process) :=
  if shouldCaptureOutput then
    made ← retry "pipe" attempts;
    if made : bool then
      let r := lowest (descriptors p) in
      let t := <[r := ReadEnd id]> (descriptors p) in
      let w := lowest t in
      mret (mkPipe (process_id p) (Some (Z.of_nat r)) (Some (Z.of_nat w)) true,
            mkProcess (process_id p) (<[w := WriteEnd id]> t))
    else mret (mkPipe (process_id p) None None false, p)
  else mret (mkPipe (process_id p) (Some (-1)%Z) (Some (-1)%Z) false, p).

Definition read_descriptor (fd : Descriptor) : outcome nat :=
  z ← of_option "indeterminate value" fd;
  _ ← require (0 <=? z)%Z "bad file descriptor";
  mret (Z.to_nat z).

Definition close (fd : nat) (t : Table) : Table := delete fd t.

Definition dup2 (from to : nat) (t : Table) : Table :=
  if Nat.eqb from to then t
  else match t !! from with Some f => <[to := f]> t | None => t end.

(** [Pipe::redirect], in the worker. *)
Definition redirect (pipe : Pipe) (attempts : Attempts) (to : nat) (p : Process) : D Process :=
  _ ← lift (require (negb (Nat.eqb (creator pipe) (process_id p))) "Should be called from the child process");
  if shouldCapture pipe then
    w ← lift (read_descriptor (pipe_write pipe));
    r ← lift (read_descriptor (pipe_read pipe));
    done ← retry "dup2" attempts;
    let t := if done : bool then dup2 w to (descriptors p) else descriptors p in
    mret (mkProcess (process_id p) (close w (close r t)))
  else mret (mkProcess (process_id p) (close to (descriptors p))).

(** A process can still write to the pipe: reading it does not come to an end. *)
Definition open_for_writing (id : nat) (t : Table) : Prop := exists fd, t !! fd = Some (WriteEnd id).

(** [Pipe::capture]: the descriptors while the pipe is read, and the output with
    the process afterwards. *)
Definition while_reading (pipe : Pipe) (p : Process) : outcome Process :=
  _ ← require (Nat.eqb (creator pipe) (process_id p)) "Should be called from the creator process";
  if shouldCapture pipe then
    w ← read_descriptor (pipe_write pipe);
    mret (mkProcess (process_id p) (close w (descriptors p)))
  else mret p.

Definition Pipe_capture (pipe : Pipe) (reads : Reads) (p : Process) : outcome (string * Process) :=
  p ← while_reading pipe p;
  output ← capture (shouldCapture pipe) reads;
  if shouldCapture pipe then
    r ← read_descriptor (pipe_read pipe);
    mret (output, mkProcess (process_id p) (close r (descriptors p)))
  else mret (output, p).

(** ** The pipes in a run

    [ForkTimerSandbox::run] and [ForkWatchdogSandbox::run] open two pipes, fork,
    redirect both in the worker, and capture both in mull when the worker has
    ended. *)
Section Run.
Context (stdout_id stderr_id : nat) (shouldCaptureOutput : bool).

Definition STDOUT_FILENO : nat := 1.
Definition STDERR_FILENO : nat := 2.

Definition open_pipes (attempts1 attempts2 : Attempts) (p : Process) : D (Pipe * Pipe * Process) :=
  r1 ← newPipe stdout_id attempts1 shouldCaptureOutput p;
  let '(stdoutPipe, p) := r1 in
  r2 ← newPipe stderr_id attempts2 shouldCaptureOutput p;
  let '(stderrPipe, p) := r2 in
  mret (stdoutPipe, stderrPipe, p).

(** The worker has a number of its own. *)
Definition fork_worker (failure : option string) (pid : nat) (p : Process) : D Process :=
  _ ← mullFork "worker" failure;
  mret (mkProcess pid (descriptors p)).

Definition worker_redirects (stdoutPipe stderrPipe : Pipe) (attempts1 attempts2 : Attempts) (p : Process) : D Process :=
  p ← redirect stdoutPipe attempts1 STDOUT_FILENO p;
  redirect stderrPipe attempts2 STDERR_FILENO p.

Definition parent_captures (stdoutPipe stderrPipe : Pipe) (reads1 reads2 : Reads) (p : Process)
    : outcome (string * string * Process) :=
  r1 ← Pipe_capture stdoutPipe reads1 p;
  let '(stdoutOutput, p) := r1 in
  r2 ← Pipe_capture stderrPipe reads2 p;
  let '(stderrOutput, p) := r2 in
  mret (stdoutOutput, stderrOutput, p).
End Run.

(** ** The lowest descriptor *)

Lemma lowest_from_used fuel fd (t : Table) :
  t !! lowest_from fuel fd t <> None -> forall i, i <= fuel -> t !! (fd + i) <> None.
Proof.
  revert fd. induction fuel as [|fuel IH]; intros fd Hused i Hi; cbn in Hused.
  - by replace (fd + i) with fd by lia.
  - destruct (t !! fd) eqn:Hfd; [|done]. destruct i as [|i]; [by rewrite Nat.add_0_r, Hfd|].
    rewrite Nat.add_succ_r. apply (IH (S fd) Hused). lia.
Qed.

Lemma lowest_free (t : Table) : t !! lowest t = None.
Proof.
  destruct (t !! lowest t) eqn:Hused; [|done]. exfalso.
  assert (Hsub : set_seq 0 (S (size t)) ⊆ dom t).
  { intros i Hi%elem_of_set_seq. apply elem_of_dom. destruct (t !! i) eqn:Hti; [by eexists|]. exfalso.
    apply (lowest_from_used (size t) 0 t ltac:(unfold lowest in Hused; by rewrite Hused) i); [lia|done]. }
  apply subseteq_size in Hsub. rewrite size_set_seq, size_dom in Hsub. lia.
Qed.

Lemma lowest_from_least fuel fd (t : Table) k : fd <= k -> k < lowest_from fuel fd t -> t !! k <> None.
Proof.
  revert fd. induction fuel as [|fuel IH]; intros fd Hle Hlt; cbn in Hlt; [lia|].
  destruct (t !! fd) eqn:Hfd; [|lia]. destruct (decide (k = fd)) as [->|]; [by rewrite Hfd|]. apply (IH (S fd)); [lia|done].
Qed.

(** Everything below it is in use. *)
Lemma lowest_least (t : Table) k : t !! k = None -> lowest t <= k.
Proof. intros Hk. destruct (Nat.le_gt_cases (lowest t) k) as [|Hgt]; [done|]. exfalso. exact (lowest_from_least (size t) 0 t k (Nat.le_0_l k) Hgt Hk). Qed.

(** A worker whose output is not taken has no standard output: the first file it
    opens becomes its standard output, and what it prints goes there. *)
Lemma uncaptured_output_in_file (worker : Table) :
  is_Some (worker !! 0) -> worker !! STDOUT_FILENO = None -> lowest worker = STDOUT_FILENO.
Proof.
  intros [x H0] H1. pose proof (lowest_least worker 1 H1). pose proof (lowest_free worker) as Hf.
  destruct (lowest worker) as [|[|k]] eqn:E; [congruence|done|lia].
Qed.

(** ** The calls *)

Fixpoint succeeds (attempts : Attempts) : bool :=
  match attempts with
  | Succeeds => true
  | Fails EINTR next => succeeds next
  | Fails (Errno_other _) _ => false
  end.

(** Unless warnings are fatal, a call that fails is reported and that is all. *)
Lemma retry_lenient what attempts d :
  strictModeEnabled d = false ->
  exists d', retry what attempts d = (Ok (succeeds attempts), d') /\ strictModeEnabled d' = false.
Proof.
  intros Hd. induction attempts as [|[|strerror] next IH]; cbn [retry succeeds]; [by eexists|done|].
  destruct (warning_lenient (what +:+ ": " +:+ strerror) d Hd) as (d' & Hw & Hd' & _). rewrite D_bind_run, Hw. by eexists.
Qed.

(** ** Where the descriptors lead *)

(** The pipe was made: its ends are new descriptors of the process. *)
Definition pipe_open (id : nat) (pipe : Pipe) (r w : nat) (t t' : Table) : Prop :=
  pipe_read pipe = Some (Z.of_nat r) /\ pipe_write pipe = Some (Z.of_nat w) /\ r <> w /\
  t !! r = None /\ t !! w = None /\ t' = <[w := WriteEnd id]> (<[r := ReadEnd id]> t).

Lemma newPipe_spec id attempts capturing p d :
  strictModeEnabled d = false ->
  exists pipe p' d', newPipe id attempts capturing p d = (Ok (pipe, p'), d') /\ strictModeEnabled d' = false /\
    creator pipe = process_id p /\ process_id p' = process_id p /\ shouldCapture pipe = capturing && succeeds attempts /\
    if capturing && succeeds attempts
    then exists r w, pipe_open id pipe r w (descriptors p) (descriptors p')
    else descriptors p' = descriptors p.
Proof.
  intros Hd. unfold newPipe. destruct capturing; cbn [andb]; [|by eexists _, _, d].
  destruct (retry_lenient "pipe" attempts d Hd) as (d' & Hr & Hd'). rewrite D_bind_run, Hr.
  destruct (succeeds attempts); [|by eexists _, _, d'].
  set (r := lowest (descriptors p)). set (w := lowest (<[r := ReadEnd id]> (descriptors p))).
  assert (Hw : <[r := ReadEnd id]> (descriptors p) !! w = None) by apply lowest_free.
  apply lookup_insert_None in Hw as [Hw Hne].
  eexists _, _, d'. split; [done|]. cbn. do 4 (split; [done|]). exists r, w. by do 4 (split; [done || apply lowest_free|]).
Qed.

Lemma read_descriptor_nat n : read_descriptor (Some (Z.of_nat n)) = Ok n.
Proof. unfold read_descriptor. cbn. rewrite (proj2 (Z.leb_le 0 (Z.of_nat n))) by lia. cbn. by rewrite Nat2Z.id. Qed.

(** [redirect] in another process than the one that made the pipe. *)
Lemma redirect_spec pipe attempts to p d r w :
  strictModeEnabled d = false -> creator pipe <> process_id p ->
  (shouldCapture pipe = true -> pipe_read pipe = Some (Z.of_nat r) /\ pipe_write pipe = Some (Z.of_nat w)) ->
  exists d', redirect pipe attempts to p d =
    (Ok (mkProcess (process_id p)
       (if shouldCapture pipe
        then close w (close r (if succeeds attempts then dup2 w to (descriptors p) else descriptors p))
        else close to (descriptors p))), d') /\ strictModeEnabled d' = false.
Proof.
  intros Hd Hc Hends. unfold redirect. rewrite lift_bind, (proj2 (Nat.eqb_neq _ _) Hc). cbn [negb require].
  destruct (shouldCapture pipe); [|by eexists]. destruct (Hends eq_refl) as [-> ->].
  rewrite lift_bind, read_descriptor_nat, lift_bind, read_descriptor_nat.
  destruct (retry_lenient "dup2" attempts d Hd) as (d' & Hr & Hd'). rewrite D_bind_run, Hr. by exists d'.
Qed.

(** [capture] in the process that made the pipe. *)
Lemma while_reading_spec pipe p w :
  creator pipe = process_id p -> (shouldCapture pipe = true -> pipe_write pipe = Some (Z.of_nat w)) ->
  while_reading pipe p =
    Ok (mkProcess (process_id p) (if shouldCapture pipe then close w (descriptors p) else descriptors p)).
Proof.
  intros Hc Hw. unfold while_reading. rewrite Hc, Nat.eqb_refl. cbn [require mbind outcome_bind].
  destruct (shouldCapture pipe); [|by destruct p]. by rewrite Hw, read_descriptor_nat.
Qed.

Lemma Pipe_capture_spec pipe reads p r w output :
  creator pipe = process_id p ->
  (shouldCapture pipe = true -> pipe_read pipe = Some (Z.of_nat r) /\ pipe_write pipe = Some (Z.of_nat w)) ->
  capture (shouldCapture pipe) reads = Ok output ->
  Pipe_capture pipe reads p =
    Ok (output, mkProcess (process_id p)
      (if shouldCapture pipe then close r (close w (descriptors p)) else descriptors p)).
Proof.
  intros Hc Hends Hout. unfold Pipe_capture. rewrite (while_reading_spec pipe p w Hc) by apply Hends.
  cbn [mbind outcome_bind]. rewrite Hout. cbn [mbind outcome_bind]. destruct (shouldCapture pipe); [|done].
  destruct (Hends eq_refl) as [-> _]. by rewrite read_descriptor_nat.
Qed.

(** The cases of a lookup in a table that was built by these calls. *)
Ltac table_cases :=
  repeat case_decide;
  first [done | congruence | exfalso; intuition (congruence || lia) | intuition (congruence || lia)].

Section Wired.
Context (stdout_id stderr_id : nat) (shouldCaptureOutput : bool) (p : Process).
Context (Hids : stdout_id <> stderr_id).
(** The three standard descriptors of mull are open, and the pipes are new. *)
Context (Hstd : forall fd, fd <= 2 -> is_Some (descriptors p !! fd)).
Context (Hnew : forall fd id, id = stdout_id \/ id = stderr_id -> descriptors p !! fd <> Some (WriteEnd id)).

Lemma new_descriptor fd : descriptors p !! fd = None -> 2 < fd.
Proof. intros Hfd. destruct (Nat.le_gt_cases fd 2) as [Hle|]; [|done]. destruct (Hstd fd Hle). congruence. Qed.

(** Both pipes, as far as they were made. *)
Lemma open_pipes_spec attempts1 attempts2 d :
  strictModeEnabled d = false ->
  exists stdoutPipe stderrPipe parent d' r1 w1 r2 w2 t,
    open_pipes stdout_id stderr_id shouldCaptureOutput attempts1 attempts2 p d = (Ok (stdoutPipe, stderrPipe, parent), d') /\
    strictModeEnabled d' = false /\
    creator stdoutPipe = process_id p /\ creator stderrPipe = process_id p /\ process_id parent = process_id p /\
    shouldCapture stdoutPipe = shouldCaptureOutput && succeeds attempts1 /\
    shouldCapture stderrPipe = shouldCaptureOutput && succeeds attempts2 /\
    (if shouldCapture stdoutPipe then pipe_open stdout_id stdoutPipe r1 w1 (descriptors p) t else t = descriptors p) /\
    (if shouldCapture stderrPipe then pipe_open stderr_id stderrPipe r2 w2 t (descriptors parent) else descriptors parent = t).
Proof.
  intros Hd. unfold open_pipes.
  destruct (newPipe_spec stdout_id attempts1 shouldCaptureOutput p d Hd) as (o & p1 & d1 & H1 & Hd1 & Hco & Hp1 & Hso & Ho).
  destruct (newPipe_spec stderr_id attempts2 shouldCaptureOutput p1 d1 Hd1) as (e & p2 & d2 & H2 & Hd2 & Hce & Hp2 & Hse & He).
  rewrite D_bind_run, H1, D_bind_run, H2. rewrite <-Hso in Ho. rewrite <-Hse in He.
  assert (Ho' : exists r w, if shouldCapture o then pipe_open stdout_id o r w (descriptors p) (descriptors p1)
    else descriptors p1 = descriptors p) by (destruct (shouldCapture o); [done|by exists 0, 0]).
  assert (He' : exists r w, if shouldCapture e then pipe_open stderr_id e r w (descriptors p1) (descriptors p2)
    else descriptors p2 = descriptors p1) by (destruct (shouldCapture e); [done|by exists 0, 0]).
  destruct Ho' as (r1 & w1 & Ho'). destruct He' as (r2 & w2 & He').
  exists o, e, p2, d2, r1, w1, r2, w2, (descriptors p1). repeat (split; [done || congruence|]). done.
Qed.

Lemma pipe_open_ends (c : bool) id pipe r w t t' :
  (if c then pipe_open id pipe r w t t' else t' = t) ->
  (c = true -> pipe_read pipe = Some (Z.of_nat r) /\ pipe_write pipe = Some (Z.of_nat w)) /\
  (if c then r <> w /\ t !! r = None /\ t !! w = None /\ t' = <[w := WriteEnd id]> (<[r := ReadEnd id]> t) else t' = t).
Proof. destruct c; [|done]. by intros (? & ? & ? & ? & ? & ?). Qed.

(** What a descriptor of the worker leads to: the pipe, what it led to before
    when [dup2] failed, nothing when there is no pipe. *)
Definition redirected (captures copied : bool) (id fd : nat) : option Description :=
  if captures then if copied then Some (WriteEnd id) else descriptors p !! fd else None.

(** The tables, the calls aside.  The ends of the two pipes: *)
Section Tables.
Context (oc ec : bool) (r1 w1 r2 w2 : nat) (t u : Table).
Context (Ho : if oc then r1 <> w1 /\ descriptors p !! r1 = None /\ descriptors p !! w1 = None /\
                 t = <[w1 := WriteEnd stdout_id]> (<[r1 := ReadEnd stdout_id]> (descriptors p))
              else t = descriptors p).
Context (He : if ec then r2 <> w2 /\ t !! r2 = None /\ t !! w2 = None /\
                 u = <[w2 := WriteEnd stderr_id]> (<[r2 := ReadEnd stderr_id]> t)
              else u = t).

(** Everything known of the numbers. *)
Lemma ends_apart :
  (oc = true -> 2 < r1 /\ 2 < w1 /\ r1 <> w1) /\ (ec = true -> 2 < r2 /\ 2 < w2 /\ r2 <> w2) /\
  (oc = true -> ec = true -> r1 <> r2 /\ r1 <> w2 /\ w1 <> r2 /\ w1 <> w2).
Proof.
  destruct oc, ec; (split; [|split]); intros; try done;
    repeat match goal with H : _ /\ _ |- _ => destruct H end; subst;
    repeat match goal with H : <[_ := _]> _ !! _ = None |- _ => apply lookup_insert_None in H as [H ?] end;
    repeat match goal with H : descriptors p !! _ = None |- _ => pose proof (new_descriptor _ H); clear H end;
    repeat split; try lia; congruence.
Qed.

(** With both pipes open. *)
Lemma opened_lookup fd :
  u !! fd = if decide (ec = true /\ fd = w2) then Some (WriteEnd stderr_id)
            else if decide (ec = true /\ fd = r2) then Some (ReadEnd stderr_id)
            else if decide (oc = true /\ fd = w1) then Some (WriteEnd stdout_id)
            else if decide (oc = true /\ fd = r1) then Some (ReadEnd stdout_id)
            else descriptors p !! fd.
Proof.
  destruct oc, ec; repeat match goal with H : _ /\ _ |- _ => destruct H end; subst; rewrite ?lookup_insert;
    table_cases.
Qed.

Lemma dup2_open from to x (v : Table) : v !! from = Some x -> from <> to -> dup2 from to v = <[to := x]> v.
Proof. intros Hv Hne. unfold dup2. by rewrite (proj2 (Nat.eqb_neq _ _) Hne), Hv. Qed.

(** After the first redirection, and after the second. *)
Definition out_table (copied : bool) : Table :=
  if oc then close w1 (close r1 (if copied then dup2 w1 STDOUT_FILENO u else u)) else close STDOUT_FILENO u.

Definition worker_table (copied1 copied2 : bool) : Table :=
  if ec then close w2 (close r2 (if copied2 then dup2 w2 STDERR_FILENO (out_table copied1) else out_table copied1))
  else close STDERR_FILENO (out_table copied1).

Lemma out_table_lookup copied fd :
  out_table copied !! fd =
    if decide (fd = STDOUT_FILENO) then redirected oc copied stdout_id fd
    else if decide (ec = true /\ fd = w2) then Some (WriteEnd stderr_id)
    else if decide (ec = true /\ fd = r2) then Some (ReadEnd stderr_id)
    else descriptors p !! fd.
Proof.
  destruct ends_apart as (Hr1 & Hr2 & Hr12). pose proof opened_lookup as Hop. unfold out_table, redirected, close, STDOUT_FILENO in *.
  assert (Hnone : oc = true -> descriptors p !! r1 = None /\ descriptors p !! w1 = None) by (destruct oc; naive_solver).
  destruct oc; [destruct (Hnone eq_refl) as [Hp1 Hp2]; destruct copied|].
  - rewrite (dup2_open w1 1 (WriteEnd stdout_id) u); [|rewrite Hop; table_cases|lia].
    rewrite !lookup_delete, lookup_insert, Hop. table_cases.
  - rewrite !lookup_delete, Hop. table_cases.
  - rewrite !lookup_delete, Hop. table_cases.
Qed.

Lemma worker_table_lookup copied1 copied2 fd :
  worker_table copied1 copied2 !! fd =
    if decide (fd = STDOUT_FILENO) then redirected oc copied1 stdout_id fd
    else if decide (fd = STDERR_FILENO) then redirected ec copied2 stderr_id fd
    else descriptors p !! fd.
Proof.
  destruct ends_apart as (Hr1 & Hr2 & Hr12). pose proof opened_lookup as Hop. unfold worker_table, close.
  pose proof (out_table_lookup copied1) as Hout. unfold STDOUT_FILENO, STDERR_FILENO in *.
  assert (Hnone : ec = true -> t !! r2 = None /\ t !! w2 = None) by (destruct ec; naive_solver).
  assert (Hp0 : forall fd, t !! fd = None -> descriptors p !! fd = None).
  { intros fd' Hfd. destruct oc; [|by rewrite <-Ho]. destruct Ho as (_ & _ & _ & Ht). rewrite Ht in Hfd.
    by apply lookup_insert_None in Hfd as [[? _]%lookup_insert_None _]. }
  destruct ec; [destruct (Hnone eq_refl) as [Hp1%Hp0 Hp2%Hp0]; destruct copied2|]; cbn [redirected].
  - rewrite (dup2_open w2 2 (WriteEnd stderr_id)); [|rewrite Hout; table_cases|lia].
    rewrite !lookup_delete, lookup_insert, Hout. table_cases.
  - rewrite !lookup_delete, Hout. table_cases.
  - rewrite !lookup_delete, Hout. table_cases.
Qed.

(** While mull reads the first pipe, while it reads the second, and after. *)
Definition reading_out : Table := if oc then close w1 u else u.
Definition between : Table := if oc then close r1 (close w1 u) else u.
Definition reading_err : Table := if ec then close w2 between else between.
Definition after : Table := if ec then close r2 (close w2 between) else between.

Lemma reading_out_closed : ~ open_for_writing stdout_id reading_out.
Proof.
  intros [fd Hfd]. pose proof opened_lookup as Hop. assert (Hu : u !! fd = Some (WriteEnd stdout_id) /\ (oc = true -> fd <> w1)).
  { unfold reading_out, close in Hfd. destruct oc; [|done]. rewrite lookup_delete in Hfd. case_decide; naive_solver. }
  destruct Hu as [Hu Hw]. rewrite Hop in Hu. pose proof (Hnew fd stdout_id (or_introl eq_refl)).
  table_cases.
Qed.

Lemma between_lookup fd :
  between !! fd = if decide (ec = true /\ fd = w2) then Some (WriteEnd stderr_id)
                  else if decide (ec = true /\ fd = r2) then Some (ReadEnd stderr_id)
                  else descriptors p !! fd.
Proof.
  destruct ends_apart as (Hr1 & Hr2 & Hr12). pose proof opened_lookup as Hop. unfold between, close.
  assert (Hnone : oc = true -> descriptors p !! r1 = None /\ descriptors p !! w1 = None) by (destruct oc; naive_solver).
  destruct oc; [destruct (Hnone eq_refl) as [Hp1 Hp2]; rewrite !lookup_delete|]; rewrite Hop;
    table_cases.
Qed.

Lemma reading_err_closed : ~ open_for_writing stderr_id reading_err.
Proof.
  intros [fd Hfd]. pose proof between_lookup as Hbl. assert (Hu : between !! fd = Some (WriteEnd stderr_id) /\ (ec = true -> fd <> w2)).
  { unfold reading_err, close in Hfd. destruct ec; [|done]. rewrite lookup_delete in Hfd. case_decide; naive_solver. }
  destruct Hu as [Hu Hw]. rewrite Hbl in Hu. pose proof (Hnew fd stderr_id (or_intror eq_refl)).
  table_cases.
Qed.

Lemma after_is_before : after = descriptors p.
Proof.
  apply map_eq. intros fd. pose proof between_lookup as Hbl. unfold after, close.
  assert (Hp0 : ec = true -> descriptors p !! r2 = None /\ descriptors p !! w2 = None).
  { destruct ec; [|done]. intros _. destruct He as (_ & H1 & H2 & _).
    destruct oc; [|by rewrite <-Ho]. destruct Ho as (_ & _ & _ & Ht). rewrite Ht in H1, H2.
    split; by repeat match goal with H : <[_ := _]> _ !! _ = None |- _ => apply lookup_insert_None in H as [H _] end. }
  destruct ec; [destruct (Hp0 eq_refl); rewrite !lookup_delete|]; rewrite Hbl; table_cases.
Qed.
End Tables.

(** C20: where the output of a worker goes.  Whatever calls fail, as long as
    warnings are not fatal: in the worker the two standard descriptors lead to the
    pipes that could be made (closed without one, left alone when [dup2] fails),
    and every other descriptor is the one mull had, so the worker holds no further
    end of a pipe; when mull reads a pipe no descriptor of its own keeps it open,
    so with the worker gone reading comes to an end; no indeterminate descriptor
    is used; and afterwards the descriptors of mull are the ones it had.  A worker
    whose output is not taken has no standard output at all: the next file it
    opens becomes its standard output, and what it prints goes there. *)
Theorem pipes_wired attempts1 attempts2 copies1 copies2 worker_id d :
  strictModeEnabled d = false -> worker_id <> process_id p ->
  let out_captured := shouldCaptureOutput && succeeds attempts1 in
  let err_captured := shouldCaptureOutput && succeeds attempts2 in
  exists stdoutPipe stderrPipe parent d1,
    open_pipes stdout_id stderr_id shouldCaptureOutput attempts1 attempts2 p d = (Ok (stdoutPipe, stderrPipe, parent), d1) /\
    (exists worker d2,
      worker_redirects stdoutPipe stderrPipe copies1 copies2 (mkProcess worker_id (descriptors parent)) d1 = (Ok worker, d2) /\
      descriptors worker !! STDOUT_FILENO = redirected out_captured (succeeds copies1) stdout_id STDOUT_FILENO /\
      descriptors worker !! STDERR_FILENO = redirected err_captured (succeeds copies2) stderr_id STDERR_FILENO /\
      (forall fd, fd <> STDOUT_FILENO -> fd <> STDERR_FILENO -> descriptors worker !! fd = descriptors p !! fd) /\
      (out_captured = false -> lowest (descriptors worker) = STDOUT_FILENO)) /\
    (exists reading, while_reading stdoutPipe parent = Ok reading /\ ~ open_for_writing stdout_id (descriptors reading)) /\
    (forall reads1 reads2 stdoutOutput stderrOutput,
      capture out_captured reads1 = Ok stdoutOutput -> capture err_captured reads2 = Ok stderrOutput ->
      (exists between reading, Pipe_capture stdoutPipe reads1 parent = Ok (stdoutOutput, between) /\
        while_reading stderrPipe between = Ok reading /\ ~ open_for_writing stderr_id (descriptors reading)) /\
      parent_captures stdoutPipe stderrPipe reads1 reads2 parent = Ok (stdoutOutput, stderrOutput, p)).
Proof.
  intros Hd Hne oc ec.
  destruct (open_pipes_spec attempts1 attempts2 d Hd) as (o & e & parent & d1 & r1 & w1 & r2 & w2 & t & Hopen & Hd1 & Hco &
    Hce & Hp & Hso & Hse & Ho & He). fold oc in Hso. fold ec in Hse. rewrite Hso in Ho. rewrite Hse in He.
  destruct (pipe_open_ends _ _ _ _ _ _ _ Ho) as [Hoe Hot]. destruct (pipe_open_ends _ _ _ _ _ _ _ He) as [Hee Het].
  rewrite <-Hso in Hoe. rewrite <-Hse in Hee.
  exists o, e, parent, d1. split; [done|]. split; [|split].
  - destruct (redirect_spec o copies1 STDOUT_FILENO (mkProcess worker_id (descriptors parent)) d1 r1 w1)
      as (d2 & Hred1 & Hd2); [done|by rewrite Hco; apply not_eq_sym|done|].
    cbn [process_id descriptors] in Hred1. rewrite Hso in Hred1.
    fold (out_table oc r1 w1 (descriptors parent) (succeeds copies1)) in Hred1.
    destruct (redirect_spec e copies2 STDERR_FILENO (mkProcess worker_id (out_table oc r1 w1 (descriptors parent) (succeeds copies1)))
      d2 r2 w2) as (d3 & Hred2 & _); [done|by rewrite Hce; apply not_eq_sym|done|].
    cbn [process_id descriptors] in Hred2. rewrite Hse in Hred2.
    eexists _, d3. unfold worker_redirects. rewrite D_bind_run, Hred1. split; [exact Hred2|]. cbn [descriptors].
    fold (worker_table oc ec r1 w1 r2 w2 (descriptors parent) (succeeds copies1) (succeeds copies2)).
    pose proof (worker_table_lookup oc ec r1 w1 r2 w2 t (descriptors parent) Hot Het (succeeds copies1) (succeeds copies2)) as Hl.
    rewrite !Hl. split; [done|]. split; [done|]. split; [intros fd H1 H2; by rewrite Hl, !decide_False|].
    intros Hoc. apply uncaptured_output_in_file; rewrite Hl; [apply Hstd; lia|]. cbn. unfold redirected. by rewrite Hoc.
  - eexists. split; [apply (while_reading_spec o parent w1); [congruence|by intros H; apply Hoe]|]. cbn [descriptors]. rewrite Hso.
    by apply (reading_out_closed oc ec r1 w1 r2 w2 t).
  - intros reads1 reads2 s1 s2 Hs1 Hs2.
    assert (Hc1 : Pipe_capture o reads1 parent = Ok (s1, mkProcess (process_id parent) (between oc r1 w1 (descriptors parent)))).
    { rewrite (Pipe_capture_spec o reads1 parent r1 w1 s1); [by rewrite Hso|congruence|done|by rewrite Hso]. }
    split.
    + eexists _, _. split; [exact Hc1|]. split; [apply (while_reading_spec e _ w2); [cbn; congruence|by intros H; apply Hee]|].
      cbn [descriptors]. rewrite Hse. by apply (reading_err_closed oc ec r1 w1 r2 w2 t (descriptors parent)).
    + unfold parent_captures. rewrite Hc1. cbn [mbind outcome_bind].
      rewrite (Pipe_capture_spec e reads2 _ r2 w2 s2); [|cbn; congruence|done|by rewrite Hse]. cbn [mbind outcome_bind process_id descriptors].
      rewrite Hse. fold (after oc ec r1 w1 r2 w2 (descriptors parent)).
      rewrite (after_is_before oc ec r1 w1 r2 w2 t (descriptors parent) Hot Het), Hp. by destruct p.
Qed.
End Wired.

(** Mull with a file open, the second pipe failing. *)
Definition sample_process : Process := mkProcess 7 (<[3 := File "log"]> (<[2 := Terminal]> (<[1 := Terminal]> (<[0 := Terminal]> ∅)))).

Lemma pipes_wired_witness :
  exists stdoutPipe stderrPipe parent d1,
    open_pipes 10 11 true (Fails EINTR Succeeds) (Fails (Errno_other "Too many open files") Succeeds) sample_process newDiagnostics
      = (Ok (stdoutPipe, stderrPipe, parent), d1) /\
    exists worker d2, worker_redirects stdoutPipe stderrPipe Succeeds Succeeds (mkProcess 8 (descriptors parent)) d1 = (Ok worker, d2) /\
      descriptors worker !! 1 = Some (WriteEnd 10) /\ descriptors worker !! 2 = None.
Proof.
  destruct (pipes_wired 10 11 true sample_process ltac:(lia)) with (attempts1 := Fails EINTR Succeeds)
    (attempts2 := Fails (Errno_other "Too many open files") Succeeds) (copies1 := Succeeds) (copies2 := Succeeds)
    (worker_id := 8) (d := newDiagnostics) as (o & e & parent & d1 & Hopen & (worker & d2 & Hw & H1 & H2 & _) & _); [| |done|done|].
  - intros [|[|[|fd]]] Hfd; [by eexists..|lia].
  - intros fd id _ Hfd. unfold sample_process in Hfd. cbn in Hfd. rewrite !lookup_insert, lookup_empty in Hfd.
    repeat case_decide; done.
  - exists o, e, parent, d1. split; [done|]. by exists worker, d2.
Defined.
