(* ===== verification/SourceManager.v ===== *)
(** * Lines of source files (lib/Reporters/SourceManager.cpp)

    [SourceManager] finds a line of a source file by scanning the file once for
    the offsets of its lines, which it keeps with the open file.  The file
    system is a function from paths to contents; the bytes of a buffer are
    indeterminate until they are written, and using one that is not is
    undefined. *)

From stdpp Require Import base list strings gmap.
From Stdlib Require Import ZArith Lia Bool Ascii.
From S2P Require Import Prelude StringFacts IR SourceLocation.

Record LineOffset := mkLineOffset {
  file : string;
  offsets : list Z
}.

(** The member [lineOffsets]. *)
Definition SourceManager : Type := gmap string LineOffset.

(** [char c = fgetc(file)]: a byte of value 255 is converted to -1, which is
    [EOF]. *)
Definition eof_char : ascii := "255"%char.

(** The scanning loop: the offsets pushed and the offset at the end. *)
Fixpoint scan (s : string) (offset : Z) : list Z * Z :=
  match s with
  | EmptyString => ([], offset)
  | String c s' =>
      if Ascii.eqb c eof_char then ([], offset)
      else
        let '(rest, last) := scan s' (to_uint32 (offset + 1)) in
        ((if Ascii.eqb c newline then [offset] else []) ++ rest, last)
  end.

Definition line_offsets (content : string) : list Z :=
  let '(offsets, offset) := scan (String newline content) 0 in offsets ++ [offset].

(** A vector indexed by an [int]. *)
Definition offset_at (offsets : list Z) (i : Z) : outcome Z :=
  if (i <? 0)%Z then Abort "index out of bounds" else of_option "index out of bounds" (offsets !! Z.to_nat i).

(** Conversion to [size_t], as in a comparison with a size. *)
Definition to_size_t (z : Z) : Z := (z mod 18446744073709551616)%Z.

(** [fread] into a new buffer of [lineLength + 1] bytes, and the zero written
    behind what was asked for. *)
Definition read_buffer (content : string) (lineBegin lineLength : Z) : list (option ascii) :=
  let bytes := String.list_ascii_of_string (String.substring (Z.to_nat lineBegin) (Z.to_nat lineLength) content) in
  map Some bytes ++ replicate (Z.to_nat lineLength - length bytes) None ++ [Some nul].

(** [std::string(buffer)] *)
Fixpoint string_of_buffer (buffer : list (option ascii)) : outcome string :=
  match buffer with
  | [] => Abort "read past the buffer"
  | None :: _ => Abort "indeterminate value"
  | Some c :: buffer => if Ascii.eqb c nul then mret "" else s ← string_of_buffer buffer; mret (String c s)
  end.

Section Lines.
Context (files : string -> option string).

Definition getLineOffset (m : SourceManager) (location : SourceLocation) : outcome (LineOffset * SourceManager) :=
  match m !! filePath location with
  | Some lineOffset => mret (lineOffset, m)
  | None =>
      (** a null file is only reported before it is read *)
      content ← of_option "fgetc(nullptr)" (files (filePath location));
      let lineOffset := mkLineOffset content (line_offsets content) in
      mret (lineOffset, <[filePath location := lineOffset]> m)
  end.

(** The line at its offsets. *)
Definition line_at (lineOffset : LineOffset) (location : SourceLocation) : outcome string :=
  _ ← require (to_size_t (line location) <? Z.of_nat (length (offsets lineOffset)))%Z
        "location.line < lineOffset.offsets.size()";
  lineBegin ← offset_at (offsets lineOffset) (line location - 1);
  lineEnd ← offset_at (offsets lineOffset) (line location);
  let lineLength := to_uint32 (lineEnd - lineBegin) in
  string_of_buffer (read_buffer (file lineOffset) lineBegin lineLength).

Definition getLine (m : SourceManager) (location : SourceLocation) : outcome (string * SourceManager) :=
  r ← getLineOffset m location;
  let '(lineOffset, m) := r in
  line ← line_at lineOffset location;
  mret (line, m).

Definition getNumberOfLines (m : SourceManager) (location : SourceLocation) : outcome (Z * SourceManager) :=
  r ← getLineOffset m location;
  let '(lineOffset, m) := r in
  _ ← require (0 <? length (offsets lineOffset)) "lineOffset.offsets.size() > 0";
  mret (Z.of_nat (length (offsets lineOffset)) - 1, m)%Z.
End Lines.

(** ** The lines of a text

    Each with its newline; what follows the last newline, if only the empty
    string, is the last line. *)
Fixpoint lines (s : string) : list string :=
  match s with
  | EmptyString => [""]
  | String c s' =>
      if Ascii.eqb c newline then String c "" :: lines s'
      else match lines s' with
           | [] => [String c ""]
           | l :: rest => String c l :: rest
           end
  end.

Definition join (l : list string) : string := foldr String.append "" l.

Lemma lines_join s : join (lines s) = s.
Proof.
  induction s as [|c s IH]; [done|]. cbn [lines]. destruct (Ascii.eqb c newline).
  - change (String c (join (lines s)) = String c s). by rewrite IH.
  - destruct (lines s) as [|l rest]; cbn in *; [by rewrite <-IH|]. by rewrite <-IH.
Qed.

Lemma lines_nonempty s : lines s <> [].
Proof. destruct s as [|c s]; cbn [lines]; [done|]. destruct (Ascii.eqb c newline); [done|]. by destruct (lines s). Qed.

Lemma join_app l1 l2 : join (l1 ++ l2) = join l1 +:+ join l2.
Proof. induction l1 as [|x l1 IH]; [done|]. cbn [join foldr app] in *. fold (join (l1 ++ l2)). by rewrite IH, string_app_assoc. Qed.

(** Where line [k] starts. *)
Definition line_start (s : string) (k : nat) : Z := Z.of_nat (String.length (join (take k (lines s)))).

Lemma line_start_succ s k l :
  lines s !! k = Some l -> line_start s (S k) = (line_start s k + Z.of_nat (String.length l))%Z.
Proof.
  intros Hk. unfold line_start. rewrite (take_S_r _ _ _ Hk), join_app, string_length_app. cbn. rewrite string_app_nil_r. lia.
Qed.

Lemma line_start_bound s k : (0 <= line_start s k <= Z.of_nat (String.length s))%Z.
Proof.
  unfold line_start. split; [lia|]. rewrite <-(lines_join s) at 2. rewrite <-(take_drop k (lines s)) at 2.
  rewrite join_app, string_length_app. lia.
Qed.

Lemma line_start_newline c s k :
  Ascii.eqb c newline = true -> line_start (String c s) (S k) = (1 + line_start s k)%Z.
Proof. intros Hc. unfold line_start. cbn [lines]. rewrite Hc. cbn [take join foldr]. rewrite string_length_app. cbn [String.length]. fold (join (take k (lines s))). lia. Qed.

Lemma line_start_other c s k :
  Ascii.eqb c newline = false -> line_start (String c s) (S k) = (1 + line_start s (S k))%Z.
Proof.
  intros Hc. unfold line_start. cbn [lines]. rewrite Hc. pose proof (lines_nonempty s) as Hne.
  destruct (lines s) as [|l rest]; [done|]. cbn [take join foldr]. rewrite !string_length_app. cbn [String.length]. lia.
Qed.

(** ** The offsets found by the scan *)

Lemma length_lines_newline c s : Ascii.eqb c newline = true -> length (lines (String c s)) = S (length (lines s)).
Proof. intros Hc. cbn [lines]. by rewrite Hc. Qed.

Lemma length_lines_other c s : Ascii.eqb c newline = false -> length (lines (String c s)) = length (lines s).
Proof.
  intros Hc. cbn [lines]. rewrite Hc. pose proof (lines_nonempty s). by destruct (lines s).
Qed.

Lemma scan_spec s offset :
  lacks eof_char s = true -> (0 <= offset)%Z -> (offset + Z.of_nat (String.length s) < 4294967296)%Z ->
  (scan s offset).2 = (offset + Z.of_nat (String.length s))%Z /\
  S (length (scan s offset).1) = length (lines s) /\
  forall k, S k < length (lines s) -> (scan s offset).1 !! k = Some (offset - 1 + line_start s (S k))%Z.
Proof.
  revert offset. induction s as [|c s IH]; intros offset Hl H0 Hb.
  { cbn. split; [lia|]. split; [done|]. lia. }
  change (negb (Ascii.eqb eof_char c) && lacks eof_char s = true) in Hl. apply andb_true_iff in Hl as [Hc Hl].
  cbn [String.length] in Hb. cbn [scan]. rewrite Ascii.eqb_sym. apply negb_true_iff in Hc. rewrite Hc.
  rewrite to_uint32_id by lia. destruct (IH (offset + 1)%Z Hl) as (IH1 & IH2 & IH3); [lia..|].
  destruct (scan s (offset + 1)) as [rest last] eqn:Hscan. cbn [fst snd] in *.
  destruct (Ascii.eqb c newline) eqn:En; cbn [app].
  - rewrite (length_lines_newline _ _ En). cbn [String.length length]. split; [lia|]. split; [lia|].
    intros [|k] Hk.
    + rewrite line_start_newline by done. change (line_start s 0) with 0%Z. cbn [lookup list_lookup]. f_equal. lia.
    + cbn [lookup list_lookup]. rewrite IH3 by lia. rewrite (line_start_newline c s (S k) En). f_equal. lia.
  - rewrite (length_lines_other _ _ En). cbn [String.length]. split; [lia|]. split; [done|].
    intros k Hk. rewrite IH3 by lia. rewrite (line_start_other c s k En). f_equal. lia.
Qed.

Lemma line_offsets_spec content :
  lacks eof_char content = true -> (Z.of_nat (String.length content) < 4294967295)%Z ->
  length (line_offsets content) = S (length (lines content)) /\
  (forall k, k < length (lines content) -> line_offsets content !! k = Some (line_start content k)) /\
  line_offsets content !! length (lines content) = Some (Z.of_nat (String.length content) + 1)%Z.
Proof.
  intros Hl Hb. unfold line_offsets.
  destruct (scan_spec (String newline content) 0) as (H1 & H2 & H3); [done|lia|cbn [String.length]; lia|].
  rewrite length_lines_newline in H2, H3 by done.
  destruct (scan (String newline content) 0) as [o e]. cbn [fst snd String.length] in *.
  assert (Ho : length o = length (lines content)) by lia.
  rewrite length_app, Ho. cbn [length]. split; [lia|]. split.
  - intros k Hk. rewrite lookup_app_l by lia. rewrite H3 by lia. rewrite line_start_newline by done. f_equal. lia.
  - rewrite lookup_app_r by lia. replace (length (lines content) - length o) with 0 by lia. cbn. f_equal. lia.
Qed.

(** ** Reading a line *)

Lemma substring_middle (a b c : string) :
  String.substring (String.length a) (String.length b) (a +:+ b +:+ c) = b.
Proof. induction a as [|x a IH]; [exact (substring_app_l b c)|exact IH]. Qed.

(** The [k]-th line is where its offsets say. *)
Lemma substring_line s k l :
  lines s !! k = Some l ->
  exists rest, s = join (take k (lines s)) +:+ l +:+ rest.
Proof.
  intros Hk. exists (join (drop (S k) (lines s))). rewrite <-(lines_join s) at 1.
  rewrite <-(take_drop k (lines s)) at 1. by rewrite (drop_S _ _ _ Hk), join_app.
Qed.

Lemma string_of_bytes (s : string) (rest : list (option ascii)) :
  lacks nul s = true ->
  string_of_buffer (map Some (String.list_ascii_of_string s) ++ rest) = (r ← string_of_buffer rest; mret (s +:+ r)).
Proof.
  induction s as [|c s IH]; [by cbn; destruct (string_of_buffer rest)|].
  cbn [String.list_ascii_of_string map app string_of_buffer].
  change (lacks nul (String c s)) with (negb (Ascii.eqb nul c) && lacks nul s).
  intros [Hc Hs]%andb_true_iff. apply negb_true_iff in Hc. rewrite Ascii.eqb_sym, Hc, IH by done.
  by destruct (string_of_buffer rest).
Qed.

Lemma length_bytes s : length (String.list_ascii_of_string s) = String.length s.
Proof. induction s as [|c s IH]; [done|]. cbn. by rewrite IH. Qed.

Lemma lacks_app c s1 s2 : lacks c (s1 +:+ s2) = lacks c s1 && lacks c s2.
Proof. apply str_all_app. Qed.

Lemma substring_all b missing : String.substring 0 (String.length b + missing) b = b.
Proof. induction b as [|x b IH]; [by destruct missing|]. cbn. f_equal. exact IH. Qed.

(** A line inside the file is read whole; what is behind its end is not
    written. *)
Lemma read_line a b c (missing : nat) :
  lacks nul b = true -> missing = 0 \/ c = "" ->
  string_of_buffer (read_buffer (a +:+ b +:+ c) (Z.of_nat (String.length a)) (Z.of_nat (String.length b + missing))) =
  if Nat.eqb missing 0 then Ok b else Abort "indeterminate value".
Proof.
  intros Hb Hm. unfold read_buffer. rewrite !Nat2Z.id.
  assert (Hsub : String.substring (String.length a) (String.length b + missing) (a +:+ b +:+ c) = b).
  { destruct Hm as [->| ->]; [rewrite Nat.add_0_r; apply substring_middle|].
    rewrite string_app_nil_r. clear Hb. induction a as [|x a IH]; [|exact IH].
    apply (substring_all b). }
  rewrite Hsub, string_of_bytes, length_bytes by done.
  destruct (Nat.eqb_spec missing 0) as [->|Hne].
  - rewrite Nat.add_0_r, Nat.sub_diag. cbn. by rewrite string_app_nil_r.
  - replace (String.length b + missing - String.length b) with missing by lia. by destruct missing.
Qed.

Lemma length_lines s : length (lines s) <= S (String.length s).
Proof.
  induction s as [|c s IH]; [done|]. destruct (Ascii.eqb c newline) eqn:E.
  - rewrite length_lines_newline by done. cbn. lia.
  - rewrite length_lines_other by done. cbn. lia.
Qed.

(** What is kept was read from the files. *)
Definition cached (files : string -> option string) (m : SourceManager) : Prop :=
  forall path lineOffset, m !! path = Some lineOffset ->
  exists content, files path = Some content /\ lineOffset = mkLineOffset content (line_offsets content).

Lemma cached_empty files : cached files ∅.
Proof. intros path lineOffset Hl. unfold SourceManager in Hl. by rewrite lookup_empty in Hl. Qed.

Lemma getLineOffset_cached files m location content :
  cached files m -> files (filePath location) = Some content ->
  exists m', getLineOffset files m location = Ok (mkLineOffset content (line_offsets content), m') /\ cached files m'.
Proof.
  intros Hm Hc. unfold getLineOffset. destruct (m !! filePath location) as [lo|] eqn:E.
  - destruct (Hm _ _ E) as (content' & Hc' & ->). simplify_eq. by exists m.
  - rewrite Hc. eexists. split; [done|]. intros path lo [[<- <-]|[_ Hlo]]%lookup_insert_Some; [by eexists|by apply (Hm path)].
Qed.

(** A text file: no byte is null or taken for the end of the file. *)
Record text (content : string) : Prop := {
  text_eof : lacks eof_char content = true;
  text_nul : lacks nul content = true;
  text_size : (Z.of_nat (String.length content) < 4294967295)%Z
}.

Section Reading.
Context (content : string) (Htext : text content).

Lemma size_check (l : Z) :
  in_int l = true ->
  (to_size_t l <? Z.of_nat (length (line_offsets content)))%Z = (0 <=? l)%Z && (l <=? Z.of_nat (length (lines content)))%Z.
Proof.
  intros Hint%in_int_spec. unfold int_min, int_max in Hint. destruct Htext as [He _ Hs].
  destruct (line_offsets_spec content He Hs) as (-> & _). pose proof (length_lines content) as Hlen. unfold to_size_t.
  destruct (Z.leb_spec 0 l) as [H0|H0]; cbn [andb].
  - rewrite Z.mod_small by lia. destruct (Z.leb_spec l (Z.of_nat (length (lines content)))).
    + apply Z.ltb_lt. lia.
    + apply Z.ltb_ge. lia.
  - apply Z.ltb_ge. replace l with (18446744073709551616 + l + (-1) * 18446744073709551616)%Z by lia.
    rewrite Z.mod_add, Z.mod_small by lia. lia.
Qed.

Lemma line_lacks_nul k l : lines content !! k = Some l -> lacks nul l = true.
Proof.
  intros Hk. destruct (substring_line _ _ _ Hk) as [rest Hs]. pose proof (text_nul _ Htext) as Hn. rewrite Hs, !lacks_app in Hn.
  by bool_to_prop.
Qed.

(** The bytes of line [k], and one more when it is the last. *)
Lemma read_kth_line k l e :
  lines content !! k = Some l -> line_offsets content !! S k = Some e ->
  string_of_buffer (read_buffer content (line_start content k) (to_uint32 (e - line_start content k))) =
  if Nat.eqb (S k) (length (lines content)) then Abort "indeterminate value" else Ok l.
Proof.
  intros Hk He. destruct Htext as [Heof Hnul Hs]. destruct (line_offsets_spec content Heof Hs) as (_ & Hoff & Hlast).
  pose proof (line_start_bound content k) as Hb. pose proof (line_start_succ _ _ _ Hk) as Hsucc.
  destruct (substring_line _ _ _ Hk) as [rest Hrest]. pose proof (line_lacks_nul _ _ Hk) as Hl.
  pose proof (lookup_lt_Some _ _ _ Hk) as Hlt. destruct (Nat.eqb_spec (S k) (length (lines content))) as [Hlen|Hlen].
  - rewrite Hlen, Hlast in He. injection He as <-.
    assert (Hnil : rest = "").
    { pose proof (f_equal String.length Hrest) as Hlr. rewrite !string_length_app in Hlr.
      rewrite <-(lines_join content) in Hlr at 1.
      rewrite <-(take_drop k (lines content)), (drop_S _ _ _ Hk), (drop_ge _ (S k)), join_app, string_length_app in Hlr by lia.
      cbn [join foldr] in Hlr. rewrite string_length_app in Hlr. cbn in Hlr.
      rewrite take_app_le, take_take, Nat.min_id in Hlr by (rewrite length_take; lia).
      destruct rest; [done|cbn in Hlr; lia]. }
    rewrite Hnil in Hrest. pose proof (f_equal String.length Hrest) as Hlr. rewrite !string_length_app in Hlr. cbn in Hlr.
    assert (Hd : to_uint32 (Z.of_nat (String.length content) + 1 - line_start content k) = Z.of_nat (String.length l + 1)).
    { unfold line_start in *. rewrite to_uint32_id; lia. }
    rewrite Hd. rewrite Hrest at 1. unfold line_start. rewrite read_line; [done|done|by right].
  - rewrite Hoff in He by lia. injection He as <-.
    replace (line_start content (S k) - line_start content k)%Z with (Z.of_nat (String.length l + 0)) by lia.
    pose proof (line_start_bound content (S k)). rewrite to_uint32_id by lia.
    rewrite Hrest at 1. unfold line_start. rewrite read_line; [done|done|by left].
Qed.
End Reading.

(** The lines of a text file are the lines the source manager hands out:
    for every line that ends with a newline exactly its text, whatever was asked
    before; outside the file an assertion fails, and of the last line, which no
    newline ends, one byte too many is used. *)
Theorem getLine_correct files m location content :
  cached files m -> files (filePath location) = Some content -> text content -> in_int (line location) = true ->
  exists m', cached files m' /\
    getNumberOfLines files m location = Ok (Z.of_nat (length (lines content)), m') /\
    (forall k l, line location = Z.of_nat (S k) -> lines content !! k = Some l ->
       getLine files m location =
       if Nat.eqb (S k) (length (lines content)) then Abort "indeterminate value" else Ok (l, m')) /\
    ((line location <= 0)%Z \/ (Z.of_nat (length (lines content)) < line location)%Z ->
       exists why, getLine files m location = Abort why).
Proof.
  intros Hm Hc Htext Hint. destruct (getLineOffset_cached _ _ _ _ Hm Hc) as (m' & Hlo & Hm').
  pose proof (size_check content Htext _ Hint) as Hsize.
  destruct (line_offsets_spec content (text_eof _ Htext) (text_size _ Htext)) as (Hlen & Hoff & _).
  exists m'. split; [done|]. unfold getNumberOfLines, getLine, line_at. rewrite Hlo. cbn [mbind outcome_bind offsets file].
  rewrite Hsize. split; [|split].
  - rewrite Hlen. cbn. repeat f_equal. lia.
  - intros k l Hline Hk. pose proof (lookup_lt_Some _ _ _ Hk) as Hlt. rewrite Hline.
    rewrite (proj2 (Z.leb_le _ _)), (proj2 (Z.leb_le _ _)) by lia. cbn [andb require mbind outcome_bind].
    replace (Z.of_nat (S k) - 1)%Z with (Z.of_nat k) by lia. unfold offset_at.
    rewrite (proj2 (Z.ltb_ge _ _)), (proj2 (Z.ltb_ge _ _)), !Nat2Z.id, (Hoff k) by lia. cbn [of_option mbind outcome_bind].
    destruct (line_offsets content !! S k) as [e|] eqn:He; [|apply lookup_ge_None_1 in He; lia].
    cbn [of_option mbind outcome_bind]. rewrite (read_kth_line content Htext k l e Hk He).
    by destruct (Nat.eqb _ _).
  - intros Hout. destruct (Z.leb_spec 0 (line location)); [|by eexists].
    destruct (Z.leb_spec (line location) (Z.of_nat (length (lines content)))); [|by eexists].
    replace (line location) with 0%Z by lia. by eexists.
Qed.

(** Two lines and the start of a third. *)
Definition sample_source : string := "int a;" +:+ String newline ("int b;" +:+ String newline "//").

Definition sample_files (path : string) : option string :=
  if String.eqb path "/tmp/a.c" then Some sample_source else None.

Definition sample_location : SourceLocation := mkSourceLocation "/tmp" "/tmp/a.c" "/tmp" "/tmp/a.c" 2 5.

Lemma getLine_correct_witness :
  exists m', getLine sample_files ∅ sample_location = Ok ("int b;" +:+ String newline "", m') /\
    getNumberOfLines sample_files ∅ sample_location = Ok (3%Z, m').
Proof.
  destruct (getLine_correct sample_files ∅ sample_location sample_source) as (m' & _ & Hn & Hl & _).
  - done.
  - reflexivity.
  - split; vm_compute; reflexivity.
  - reflexivity.
  - exists m'. split; [exact (Hl 1 _ eq_refl eq_refl)|exact Hn].
Defined.
