(* ===== verification/SourceContext.v ===== *)
(** * The source around a mutation point (MutationPoint::dumpSourceCodeContext,
    lib/MutationPoint.cpp)

    Shows the line a point lies in, a caret under its column, and the lines
    before and behind. *)

From stdpp Require Import base list strings gmap pretty.
From Stdlib Require Import ZArith Lia Bool Ascii.
From S2P Require Import Prelude StringFacts SourceLocation Mutator MutationPoint SourceManager.

Definition unavailable : string := "Source code information is unavailable. Possibly a junk mutation.".

Definition tab : ascii := "009"%char.

(** [std::string(n, ' ')] *)
Fixpoint spaces (n : nat) : string := match n with O => "" | S n => String " " (spaces n) end.

(** [log10(n) + 1], truncated: the powers of ten, 1 included, that are not
    greater; a [size_t] has at most twenty digits. *)
Definition log10_plus_1 (n : Z) : nat := length (List.filter (fun k => 10 ^ Z.of_nat k <=? n)%Z (seq 0 20)).

Definition maxDigits_of (maxLineNumber : Z) : nat := if (maxLineNumber =? 0)%Z then 1 else log10_plus_1 maxLineNumber.

(** [ss << std::setw(width) << text] *)
Definition setw (width : nat) (text : string) : string := spaces (width - String.length text) +:+ text.

(** The caret: tabs are kept, so that it stays below its column. *)
Fixpoint caret_fill (column : nat) (line : string) : outcome string :=
  match column with
  | O => mret ""
  | S column =>
      match line with
      | EmptyString => Abort "line[index]"
      | String c rest => s ← caret_fill column rest; mret (String (if Ascii.eqb c tab then tab else " "%char) s)
      end
  end.

(** [caret[at] = '^'] *)
Fixpoint set_char (at_ : nat) (c : ascii) (s : string) : outcome string :=
  match s, at_ with
  | EmptyString, _ => Abort "caret[column - 1]"
  | String _ rest, O => mret (String c rest)
  | String d rest, S at_ => r ← set_char at_ c rest; mret (String d r)
  end.

Definition caret_row (maxDigits : nat) (column : nat) (line : string) : outcome string :=
  caret ← caret_fill column line;
  _ ← require (Nat.ltb 0 column) "caret[column - 1]";
  caret ← set_char (column - 1) "^"%char caret;
  mret (spaces (maxDigits + 1) +:+ caret).

Section Dump.
Context (files : string -> option string).

Definition with_line (location : SourceLocation) (n : Z) : SourceLocation :=
  mkSourceLocation (unitDirectory location) (unitFilePath location) (directory location) (filePath location) n (column location).

(** A line with its number in front. *)
Definition numbered (maxDigits : nat) (n : Z) (text : string) : string := setw maxDigits (to_string n) +:+ ":" +:+ text.

Definition dumpSourceCodeContext (p : MutationPoint) : outcome string :=
  let location := sourceLocation p in
  if isNull location || (line location =? 0)%Z || (column location =? 0)%Z || empty_string (filePath location)
  then mret unavailable
  else
    r ← getNumberOfLines files ∅ location;
    let '(totalLines, sourceManager) := r in
    next ← int_op (line location + 1);
    let maxLineNumber := Z.min totalLines (to_size_t next) in
    let maxDigits := maxDigits_of maxLineNumber in
    r ← getLine files sourceManager location;
    let '(text, sourceManager) := r in
    _ ← require (to_size_t (column location) <? Z.of_nat (String.length text))%Z "sourceLocation.column < line.size()";
    caret ← caret_row maxDigits (Z.to_nat (column location)) text;
    r ← (if (1 <? line location)%Z
         then r ← getLine files sourceManager (with_line location (line location - 1));
              let '(previousLine, sourceManager) := r in
              mret (numbered maxDigits (line location - 1) previousLine, sourceManager)
         else mret ("", sourceManager));
    let '(before, sourceManager) := r in
    let here := numbered maxDigits (line location) text +:+ caret +:+ eol in
    behind ← (if (to_size_t (line location) <? totalLines)%Z
              then r ← getLine files sourceManager (with_line location (line location + 1));
                   let '(nextLine, _) := r in
                   mret (numbered maxDigits (line location + 1) nextLine)
              else mret "");
    mret (before +:+ here +:+ behind).
End Dump.

(** ** The caret *)

(** The characters of a row that stand for the ones above: tabs and blanks. *)
Definition blank_of (c : ascii) : ascii := if Ascii.eqb c tab then tab else " "%char.

Lemma spaces_length n : String.length (spaces n) = n.
Proof. induction n; cbn; congruence. Qed.

Lemma get_spaces n i : i < n -> String.get i (spaces n) = Some " "%char.
Proof. revert i. induction n as [|n IH]; intros i Hi; [lia|]. destruct i as [|i]; [done|]. cbn. apply IH. lia. Qed.

Lemma get_app_r s1 s2 i : String.get (String.length s1 + i) (s1 +:+ s2) = String.get i s2.
Proof. induction s1; [done|]. cbn. done. Qed.

Lemma get_app_l s1 s2 i : i < String.length s1 -> String.get i (s1 +:+ s2) = String.get i s1.
Proof.
  revert i. induction s1 as [|c s1 IH]; intros i Hi; cbn in *; [lia|]. destruct i as [|i]; [done|]. apply IH. lia.
Qed.

Lemma caret_fill_spec column line :
  column <= String.length line ->
  exists s, caret_fill column line = Ok s /\ String.length s = column /\
    forall i, i < column -> String.get i s = blank_of <$> String.get i line.
Proof.
  revert line. induction column as [|column IH]; intros line Hle; cbn; [exists ""; split; [done|]; split; [done|lia]|].
  destruct line as [|c line]; cbn in Hle; [lia|]. destruct (IH line) as (s & -> & Hs & Hget); [lia|].
  eexists. split; [done|]. cbn. split; [congruence|]. intros [|i] Hi; [done|]. apply Hget. lia.
Qed.

Lemma set_char_spec k c s :
  k < String.length s ->
  exists s', set_char k c s = Ok s' /\ String.length s' = String.length s /\ String.get k s' = Some c /\
    forall i, i <> k -> String.get i s' = String.get i s.
Proof.
  revert k. induction s as [|d s IH]; intros k Hk; cbn in Hk; [lia|].
  destruct k as [|k]; cbn; [eexists; split; [done|]; split; [done|]; split; [done|]; intros [|i] Hi; done|].
  destruct (IH k) as (s' & -> & Hs & Hc & Hget); [lia|]. eexists. split; [done|]. cbn. split; [congruence|]. split; [done|].
  intros [|i] Hi; [done|]. apply Hget. lia.
Qed.

(** The row below a line: as long as the prefix and the column, blank but for the
    tabs of the line and the caret under the column. *)
Lemma caret_row_spec maxDigits column line :
  0 < column -> column <= String.length line ->
  exists row, caret_row maxDigits column line = Ok row /\ String.length row = maxDigits + 1 + column /\
    String.get (maxDigits + 1 + (column - 1)) row = Some "^"%char /\
    (forall i, i < maxDigits + 1 -> String.get i row = Some " "%char) /\
    forall i, i < column - 1 -> String.get (maxDigits + 1 + i) row = blank_of <$> String.get i line.
Proof.
  intros H0 Hle. unfold caret_row. destruct (caret_fill_spec column line Hle) as (s & -> & Hlen & Hget). cbn [mbind outcome_bind].
  rewrite (proj2 (Nat.ltb_lt 0 column) H0). cbn [require mbind outcome_bind].
  destruct (set_char_spec (column - 1) "^"%char s) as (s' & -> & Hlen' & Hc & Hget'); [lia|]. cbn [mbind outcome_bind mret outcome_ret].
  eexists. split; [done|]. pose proof (spaces_length (maxDigits + 1)) as Hsp. split; [rewrite string_length_app; lia|].
  split; [rewrite <-Hsp at 1; by rewrite get_app_r|]. split.
  - intros i Hi. rewrite get_app_l by lia. by apply get_spaces.
  - intros i Hi. rewrite <-Hsp at 1. rewrite get_app_r, Hget' by lia. apply Hget. lia.
Qed.

(** ** The numbers *)

Lemma pretty_N_go_length d x s :
  (0 < x)%N -> (x < 10 ^ N.of_nat d)%N -> String.length (pretty_N_go x s) <= d + String.length s.
Proof.
  revert x s. induction d as [|d IH]; intros x s H0 Hlt; [cbn in Hlt; lia|].
  rewrite pretty_N_go_step by done.
  destruct (decide (x `div` 10 = 0)%N) as [->|Hne]; [rewrite pretty_N_go_0; cbn; lia|].
  etransitivity; [apply IH; [by apply N.neq_0_lt_0|]|cbn; lia].
  apply N.Div0.div_lt_upper_bound. rewrite Nat2N.inj_succ, N.pow_succ_r' in Hlt. done.
Qed.

(** A positive number below a power of ten. *)
Lemma to_string_length n d : (0 < n)%Z -> (n < 10 ^ Z.of_nat d)%Z -> String.length (to_string n) <= d.
Proof.
  intros H0 Hlt. destruct n as [|n|n]; [lia| |lia]. unfold to_string. change (pretty (Z.pos n)) with (pretty (N.pos n)).
  unfold pretty, pretty_N. rewrite decide_False by done. etransitivity; [apply (pretty_N_go_length d); [lia|]|cbn; lia].
  apply N2Z.inj_lt. rewrite N2Z.inj_pow, nat_N_Z. exact Hlt.
Qed.

Lemma filter_all {A} (q : A -> bool) l : (forall x, x ∈ l -> q x = true) -> List.filter q l = l.
Proof.
  induction l as [|x l IH]; intros Hq; [done|]. cbn. rewrite Hq by by left. f_equal. apply IH. intros y Hy. apply Hq. by right.
Qed.

(** Counting an initial segment of the numbers. *)
Lemma count_below (q : nat -> bool) n :
  (forall i j, i <= j -> q j = true -> q i = true) ->
  length (List.filter q (seq 0 n)) < n -> q (length (List.filter q (seq 0 n))) = false.
Proof.
  intros Hq Hlt. set (d := length (List.filter q (seq 0 n))) in *. destruct (q d) eqn:Hd; [|done]. exfalso.
  assert (Hseq : seq 0 n = seq 0 (S d) ++ seq (S d) (n - S d)) by (rewrite <-seq_app; f_equal; lia).
  assert (Hc : d = length (List.filter q (seq 0 (S d))) + length (List.filter q (seq (S d) (n - S d)))).
  { unfold d at 1. by rewrite Hseq, List.filter_app, length_app. }
  rewrite filter_all in Hc; [rewrite length_seq in Hc; lia|].
  intros i [_ Hi]%elem_of_seq. apply (Hq i d); [lia|done].
Qed.

Lemma log10_plus_1_above n : (n < 10 ^ 20)%Z -> (n < 10 ^ Z.of_nat (log10_plus_1 n))%Z.
Proof.
  intros Hn. unfold log10_plus_1. set (q := fun k => (10 ^ Z.of_nat k <=? n)%Z).
  assert (Hle : length (List.filter q (seq 0 20)) <= 20) by (etransitivity; [apply List.filter_length_le|by rewrite length_seq]).
  destruct (decide (length (List.filter q (seq 0 20)) = 20)) as [->|Hne]; [exact Hn|].
  assert (Hq : q (length (List.filter q (seq 0 20))) = false).
  { apply count_below; [|lia]. unfold q. intros i j Hij Hj%Z.leb_le. apply Z.leb_le.
    etransitivity; [|exact Hj]. apply Z.pow_le_mono_r; lia. }
  unfold q at 1 in Hq. by apply Z.leb_gt in Hq.
Qed.

(** The numbers of the lines shown take up the same width. *)
Lemma setw_width n m :
  (0 < n <= m)%Z -> (m < 10 ^ 20)%Z -> String.length (setw (maxDigits_of m) (to_string n)) = maxDigits_of m.
Proof.
  intros Hn Hm. unfold maxDigits_of. rewrite (proj2 (Z.eqb_neq m 0)) by lia. unfold setw. rewrite string_length_app, spaces_length.
  pose proof (log10_plus_1_above m Hm) as Hab. pose proof (to_string_length n (log10_plus_1 m) ltac:(lia) ltac:(lia)). lia.
Qed.

(** ** What is shown *)

(** A step that succeeded; rewriting with it, and not by computation, keeps the
    comparison of the two sides short. *)
Lemma bind_of_Ok {A B} (a : A) (f : A -> outcome B) : (Ok a ≫= f) = f a.
Proof. done. Qed.

Ltac step_ok := rewrite bind_of_Ok; cbv beta iota.
Section Shown.
Context (files : string -> option string) (p : MutationPoint) (content : string).
Context (Hfile : files (filePath (sourceLocation p)) = Some content) (Htext : text content).
Context (Hpath : empty_string (filePath (sourceLocation p)) = false).

Lemma getLine_at m n k :
  cached files m -> n = Z.of_nat (S k) -> in_int n = true -> k < length (lines content) ->
  exists m', cached files m' /\
    getLine files m (with_line (sourceLocation p) n) =
      if Nat.eqb (S k) (length (lines content)) then Abort "indeterminate value"
      else match lines content !! k with Some l => Ok (l, m') | None => Abort "indeterminate value" end.
Proof.
  intros Hm Hn Hint Hk. destruct (lookup_lt_is_Some_2 _ _ Hk) as [l Hl].
  destruct (getLine_correct files m (with_line (sourceLocation p) n) content Hm Hfile Htext Hint) as (m' & Hm' & _ & Hget & _).
  exists m'. split; [done|]. rewrite (Hget k l Hn Hl), Hl. done.
Qed.

Lemma with_own_line : with_line (sourceLocation p) (line (sourceLocation p)) = sourceLocation p.
Proof. by destruct (sourceLocation p). Qed.

Lemma lines_below k : k < length (lines content) -> (Z.of_nat (S k) < 2 ^ 32)%Z.
Proof. intros Hk. pose proof (length_lines content). pose proof (text_size _ Htext). lia. Qed.

Definition shown_width (k : nat) : nat :=
  maxDigits_of (Z.min (Z.of_nat (length (lines content))) (Z.of_nat (S (S k)))).

(** Up to the line behind, which is read last. *)
Lemma shown_before_next k l column_ :
  line (sourceLocation p) = Z.of_nat (S k) -> (Z.of_nat (S k) < int_max)%Z ->
  column (sourceLocation p) = Z.of_nat column_ -> 0 < column_ -> column_ < String.length l ->
  lines content !! k = Some l -> S k < length (lines content) ->
  exists row m, caret_row (shown_width k) column_ l = Ok row /\ cached files m /\
    dumpSourceCodeContext files p =
      (behind ← (r ← getLine files m (with_line (sourceLocation p) (Z.of_nat (S (S k))));
                 mret (numbered (shown_width k) (Z.of_nat (S (S k))) r.1));
       mret ((if decide (k = 0) then "" else numbered (shown_width k) (Z.of_nat k) (default "" (lines content !! (k - 1)))) +:+
             (numbered (shown_width k) (Z.of_nat (S k)) l +:+ row +:+ eol) +:+ behind)).
Proof.
  intros Hline Hmax Hcol Hc0 Hcl Hl Hk. pose proof (lines_below k ltac:(lia)) as Hbound.
  assert (Hint : forall n, (0 <= n <= int_max)%Z -> in_int n = true).
  { intros n Hn. apply in_int_spec. unfold int_min, int_max in *. lia. }
  assert (Hlsz : (Z.of_nat (String.length l) < 2 ^ 32)%Z).
  { pose proof (line_start_succ _ _ _ Hl). pose proof (line_start_bound content k). pose proof (line_start_bound content (S k)).
    pose proof (text_size _ Htext). lia. }
  destruct (getLine_correct files ∅ (sourceLocation p) content) as (m0 & Hm0 & Hnum & _);
    [apply cached_empty|done|done|apply Hint; lia|].
  destruct (getLine_at m0 (Z.of_nat (S k)) k Hm0 eq_refl (Hint (Z.of_nat (S k)) ltac:(lia)) ltac:(lia)) as (m1 & Hm1 & Hget).
  rewrite <-Hline, with_own_line, (proj2 (Nat.eqb_neq _ _)), Hl in Hget by lia.
  destruct (caret_row_spec (shown_width k) column_ l Hc0 ltac:(lia)) as (row & Hrow & _).
  unfold dumpSourceCodeContext. rewrite isNull_position, Hpath, Hline, Hcol.
  rewrite (proj2 (Z.eqb_neq (Z.of_nat (S k)) 0)), (proj2 (Z.eqb_neq (Z.of_nat column_) 0)) by lia. cbn [andb orb].
  rewrite Hnum. step_ok. rewrite int_op_Ok by (apply Hint; lia). step_ok.
  rewrite Hget. step_ok.
  assert (Hsz : forall n, (0 <= n < 2 ^ 33)%Z -> to_size_t n = n) by (intros n Hn; apply Z.mod_small; lia).
  rewrite !Hsz by lia. rewrite require_true by (apply Z.ltb_lt; lia). step_ok.
  replace (Z.of_nat (S k) + 1)%Z with (Z.of_nat (S (S k))) by lia.
  rewrite <-(eq_refl : shown_width k = maxDigits_of (Z.min (Z.of_nat (length (lines content))) (Z.of_nat (S (S k))))).
  rewrite Nat2Z.id, Hrow. step_ok.
  rewrite (proj2 (Z.ltb_lt (Z.of_nat (S k)) (Z.of_nat (length (lines content))))) by lia.
  destruct (decide (k = 0)) as [Hk0|Hk0].
  - exists row, m1. split; [done|]. split; [done|]. subst k.
    rewrite (proj2 (Z.ltb_ge 1 (Z.of_nat 1))) by lia. change (mret ?x) with (Ok x). step_ok.
    by destruct (getLine files m1 (with_line (sourceLocation p) (Z.of_nat 2))) as [[]| |].
  - rewrite (proj2 (Z.ltb_lt 1 (Z.of_nat (S k)))) by lia. replace (Z.of_nat (S k) - 1)%Z with (Z.of_nat k) by lia.
    destruct (getLine_at m1 (Z.of_nat k) (k - 1) Hm1 ltac:(lia) (Hint (Z.of_nat k) ltac:(lia)) ltac:(lia)) as (m2 & Hm2 & Hprev).
    rewrite (proj2 (Nat.eqb_neq _ _)) in Hprev by lia. destruct (lookup_lt_is_Some_2 (lines content) (k - 1)) as [prev Hp]; [lia|].
    rewrite Hp in Hprev |- *. rewrite Hprev. exists row, m2. split; [done|]. split; [done|].
    step_ok. change (mret ?x) with (Ok x). step_ok. by destruct (getLine files m2 (with_line (sourceLocation p) (Z.of_nat (S (S k))))) as [[]| |].
Qed.

(** A point in the last line. *)
Lemma last_line_shown k :
  line (sourceLocation p) = Z.of_nat (S k) -> (Z.of_nat (S k) < int_max)%Z -> column (sourceLocation p) <> 0%Z ->
  S k = length (lines content) -> dumpSourceCodeContext files p = Abort "indeterminate value".
Proof.
  intros Hline Hmax Hcol Hk. assert (Hint : forall n, (0 <= n <= int_max)%Z -> in_int n = true).
  { intros n Hn. apply in_int_spec. unfold int_min, int_max in *. lia. }
  destruct (getLine_correct files ∅ (sourceLocation p) content) as (m0 & Hm0 & Hnum & _);
    [apply cached_empty|done|done|apply Hint; lia|].
  destruct (getLine_at m0 (Z.of_nat (S k)) k Hm0 eq_refl (Hint (Z.of_nat (S k)) ltac:(lia)) ltac:(lia)) as (m1 & _ & Hget).
  rewrite <-Hline, with_own_line, (proj2 (Nat.eqb_eq _ _) Hk) in Hget.
  unfold dumpSourceCodeContext. rewrite isNull_position, Hpath, Hline.
  rewrite (proj2 (Z.eqb_neq (Z.of_nat (S k)) 0)), (proj2 (Z.eqb_neq (column (sourceLocation p)) 0)) by (done || lia). cbn [andb orb].
  rewrite Hnum. step_ok. rewrite int_op_Ok by (apply Hint; lia). step_ok.
  by rewrite Hget.
Qed.

(** The context shown of a mutation point.  In a text file, of a point whose
    column lies in its line: the line before, if there is one, the line itself with
    its number, a row with a caret exactly under the column (as long as the line up
    to the column, blank but for the line's own tabs, so that the two are aligned
    however wide tabs are), and the line behind; the numbers take up one width, the
    one of the widest.  But when the line behind is the last of the file (which is
    empty when the file ends with a newline, as files do), or there is none, a byte
    nobody has written is used. *)
Theorem context_shown k l (column_ : nat) :
  line (sourceLocation p) = Z.of_nat (S k) -> (Z.of_nat (S k) < int_max)%Z ->
  column (sourceLocation p) = Z.of_nat column_ -> 0 < column_ -> column_ < String.length l ->
  lines content !! k = Some l ->
  (length (lines content) <= S (S k) -> dumpSourceCodeContext files p = Abort "indeterminate value") /\
  forall next, lines content !! S k = Some next -> S (S k) < length (lines content) ->
  exists width row,
    dumpSourceCodeContext files p =
      Ok ((if decide (k = 0) then "" else numbered width (Z.of_nat k) (default "" (lines content !! (k - 1)))) +:+
          (numbered width (Z.of_nat (S k)) l +:+ row +:+ eol) +:+ numbered width (Z.of_nat (S (S k))) next) /\
    (forall n, 0 < n <= S (S k) -> String.length (setw width (to_string (Z.of_nat n))) = width) /\
    String.length row = width + 1 + column_ /\ String.get (width + 1 + (column_ - 1)) row = Some "^"%char /\
    (forall i, i < width + 1 -> String.get i row = Some " "%char) /\
    (forall i, i < column_ - 1 -> String.get (width + 1 + i) row = blank_of <$> String.get i l) /\
    forall i, String.get (width + 1 + i) (numbered width (Z.of_nat (S k)) l) = String.get i l.
Proof.
  intros Hline Hmax Hcol Hc0 Hcl Hl. pose proof (lookup_lt_Some _ _ _ Hl) as Hk.
  assert (Hint : in_int (Z.of_nat (S (S k))) = true) by (apply in_int_spec; unfold int_min, int_max in *; lia).
  split.
  - intros Hlast. destruct (decide (S k = length (lines content))) as [Heq|Hne]; [apply (last_line_shown k); [done|done|lia|done]|].
    destruct (shown_before_next k l column_ Hline Hmax Hcol Hc0 Hcl Hl ltac:(lia)) as (row & m & _ & Hm & ->).
    destruct (getLine_at m (Z.of_nat (S (S k))) (S k) Hm eq_refl Hint ltac:(lia)) as (m' & _ & ->).
    by rewrite (proj2 (Nat.eqb_eq _ _)) by lia.
  - intros next Hnext Hlt.
    destruct (shown_before_next k l column_ Hline Hmax Hcol Hc0 Hcl Hl ltac:(lia)) as (row & m & Hrow & Hm & ->).
    destruct (getLine_at m (Z.of_nat (S (S k))) (S k) Hm eq_refl Hint ltac:(lia)) as (m' & _ & ->).
    rewrite (proj2 (Nat.eqb_neq _ _)), Hnext by lia.
    destruct (caret_row_spec (shown_width k) column_ l Hc0 ltac:(lia)) as (row' & Hrow' & Hspec). rewrite Hrow in Hrow'.
    injection Hrow' as <-. exists (shown_width k), row. split; [done|].
    pose proof (lines_below (S k) ltac:(lia)) as Hb.
    assert (Hwidth : forall n, 0 < n <= S (S k) -> String.length (setw (shown_width k) (to_string (Z.of_nat n))) = shown_width k).
    { intros n Hn. apply setw_width; lia. }
    split; [done|]. destruct Hspec as (H1 & H2 & H3 & H4). do 4 (split; [done|]). intros i.
    unfold numbered. rewrite <-string_app_assoc. etransitivity; [|apply (get_app_r (setw (shown_width k) (to_string (Z.of_nat (S k))) +:+ ":"))].
    f_equal. rewrite string_length_app, Hwidth by lia. done.
Qed.
End Shown.

(** The first line of the sample, column 5. *)
Definition sample_context_point : MutationPoint :=
  mkMutationPoint (Mutator.Trivial cxx.AddToSub) None (newAddress 0 0 0) (mkBitcodePtr 0 "sum_d41d8") 0 "f" None "id" "" ""
    (mkSourceLocation "/tmp" "/tmp/a.c" "/tmp" "/tmp/a.c" 1 5) [].

Lemma context_shown_witness :
  exists width row,
    dumpSourceCodeContext sample_files sample_context_point =
      Ok (numbered width 1 ("int a;" +:+ eol) +:+ row +:+ eol +:+ numbered width 2 ("int b;" +:+ eol)) /\
    String.get (width + 1 + 4) row = Some "^"%char /\
    dumpSourceCodeContext sample_files sample_context_point =
      Ok ("1:int a;" +:+ eol +:+ "      ^" +:+ eol +:+ "2:int b;" +:+ eol).
Proof.
  assert (Htext : text sample_source) by (split; vm_compute; reflexivity).
  destruct (context_shown sample_files sample_context_point sample_source eq_refl Htext eq_refl 0 ("int a;" +:+ eol) 5
    eq_refl eq_refl eq_refl ltac:(lia) (le_S _ _ (le_n 6)) eq_refl) as [_ Hshown].
  destruct (Hshown ("int b;" +:+ eol) eq_refl (le_n 3)) as (width & row & Hrun & _ & _ & Hc & _).
  exists width, row. split; [by rewrite Hrun, !string_app_assoc|]. split; [exact Hc|]. vm_compute. reflexivity.
Defined.
