(* ===== verification/Reporters.v ===== *)
(** * The reporters (lib/Reporters/IDEReporter.cpp,
    lib/Reporters/MutationTestingElementsReporter.cpp,
    lib/Reporters/ASTSourceInfoProvider.cpp)

    A run ends with a [Result]: the tests, the mutation points, and one result
    for each run of a mutant.  The reporters read off which mutants were killed,
    count them, and print the mutants at their source lines or write them to a
    file for a web page. *)

From stdpp Require Import base list strings gmap.
From Stdlib Require Import ZArith Lia Bool Ascii SpecFloat.
From S2P Require Import Prelude StdContainers StringFacts Doubles Diagnostics MutatorKind IR SourceLocation Irm Mutator.
From S2P Require Import Samples MutationPoint Reachable Bitcode MutantExecution ClangAST ASTSearch JunkDetection.
From S2P Require Import SourceManager.

(** ** include/mull/Result.h: points are pointers into the store *)
Record Result := mkResult {
  result_tests : list Test;
  mutationResults : list MutationResult;
  result_mutationPoints : list PointId
}.

Definition mutantSurvived (status : ExecutionStatus) : bool := bool_decide (status = Passed).

(** A [std::set] of pointers, which is only asked for members and its size. *)
Definition killedMutants (results : list MutationResult) : gset PointId :=
  foldl (fun killed r => if negb (mutantSurvived (status (mr_result r))) then {[ mr_point r ]} ∪ killed else killed)
    ∅ results.

(** ** The score: [double] arithmetic, truncated *)
Definition score_of (killed total : Z) : outcome Z :=
  let rawScore := SFdiv 53 1024 (double_of_size killed) (double_of_size total) in
  uint_of_double (SFmul 53 1024 rawScore (double_of_size 100)).

(** ** IDEReporter *)
Section Reporter.
Context (store : Store) (files : string -> option string).

(** The caret under the column: tabs where the line has tabs. *)
Fixpoint blank (n : nat) (line : string) : outcome (list ascii) :=
  match n, line with
  | O, _ => mret []
  | S n, String c line =>
      rest ← blank n line; mret ((if Ascii.eqb c "009" then "009"%char else " "%char) :: rest)
  | S _, EmptyString => Abort "index past the string"
  end.

Definition caret_under (line : string) (column : Z) : outcome string :=
  caret ← blank (Z.to_nat column) line;
  _ ← require (0 <? column)%Z "caret[-1]";
  mret (String.string_of_list_ascii (<[Z.to_nat (column - 1) := "^"%char]> caret)).

(** The text for a mutant whose source line is at hand; it is passed to
    [fprintf] as a C string. *)
Definition mutant_text (mutant : MutationPoint) (survived : bool) (sourceLine : string) : outcome string :=
  let location := sourceLocation mutant in
  let header := filePath location +:+ ":" +:+ to_string (line location) +:+ ":" +:+ to_string (column location) +:+
    ": warning: " +:+ (if survived then "Survived" else "Killed") +:+ ": " +:+ point_diagnostics mutant +:+
    " [" +:+ getUniqueIdentifier (mutator mutant) +:+ "]" +:+ String newline "" in
  _ ← require (to_size_t (column location) <? Z.of_nat (String.length sourceLine))%Z "sourceLocation.column < line.size()";
  caret ← caret_under sourceLine (column location);
  mret (c_string (header +:+ sourceLine +:+ caret +:+ String newline "")).

Definition printMutant (survived : bool) (m : SourceManager) (pid : PointId) : D SourceManager :=
  mutant ← lift (point_at store pid);
  _ ← lift (require (negb (isNull (sourceLocation mutant))) "Debug information is missing?");
  r ← lift (getLine files m (sourceLocation mutant));
  let '(line, m) := r in
  text ← lift (mutant_text mutant survived line);
  _ ← d_modify (write (StandardOutput text));
  mret m.

Definition print_if (keep : PointId -> bool) (survived : bool) (m : SourceManager) (points : list PointId)
    : D SourceManager :=
  d_fold (fun m pid => if keep pid then printMutant survived m pid else mret m) m points.

Definition IDEReporter_reportResults (showKilled : bool) (result : Result) : D unit :=
  let points := result_mutationPoints result in
  if Nat.eqb (length points) 0 then info "No mutants found. Mutation score: infinitely high"
  else
    let killed := killedMutants (mutationResults result) in
    let total := Z.of_nat (length points) in
    let survivedMutantsCount := to_size_t (total - Z.of_nat (size killed)) in
    let killedMutantsCount := Z.of_nat (size killed) in
    m ← (if showKilled && (0 <? killedMutantsCount)%Z then
           _ ← info ("Killed mutants (" +:+ to_string killedMutantsCount +:+ "/" +:+ to_string total +:+ "):");
           print_if (fun pid => bool_decide (pid ∈ killed)) false ∅ points
         else mret ∅);
    _ ← (if (0 <? survivedMutantsCount)%Z then
           _ ← info ("Survived mutants (" +:+ to_string survivedMutantsCount +:+ "/" +:+ to_string total +:+ "):");
           _ ← print_if (fun pid => negb (bool_decide (pid ∈ killed))) true m points;
           mret tt
         else info "All mutations have been killed");
    score ← lift (score_of killedMutantsCount total);
    info ("Mutation score: " +:+ to_string score +:+ "%").
End Reporter.

(** ** MutationTestingElementsReporter *)

(** The values of json11; objects are maps ordered by key. *)
Inductive Json :=
  | JsonInt (value : Z)
  | JsonString (value : string)
  | JsonArray (values : list Json)
  | JsonObject (fields : list (string * Json)).

Definition json_object (fields : list (string * Json)) : Json :=
  JsonObject (foldl (fun m field => omap_insert field.1 field.2 m) [] fields).

Record MutationPointSourceInfo := mkSourceInfo {
  beginLine : Z;
  beginColumn : Z;
  endLine : Z;
  endColumn : Z
}.

Definition newSourceInfo : MutationPointSourceInfo := mkSourceInfo (-1) (-1) (-1) (-1).

Class SourceInfoProvider := { getSourceInfo : MutationPoint -> D MutationPointSourceInfo }.

(** The provider of the tool: the range of the expression the AST search
    recorded for the point.  The end of a token is clang's lexer's to tell. *)
Section ASTSourceInfoProvider.
Context `{FileSystem} (storage : ASTMutationStorage) (parse : string -> option ASTUnit).
Context (getLocForEndOfToken : Loc -> Loc).

Definition ASTSourceInfoProvider_getSourceInfo (mutationPoint : MutationPoint) : D MutationPointSourceInfo :=
  let location := sourceLocation mutationPoint in
  astMutation ← lift (getMutation storage (unitFilePath location) (mutatorKind (mutator mutationPoint))
                        (line location) (column location));
  let mutantASTNode := am_stmt astMutation in
  (** a unit that is there *)
  _ ← lift (findAST parse mutationPoint);
  let sourceLocationEndActual := getLocForEndOfToken (stmt_end mutantASTNode) in
  mret {|
    beginLine := loc_line (stmt_begin mutantASTNode);
    beginColumn := loc_column (stmt_begin mutantASTNode);
    endLine := loc_line sourceLocationEndActual;
    endColumn := loc_column sourceLocationEndActual
  |}.
End ASTSourceInfoProvider.

Section Elements.
Context (store : Store) (files : string -> option string) `{SourceInfoProvider}.
(** [std::to_string(time(&t))] when the object is made, and json11's printer. *)
Context (now : string) (json_dump : Json -> string).

(** Step 1: the points of each file. *)
Definition collect_mutant (st : SourceManager * list (string * list PointId)) (pid : PointId)
    : outcome (SourceManager * list (string * list PointId)) :=
  let '(m, mutationPointsPerFile) := st in
  mutant ← point_at store pid;
  let location := sourceLocation mutant in
  r ← getLine files m location;
  let '(sourceCodeLine, m) := r in
  _ ← require (to_size_t (column location) <? Z.of_nat (String.length sourceCodeLine))%Z
        "sourceLocation.column < sourceCodeLine.size()";
  mret (m, omap_update [] (fun points => points ++ [pid]) (filePath location) mutationPointsPerFile).

Definition mutant_json (killed : gset PointId) (pid : PointId) (mutationPoint : MutationPoint)
    (sourceInfo : MutationPointSourceInfo) : Json :=
  json_object
    [("id", JsonString (getUniqueIdentifier (mutator mutationPoint)));
     ("mutatorName", JsonString (point_diagnostics mutationPoint));
     ("replacement", JsonString (point_replacement mutationPoint));
     ("location", json_object
        [("start", json_object [("line", JsonInt (beginLine sourceInfo)); ("column", JsonInt (beginColumn sourceInfo))]);
         ("end", json_object [("line", JsonInt (endLine sourceInfo)); ("column", JsonInt (endColumn sourceInfo))])]);
     ("status", JsonString (if bool_decide (pid ∈ killed) then "Killed" else "Survived"))].

Definition mutant_entry (killed : gset PointId) (pid : PointId) : D Json :=
  mutationPoint ← lift (point_at store pid);
  sourceInfo ← getSourceInfo mutationPoint;
  mret (mutant_json killed pid mutationPoint sourceInfo).

(** An input stream on a file that cannot be opened is empty. *)
Definition file_json (path : string) (mutantsEntries : list Json) : Json :=
  JsonObject (omap_assign "mutants" (JsonArray mutantsEntries)
    (omap_assign "source" (JsonString (default "" (files path)))
    (omap_assign "language" (JsonString "cpp") []))).

Definition d_map {A B} (f : A -> D B) (l : list A) : D (list B) :=
  d_fold (fun acc a => b ← f a; mret (acc ++ [b])) [] l.

(** Step 2: one entry for each file. *)
Definition add_file (killed : gset PointId) (filesJSON : list (string * Json)) (fileMutationPoints : string * list PointId)
    : D (list (string * Json)) :=
  mutantsEntries ← d_map (mutant_entry killed) fileMutationPoints.2;
  mret (omap_assign fileMutationPoints.1 (file_json fileMutationPoints.1 mutantsEntries) filesJSON).

Definition createFiles (points : list PointId) (killed : gset PointId) : D (list (string * Json)) :=
  st ← lift (fold_outcome collect_mutant (∅, []) points);
  d_fold (add_file killed) [] st.2.

Definition getFilename (name : string) : string := if empty_string name then now else name.
Definition getReportDir (dir : string) : string := if empty_string dir then "." else dir.

Record MutationTestingElementsReporter := mkElementsReporter {
  filename : string;
  htmlPath : string;
  jsonPath : string
}.

Definition newMutationTestingElementsReporter (reportDir reportName : string) : MutationTestingElementsReporter :=
  let filename := getFilename reportName in
  mkElementsReporter filename (getReportDir reportDir +:+ "/" +:+ filename +:+ ".html")
    (getReportDir reportDir +:+ "/" +:+ filename +:+ ".json").

Definition quote : string := String "034"%char "".
Definition html (filename : string) : string :=
  "<!DOCTYPE html>" +:+ eol +:+
  "<head>" +:+ eol +:+
  "  <title>Mutation Testing Elements</title>" +:+ eol +:+
  "  <script defer src=" +:+ quote +:+ "https://www.unpkg.com/mutation-testing-elements" +:+ quote +:+ "></script>" +:+
  "</head>" +:+ eol +:+
  "<body>" +:+ eol +:+
  "  <mutation-test-report-app src=" +:+ quote +:+ filename +:+ ".json" +:+ quote +:+
  "</mutation-test-report-app>" +:+ eol +:+
  "</body>" +:+ eol +:+
  "</html>".

Definition report_json (score : Z) (filesJSON : list (string * Json)) : Json :=
  json_object
    [("mutationScore", JsonInt (to_int score));
     ("thresholds", json_object [("high", JsonInt 80); ("low", JsonInt 60)]);
     ("files", JsonObject filesJSON)].

(** The files written, in order. *)
Definition Elements_reportResults (reporter : MutationTestingElementsReporter) (result : Result)
    : D (list (string * string)) :=
  let points := result_mutationPoints result in
  if Nat.eqb (length points) 0 then _ ← info "No mutants found. Mutation score: infinitely high"; mret []
  else
    let killed := killedMutants (mutationResults result) in
    score ← lift (score_of (Z.of_nat (size killed)) (Z.of_nat (length points)));
    filesJSON ← createFiles points killed;
    _ ← info ("Mutation Testing Elements reporter: generating report to " +:+ jsonPath reporter);
    mret [(htmlPath reporter, html (filename reporter)); (jsonPath reporter, json_dump (report_json score filesJSON))].
End Elements.

(** ** Killed and survived *)

Lemma elem_of_killedMutants results pid :
  pid ∈ killedMutants results <-> exists r, r ∈ results /\ mr_point r = pid /\ status (mr_result r) <> Passed.
Proof.
  unfold killedMutants.
  enough (Hgen : forall acc : gset PointId, pid ∈ foldl (fun (killed : gset PointId) r => if negb (mutantSurvived (status (mr_result r)))
      then {[ mr_point r ]} ∪ killed else killed) acc results <->
    pid ∈ acc \/ exists r, r ∈ results /\ mr_point r = pid /\ status (mr_result r) <> Passed).
  { rewrite Hgen. set_solver. }
  unfold mutantSurvived. induction results as [|r results IH]; intros acc; cbn [foldl].
  - set_solver.
  - rewrite IH. destruct (bool_decide_reflect (status (mr_result r) = Passed)) as [Hp|Hp]; cbn [negb].
    + split; [intros [?|(r' & ? & ?)]; [by left|right; exists r'; set_solver]|].
      intros [?|(r' & [->|?]%elem_of_cons & ? & ?)]; [by left|done|right; eauto].
    + split.
      * intros [[->%elem_of_singleton|?]%elem_of_union|(r' & ? & ?)]; [right; exists r; set_solver|by left|right; exists r'; set_solver].
      * intros [?|(r' & [->|?]%elem_of_cons & <- & ?)]; [left; set_solver|left; set_solver|right; eauto].
Qed.

(** When the results are of the points listed, the killed ones among the
    listed are as many as the set holds. *)
Lemma size_killed points results :
  NoDup points -> (forall r, r ∈ results -> mr_point r ∈ points) ->
  size (killedMutants results) = length (filter (fun pid => pid ∈ killedMutants results) points).
Proof.
  intros Hnd Hin. rewrite <-(size_list_to_set (C:=gset PointId)) by (by apply NoDup_filter). f_equal.
  apply set_eq. intros pid. rewrite elem_of_list_to_set, list_elem_of_filter. split; [|tauto].
  intros Hk. split; [done|]. apply elem_of_killedMutants in Hk as (r & Hr & <- & _). by apply Hin.
Qed.

Lemma length_filter_split {A} (P : A -> Prop) `{forall x, Decision (P x)} (l : list A) :
  length l = length (filter P l) + length (filter (fun x => ~ P x) l).
Proof.
  induction l as [|x l IH]; [done|]. rewrite !filter_cons. destruct (decide (P x)), (decide (~ P x)); try tauto; cbn; lia.
Qed.

(** ** From the runs of the mutants to their verdicts *)

Definition all_pass (results : list MutationResult) (pid : PointId) : Prop :=
  forall r, r ∈ results -> mr_point r = pid -> status (mr_result r) = Passed.

Lemma not_killed_all_pass results pid : pid ∉ killedMutants results <-> all_pass results pid.
Proof.
  rewrite elem_of_killedMutants. split.
  - intros Hno r Hr Hp. destruct (decide (status (mr_result r) = Passed)); [done|]. exfalso. apply Hno. by exists r.
  - intros Hall (r & Hr & Hp & Hs). by apply Hs, Hall.
Qed.

Lemma all_pass_app l1 l2 pid : all_pass (l1 ++ l2) pid <-> all_pass l1 pid /\ all_pass l2 pid.
Proof.
  unfold all_pass. setoid_rewrite elem_of_app. split; [intros Hall; split; intros; apply Hall; auto|].
  intros [H1 H2] r [Hr|Hr] Hp; auto.
Qed.

(** Results of other points say nothing of a point. *)
Lemma all_pass_others results pid (points : list PointId) :
  (forall r, r ∈ results -> mr_point r ∈ points) -> pid ∉ points -> all_pass results pid.
Proof. intros Hin Hno r Hr <-. exfalso. by apply Hno, Hin. Qed.

Section Verdicts.
Context `{Mangler} (store : Store) (tests : list Test).
Context (sandbox : nat -> Memory -> TestId -> Z -> bool -> ExecutionResult).
Context (failFastEnabled capture : bool) (jit : JITEngine) (names : list string).
Hypothesis sandbox_valid : forall n memory t timeout, status (sandbox n memory t timeout capture) <> Invalid.
Hypothesis originals : forall name, name ∈ names -> getSymbol jit (original_symbol (getNameWithPrefix name)) <> 0%Z.

(** Every test that reaches the point passes, from run [n] on, in the memory
    where the trampoline of the point is aimed at its mutant and every other
    one at the original. *)
Definition passes_everywhere (p : MutationPoint) (t : Trampolines) (memory : Memory) (c : Pointer) (n : nat) : Prop :=
  forall k test d, reachableTests p !! k = Some (test, d) ->
    status (sandbox (n + k) (<[c := Some (getSymbol jit (getNameWithPrefix (getMutatedFunctionName p)))]> memory)
              test (timeout_of tests test) capture) = Passed.

(** The verdict of a point depends on the runs of its own mutant. *)
Definition verdict (results : list MutationResult) (pid : PointId) : Prop :=
  exists p t memory c n, store !! pid = Some p /\ aimed jit t memory /\
    findTrampoline t (getNameWithPrefix (getTrampolineName p)) = Some c /\
    (all_pass results pid <-> passes_everywhere p t memory c n).

Lemma tested_point t memory pid results r :
  tested store tests sandbox failFastEnabled capture jit t memory pid results -> r ∈ results -> mr_point r = pid.
Proof.
  intros (n & p & c & _ & _ & _ & ran & skipped & _ & -> & _) [Hr|Hr]%elem_of_app.
  - apply list_elem_of_lookup in Hr as [k Hk]. rewrite list_lookup_imap in Hk. by destruct (ran !! k); simplify_eq/=.
  - by apply list_elem_of_fmap in Hr as (x & -> & _).
Qed.

Lemma tested_verdict t memory pid results :
  aimed jit t memory -> tested store tests sandbox failFastEnabled capture jit t memory pid results -> verdict results pid.
Proof.
  intros Haim Ht. pose proof (fun r => tested_point t memory pid results r Ht) as Hpoint.
  destruct Ht as (n & p & c & Hp & Hc & _ & Hres). exists p, t, memory, c, n. split; [done|]. split; [done|]. split; [done|].
  apply point_results_verdict in Hres. split.
  - intros Hall k test d Hk. apply (proj1 Hres) with (t := (test, d)); [|done]. intros r Hr. by apply Hall, Hpoint.
  - intros Hall r Hr _. apply (proj2 Hres); [|done]. intros k [test d] Hk. by apply (Hall k test d).
Qed.

(** The verdict of a point in results that hold others' as well. *)
Lemma verdict_app_l results others pid :
  all_pass others pid -> verdict results pid -> verdict (results ++ others) pid.
Proof.
  intros Hothers (p & t & memory & c & n & ? & ? & ? & Hv). exists p, t, memory, c, n. rewrite all_pass_app. tauto.
Qed.

Lemma verdict_app_r results others pid :
  all_pass others pid -> verdict results pid -> verdict (others ++ results) pid.
Proof.
  intros Hothers (p & t & memory & c & n & ? & ? & ? & Hv). exists p, t, memory, c, n. rewrite all_pass_app. tauto.
Qed.

Lemma parts_verdicts t memory points parts :
  aimed jit t memory -> NoDup points ->
  Forall2 (tested store tests sandbox failFastEnabled capture jit t memory) points parts ->
  (forall r, r ∈ concat parts -> mr_point r ∈ points) /\ forall pid, pid ∈ points -> verdict (concat parts) pid.
Proof.
  intros Haim Hnd Hparts. induction Hparts as [|pid part points parts Ht _ IH]; cbn [concat].
  { split; intros ? Hn; by apply not_elem_of_nil in Hn. }
  apply NoDup_cons in Hnd as [Hfresh Hnd]. destruct (IH Hnd) as [Hin Hv].
  pose proof (fun r => tested_point t memory pid part r Ht) as Hpoint. split.
  - intros r [Hr|Hr]%elem_of_app; [by rewrite (Hpoint r Hr); left|right; by apply Hin].
  - intros q [->|Hq]%elem_of_cons.
    + apply (verdict_app_l _ _ _ (all_pass_others _ _ _ Hin Hfresh)). by eapply tested_verdict.
    + apply verdict_app_r; [|by apply Hv]. intros r Hr Heq. exfalso. apply Hfresh. rewrite <-(Hpoint r Hr). by rewrite Heq.
Qed.

(** One task. *)
Lemma task_verdicts points :
  runnable store tests points names -> NoDup points ->
  exists results, MutantExecutionTask store tests sandbox failFastEnabled capture jit names points = Ok results /\
    (forall r, r ∈ results -> mr_point r ∈ points) /\ forall pid, pid ∈ points -> verdict results pid.
Proof.
  intros Hrun Hnd. destruct (trampolines_aimed names jit originals) as (t & memory0 & memory & Hal & Hfix & Haim & Hfind).
  destruct (run_mutants_spec store tests sandbox failFastEnabled capture jit sandbox_valid names t memory points Haim Hrun Hfind)
    as (parts & runs & Hruns & Hparts).
  exists (concat parts). split; [|by eapply parts_verdicts].
  unfold MutantExecutionTask. rewrite Hal, Hfix. cbn [mbind outcome_bind]. by rewrite Hruns.
Qed.

(** The tasks of all the threads. *)
Lemma tasks_verdicts batches :
  runnable store tests (concat batches) names -> NoDup (concat batches) ->
  exists results,
    Forall2 (fun points part => MutantExecutionTask store tests sandbox failFastEnabled capture jit names points = Ok part)
      batches results /\
    (forall r, r ∈ concat results -> mr_point r ∈ concat batches) /\
    forall pid, pid ∈ concat batches -> verdict (concat results) pid.
Proof.
  induction batches as [|points batches IH]; cbn [concat]; intros Hrun Hnd.
  { exists []. split; [constructor|]. split; intros ? Hn; by apply not_elem_of_nil in Hn. }
  apply NoDup_app in Hnd as (Hnd1 & Hdisj & Hnd2).
  destruct (task_verdicts points) as (part & Hpart & Hin1 & Hv1); [|done|].
  { intros pid Hpid. apply Hrun, elem_of_app. by left. }
  destruct IH as (results & Hresults & Hin2 & Hv2); [|done|].
  { intros pid Hpid. apply Hrun, elem_of_app. by right. }
  exists (part :: results). split; [by constructor|]. cbn [concat]. split.
  - intros r [Hr|Hr]%elem_of_app; apply elem_of_app; [left; by apply Hin1|right; by apply Hin2].
  - intros pid [Hpid|Hpid]%elem_of_app; [apply verdict_app_l|apply verdict_app_r].
    + eapply all_pass_others; [exact Hin2|]. by apply Hdisj.
    + by apply Hv1.
    + eapply all_pass_others; [exact Hin1|]. intros Hp. by apply (Hdisj pid).
    + by apply Hv2.
Qed.
End Verdicts.

(** C2: what the tool reports is what happened.  The points are shared out to
    any number of mutant execution tasks; when they have run, a mutant is counted
    as killed exactly when some test that reaches it did not pass, run in the
    memory where the trampoline of this mutant, and of no other, leads to its
    mutated function. *)
Theorem survived_iff_tests_pass `{Mangler} store tests sandbox failFastEnabled capture jit names batches :
  (forall n memory t timeout, status (sandbox n memory t timeout capture) <> Invalid) ->
  (forall name, name ∈ names -> getSymbol jit (original_symbol (getNameWithPrefix name)) <> 0%Z) ->
  runnable store tests (concat batches) names -> NoDup (concat batches) ->
  exists results,
    Forall2 (fun points part => MutantExecutionTask store tests sandbox failFastEnabled capture jit names points = Ok part)
      batches results /\
    forall pid, pid ∈ concat batches ->
      exists p t memory c n, store !! pid = Some p /\ aimed jit t memory /\
        findTrampoline t (getNameWithPrefix (getTrampolineName p)) = Some c /\
        (pid ∉ killedMutants (concat results) <->
         passes_everywhere tests sandbox capture jit p t memory c n).
Proof.
  intros Hvalid Horig Hrun Hnd.
  destruct (tasks_verdicts store tests sandbox failFastEnabled capture jit names Hvalid Horig batches Hrun Hnd)
    as (results & Hresults & _ & Hv).
  exists results. split; [done|]. intros pid Hpid. destruct (Hv pid Hpid) as (p & t & memory & c & n & ? & ? & ? & ?).
  exists p, t, memory, c, n. by rewrite not_killed_all_pass.
Qed.

(** The mutant of the addition fails the tests, the other passes. *)
Lemma survived_iff_tests_pass_witness :
  exists results,
    Forall2 (fun points part => MutantExecutionTask sample_tested_store sample_tests sample_sandbox true true sample_jit
      [sample_trampoline] points = Ok part) [[0]; [1]] results /\
    0 ∈ killedMutants (concat results) /\ 1 ∉ killedMutants (concat results).
Proof.
  destruct (survived_iff_tests_pass sample_tested_store sample_tests sample_sandbox true true sample_jit
    [sample_trampoline] [[0]; [1]]) as (results & Hresults & _).
  - exact sample_sandbox_valid.
  - intros name Hn. apply list_elem_of_singleton in Hn as ->. vm_compute. done.
  - exact sample_runnable.
  - apply (bool_decide_unpack _). vm_compute. exact I.
  - exists results. split; [done|].
    inversion Hresults as [|? part1 ? rest H1 Hrest]; subst. inversion Hrest as [|? part2 ? rest2 H2 Hnil]; subst.
    inversion Hnil; subst. vm_compute in H1, H2. injection H1 as <-. injection H2 as <-.
    split; [|intros Hin]; [apply (bool_decide_unpack _); vm_compute; exact I|].
    apply (bool_decide_pack _) in Hin. vm_compute in Hin. exact Hin.
Defined.

(** ** The report on the terminal *)

Lemma getLine_from_cache files m location s m0 :
  cached files m -> getLine files ∅ location = Ok (s, m0) ->
  exists m', getLine files m location = Ok (s, m') /\ cached files m'.
Proof.
  intros Hm. unfold getLine at 1, getLineOffset, SourceManager. rewrite lookup_empty.
  destruct (files (filePath location)) as [content|] eqn:Hc; [|done]. cbn [of_option mbind outcome_bind mret outcome_ret].
  destruct (getLineOffset_cached _ _ _ _ Hm Hc) as (m' & Hlo & Hm'). intros Hrun. exists m'. split; [|done].
  unfold getLine. rewrite Hlo. cbn [mbind outcome_bind]. destruct (line_at _ _); cbn in *; [|done..]. by injection Hrun as -> _.
Qed.

Section Printed.
Context (store : Store) (files : string -> option string) (text : PointId -> bool -> string).

(** The point can be shown, with this text. *)
Definition shown (pid : PointId) : Prop :=
  forall survived, exists p line m,
    store !! pid = Some p /\ isNull (sourceLocation p) = false /\
    getLine files ∅ (sourceLocation p) = Ok (line, m) /\ mutant_text p survived line = Ok (text pid survived).

Lemma printMutant_shown survived m pid d :
  cached files m -> shown pid ->
  exists m', printMutant store files survived m pid d = (Ok m', logged d [StandardOutput (text pid survived)]) /\ cached files m'.
Proof.
  intros Hm Hs. destruct (Hs survived) as (p & line & m0 & Hp & Hnull & Hl & Htext).
  destruct (getLine_from_cache _ _ _ _ _ Hm Hl) as (m' & Hl' & Hm'). exists m'. split; [|done].
  unfold printMutant, point_at, lift, mbind, D_bind. rewrite Hp. cbn [of_option]. rewrite Hnull. cbn [negb require].
  rewrite Hl', Htext. done.
Qed.

Lemma print_if_shown keep survived m points d :
  cached files m -> (forall pid, pid ∈ points -> shown pid) ->
  exists m', print_if store files keep survived m points d =
    (Ok m', logged d (map (fun pid => StandardOutput (text pid survived)) (filter (fun pid => keep pid = true) points))) /\
    cached files m'.
Proof.
  unfold print_if. revert m d. induction points as [|pid points IH]; intros m d Hm Hs.
  { exists m. split; [|done]. cbn. by rewrite logged_nil. }
  cbn [d_fold]. rewrite D_bind_run, filter_cons. destruct (keep pid) eqn:Hk.
  - destruct (printMutant_shown survived m pid d Hm) as (m1 & -> & Hm1); [apply Hs; by left|].
    destruct (IH m1 (logged d [StandardOutput (text pid survived)]) Hm1) as (m2 & Hrun & Hm2); [intros q Hq; apply Hs; by right|].
    exists m2. split; [|done]. rewrite Hrun, logged_app. by destruct (decide (true = true)).
  - cbn [mret D_ret]. destruct (IH m d Hm) as (m2 & Hrun & Hm2); [intros q Hq; apply Hs; by right|].
    exists m2. split; [|done]. cbn. rewrite Hrun. done.
Qed.
End Printed.

(** A section of the report: a title with a count, then the mutants. *)
Definition section (title : string) (text : PointId -> string) (mutants : list PointId) (total : nat) : list LogEvent :=
  LogInfo (title +:+ to_string (Z.of_nat (length mutants)) +:+ "/" +:+ to_string (Z.of_nat total) +:+ "):")
  :: map (fun pid => StandardOutput (text pid)) mutants.

Definition is_empty {A} (l : list A) : bool := match l with [] => true | _ => false end.

Lemma is_empty_length {A} (l : list A) : (0 <? Z.of_nat (length l))%Z = negb (is_empty l).
Proof. by destruct l. Qed.

Lemma section_printed store files text title keep survived m points mutants d :
  cached files m -> (forall pid, pid ∈ points -> shown store files text pid) -> seenProgress d = false ->
  filter (fun pid => keep pid = true) points = mutants ->
  exists m', (_ ← info (title +:+ to_string (Z.of_nat (length mutants)) +:+ "/" +:+ to_string (Z.of_nat (length points)) +:+ "):");
     print_if store files keep survived m points) d =
    (Ok m', logged d (section title (fun pid => text pid survived) mutants (length points))) /\ cached files m'.
Proof.
  intros Hm Hshown Hseen <-. rewrite D_bind_run, info_logged by done.
  edestruct (print_if_shown store files text keep survived m points) as (m' & -> & Hm'); [done|exact Hshown|].
  exists m'. by rewrite logged_app.
Qed.

(** C28: the report on the terminal is complete and its counts are right: with
    each point listed once, the killed mutants when they are asked for, then the
    survivors, in the order of the points, each under a title with their number,
    then the score.  (A point can be shown when its line can be read and its
    column lies within it.) *)
Theorem IDEReporter_report store files text showKilled result score d :
  let points := result_mutationPoints result in
  let killed := filter (fun pid => pid ∈ killedMutants (mutationResults result)) points in
  let survived := filter (fun pid => pid ∉ killedMutants (mutationResults result)) points in
  points <> [] -> NoDup points -> (Z.of_nat (length points) < 18446744073709551616)%Z ->
  (forall r, r ∈ mutationResults result -> mr_point r ∈ points) ->
  (forall pid, pid ∈ points -> shown store files text pid) ->
  score_of (Z.of_nat (length killed)) (Z.of_nat (length points)) = Ok score ->
  seenProgress d = false ->
  IDEReporter_reportResults store files showKilled result d =
  (Ok tt, logged d (
    (if showKilled && negb (is_empty killed)
     then section "Killed mutants (" (fun pid => text pid false) killed (length points) else []) ++
    (if is_empty survived then [LogInfo "All mutations have been killed"]
     else section "Survived mutants (" (fun pid => text pid true) survived (length points)) ++
    [LogInfo ("Mutation score: " +:+ to_string score +:+ "%")])).
Proof.
  intros points killed survived Hne Hnd Hbound Hresults Hshown Hscore Hseen. unfold IDEReporter_reportResults.
  fold points. destruct (Nat.eqb_spec (length points) 0) as [Hlen|_]; [by destruct points|].
  rewrite (size_killed points) by done. fold killed.
  assert (Hsplit : length points = length killed + length survived) by apply length_filter_split.
  assert (Hsz : to_size_t (Z.of_nat (length points) - Z.of_nat (length killed)) = Z.of_nat (length survived)).
  { unfold to_size_t. rewrite Z.mod_small; lia. }
  rewrite Hsz, !is_empty_length, Hscore.
  destruct (section_printed store files text "Killed mutants (" (fun pid => bool_decide (pid ∈ killedMutants (mutationResults result)))
    false ∅ points killed d) as (m1 & Hfirst & Hm1); [done|exact Hshown|done| |].
  { apply list_filter_iff. intros pid. by rewrite bool_decide_eq_true. }
  set (d1 := logged d (if showKilled && negb (is_empty killed)
    then section "Killed mutants (" (fun pid => text pid false) killed (length points) else [])).
  set (m := if showKilled && negb (is_empty killed) then m1 else ∅).
  destruct (section_printed store files text "Survived mutants (" (fun pid => negb (bool_decide (pid ∈ killedMutants (mutationResults result))))
    true m points survived d1) as (m2 & Hsecond & _); [by subst m; destruct (_ && _)|exact Hshown|done| |].
  { apply list_filter_iff. intros pid. by rewrite negb_true_iff, bool_decide_eq_false. }
  rewrite D_bind_run.
  replace ((if showKilled && negb (is_empty killed) then _ else _) d) with (Ok m, d1)
    by (subst m d1; destruct (_ && _); [by rewrite Hfirst|by rewrite logged_nil]).
  rewrite D_bind_run.
  set (d2 := logged d1 (if is_empty survived then [LogInfo "All mutations have been killed"]
       else section "Survived mutants (" (fun pid => text pid true) survived (length points))).
  replace ((if negb (is_empty survived) then _ else _) d1) with (Ok tt, d2)
    by (subst d2; destruct (is_empty survived); cbn [negb]; [by rewrite info_logged|revert Hsecond; rewrite !D_bind_run, info_logged by done; intros Hsecond; rewrite D_bind_run, Hsecond; done]).
  unfold lift. rewrite D_bind_run, info_logged by done. unfold d2, d1. by rewrite !logged_app.
Qed.

Definition sample_sources (path : string) : option string :=
  if String.eqb path "/home/dev/sum.cpp" then
    Some ("int sum(int a) {" +:+ eol +:+ "  log();" +:+ eol +:+ "  return 1 + 2 + a;" +:+ eol +:+ "}" +:+ eol)
  else None.

Definition sample_result : Result :=
  mkResult sample_tests [mkMutationResult (with_status Failed newExecutionResult) 0 1 0;
    mkMutationResult (with_status Passed newExecutionResult) 1 1 0] [0; 1].

Definition sample_text (pid : PointId) (survived : bool) : string :=
  if Nat.eqb pid 0 then
    "/home/dev/sum.cpp:3:10: warning: " +:+ (if survived then "Survived" else "Killed") +:+
    ":  [cxx_add_to_sub]" +:+ eol +:+ "  return 1 + 2 + a;" +:+ eol +:+ "         ^" +:+ eol
  else
    "/home/dev/sum.cpp:2:3: warning: " +:+ (if survived then "Survived" else "Killed") +:+
    ":  [remove_void_function_mutator]" +:+ eol +:+ "  log();" +:+ eol +:+ "  ^" +:+ eol.

Lemma IDEReporter_report_witness :
  exists d, IDEReporter_reportResults sample_tested_store sample_sources false sample_result newDiagnostics = (Ok tt, d) /\
  out d = [LogInfo "Survived mutants (1/2):"; StandardOutput (sample_text 1 true); LogInfo "Mutation score: 50%"].
Proof.
  eexists. split.
  - apply (IDEReporter_report sample_tested_store sample_sources sample_text false sample_result 50 newDiagnostics).
    + done.
    + apply (bool_decide_unpack _). vm_compute. exact I.
    + done.
    + intros r [->|[->|Hr]%elem_of_cons]%elem_of_cons; [left|right; left|by apply not_elem_of_nil in Hr].
    + intros pid [->|[->|Hp]%elem_of_cons]%elem_of_cons survived; [..|by apply not_elem_of_nil in Hp];
        (do 3 eexists; split; [reflexivity|]; split; [reflexivity|]; split; [vm_compute; reflexivity|]; by destruct survived).
    + vm_compute. reflexivity.
    + done.
  - vm_compute. reflexivity.
Defined.

(** ** The score *)

(** C29: the score reported is the percentage of the killed mutants, rounded down,
    or one less, for up to [2 ^ 42] mutants; it is 100 exactly when all of them
    were killed.  It can be one less because the quotient is rounded to a [double]
    before it is multiplied and truncated: 29 of 100 is reported as 28. *)
Theorem score_within_one killed total :
  (0 < total < 2 ^ 42)%Z -> (0 <= killed <= total)%Z ->
  score_of 29 100 = Ok 28%Z /\
  exists score, score_of killed total = Ok score /\
    (100 * killed / total - 1 <= score <= 100 * killed / total)%Z /\
    (score = 100%Z <-> killed = total).
Proof.
  intros Ht Hk. split; [vm_compute; reflexivity|].
  destruct (percentage_close killed total Hk Ht) as (s & Hs & H0 & Hlo & Hhi). exists s. split; [exact Hs|].
  pose proof (Z.div_mod (100 * killed) total ltac:(lia)). pose proof (Z.mod_pos_bound (100 * killed) total ltac:(lia)).
  set (q := (100 * killed / total)%Z) in *. split; [split; nia|]. split; [nia|].
  intros ->. pose proof (percentage_whole total Ht) as Hw. unfold score_of in Hw. congruence.
Qed.

Lemma score_within_one_witness : exists score, score_of 2 3 = Ok score /\ (65 <= score <= 66)%Z.
Proof. destruct (score_within_one 2 3 ltac:(lia) ltac:(lia)) as (_ & s & Hs & Hb & _). by exists s. Defined.

(** ** The report for the web page *)
Section Files.
Context (store : Store) (files : string -> option string) `{SourceInfoProvider}.
Context (killed : gset PointId) (info_of : MutationPoint -> MutationPointSourceInfo).

(** The source information is at hand for the points. *)
Definition provided (points : list PointId) : Prop :=
  forall pid, pid ∈ points -> exists p, store !! pid = Some p /\
    forall d, getSourceInfo p d = (Ok (info_of p), d).

Definition entry_of (pid : PointId) : Json :=
  match store !! pid with
  | Some p => mutant_json killed pid p (info_of p)
  | None => JsonObject []
  end.

Definition in_file (path : string) (pid : PointId) : bool :=
  match store !! pid with Some p => String.eqb (filePath (sourceLocation p)) path | None => false end.

Lemma d_map_entries points d :
  provided points -> d_map (mutant_entry store killed) points d = (Ok (map entry_of points), d).
Proof.
  intros Hp. unfold d_map.
  enough (Hgen : forall acc, d_fold (fun acc a => b ← mutant_entry store killed a; mret (acc ++ [b])) acc points d =
    (Ok (acc ++ map entry_of points), d)) by apply Hgen.
  induction points as [|pid points IH]; intros acc; [by rewrite app_nil_r|].
  cbn [d_fold]. destruct (Hp pid) as (p & Hpid & Hinfo); [by left|].
  assert (Hentry : mutant_entry store killed pid d = (Ok (entry_of pid), d)).
  { unfold mutant_entry, entry_of, point_at, lift. rewrite !D_bind_run, Hpid. cbn [of_option]. by rewrite !D_bind_run, Hinfo. }
  rewrite !D_bind_run, Hentry. cbn [mret D_ret]. rewrite IH; [by rewrite <-app_assoc|]. intros q Hq. apply Hp. by right.
Qed.
(** The line of the point can be read and its column lies within it. *)
Definition readable (pid : PointId) : Prop :=
  exists p line m, store !! pid = Some p /\ getLine files ∅ (sourceLocation p) = Ok (line, m) /\
    (to_size_t (column (sourceLocation p)) < Z.of_nat (String.length line))%Z.

Definition in_path (path : string) (points : list PointId) : list PointId :=
  filter (fun pid => in_file path pid = true) points.

Definition nonempty {A} (l : list A) : option (list A) := if is_empty l then None else Some l.

(** The points collected so far, by file. *)
Definition collected (points : list PointId) (st : SourceManager * list (string * list PointId)) : Prop :=
  cached files st.1 /\ omap_wf st.2 /\ forall path, omap_find path st.2 = nonempty (in_path path points).

Lemma nonempty_default {A} (l : list A) : default [] (nonempty l) = l.
Proof. by destruct l. Qed.

Lemma collect_mutant_step points st pid :
  collected points st -> readable pid ->
  exists st', collect_mutant store files st pid = Ok st' /\ collected (points ++ [pid]) st'.
Proof.
  intros (Hm & Hwf & Hfind) (p & line & m0 & Hp & Hl & Hcol). destruct st as [m grouped]. cbn [fst snd] in *.
  destruct (getLine_from_cache _ _ _ _ _ Hm Hl) as (m' & Hl' & Hm').
  unfold collect_mutant, point_at. rewrite Hp. cbn [of_option mbind outcome_bind]. rewrite Hl'. cbn [mbind outcome_bind].
  rewrite (proj2 (Z.ltb_lt _ _) Hcol). cbn [require mbind outcome_bind]. eexists. split; [reflexivity|].
  split; [done|]. split; [by apply omap_wf_assign|]. intros path. cbn [snd].
  assert (Hin : in_file path pid = String.eqb (filePath (sourceLocation p)) path) by (unfold in_file; by rewrite Hp).
  unfold in_path in *. rewrite filter_app, filter_cons, filter_nil, Hin. clear Hin.
  destruct (String.eqb_spec (filePath (sourceLocation p)) path) as [Heq|Hne]; [subst path|].
  - rewrite omap_find_update_eq, Hfind, nonempty_default. destruct (decide (true = true)); [|done].
    unfold nonempty. by destruct (filter _ points).
  - rewrite omap_find_update_ne by done. rewrite Hfind. destruct (decide (false = true)); [done|]. by rewrite app_nil_r.
Qed.

Lemma collect_mutants points :
  (forall pid, pid ∈ points -> readable pid) ->
  exists st, fold_outcome (collect_mutant store files) (∅, []) points = Ok st /\ collected points st.
Proof.
  intros Hr. apply (fold_outcome_progress collected); [by split; [|split; [apply omap_wf_nil|]]|].
  intros dn pid rest st Hsplit Hst. apply collect_mutant_step; [done|]. apply Hr. rewrite Hsplit.
  apply elem_of_app. right. by left.
Qed.

Lemma add_files grouped json d :
  (forall path points, (path, points) ∈ grouped -> provided points) -> omap_wf json -> omap_wf grouped ->
  exists json', d_fold (add_file store files killed) json grouped d = (Ok json', d) /\ omap_wf json' /\
    forall path, omap_find path json' =
      match omap_find path grouped with
      | Some points => Some (file_json files path (map entry_of points))
      | None => omap_find path json
      end.
Proof.
  revert json. induction grouped as [|[path points] grouped IH]; intros json Hprov Hwf Hg; [by exists json|].
  cbn [d_fold]. rewrite D_bind_run.
  assert (Hadd : add_file store files killed json (path, points) d =
    (Ok (omap_assign path (file_json files path (map entry_of points)) json), d)).
  { unfold add_file. rewrite D_bind_run. cbn [snd fst]. rewrite d_map_entries; [done|]. apply (Hprov path). by left. }
  rewrite Hadd. destruct (IH (omap_assign path (file_json files path (map entry_of points)) json)) as (json' & Hrun & Hwf' & Hfind);
    [|by apply omap_wf_assign|by eapply omap_wf_tail|].
  { intros q l Hq. apply (Hprov q). by right. }
  exists json'. split; [done|]. split; [done|]. intros q. rewrite Hfind, omap_find_cons by done.
  destruct (decide (q = path)) as [->|Hne].
  - rewrite key_lt_irrefl. cbn [orb]. by rewrite (omap_find_fresh _ _ _ Hg), omap_find_assign_eq.
  - rewrite omap_find_assign_ne by done. destruct (key_lt q path || key_lt path q) eqn:E; [done|].
    apply orb_false_iff in E as [E1 E2]. by destruct (Hne (key_lt_total _ _ E1 E2)).
Qed.
End Files.

(** The report for the web page holds every point once, under the file it
    lies in: there is an entry for a file exactly when some point lies in it, and
    it lists the points of that file in their order, each [Survived] unless it
    was killed. *)
Theorem createFiles_correct store files `{SourceInfoProvider} killed info_of points d :
  (forall pid, pid ∈ points -> readable store files pid) -> provided store info_of points ->
  exists json, createFiles store files points killed d = (Ok json, d) /\ omap_wf json /\
    forall path, omap_find path json =
      match nonempty (in_path store path points) with
      | Some l => Some (file_json files path (map (entry_of store killed info_of) l))
      | None => None
      end.
Proof.
  intros Hr Hp. destruct (collect_mutants store files points Hr) as ([m grouped] & Hcollect & Hm & Hwf & Hfind).
  cbn [fst snd] in *. unfold createFiles, lift. rewrite D_bind_run, Hcollect. cbn [snd].
  destruct (add_files store files killed info_of grouped [] d) as (json & Hrun & Hwf' & Hjson); [|apply omap_wf_nil|done|].
  { intros path l Hl pid Hpid. apply Hp. apply omap_elem_find in Hl; [|done]. rewrite Hfind in Hl.
    unfold nonempty in Hl. destruct (is_empty _); [done|]. injection Hl as <-. unfold in_path in Hpid.
    by apply list_elem_of_filter in Hpid as [_ ?]. }
  exists json. split; [done|]. split; [done|]. intros path. rewrite Hjson, Hfind. by destruct (nonempty _).
Qed.

#[local] Instance sample_provider : SourceInfoProvider := {| getSourceInfo := fun p => mret newSourceInfo |}.

Lemma createFiles_correct_witness :
  exists json, createFiles sample_tested_store sample_sources [0; 1] {[0]} newDiagnostics = (Ok json, newDiagnostics) /\
    map fst json = ["/home/dev/sum.cpp"].
Proof.
  destruct (createFiles_correct sample_tested_store sample_sources {[0]} (fun _ => newSourceInfo) [0; 1] newDiagnostics)
    as (json & Hrun & _ & _).
  - intros pid [->|[->|Hp]%elem_of_cons]%elem_of_cons; [..|by apply not_elem_of_nil in Hp];
      (do 3 eexists; split; [reflexivity|]; split; [vm_compute; reflexivity|]; vm_compute; reflexivity).
  - intros pid [->|[->|Hp]%elem_of_cons]%elem_of_cons; [..|by apply not_elem_of_nil in Hp]; by eexists.
  - exists json. split; [done|]. vm_compute in Hrun. injection Hrun as <-. reflexivity.
Defined.
