(* ===== verification/SQLiteReporter.v ===== *)
(** * The database of results (lib/Reporters/SQLiteReporter.cpp)

    The reporter fills the tables of a new SQLite database in one transaction.
    SQLite is a library: the class [SQLite] holds the calls the reporter makes
    and what the documentation says of them: a table can be created once, a row
    that repeats a value of a UNIQUE column is refused, or dropped by
    INSERT OR IGNORE. *)

From stdpp Require Import base list strings gmap.
From Stdlib Require Import ZArith Lia Bool.
From S2P Require Import Prelude StdContainers StringFacts Diagnostics MutatorKind IR SourceLocation Irm Mutator.
From S2P Require Import Samples MutationPoint Reachable Bitcode MutantExecution Reporters.

Inductive Value := SqlText (text : string) | SqlInt (value : Z).

#[global] Instance Value_eq_dec : EqDecision Value.
Proof. solve_decision. Defined.

Abbreviation Row := (list Value).

(** A table: its columns and the place of the one that is UNIQUE. *)
Record Table := mkTable {
  table_columns : list string;
  table_unique : option nat
}.

Definition CreateTables : list (string * Table) :=
  [("execution_result", mkTable ["test_id"; "mutation_point_id"; "status"; "duration"; "stdout"; "stderr"] None);
   ("test", mkTable ["test_name"; "unique_id"; "location_file"; "location_line"] (Some 1));
   ("mutation_point", mkTable ["mutator"; "module_name"; "function_name"; "function_index"; "basic_block_index";
      "instruction_index"; "filename"; "directory"; "ideDiagnostics"; "line_number"; "column_number"; "unique_id"] (Some 11));
   ("mutation_result", mkTable ["test_id"; "mutation_point_id"; "mutation_distance"] None);
   ("mutation_point_debug", mkTable ["filename"; "directory"; "line_number"; "column_number"; "function"; "basic_block";
      "instruction"; "unique_id"] (Some 7));
   ("config", mkTable ["project_name"; "bitcode_paths"; "mutators"; "dynamic_libraries"; "object_files"; "tests"; "fork";
      "dry_run"; "fail_fast"; "use_cache"; "timeout"; "max_distance"; "cache_directory"; "time_start"; "time_end"] None)].

(** The statements executed as they are. *)
Inductive Statement :=
  | Create (tables : list (string * Table))
  | BeginTransaction
  | EndTransaction.

Definition sql_text (s : Statement) : string :=
  match s with
  | Create _ => "CREATE TABLE ..."
  | BeginTransaction => "BEGIN TRANSACTION"
  | EndTransaction => "END TRANSACTION"
  end.

(** Two rows with the same value in the UNIQUE column. *)
Definition conflict (table : Table) (row row' : Row) : bool :=
  match table_unique table with
  | Some c => bool_decide (row !! c = row' !! c)
  | None => false
  end.

Abbreviation Contents := (gmap string (Table * list Row)).

(** [contents] and [in_transaction] tell the state of the connection; a failed
    call returns SQLite's message. *)
Class SQLite := {
  Database : Type;
  contents : Database -> Contents;
  in_transaction : Database -> bool;
  sqlite3_exec : Database -> Statement -> string + Database;
  sqlite3_step : Database -> bool -> string -> Row -> string + Database;
  exec_create db tables :
    NoDup (map fst tables) ->
    if forallb (fun t => bool_decide (contents db !! t.1 = None)) tables
    then exists db', sqlite3_exec db (Create tables) = inr db' /\ in_transaction db' = in_transaction db /\
           contents db' = list_to_map (map (fun t => (t.1, (t.2, []))) tables) ∪ contents db
    else exists message, sqlite3_exec db (Create tables) = inl message;
  exec_begin db :
    in_transaction db = false ->
    exists db', sqlite3_exec db BeginTransaction = inr db' /\ in_transaction db' = true /\ contents db' = contents db;
  exec_end db :
    in_transaction db = true ->
    exists db', sqlite3_exec db EndTransaction = inr db' /\ in_transaction db' = false /\ contents db' = contents db;
  step_insert db (or_ignore : bool) name row table rows :
    contents db !! name = Some (table, rows) -> length row = length (table_columns table) ->
    if existsb (conflict table row) rows then
      if or_ignore then exists db', sqlite3_step db or_ignore name row = inr db' /\
                                    in_transaction db' = in_transaction db /\ contents db' = contents db
      else exists message, sqlite3_step db or_ignore name row = inl message
    else exists db', sqlite3_step db or_ignore name row = inr db' /\
                     in_transaction db' = in_transaction db /\ contents db' = <[name := (table, rows ++ [row])]> (contents db)
}.

(** The values bound: C strings, [int], [sqlite3_int64]. *)
Definition bind_text (s : string) : Value := SqlText (c_string s).
Definition bind_int (z : Z) : Value := SqlInt (to_int z).
Definition bind_int64 (z : Z) : Value := SqlInt z.

Definition status_code (s : ExecutionStatus) : Z :=
  match s with
  | Invalid => 0 | Failed => 1 | Passed => 2 | Timedout => 3 | Crashed => 4 | AbnormalExit => 5 | DryRun => 6 | FailFast => 7
  end.

Section Reporter.
Context `{LLVMPath, SQLite}.
(** The functions and the identifiers of the modules in memory. *)
Context (function_of : FnId -> option Function) (moduleIdentifier : BitcodePtr -> string).
Context (store : Store) (now : string).

Definition sqlite_exec (database : Database) (sql : Statement) : D Database :=
  match sqlite3_exec database sql with
  | inr database => mret database
  | inl message => error ("Cannot execute " +:+ sql_text sql +:+ eol +:+ "Reason: '" +:+ message +:+ "'" +:+ eol)
  end.

Definition sqlite_step (database : Database) (name : string) (row : Row) : D Database :=
  match sqlite3_step database false name row with
  | inr database => mret database
  | inl message => error ("Error inserting data: " +:+ eol +:+ "Reason: '" +:+ message +:+ "'" +:+ eol)
  end.

(** A step whose result nobody looks at. *)
Definition unchecked_step (database : Database) (or_ignore : bool) (name : string) (row : Row) : Database :=
  match sqlite3_step database or_ignore name row with inr database => database | inl _ => database end.

Definition getReportName (name : string) : string :=
  (if empty_string name then now else name) +:+ ".sqlite".

Definition newSQLiteReporter (reportDir reportName : string) : string :=
  getReportDir reportDir +:+ "/" +:+ getReportName reportName.

Definition execution_result_row (testId pointId : string) (r : ExecutionResult) : Row :=
  [bind_text testId; bind_text pointId; bind_int (status_code (status r)); bind_int64 (runningTime r);
   bind_text (stdoutOutput r); bind_text (stderrOutput r)].

(** [Test::getTestDisplayName] and [Test::getUniqueIdentifier] are the name. *)
Definition test_row (test : Test) (testLocation : SourceLocation) : Row :=
  [bind_text (testName test); bind_text (testName test); bind_text (filePath testLocation); bind_int (line testLocation)].

Definition insert_test (database : Database) (test : Test) : D Database :=
  body ← lift (of_option "null test body" (testBody test ≫= function_of));
  let testLocation := locationFromFunction body in
  database ← sqlite_step database "execution_result" (execution_result_row (testName test) "" (executionResult test));
  sqlite_step database "test" (test_row test testLocation).

Definition mutation_result_row (testId pointId : string) (distance : Z) : Row :=
  [bind_text testId; bind_text pointId; bind_int distance].

Definition insert_mutation_result (tests : list Test) (database : Database) (r : MutationResult) : outcome Database :=
  mutationPoint ← point_at store (mr_point r);
  test ← test_at tests (mr_test r);
  let testId := testName test in
  let pointId := uniqueIdentifier mutationPoint in
  let database := unchecked_step database false "execution_result" (execution_result_row testId pointId (mr_result r)) in
  mret (unchecked_step database false "mutation_result" (mutation_result_row testId pointId (mr_distance r))).

Definition mutation_point_row (p : MutationPoint) : Row :=
  [bind_text (getUniqueIdentifier (mutator p)); bind_text (moduleIdentifier (bitcode p)); bind_text (originalFunction_name p);
   bind_int (functionIndex (address p)); bind_int (basicBlockIndex (address p)); bind_int (instructionIndex (address p));
   bind_text (filePath (sourceLocation p)); bind_text (directory (sourceLocation p)); bind_text (point_diagnostics p);
   bind_int (line (sourceLocation p)); bind_int (column (sourceLocation p)); bind_text (uniqueIdentifier p)].

Definition insert_mutation_point (database : Database) (pid : PointId) : outcome Database :=
  mutationPoint ← point_at store pid;
  mret (unchecked_step database true "mutation_point" (mutation_point_row mutationPoint)).

(** The results point into the list of tests, which the [Result] now owns. *)
Definition SQLiteReporter_reportResults (databasePath : string) (database : Database) (result : Result)
    : D Database :=
  database ← sqlite_exec database (Create CreateTables);
  database ← sqlite_exec database BeginTransaction;
  database ← d_fold insert_test database (result_tests result);
  database ← lift (fold_outcome (insert_mutation_result (result_tests result)) database (mutationResults result));
  database ← lift (fold_outcome insert_mutation_point database (result_mutationPoints result));
  database ← sqlite_exec database EndTransaction;
  _ ← info ("Results can be found at '" +:+ databasePath +:+ "'");
  mret database.
End Reporter.

(** ** The tables while they are filled *)
Record Rows := mkRows {
  execution_results : list Row;
  test_rows : list Row;
  mutation_results : list Row;
  mutation_points : list Row
}.

Definition table_of (name : string) : Table := default (mkTable [] None) (list_to_map (M:=gmap string Table) CreateTables !! name).

Section Tables.
Context `{SQLite}.

(** The database holds these rows. *)
Definition holds (db : Database) (transaction : bool) (r : Rows) : Prop :=
  in_transaction db = transaction /\
  contents db !! "execution_result" = Some (table_of "execution_result", execution_results r) /\
  contents db !! "test" = Some (table_of "test", test_rows r) /\
  contents db !! "mutation_result" = Some (table_of "mutation_result", mutation_results r) /\
  contents db !! "mutation_point" = Some (table_of "mutation_point", mutation_points r).

Lemma created db :
  contents db = ∅ -> in_transaction db = false ->
  exists db', sqlite3_exec db (Create CreateTables) = inr db' /\ holds db' false (mkRows [] [] [] []).
Proof.
  intros Hc Ht. assert (Hnd : NoDup (map fst CreateTables)) by (apply (bool_decide_unpack _); vm_compute; exact I).
  pose proof (exec_create db CreateTables Hnd) as He. rewrite Hc in He.
  replace (forallb _ _) with true in He by (vm_compute; reflexivity). destruct He as (db' & Hrun & Htx & Hdb').
  exists db'. split; [done|]. split; [by rewrite Htx|]. rewrite Hdb'.
  repeat split; vm_compute; reflexivity.
Qed.

(** An existing report is not written over. *)
Lemma not_created db name :
  is_Some (contents db !! name) -> name ∈ map fst CreateTables ->
  exists message, sqlite3_exec db (Create CreateTables) = inl message.
Proof.
  intros [x Hx] Hin. assert (Hnd : NoDup (map fst CreateTables)) by (apply (bool_decide_unpack _); vm_compute; exact I).
  pose proof (exec_create db CreateTables Hnd) as He.
  replace (forallb _ _) with false in He; [done|]. symmetry. apply not_true_iff_false. rewrite forallb_elem. intros Hall.
  apply list_elem_of_fmap in Hin as (t & -> & Ht). specialize (Hall t Ht). by rewrite Hx in Hall.
Qed.

Ltac solve_tables :=
  cbn [execution_results test_rows mutation_results mutation_points];
  split; [assumption|];
  repeat split; first [rewrite lookup_insert_eq; reflexivity | rewrite lookup_insert_ne by discriminate; assumption | assumption].

(** A row with no rival is appended to its table. *)
Lemma step_append db (or_ignore : bool) name row table rows :
  contents db !! name = Some (table, rows) -> length row = length (table_columns table) ->
  existsb (conflict table row) rows = false ->
  exists db', sqlite3_step db or_ignore name row = inr db' /\ in_transaction db' = in_transaction db /\
    contents db' = <[name := (table, rows ++ [row])]> (contents db).
Proof. intros Hc Hl Hno. pose proof (step_insert db or_ignore name row table rows Hc Hl) as Hs. by rewrite Hno in Hs. Qed.

Lemma no_unique table row rows : table_unique table = None -> existsb (conflict table row) rows = false.
Proof. intros Hu. induction rows as [|r rows IH]; cbn; [done|]. by rewrite IH, orb_false_r; unfold conflict; rewrite Hu. Qed.

Lemma append_execution_result db or_ignore tx r row :
  holds db tx r -> length row = 6 ->
  exists db', sqlite3_step db or_ignore "execution_result" row = inr db' /\
    holds db' tx (mkRows (execution_results r ++ [row]) (test_rows r) (mutation_results r) (mutation_points r)).
Proof.
  intros (Htx & He & Ht & Hm & Hp) Hl. destruct (step_append db or_ignore _ row _ _ He) as (db' & Hs & Htx' & Hc);
    [done|apply no_unique; vm_compute; reflexivity|].
  exists db'. split; [done|]. unfold holds. rewrite Htx', Hc. solve_tables.
Qed.

Lemma append_mutation_result db or_ignore tx r row :
  holds db tx r -> length row = 3 ->
  exists db', sqlite3_step db or_ignore "mutation_result" row = inr db' /\
    holds db' tx (mkRows (execution_results r) (test_rows r) (mutation_results r ++ [row]) (mutation_points r)).
Proof.
  intros (Htx & He & Ht & Hm & Hp) Hl. destruct (step_append db or_ignore _ row _ _ Hm) as (db' & Hs & Htx' & Hc);
    [done|apply no_unique; vm_compute; reflexivity|].
  exists db'. split; [done|]. unfold holds. rewrite Htx', Hc. solve_tables.
Qed.

(** A test is refused when there is one of that name. *)
Lemma insert_test_row db tx r row :
  holds db tx r -> length row = 4 ->
  if existsb (conflict (table_of "test") row) (test_rows r)
  then exists message, sqlite3_step db false "test" row = inl message
  else exists db', sqlite3_step db false "test" row = inr db' /\
    holds db' tx (mkRows (execution_results r) (test_rows r ++ [row]) (mutation_results r) (mutation_points r)).
Proof.
  intros (Htx & He & Ht & Hm & Hp) Hl. pose proof (step_insert db false _ row _ _ Ht Hl) as Hs.
  destruct (existsb _ _); [done|]. destruct Hs as (db' & Hs & Htx' & Hc). exists db'. split; [done|].
  unfold holds. rewrite Htx', Hc. solve_tables.
Qed.

(** A point is dropped when there is one with its identifier. *)
Definition keep_first (rows : list Row) (row : Row) : list Row :=
  if existsb (conflict (table_of "mutation_point") row) rows then rows else rows ++ [row].

Lemma insert_point_row db tx r row :
  holds db tx r -> length row = 12 ->
  exists db', sqlite3_step db true "mutation_point" row = inr db' /\
    holds db' tx (mkRows (execution_results r) (test_rows r) (mutation_results r) (keep_first (mutation_points r) row)).
Proof.
  intros (Htx & He & Ht & Hm & Hp) Hl. pose proof (step_insert db true _ row _ _ Hp Hl) as Hs. unfold keep_first.
  destruct (existsb _ _); destruct Hs as (db' & Hs & Htx' & Hc); exists db'; (split; [done|]);
    unfold holds; rewrite Htx', Hc; solve_tables.
Qed.
End Tables.

(** ** The loops of the reporter *)
Section Loops.
Context `{LLVMPath, SQLite}.
Context (function_of : FnId -> option Function) (moduleIdentifier : BitcodePtr -> string).
Context (store : Store) (tests : list Test).

Definition test_location (t : Test) : SourceLocation :=
  match testBody t ≫= function_of with
  | Some f => locationFromFunction f
  | None => nullSourceLocation
  end.

Definition row_of_test (t : Test) : Row := test_row t (test_location t).
Definition execution_row_of_test (t : Test) : Row := execution_result_row (testName t) "" (executionResult t).

Definition names_of (r : MutationResult) : string * string :=
  (match tests !! mr_test r with Some t => testName t | None => "" end,
   match store !! mr_point r with Some p => uniqueIdentifier p | None => "" end).

Definition execution_row_of_result (r : MutationResult) : Row := execution_result_row (names_of r).1 (names_of r).2 (mr_result r).
Definition row_of_result (r : MutationResult) : Row := mutation_result_row (names_of r).1 (names_of r).2 (mr_distance r).

Definition row_of_point (pid : PointId) : Row :=
  match store !! pid with Some p => mutation_point_row moduleIdentifier p | None => [] end.

Lemma test_conflict t t' :
  conflict (table_of "test") (row_of_test t) (row_of_test t') = bool_decide (c_string (testName t) = c_string (testName t')).
Proof.
  unfold conflict. change (table_unique (table_of "test")) with (Some 1).
  apply bool_decide_ext. cbn. unfold bind_text. split; [by intros [= ->]|by intros ->].
Qed.

Lemma insert_test_spec db rows t d :
  holds db true rows -> is_Some (testBody t ≫= function_of) ->
  existsb (conflict (table_of "test") (row_of_test t)) (test_rows rows) = false ->
  exists db', insert_test function_of db t d = (Ok db', d) /\
    holds db' true (mkRows (execution_results rows ++ [execution_row_of_test t]) (test_rows rows ++ [row_of_test t])
      (mutation_results rows) (mutation_points rows)).
Proof.
  intros Hdb [f Hf] Hno. unfold insert_test, lift. rewrite D_bind_run, Hf. cbn [of_option].
  destruct (append_execution_result db false true rows (execution_row_of_test t) Hdb eq_refl) as (db1 & Hs1 & Hdb1).
  rewrite D_bind_run. unfold sqlite_step at 1. fold (execution_row_of_test t). rewrite Hs1. cbn [mret D_ret].
  pose proof (insert_test_row db1 true _ (row_of_test t) Hdb1 eq_refl) as Hs2. cbn [test_rows] in Hs2. rewrite Hno in Hs2.
  destruct Hs2 as (db2 & Hs2 & Hdb2). exists db2. split; [|done].
  unfold sqlite_step. unfold row_of_test, test_location in Hs2. rewrite Hf in Hs2. by rewrite Hs2.
Qed.

Lemma insert_tests_spec l db rows d :
  holds db true rows -> (forall t, t ∈ l -> is_Some (testBody t ≫= function_of)) ->
  NoDup (map (fun t => c_string (testName t)) l) ->
  (forall t, t ∈ l -> existsb (conflict (table_of "test") (row_of_test t)) (test_rows rows) = false) ->
  exists db', d_fold (insert_test function_of) db l d = (Ok db', d) /\
    holds db' true (mkRows (execution_results rows ++ map execution_row_of_test l) (test_rows rows ++ map row_of_test l)
      (mutation_results rows) (mutation_points rows)).
Proof.
  revert db rows. induction l as [|t l IH]; intros db rows Hdb Hb Hnd Hno.
  { exists db. split; [done|]. cbn. rewrite !app_nil_r. by destruct rows. }
  cbn [map] in Hnd. apply NoDup_cons in Hnd as [Hfresh Hnd]. cbn [d_fold]. rewrite D_bind_run.
  destruct (insert_test_spec db rows t d Hdb) as (db1 & -> & Hdb1); [apply Hb; by left|apply Hno; by left|].
  destruct (IH db1 _ Hdb1) as (db2 & Hrun & Hdb2).
  - intros t' Ht'. apply Hb. by right.
  - done.
  - intros t' Ht'. cbn [test_rows]. rewrite existsb_app, Hno by (by right). cbn. rewrite orb_false_r, test_conflict.
    apply bool_decide_eq_false. intros Heq. apply Hfresh. rewrite <-Heq. apply list_elem_of_fmap. by exists t'.
  - exists db2. split; [done|]. cbn [execution_results test_rows mutation_results mutation_points map] in Hdb2 |- *.
    by rewrite <-!app_assoc in Hdb2.
Qed.

Lemma insert_mutation_results_spec l db rows :
  holds db true rows -> (forall r, r ∈ l -> is_Some (store !! mr_point r) /\ is_Some (tests !! mr_test r)) ->
  exists db', fold_outcome (insert_mutation_result store tests) db l = Ok db' /\
    holds db' true (mkRows (execution_results rows ++ map execution_row_of_result l) (test_rows rows)
      (mutation_results rows ++ map row_of_result l) (mutation_points rows)).
Proof.
  revert db rows. induction l as [|r l IH]; intros db rows Hdb Hok.
  { exists db. split; [done|]. cbn. rewrite !app_nil_r. by destruct rows. }
  destruct (Hok r) as [[p Hp] [t Ht]]; [by left|]. cbn [fold_outcome].
  destruct (append_execution_result db false true rows (execution_row_of_result r) Hdb eq_refl) as (db1 & Hs1 & Hdb1).
  destruct (append_mutation_result db1 false true _ (row_of_result r) Hdb1 eq_refl) as (db2 & Hs2 & Hdb2).
  assert (Hstep : insert_mutation_result store tests db r = Ok db2).
  { unfold insert_mutation_result, point_at, test_at. rewrite Hp, Ht. cbn [of_option mbind outcome_bind].
    unfold execution_row_of_result, row_of_result, names_of in Hs1, Hs2. rewrite Hp, Ht in Hs1, Hs2. cbn [fst snd] in Hs1, Hs2.
    unfold unchecked_step. by rewrite Hs1, Hs2. }
  rewrite Hstep. destruct (IH db2 _ Hdb2) as (db3 & Hrun & Hdb3); [intros r' Hr'; apply Hok; by right|].
  exists db3. split; [exact Hrun|]. cbn [execution_results test_rows mutation_results mutation_points map] in Hdb3 |- *.
  by rewrite <-!app_assoc in Hdb3.
Qed.

Lemma insert_mutation_points_spec l db rows :
  holds db true rows -> (forall pid, pid ∈ l -> is_Some (store !! pid)) ->
  exists db', fold_outcome (insert_mutation_point moduleIdentifier store) db l = Ok db' /\
    holds db' true (mkRows (execution_results rows) (test_rows rows) (mutation_results rows)
      (foldl keep_first (mutation_points rows) (map row_of_point l))).
Proof.
  revert db rows. induction l as [|pid l IH]; intros db rows Hdb Hok; [exists db; split; [done|by destruct rows]|].
  destruct (Hok pid) as [p Hp]; [by left|]. cbn [fold_outcome].
  destruct (insert_point_row db true rows (mutation_point_row moduleIdentifier p) Hdb eq_refl) as (db1 & Hs & Hdb1).
  assert (Hstep : insert_mutation_point moduleIdentifier store db pid = Ok db1).
  { unfold insert_mutation_point, point_at. rewrite Hp. cbn [of_option mbind outcome_bind]. unfold unchecked_step. by rewrite Hs. }
  rewrite Hstep. destruct (IH db1 _ Hdb1) as (db2 & Hrun & Hdb2); [intros q Hq; apply Hok; by right|].
  exists db2. split; [exact Hrun|]. cbn [execution_results test_rows mutation_results mutation_points map foldl] in Hdb2 |- *.
  replace (row_of_point pid) with (mutation_point_row moduleIdentifier p) by (unfold row_of_point; by rewrite Hp). done.
Qed.
End Loops.

(** ** The points kept *)

(** One row for each identifier, the first. *)
Lemma keep_first_rows rows acc row :
  row ∈ foldl keep_first acc rows -> row ∈ acc \/ row ∈ rows.
Proof.
  revert acc. induction rows as [|r rows IH]; intros acc; cbn [foldl]; [by left|]. intros [Hin|Hin]%IH; [|right; by right].
  unfold keep_first in Hin. destruct (existsb _ acc); [by left|].
  apply elem_of_app in Hin as [?| ->%list_elem_of_singleton]; [by left|right; by left].
Qed.

Definition same_id (row row' : Row) : Prop := row !! 11 = row' !! 11.

Lemma point_conflict row row' : conflict (table_of "mutation_point") row row' = true <-> same_id row row'.
Proof. unfold conflict. change (table_unique (table_of "mutation_point")) with (Some 11). apply bool_decide_eq_true. Qed.

Lemma keep_first_grows rows acc row : row ∈ acc -> row ∈ foldl keep_first acc rows.
Proof.
  revert acc. induction rows as [|r rows IH]; intros acc Hin; [done|]. cbn [foldl]. apply IH. unfold keep_first.
  destruct (existsb _ acc); [done|]. apply elem_of_app. by left.
Qed.

Lemma keep_first_covers rows acc row :
  row ∈ rows -> exists row', row' ∈ foldl keep_first acc rows /\ same_id row row'.
Proof.
  revert acc. induction rows as [|r rows IH]; intros acc; [by intros ?%not_elem_of_nil|].
  intros [->|Hin]%elem_of_cons; cbn [foldl]; [|by apply IH].
  destruct (existsb (conflict (table_of "mutation_point") r) acc) eqn:E.
  - apply existsb_elem in E as (row' & Hrow' & Hc). exists row'. split; [|by apply point_conflict].
    apply keep_first_grows. unfold keep_first. destruct (existsb _ acc); [done|]. apply elem_of_app. by left.
  - exists r. split; [|done]. apply keep_first_grows. unfold keep_first. rewrite E. apply elem_of_app. right. by left.
Qed.

Lemma keep_first_distinct rows acc :
  NoDup (map (fun row : Row => row !! 11) acc) -> NoDup (map (fun row : Row => row !! 11) (foldl keep_first acc rows)).
Proof.
  revert acc. induction rows as [|r rows IH]; intros acc Hnd; [done|]. cbn [foldl]. apply IH. unfold keep_first.
  destruct (existsb _ acc) eqn:E; [done|]. rewrite map_app. apply NoDup_app. split; [done|]. split; [|apply NoDup_singleton].
  intros x Hx ->%list_elem_of_singleton. apply list_elem_of_fmap in Hx as (row & Heq & Hrow). apply not_true_iff_false in E.
  apply E, existsb_elem. exists row. split; [done|]. by apply point_conflict.
Qed.

(** Rows with identifiers of their own are all kept. *)
Lemma keep_first_all rows acc :
  NoDup (map (fun row : Row => row !! 11) (acc ++ rows)) -> foldl keep_first acc rows = acc ++ rows.
Proof.
  revert acc. induction rows as [|r rows IH]; intros acc Hnd; [by rewrite app_nil_r|]. cbn [foldl].
  replace (keep_first acc r) with (acc ++ [r]).
  - rewrite IH by (by rewrite <-app_assoc). by rewrite <-app_assoc.
  - unfold keep_first. destruct (existsb _ acc) eqn:E; [|done]. exfalso.
    apply existsb_elem in E as (row & Hrow & Heq%point_conflict). rewrite map_app in Hnd. apply NoDup_app in Hnd as (_ & Hd & _).
    apply (Hd (r !! 11)); [|left]. apply list_elem_of_fmap. by exists row.
Qed.

Lemma execs `{SQLite} db (s : Statement) (db' : Database) d :
  sqlite3_exec db s = inr db' -> sqlite_exec db s d = (Ok db', d).
Proof. intros Hs. unfold sqlite_exec. by rewrite Hs. Qed.

Lemma holds_transaction `{SQLite} db db' tx tx' rows :
  holds db tx rows -> in_transaction db' = tx' -> contents db' = contents db -> holds db' tx' rows.
Proof. intros (_ & Hrest) Htx Hc. unfold holds. by rewrite Htx, Hc. Qed.

(** C27: in a new database, when no two tests have the same name, the report goes
    through and is complete: one row in [execution_result] for every test and
    every run of a mutant, in order, one in [test] for every test, one in
    [mutation_result] for every run.  [mutation_point] has a row for every point,
    run or not: exactly those of the points, in order, when the points have
    identifiers of their own; of points that share one there is one row.  Every
    result refers to a test and to a point that are there. *)
Theorem SQLiteReporter_complete `{LLVMPath, SQLite} function_of moduleIdentifier store databasePath database result d :
  let tests := result_tests result in
  contents database = ∅ -> in_transaction database = false -> seenProgress d = false ->
  (forall t, t ∈ tests -> is_Some (testBody t ≫= function_of)) ->
  NoDup (map (fun t => c_string (testName t)) tests) ->
  (forall r, r ∈ mutationResults result -> mr_point r ∈ result_mutationPoints result /\ is_Some (tests !! mr_test r)) ->
  (forall pid, pid ∈ result_mutationPoints result -> is_Some (store !! pid)) ->
  exists database' points,
    SQLiteReporter_reportResults function_of moduleIdentifier store databasePath database result d =
      (Ok database', logged d [LogInfo ("Results can be found at '" +:+ databasePath +:+ "'")]) /\
    holds database' false (mkRows
      (map execution_row_of_test tests ++ map (execution_row_of_result store tests) (mutationResults result))
      (map (row_of_test function_of) tests) (map (row_of_result store tests) (mutationResults result)) points) /\
    NoDup (map (fun row : Row => row !! 11) points) /\
    (forall row, row ∈ points -> row ∈ map (row_of_point moduleIdentifier store) (result_mutationPoints result)) /\
    (forall pid, pid ∈ result_mutationPoints result ->
       exists row, row ∈ points /\ row !! 11 = row_of_point moduleIdentifier store pid !! 11) /\
    (NoDup (map (fun pid => row_of_point moduleIdentifier store pid !! 11) (result_mutationPoints result)) ->
       points = map (row_of_point moduleIdentifier store) (result_mutationPoints result)) /\
    (forall row, row ∈ map (row_of_result store tests) (mutationResults result) ->
       (exists point, point ∈ points /\ row !! 1 = point !! 11) /\
       (exists test, test ∈ map (row_of_test function_of) tests /\ row !! 0 = test !! 1)).
Proof.
  intros tests Hc Htx Hseen Hbodies Hnd Hresults Hpoints.
  destruct (created database Hc Htx) as (db1 & Hs1 & Hdb1).
  destruct (exec_begin db1) as (db2 & Hs2 & Htx2 & Hc2); [apply Hdb1|].
  pose proof (holds_transaction _ _ _ _ _ Hdb1 Htx2 Hc2) as Hdb2.
  destruct (insert_tests_spec function_of tests db2 _ d Hdb2 Hbodies Hnd) as (db3 & Hs3 & Hdb3); [done|].
  destruct (insert_mutation_results_spec store tests (mutationResults result) db3 _ Hdb3) as (db4 & Hs4 & Hdb4).
  { intros r Hr. destruct (Hresults r Hr) as [Hp Ht]. split; [by apply Hpoints|done]. }
  destruct (insert_mutation_points_spec moduleIdentifier store (result_mutationPoints result) db4 _ Hdb4 Hpoints) as (db5 & Hs5 & Hdb5).
  destruct (exec_end db5) as (db6 & Hs6 & Htx6 & Hc6); [apply Hdb5|].
  pose proof (holds_transaction _ _ _ _ _ Hdb5 Htx6 Hc6) as Hdb6.
  cbn [execution_results test_rows mutation_results mutation_points app] in Hdb6.
  eexists db6, _. split; [|split; [exact Hdb6|]].
  - unfold SQLiteReporter_reportResults, lift. fold tests. rewrite !D_bind_run, (execs _ _ _ _ Hs1).
    rewrite !D_bind_run, (execs _ _ _ _ Hs2), !D_bind_run, Hs3, !D_bind_run, Hs4, !D_bind_run, Hs5.
    by rewrite !D_bind_run, (execs _ _ _ _ Hs6), !D_bind_run, info_logged.
  - split; [apply keep_first_distinct; constructor|]. split.
    + intros row Hrow. by apply keep_first_rows in Hrow as [?%not_elem_of_nil|].
    + assert (Hcovers : forall pid, pid ∈ result_mutationPoints result -> exists row,
        row ∈ foldl keep_first [] (map (row_of_point moduleIdentifier store) (result_mutationPoints result)) /\
        row !! 11 = row_of_point moduleIdentifier store pid !! 11).
      { intros pid Hpid. destruct (keep_first_covers (map (row_of_point moduleIdentifier store) (result_mutationPoints result)) []
          (row_of_point moduleIdentifier store pid)) as (row & Hin & Hid); [apply list_elem_of_fmap; by eexists|by exists row]. }
      split; [exact Hcovers|]. split.
      { intros Hids. apply (keep_first_all _ []). cbn [app]. by rewrite map_map. }
      intros row (r & -> & Hr)%list_elem_of_fmap. destruct (Hresults r Hr) as [Hp [t Ht]].
      destruct (Hpoints _ Hp) as [p Hsp]. split.
      * destruct (Hcovers _ Hp) as (point & Hin & Hid). exists point. split; [done|]. rewrite Hid.
        unfold row_of_result, row_of_point, names_of. rewrite Hsp. done.
      * exists (row_of_test function_of t). split; [apply list_elem_of_fmap; exists t; split; [done|by eapply list_elem_of_lookup_2]|].
        unfold row_of_result, names_of. rewrite Ht. done.
Qed.

(** ** Reports that are refused *)

Lemma insert_test_refused `{LLVMPath, SQLite} function_of db rows t d :
  holds db true rows -> is_Some (testBody t ≫= function_of) ->
  existsb (conflict (table_of "test") (row_of_test function_of t)) (test_rows rows) = true ->
  (insert_test function_of db t d).1 = Exit 1.
Proof.
  intros Hdb [f Hf] Hno. unfold insert_test, lift. rewrite D_bind_run, Hf. cbn [of_option].
  destruct (append_execution_result db false true rows (execution_row_of_test t) Hdb eq_refl) as (db1 & Hs1 & Hdb1).
  rewrite D_bind_run. unfold sqlite_step at 1. fold (execution_row_of_test t). rewrite Hs1. cbn [mret D_ret].
  pose proof (insert_test_row db1 true _ (row_of_test function_of t) Hdb1 eq_refl) as Hs2. cbn [test_rows] in Hs2. rewrite Hno in Hs2.
  destruct Hs2 as [message Hs2]. unfold sqlite_step. unfold row_of_test, test_location in Hs2. rewrite Hf in Hs2. rewrite Hs2.
  apply error_exits.
Qed.

(** A report is never mixed with another, nor are two tests of one name: when
    a table is already there (a second report under the same name), or two tests
    have the same name, the process ends with status 1 before the transaction is
    ended. *)
Theorem SQLiteReporter_refuses `{LLVMPath, SQLite} function_of moduleIdentifier store databasePath database result d :
  let tests := result_tests result in
  let report := (SQLiteReporter_reportResults function_of moduleIdentifier store databasePath database result d).1 in
  (forall name, is_Some (contents database !! name) -> name ∈ map fst CreateTables -> report = Exit 1) /\
  (forall before t between t' after,
     contents database = ∅ -> in_transaction database = false ->
     tests = before ++ t :: between ++ t' :: after -> testName t = testName t' ->
     (forall t, t ∈ tests -> is_Some (testBody t ≫= function_of)) ->
     NoDup (map (fun t => c_string (testName t)) (before ++ t :: between)) -> report = Exit 1).
Proof.
  intros tests report. subst report. split.
  - intros name Hin Hname. destruct (not_created database name Hin Hname) as [message Hs].
    apply D_bind_exit. unfold sqlite_exec. rewrite Hs. apply error_exits.
  - intros before t between t' after Hc Htx Htests Heq Hbodies Hnd.
    destruct (created database Hc Htx) as (db1 & Hs1 & Hdb1).
    destruct (exec_begin db1) as (db2 & Hs2 & Htx2 & Hc2); [apply Hdb1|].
    pose proof (holds_transaction _ _ _ _ _ Hdb1 Htx2 Hc2) as Hdb2.
    assert (Hb : forall t0, t0 ∈ before ++ t :: between -> is_Some (testBody t0 ≫= function_of)).
    { intros t0 Ht0. apply Hbodies. rewrite Htests. apply elem_of_app in Ht0 as [?|[->|?]%elem_of_cons];
        apply elem_of_app; [by left|right; by left|right; right]. apply elem_of_app. by left. }
    destruct (insert_tests_spec function_of _ db2 _ d Hdb2 Hb Hnd) as (db3 & Hs3 & Hdb3); [done|].
    destruct (Hbodies t') as [f Hf]; [rewrite Htests; apply elem_of_app; right; right; apply elem_of_app; right; by left|].
    unfold SQLiteReporter_reportResults. rewrite D_bind_run, (execs _ _ _ _ Hs1), D_bind_run, (execs _ _ _ _ Hs2).
    apply D_bind_exit. fold tests. replace tests with ((before ++ t :: between) ++ t' :: after) by (by rewrite Htests, <-app_assoc).
    rewrite d_fold_app, D_bind_run, Hs3. cbn [d_fold]. apply D_bind_exit. eapply insert_test_refused; [exact Hdb3|by exists f|].
    apply existsb_elem. exists (row_of_test function_of t). split.
    + apply list_elem_of_fmap. exists t. split; [done|]. apply elem_of_app. right. by left.
    + rewrite test_conflict. apply bool_decide_eq_true. by rewrite Heq.
Qed.

(** ** A small SQLite *)
Definition mini_exec (db : Contents * bool) (s : Statement) : string + Contents * bool :=
  match s with
  | Create tables =>
      if forallb (fun t => bool_decide (db.1 !! t.1 = None)) tables
      then inr (list_to_map (map (fun t => (t.1, (t.2, []))) tables) ∪ db.1, db.2) else inl "table already exists"
  | BeginTransaction => if db.2 then inl "within a transaction" else inr (db.1, true)
  | EndTransaction => if db.2 then inr (db.1, false) else inl "no transaction is active"
  end.

Definition mini_step (db : Contents * bool) (or_ignore : bool) (name : string) (row : Row) : string + Contents * bool :=
  match db.1 !! name with
  | Some (table, rows) =>
      if existsb (conflict table row) rows then if or_ignore then inr db else inl "UNIQUE constraint failed"
      else inr (<[name := (table, rows ++ [row])]> db.1, db.2)
  | None => inl "no such table"
  end.

#[local] Program Instance mini_sqlite : SQLite := {|
  Database := Contents * bool; contents := fst; in_transaction := snd; sqlite3_exec := mini_exec; sqlite3_step := mini_step
|}.
Next Obligation. intros db tables _. cbn. destruct (forallb _ _); by eexists. Defined.
Next Obligation. intros [c []]; cbn; [done|]. intros _. by eexists. Defined.
Next Obligation. intros [c []]; cbn; [|done]. intros _. by eexists. Defined.
Next Obligation.
  intros db or_ignore name row table rows Hc _. cbn in *. unfold mini_step. rewrite Hc.
  destruct (existsb _ _); [destruct or_ignore|]; by eexists.
Defined.

Definition empty_database : @Database mini_sqlite := ((∅ : Contents), false).

Definition sample_bodies (id : FnId) : option Function := if Nat.eqb id 7 then Some sample_function else None.

Definition sample_named_test (name : string) : Test :=
  setExecutionResult (newTest name "mull" "main" [] (Some 7)) (mkExecutionResult Passed 0 12 "" "").

Definition sample_report (second : string) : Result :=
  mkResult [sample_named_test "first"; sample_named_test second]
    [mkMutationResult (with_status Failed newExecutionResult) 0 1 0] [0; 1].

Lemma sample_body t second : t ∈ result_tests (sample_report second) -> is_Some (testBody t ≫= sample_bodies).
Proof. intros [->|[->|Ht]%elem_of_cons]%elem_of_cons; [by eexists|by eexists|by apply not_elem_of_nil in Ht]. Defined.

Lemma SQLiteReporter_complete_witness :
  exists database' points,
    SQLiteReporter_reportResults sample_bodies (fun _ => "sum.bc") sample_tested_store "out.sqlite" empty_database
      (sample_report "second") newDiagnostics =
      (Ok database', logged newDiagnostics [LogInfo "Results can be found at 'out.sqlite'"]) /\
    points = map (row_of_point (fun _ => "sum.bc") sample_tested_store) [0; 1].
Proof.
  destruct (SQLiteReporter_complete sample_bodies (fun _ => "sum.bc") sample_tested_store "out.sqlite" empty_database
    (sample_report "second") newDiagnostics) as (db & points & Hrun & _ & _ & _ & _ & Hall & _).
  - reflexivity.
  - reflexivity.
  - reflexivity.
  - intros t. apply sample_body.
  - apply (bool_decide_unpack _). vm_compute. exact I.
  - intros r ->%list_elem_of_singleton. split; [left|by eexists].
  - intros pid [->|[->|Hp]%elem_of_cons]%elem_of_cons; [by eexists|by eexists|by apply not_elem_of_nil in Hp].
  - exists db, points. split; [exact Hrun|]. apply Hall. apply (bool_decide_unpack _). vm_compute. exact I.
Defined.

Lemma SQLiteReporter_refuses_witness :
  (SQLiteReporter_reportResults sample_bodies (fun _ => "sum.bc") sample_tested_store "out.sqlite" empty_database
     (sample_report "first") newDiagnostics).1 = Exit 1.
Proof.
  apply (proj2 (SQLiteReporter_refuses sample_bodies (fun _ => "sum.bc") sample_tested_store "out.sqlite" empty_database
    (sample_report "first") newDiagnostics) [] (sample_named_test "first") [] (sample_named_test "first") []).
  - reflexivity.
  - reflexivity.
  - reflexivity.
  - reflexivity.
  - intros t. apply sample_body.
  - apply (bool_decide_unpack _). vm_compute. exact I.
Defined.
