(* ===== verification/OriginalTests.v ===== *)
(** * Running the original tests
    (lib/Parallelization/Tasks/OriginalTestExecutionTask.cpp)

    Every test is run once on the instrumented program, in the sandbox.  Of a
    test that passes the task reads off which functions it reached; of one that
    does not it gives a warning, and the test plays no further part.

    The sandbox runs the test in another process: what comes back is its result
    and the array in shared memory the callbacks wrote to. *)

From stdpp Require Import base list strings sets gmap.
From Stdlib Require Import ZArith Lia Bool.
From S2P Require Import Prelude StringFacts Diagnostics IR MutationPoint Reachable CallTree Instrumentation MutantExecution.

Record OriginalRun := mkOriginalRun {
  run_result_of : ExecutionResult;
  run_mapping : list nat
}.

(** The tests, the mapping of each, and what the task has stored. *)
Record TaskState := mkTaskState {
  ts_tests : list Test;
  ts_infos : list (option InstrumentationInfo);
  ts_storage : list ReachableFunction
}.

Definition failure_message (t : Test) (r : ExecutionResult) : string :=
  "Original test failed" +:+ eol +:+
  "test: " +:+ testName t +:+ eol +:+
  "status: " +:+ executionStatusAsString (status r) +:+ eol +:+
  "stdout: '" +:+ stdoutOutput r +:+ "'" +:+ eol +:+
  "stderr: '" +:+ stderrOutput r +:+ "'" +:+ eol.

Section Task.
Context (instr : Instrumentation) (function_of : FnId -> option Function).
Context (sandbox : TestId -> Z -> bool -> OriginalRun).
Context (timeout maxDistance : Z) (captureTestOutput : bool).

(** A [ReachableFunction] is built on a function. *)
Definition to_reachable (e : option Function * TestId * Z) : outcome ReachableFunction :=
  let '(f, test, distance) := e in
  function ← of_option "null function" f;
  mret (mkReachable function test distance).

Definition to_reachables (l : list (option Function * TestId * Z)) : outcome (list ReachableFunction) :=
  fold_outcome (fun acc e => r ← to_reachable e; mret (acc ++ [r])) [] l.

(** [Instrumentation::getReachableFunctions] on the mapping of the test. *)
Definition reachable_of (t : TestId) (test : Test) (mapping : list nat) : outcome (list ReachableFunction) :=
  body ← of_option "null test body" (testBody test ≫= function_of);
  l ← getReachableFunctions (instr_functions instr) mapping t body maxDistance;
  to_reachables l.

(** The call stack is emptied; the pointer to the unmapped memory stays. *)
Definition cleanupInstrumentationInfo (mapping : list nat) : option InstrumentationInfo := Some (mkInfo mapping []).

Definition run_original_test (st : TaskState) (t : TestId) : D TaskState :=
  test ← lift (test_at (ts_tests st) t);
  info ← lift (of_option "dangling test" (ts_infos st !! t));
  _ ← lift (setupInstrumentationInfo instr info);
  let run := sandbox t timeout captureTestOutput in
  let testExecutionResult := run_result_of run in
  let tests := <[t := setExecutionResult test testExecutionResult]> (ts_tests st) in
  reachableFunctions ←
    (if bool_decide (status testExecutionResult = Passed) then lift (reachable_of t test (run_mapping run))
     else _ ← warning (failure_message test testExecutionResult); mret []);
  let infos := <[t := cleanupInstrumentationInfo (run_mapping run)]> (ts_infos st) in
  (** the first one is the body of the test *)
  mret (mkTaskState tests infos (ts_storage st ++ drop 1 reachableFunctions)).

Definition OriginalTestExecutionTask (st : TaskState) (batch : list TestId) : D TaskState :=
  d_fold run_original_test st batch.
End Task.

(** ** What a test reaches *)

Lemma to_reachables_spec l acc :
  (forall e, e ∈ l -> is_Some e.1.1) ->
  exists rs, fold_outcome (fun acc e => r ← to_reachable e; mret (acc ++ [r])) acc l = Ok (acc ++ rs) /\
    l = map (fun r => (Some (rf_function r), rf_test r, rf_distance r)) rs.
Proof.
  revert acc. induction l as [|[[f test] d] l IH]; intros acc Hl.
  - exists []. by rewrite app_nil_r.
  - destruct (Hl (f, test, d)) as [g Hg]; [by left|]. cbn in Hg. subst f. cbn [fold_outcome to_reachable of_option mbind outcome_bind mret outcome_ret].
    destruct (IH (acc ++ [mkReachable g test d])) as (rs & -> & ->); [intros e He; apply Hl; by right|].
    exists (mkReachable g test d :: rs). by rewrite <-app_assoc.
Qed.

(** The functions recorded below the body, at a distance the limit allows. *)
Definition reached_by (fs : list CallTreeFunction) (mapping : list nat) (maxDistance : Z) (t : TestId) (entry : nat)
    (r : ReachableFunction) : Prop :=
  rf_test r = t /\ called mapping entry /\
  exists i k, i <> entry /\ below mapping entry i k /\ fn0 fs i = Some (rf_function r) /\
    rf_distance r = Z.of_nat k /\ (Z.of_nat k <= maxDistance)%Z.

Section Reached.
Context (instr : Instrumentation) (function_of : FnId -> option Function) (maxDistance : Z).
Abbreviation fs := (instr_functions instr).

(** The array is what callbacks can leave. *)
Definition left_by_callbacks (mapping : list nat) : Prop :=
  exists events info, fold_outcome callback (zeroed (length fs)) events = Ok info /\ mapping = callTreeMapping info.

Lemma below_in_table mapping entry i k body :
  left_by_callbacks mapping -> function_table fs -> fn0 fs entry = Some body -> called mapping entry ->
  below mapping entry i k -> is_Some (fn0 fs i).
Proof.
  intros (events & info & Hrun & ->) Htab Hentry Hc Hb. destruct Htab as (H0 & Hf & _).
  assert (Hpos : 0 < length fs) by (by eapply lookup_lt_Some).
  destruct (callbacks_inv _ _ _ _ (zeroed_inv _ Hpos) Hrun) as (history & R & _).
  assert (Hci : called (callTreeMapping info) i) by (by destruct Hb).
  pose proof (called_nonzero _ _ _ R i Hci). pose proof (called_lt _ _ _ R i Hci).
  destruct (Hf i) as [f Hfi]; [lia|]. by eexists.
Qed.

(** The function the first entry is about appears nowhere else. *)
Lemma reachable_of_spec t test mapping body entry :
  function_table fs -> left_by_callbacks mapping -> testBody test ≫= function_of = Some body ->
  fn0 fs entry = Some body ->
  exists rs, reachable_of instr function_of maxDistance t test mapping = Ok rs /\
    NoDup (map rf_function (drop 1 rs)) /\
    forall r, r ∈ drop 1 rs <-> reached_by fs mapping maxDistance t entry r.
Proof.
  intros Htab Hleft Hbody Hentry. pose proof Hleft as (events & info & Hrun & Hmap).
  destruct (getReachableFunctions_reads fs events info entry body t maxDistance Htab Hrun Hentry)
    as (l & Hl & Hnd & Hhead & Hin). rewrite <-Hmap in Hl, Hin.
  destruct (to_reachables_spec l []) as (rs & Hrs & Hlrs).
  { intros [[f tst] d] (_ & Hc & i & k & Hb & -> & _ & _)%Hin. by apply (below_in_table mapping entry i k body). }
  exists rs. unfold reachable_of. rewrite Hbody. cbn [of_option mbind outcome_bind]. rewrite Hl. cbn [mbind outcome_bind].
  split; [exact Hrs|]. destruct Htab as (_ & _ & Hdist).
  assert (Hreach : forall r, (Some (rf_function r), rf_test r, rf_distance r) ∈ l <->
    rf_test r = t /\ called mapping entry /\ exists i k, below mapping entry i k /\ Some (rf_function r) = fn0 fs i /\
      rf_distance r = Z.of_nat k /\ (k = 0 \/ (Z.of_nat k <= maxDistance)%Z)) by (intros r; apply Hin).
  destruct Hhead as [->|[rest ->]].
  - destruct rs; [|done]. split; [constructor|]. intros r. split; [intros H; by apply not_elem_of_nil in H|].
    intros (Ht & Hc & i & k & _ & Hb & Hf & Hd & Hk). exfalso. apply (not_elem_of_nil (Some (rf_function r), rf_test r, rf_distance r)).
    apply Hreach. split; [done|]. split; [done|]. exists i, k. auto.
  - destruct rs as [|r0 rs]; [done|]. cbn [map] in Hlrs. injection Hlrs as Hf0 _ _ ->.
    cbn [drop map] in *. rewrite map_map in Hnd. cbn in Hnd. apply NoDup_cons in Hnd as [Hfresh Hnd]. split.
    + apply (NoDup_fmap_1 Some). by rewrite map_map.
    + intros r. split.
      * intros Hr. assert (Hnb : rf_function r <> body).
        { intros Heq. apply Hfresh. apply list_elem_of_fmap. exists r. by rewrite Heq. }
        destruct (proj1 (Hreach r)) as (Ht & Hc & i & k & Hb & Hf & Hd & Hk).
        { right. apply list_elem_of_fmap. by exists r. }
        assert (Hi : i <> entry) by congruence. split; [done|]. split; [done|]. exists i, k.
        split; [done|]. split; [done|]. split; [done|]. split; [done|]. destruct Hk as [->|]; [|done].
        exfalso. inversion Hb; subst; done.
      * intros (Ht & Hc & i & k & Hi & Hb & Hf & Hd & Hk). assert (Hl' := proj2 (Hreach r)).
        apply elem_of_cons in Hl' as [Heq|Hr]; [|by apply list_elem_of_fmap in Hr as ([] & Heq & Hr); destruct r; simplify_eq/=|].
        -- exfalso. apply Hi. injection Heq as Heq _ _. apply (Hdist i entry (rf_function r) body); congruence.
        -- split; [done|]. split; [done|]. exists i, k. auto.
Qed.
End Reached.

(** ** The task *)
Lemma Forall2_impl_elem {A B} (P Q : A -> B -> Prop) l k :
  Forall2 P l k -> (forall x y, x ∈ l -> P x y -> Q x y) -> Forall2 Q l k.
Proof.
  induction 1 as [|x y l k Hxy _ IH]; intros HPQ; constructor; [apply HPQ; [by left|done]|].
  apply IH. intros x' y' Hx'. apply HPQ. by right.
Qed.

Section Loop.
Context (instr : Instrumentation) (function_of : FnId -> option Function).
Context (sandbox : TestId -> Z -> bool -> OriginalRun).
Context (timeout maxDistance : Z) (capture : bool).
Abbreviation table := (instr_functions instr).

Definition result_of (t : TestId) : ExecutionResult := run_result_of (sandbox t timeout capture).
Definition mapping_of (t : TestId) : list nat := run_mapping (sandbox t timeout capture).
Definition passed (t : TestId) : Prop := status (result_of t) = Passed.

(** A test not run yet, whose body has entry [entry] of the table. *)
Definition fresh (tests : list Test) (infos : list (option InstrumentationInfo)) (t : TestId) : Prop :=
  exists test body entry, tests !! t = Some test /\ infos !! t = Some None /\
    testBody test ≫= function_of = Some body /\ fn0 table entry = Some body /\ left_by_callbacks instr (mapping_of t).

(** What the task stores for a test. *)
Definition stored_for (tests : list Test) (t : TestId) (part : list ReachableFunction) : Prop :=
  NoDup (map rf_function part) /\
  exists test body entry, tests !! t = Some test /\ testBody test ≫= function_of = Some body /\
    fn0 table entry = Some body /\
    forall r, r ∈ part <-> passed t /\ reached_by table (mapping_of t) maxDistance t entry r.

Definition warning_for (tests : list Test) (t : TestId) : list LogEvent :=
  if bool_decide (passed t) then []
  else match tests !! t with Some test => [LogWarn (failure_message test (result_of t))] | None => [] end.

Lemma run_original_test_spec st t d :
  function_table table -> 1 < length table -> fresh (ts_tests st) (ts_infos st) t ->
  strictModeEnabled d = false -> seenProgress d = false ->
  exists part test, ts_tests st !! t = Some test /\ stored_for (ts_tests st) t part /\
    run_original_test instr function_of sandbox timeout maxDistance capture st t d =
    (Ok (mkTaskState (<[t := setExecutionResult test (result_of t)]> (ts_tests st))
           (<[t := cleanupInstrumentationInfo (mapping_of t)]> (ts_infos st)) (ts_storage st ++ part)),
     logged d (warning_for (ts_tests st) t)).
Proof.
  intros Htab Hlen (test & body & entry & Ht & Hinfo & Hbody & Hentry & Hleft) Hstrict Hseen.
  destruct (reachable_of_spec instr function_of maxDistance t test (mapping_of t) body entry Htab Hleft Hbody Hentry)
    as (rs & Hrs & Hnd & Hin).
  exists (if bool_decide (passed t) then drop 1 rs else []), test. split; [done|]. split.
  - split; [by destruct (bool_decide _); [|constructor]|]. exists test, body, entry. split; [done|]. split; [done|]. split; [done|].
    intros r. destruct (bool_decide_reflect (passed t)); [rewrite Hin; tauto|].
    split; [intros H; by apply not_elem_of_nil in H|tauto].
  - unfold run_original_test, test_at, setupInstrumentationInfo, lift. rewrite D_bind_run, Ht. cbn [of_option].
    rewrite D_bind_run, Hinfo. cbn [of_option]. rewrite D_bind_run. cbn [require mbind outcome_bind].
    rewrite (proj2 (Nat.ltb_lt _ _) Hlen). cbn [require mbind outcome_bind mret outcome_ret]. rewrite D_bind_run.
    fold (result_of t) (mapping_of t). unfold warning_for. rewrite Ht. fold (passed t).
    destruct (bool_decide (passed t)) eqn:Hp.
    + by rewrite Hrs, logged_nil.
    + rewrite D_bind_run, warning_logged by done. done.
Qed.

Lemma fresh_after tests infos t t' test x : t <> t' -> fresh tests infos t' -> fresh (<[t := test]> tests) (<[t := x]> infos) t'.
Proof.
  intros Hne (test' & body & entry & Ht & Hi & Hrest). exists test', body, entry.
  by rewrite !list_lookup_insert_ne.
Qed.

Lemma stored_for_other tests t t' test part : t <> t' -> stored_for (<[t := test]> tests) t' part <-> stored_for tests t' part.
Proof. intros Hne. unfold stored_for. by rewrite list_lookup_insert_ne. Qed.

Lemma warning_for_other tests t t' test : t <> t' -> warning_for (<[t := test]> tests) t' = warning_for tests t'.
Proof. intros Hne. unfold warning_for. by rewrite list_lookup_insert_ne. Qed.

Lemma task_spec batch st d :
  function_table table -> 1 < length table -> NoDup batch ->
  (forall t, t ∈ batch -> fresh (ts_tests st) (ts_infos st) t) ->
  strictModeEnabled d = false -> seenProgress d = false ->
  exists st' parts,
    OriginalTestExecutionTask instr function_of sandbox timeout maxDistance capture st batch d =
      (Ok st', logged d (concat (map (warning_for (ts_tests st)) batch))) /\
    ts_storage st' = ts_storage st ++ concat parts /\ Forall2 (stored_for (ts_tests st)) batch parts /\
    forall t test, ts_tests st !! t = Some test ->
      ts_tests st' !! t = Some (if decide (t ∈ batch) then setExecutionResult test (result_of t) else test).
Proof.
  intros Htab Hlen. revert st d. induction batch as [|t batch IH]; intros st d Hnd Hfresh Hstrict Hseen.
  { exists st, []. cbn. rewrite logged_nil, app_nil_r. split; [done|]. split; [done|]. split; [constructor|].
    intros t test Ht. by destruct (decide (t ∈ [])) as [H%not_elem_of_nil|]. }
  apply NoDup_cons in Hnd as [Hnew Hnd].
  destruct (run_original_test_spec st t d Htab Hlen) as (part & test & Ht & Hpart & Hstep); [apply Hfresh; by left|done..|].
  unfold OriginalTestExecutionTask in *. cbn [d_fold]. rewrite D_bind_run, Hstep.
  assert (Hne : forall t', t' ∈ batch -> t <> t') by (intros t' Ht' ->; done).
  set (st1 := mkTaskState _ _ _).
  destruct (IH st1 (logged d (warning_for (ts_tests st) t)) Hnd) as (st' & parts & Hrun & Hst & Hparts & Htests);
    [|done|done|].
  { intros t' Ht'. apply fresh_after; [by apply Hne|]. apply Hfresh. by right. }
  rewrite Hrun, logged_app. cbn [ts_storage ts_tests] in *. exists st', (part :: parts). split; [|split; [|split]].
  - cbn [map concat]. do 4 f_equal. apply map_ext_in. intros t' Ht'%list_elem_of_In.
    apply warning_for_other. by apply Hne.
  - rewrite Hst. subst st1. cbn [ts_storage concat]. by rewrite <-app_assoc.
  - constructor; [done|]. apply (Forall2_impl_elem _ _ _ _ Hparts).
    intros t' p Ht' Hp. eapply stored_for_other; [by apply Hne|exact Hp].
  - subst st1. cbn [ts_tests] in Htests. intros t' test' Ht'. destruct (decide (t = t')) as [<-|Hneq].
    + assert (test' = test) as -> by congruence. rewrite (Htests t (setExecutionResult test (result_of t))).
      * destruct (decide (t ∈ batch)); [done|]. destruct (decide (t ∈ t :: batch)) as [|Hn]; [done|]. destruct Hn. by left.
      * rewrite list_lookup_insert_eq; [done|by eapply lookup_lt_Some].
    + rewrite (Htests t' test') by (by rewrite list_lookup_insert_ne).
      destruct (decide (t' ∈ batch)), (decide (t' ∈ t :: batch)) as [Hin|Hn]; try done.
      * destruct Hn. by right.
      * apply elem_of_cons in Hin as [->|]; done.
Qed.
End Loop.

(** C8: the original tests decide what can be mutated.  A task runs each of its
    tests once; a test that passes contributes exactly the functions that were
    recorded below its body, within the distance allowed, each once, under its
    number and with its distance (not the body itself, which the code drops as
    the first of the list); a test that does not pass contributes nothing and is
    reported by a warning.  Every test gets the result of its run. *)
Theorem original_tests_reach instr function_of sandbox timeout maxDistance capture batch st d :
  function_table (instr_functions instr) -> 1 < length (instr_functions instr) -> NoDup batch ->
  (forall t, t ∈ batch -> fresh instr function_of sandbox timeout capture (ts_tests st) (ts_infos st) t) ->
  strictModeEnabled d = false -> seenProgress d = false ->
  exists st' parts,
    OriginalTestExecutionTask instr function_of sandbox timeout maxDistance capture st batch d =
      (Ok st', logged d (concat (map (warning_for sandbox timeout capture (ts_tests st)) batch))) /\
    ts_storage st' = ts_storage st ++ concat parts /\
    Forall2 (stored_for instr function_of sandbox timeout maxDistance capture (ts_tests st)) batch parts /\
    forall t test, ts_tests st !! t = Some test ->
      ts_tests st' !! t =
      Some (if decide (t ∈ batch) then setExecutionResult test (result_of sandbox timeout capture t) else test).
Proof. apply task_spec. Qed.

(** Two tests on the functions of [sample_table]: the first calls 2, which calls
    3; the second fails. *)
Definition sample_instr : Instrumentation := mkInstrumentation sample_table [].

Definition sample_function_of (id : FnId) : option Function := Some (mkFunction id "f" [] None).

Definition sample_state : TaskState :=
  mkTaskState [newTest "calls" "mull" "main" [] (Some 1); newTest "fails" "mull" "main" [] (Some 1)] [None; None] [].

Definition sample_mapping : list nat := [0; 1; 1; 2].

Definition sample_runs (t : TestId) (timeout : Z) (capture : bool) : OriginalRun :=
  mkOriginalRun (with_status (if Nat.eqb t 0 then Passed else Failed) newExecutionResult) sample_mapping.

Lemma sample_left : left_by_callbacks sample_instr sample_mapping.
Proof.
  eexists [Enter 1; Enter 2; Enter 3; Leave 3; Leave 2; Leave 1], _. split; reflexivity.
Defined.

Lemma sample_fresh t : t ∈ [0; 1] ->
  fresh sample_instr sample_function_of sample_runs 3000 true (ts_tests sample_state) (ts_infos sample_state) t.
Proof.
  intros [->|[->|H]%elem_of_cons]%elem_of_cons; [..|by apply not_elem_of_nil in H];
    (do 2 eexists; exists 1; split; [reflexivity|]; split; [reflexivity|]; split; [reflexivity|]; split; [reflexivity|];
     exact sample_left).
Defined.

Lemma original_tests_reach_witness :
  exists st' parts,
    OriginalTestExecutionTask sample_instr sample_function_of sample_runs 3000 2 true sample_state [0; 1] newDiagnostics =
      (Ok st', logged newDiagnostics [LogWarn (failure_message (newTest "fails" "mull" "main" [] (Some 1))
         (with_status Failed newExecutionResult))]) /\
    map (fun r => (fn_id (rf_function r), rf_test r, rf_distance r)) (ts_storage st') = [(2, 0, 1%Z); (3, 0, 2%Z)] /\
    Forall2 (stored_for sample_instr sample_function_of sample_runs 3000 2 true (ts_tests sample_state)) [0; 1] parts.
Proof.
  destruct (original_tests_reach sample_instr sample_function_of sample_runs 3000 2 true [0; 1] sample_state newDiagnostics)
    as (st' & parts & Hrun & _ & Hparts & _).
  - exact sample_table_ok.
  - cbn. lia.
  - apply (bool_decide_unpack _). vm_compute. exact I.
  - exact sample_fresh.
  - reflexivity.
  - reflexivity.
  - exists st', parts. split; [exact Hrun|]. split; [|exact Hparts].
    assert (Hc := Hrun). vm_compute in Hc. injection Hc as <-. reflexivity.
Defined.
