(* ===== verification/SharedMapping.v ===== *)
(** * The shared array of callbacks (lib/Instrumentation/Instrumentation.cpp)

    The array a test fills lives in memory shared between mull and the process
    the test runs in: [mmap] before the run, [munmap] after it.  CallTree.v and
    OriginalTests.v see the array as a list; here it is the words of an address
    space, and the theorems show that the list is what the words hold.

    The address space is the part that is shared, a finite map from the
    addresses of 32-bit words to their values.  The kernel maps and unmaps whole
    pages; where it puts a mapping is a parameter. *)

From stdpp Require Import base list strings sets gmap.
From Stdlib Require Import ZArith Lia Bool.
From S2P Require Import Prelude IR MutationPoint Reachable CallTree Instrumentation OriginalTests.

Abbreviation AddressSpace := (gmap nat nat).

(** [InstrumentationInfo], with the array as a pointer. *)
Record SharedInfo := mkSharedInfo {
  shared_mapping : option nat;
  shared_callstack : list nat
}.

Definition newSharedInfo : SharedInfo := mkSharedInfo None [].

Definition sizeof_uint32 : nat := 4.

Section Memory.
(** The words of a page, and the kernel's choice: the first word of a free
    range of so many pages, or failure. *)
Context (page : nat) (kernel : AddressSpace -> nat -> option nat).

(** A length in bytes, in pages, rounded up. *)
Definition pages (bytes : nat) : nat := (bytes + (sizeof_uint32 * page - 1)) / (sizeof_uint32 * page).

(** The words of [n] pages from [base] on. *)
Definition range (base n : nat) : gset nat := set_seq base (n * page).

(** New pages are zeroed. *)
Definition mmap (bytes : nat) (m : AddressSpace) : option (nat * AddressSpace) :=
  base ← kernel m (pages bytes);
  Some (base, gset_to_gmap 0 (range base (pages bytes)) ∪ m).

(** Every page that holds one of the bytes is unmapped. *)
Definition munmap (base bytes : nat) (m : AddressSpace) : AddressSpace :=
  m ∖ gset_to_gmap 0 (range base (pages bytes)).

Definition write_word (m : AddressSpace) (a v : nat) : outcome AddressSpace :=
  _ ← of_option "segmentation fault" (m !! a);
  mret (<[a := v]> m).

(** [memset(mapping, 0, mappingSize)], word by word. *)
Definition memset_zero (base n : nat) (m : AddressSpace) : outcome AddressSpace :=
  fold_outcome (fun m i => write_word m (base + i) 0) m (seq 0 n).

Definition setup_shared (instr : Instrumentation) (info : SharedInfo) (m : AddressSpace)
    : outcome (SharedInfo * AddressSpace) :=
  _ ← require (match shared_mapping info with None => true | _ => false end) "Called twice?";
  _ ← require (Nat.ltb 1 (length (instr_functions instr))) "Functions must be filled in before this call";
  let mappingSize := sizeof_uint32 * length (instr_functions instr) in
  (** the result is not compared with [MAP_FAILED] *)
  r ← of_option "memset(MAP_FAILED)" (mmap mappingSize m);
  let '(base, m) := r in
  m ← memset_zero base (length (instr_functions instr)) m;
  mret (mkSharedInfo (Some base) (shared_callstack info), m).

(** The length given to [munmap] is the number of functions; the pointer stays.
    Unmapping a null pointer is an error the code does not look at. *)
Definition cleanup_shared (instr : Instrumentation) (info : SharedInfo) (m : AddressSpace) : SharedInfo * AddressSpace :=
  (mkSharedInfo (shared_mapping info) [],
   match shared_mapping info with
   | Some base => munmap base (length (instr_functions instr)) m
   | None => m
   end).

(** ** The callbacks on the words *)

Definition read_word (m : AddressSpace) (a : nat) : outcome nat := of_option "segmentation fault" (m !! a).

Definition enter_shared (functionIndex : nat) (st : SharedInfo * AddressSpace) : outcome (SharedInfo * AddressSpace) :=
  let '(info, m) := st in
  base ← of_option "info->callTreeMapping" (shared_mapping info);
  _ ← require (negb (Nat.eqb functionIndex 0)) "functionIndex != 0";
  m ← match shared_callstack info with
      | [] => write_word m (base + functionIndex) functionIndex
      | parent :: _ =>
          called ← read_word m (base + functionIndex);
          if Nat.eqb called 0 then write_word m (base + functionIndex) parent else mret m
      end;
  mret (mkSharedInfo (shared_mapping info) (functionIndex :: shared_callstack info), m).

Definition leave_shared (functionIndex : nat) (st : SharedInfo * AddressSpace) : outcome (SharedInfo * AddressSpace) :=
  let '(info, m) := st in
  _ ← of_option "info->callTreeMapping" (shared_mapping info);
  _ ← require (negb (Nat.eqb functionIndex 0)) "functionIndex != 0";
  match shared_callstack info with
  | [] => Abort "pop of an empty stack"
  | _ :: rest => mret (mkSharedInfo (shared_mapping info) rest, m)
  end.

Definition callback_shared (st : SharedInfo * AddressSpace) (e : CallEvent) : outcome (SharedInfo * AddressSpace) :=
  match e with
  | Enter i => enter_shared i st
  | Leave i => leave_shared i st
  end.

(** The array, as [createCallTree] indexes it. *)
Definition array_at (m : AddressSpace) (base n : nat) : list nat := omap (fun i => m !! (base + i)) (seq 0 n).

(** One test of [OriginalTestExecutionTask::operator()], as far as the memory
    goes: map, run the callbacks of the worker, read the array if the test has
    passed, unmap.  The call stack the worker builds up is its own copy; the
    entries [createCallTree] clears while it reads are not read again. *)
Definition shared_test (instr : Instrumentation) (passed : bool) (events : list CallEvent) (m : AddressSpace)
    : outcome (option (list nat) * AddressSpace) :=
  r ← setup_shared instr newSharedInfo m;
  let '(info, m) := r in
  w ← fold_outcome callback_shared (info, m) events;
  let '(_, m) := w in
  base ← of_option "mapping" (shared_mapping info);
  let mapping := if passed then Some (array_at m base (length (instr_functions instr))) else None in
  let '(_, m) := cleanup_shared instr info m in
  mret (mapping, m).

(** The tests: whether each passed, and what it called. *)
Definition shared_tests (instr : Instrumentation) (tests : list (bool * list CallEvent)) (m : AddressSpace)
    : outcome (list (option (list nat)) * AddressSpace) :=
  fold_outcome (fun st (test : bool * list CallEvent) => r ← shared_test instr test.1 test.2 (snd st); mret (fst st ++ [fst r], snd r)) ([], m) tests.
End Memory.

(** ** Pages *)
Section Pages.
Context (page : nat) (Hpage : 0 < page).

Lemma pages_le bytes q : pages page bytes <= q <-> bytes <= sizeof_uint32 * page * q.
Proof.
  unfold pages, sizeof_uint32. set (d := 4 * page). assert (Hd : 0 < d) by lia. clearbody d.
  pose proof (Nat.div_mod_eq (bytes + (d - 1)) d) as Heq.
  pose proof (Nat.mod_upper_bound (bytes + (d - 1)) d ltac:(lia)) as Hmod. split; intros H; nia.
Qed.

Lemma pages_enough bytes : bytes <= sizeof_uint32 * page * pages page bytes.
Proof. by apply pages_le. Qed.

Lemma pages_mono b1 b2 : b1 <= b2 -> pages page b1 <= pages page b2.
Proof. intros H. apply pages_le. pose proof (pages_enough b2). lia. Qed.

(** The words a cleanup leaves mapped. *)
Definition leaked (n : nat) : nat := (pages page (sizeof_uint32 * n) - pages page n) * page.

Lemma leaked_zero n : 0 < n -> leaked n = 0 <-> n <= page.
Proof.
  intros Hn. unfold leaked. pose proof (pages_enough n) as He. pose proof (pages_enough (sizeof_uint32 * n)) as He4.
  unfold sizeof_uint32 in *. split; intros H.
  - destruct (Nat.le_gt_cases n page) as [|Hgt]; [done|]. exfalso.
    assert (Hle : pages page (4 * n) <= pages page n) by nia. apply pages_le in Hle. unfold sizeof_uint32 in Hle.
    assert (Hp : ~ pages page n <= pages page n - 1).
    { assert (pages page n <> 0) by nia. lia. }
    rewrite pages_le in Hp. unfold sizeof_uint32 in Hp. nia.
  - assert (pages page (4 * n) <= 1) by (apply pages_le; unfold sizeof_uint32; lia).
    assert (pages page n <> 0) by nia. replace (pages page (4 * n) - pages page n) with 0 by lia. done.
Qed.

Lemma elem_of_range base k a : a ∈ range page base k <-> base <= a < base + k * page.
Proof. unfold range. apply elem_of_set_seq. Qed.

Lemma range_covers base n i : i < n -> base + i ∈ range page base (pages page (sizeof_uint32 * n)).
Proof.
  intros Hi. apply elem_of_range. pose proof (pages_enough (sizeof_uint32 * n)). unfold sizeof_uint32 in *. nia.
Qed.

Lemma range_mono base k1 k2 : k1 <= k2 -> range page base k1 ⊆ range page base k2.
Proof. intros Hk a. rewrite !elem_of_range. nia. Qed.

Lemma size_range base k : size (range page base k) = k * page.
Proof. unfold range. apply size_set_seq. Qed.
End Pages.

(** ** The words behind the list *)

Lemma omap_seq {A} (f : nat -> option A) (l : list A) k :
  (forall i v, l !! i = Some v -> f (k + i) = Some v) -> omap f (seq k (length l)) = l.
Proof.
  revert k. induction l as [|v l IH]; intros k Hf; [done|]. cbn [length seq omap list_omap].
  pose proof (Hf 0 v eq_refl) as H0. rewrite Nat.add_0_r in H0. rewrite H0. f_equal. apply IH.
  intros i w Hi. rewrite Nat.add_succ_comm. by apply (Hf (S i)).
Qed.

Section Represents.
Context (base : nat) (m0 : AddressSpace).

(** The list is in the words from [base] on, and nothing else has changed. *)
Definition represents (info : InstrumentationInfo) (st : SharedInfo * AddressSpace) : Prop :=
  shared_mapping st.1 = Some base /\ shared_callstack st.1 = callstack info /\
  (forall i v, callTreeMapping info !! i = Some v -> st.2 !! (base + i) = Some v) /\
  (forall a, (forall i, i < length (callTreeMapping info) -> a <> base + i) -> st.2 !! a = m0 !! a).

Lemma represents_write info s m i v stack :
  represents info (s, m) -> i < length (callTreeMapping info) ->
  write_word m (base + i) v = Ok (<[base + i := v]> m) /\
  represents (mkInfo (<[i := v]> (callTreeMapping info)) stack) (mkSharedInfo (shared_mapping s) stack, <[base + i := v]> m).
Proof.
  intros (Hb & _ & Hin & Hout) Hi. cbn in *. destruct (lookup_lt_is_Some_2 _ _ Hi) as [w Hw].
  unfold write_word. rewrite (Hin _ _ Hw). split; [done|]. split; [done|]. split; [done|]. cbn. split.
  - intros j u. destruct (decide (j = i)) as [->|Hne].
    + rewrite list_lookup_insert_eq by done. intros [= ->]. apply lookup_insert_eq.
    + rewrite list_lookup_insert_ne by done. intros Hj. rewrite lookup_insert_ne by lia. by apply Hin.
  - intros a. rewrite length_insert. intros Ha. rewrite lookup_insert_ne by (intros <-; by apply (Ha i)). by apply Hout.
Qed.

Lemma represents_stack info s m stack :
  represents info (s, m) -> represents (mkInfo (callTreeMapping info) stack) (mkSharedInfo (shared_mapping s) stack, m).
Proof. intros (Hb & _ & Hin & Hout). done. Qed.

Lemma callback_represents e info st info' :
  represents info st -> callback info e = Ok info' -> exists st', callback_shared st e = Ok st' /\ represents info' st'.
Proof.
  destruct st as [s m]. intros HR. pose proof HR as (Hb & Hs & Hin & _). cbn in Hb, Hs, Hin.
  destruct e as [i|i]; cbn [callback callback_shared]; unfold enterFunction, leaveFunction, enter_shared, leave_shared;
    rewrite Hb, Hs; cbn [of_option mbind outcome_bind];
    (destruct (Nat.eqb i 0); cbn [negb require mbind outcome_bind]; [done|]).
  - destruct (callTreeMapping info !! i) as [called|] eqn:Hi; [|done]. cbn [of_option mbind outcome_bind].
    pose proof (lookup_lt_Some _ _ _ Hi) as Hlt. unfold read_word. rewrite (Hin _ _ Hi).
    intros [= <-]. destruct (callstack info) as [|parent rest] eqn:Hst.
    + destruct (represents_write _ _ _ i i [i] HR Hlt) as [-> HR']. rewrite Hb in HR'. by eexists.
    + cbn [of_option mbind outcome_bind]. destruct (Nat.eqb called 0).
      * destruct (represents_write _ _ _ i parent (i :: parent :: rest) HR Hlt) as [-> HR']. rewrite Hb in HR'. by eexists.
      * pose proof (represents_stack _ _ _ (i :: parent :: rest) HR) as HR'. rewrite Hb in HR'. by eexists.
  - destruct (callstack info) as [|parent rest] eqn:Hst; [done|]. intros [= <-].
    pose proof (represents_stack _ _ _ rest HR) as HR'. rewrite Hb in HR'. by eexists.
Qed.

Lemma callback_length e info info' :
  callback info e = Ok info' -> length (callTreeMapping info') = length (callTreeMapping info).
Proof.
  destruct e as [i|i]; cbn [callback]; unfold enterFunction, leaveFunction; intros H.
  - apply bind_Ok in H as (_ & _ & H). apply bind_Ok in H as (called & _ & [= <-]). cbn.
    repeat case_match; by rewrite ?length_insert.
  - apply bind_Ok in H as (_ & _ & H). destruct (callstack info); [done|]. by injection H as <-.
Qed.

(** What is in memory after the callbacks is what the list holds. *)
Lemma callbacks_represent events info st info' :
  represents info st -> fold_outcome callback info events = Ok info' ->
  exists st', fold_outcome callback_shared st events = Ok st' /\ represents info' st' /\
    array_at st'.2 base (length (callTreeMapping info)) = callTreeMapping info'.
Proof.
  intros HR Hrun.
  destruct (fold_outcome_sim represents callback callback_shared events info st info') as (st' & Hst' & HR'); [|done|done|].
  { intros e s t s' _. apply callback_represents. }
  exists st'. split; [done|]. split; [done|].
  assert (Hlen : length (callTreeMapping info') = length (callTreeMapping info)).
  { revert Hrun. apply (fold_outcome_inv (fun t => length (callTreeMapping t) = length (callTreeMapping info))); [|done].
    intros t e t' _ <- Hc. by apply callback_length in Hc. }
  unfold array_at. rewrite <-Hlen. apply omap_seq. apply HR'.
Qed.
End Represents.

(** ** One test, and all of them *)
Section Lifecycle.
Context (page : nat) (kernel : AddressSpace -> nat -> option nat) (instr : Instrumentation).
Context (Hpage : 0 < page).
(** The kernel finds room, and gives a range nobody uses. *)
Context (Hroom : forall m k, is_Some (kernel m k)).
Context (Hfree : forall m k base, kernel m k = Some base -> range page base k ## dom m).
Context (Hfunctions : 1 < length (instr_functions instr)).

Abbreviation count := (length (instr_functions instr)).

Lemma memset_zeroed base n (m : AddressSpace) :
  (forall i, i < n -> m !! (base + i) = Some 0) -> memset_zero base n m = Ok m.
Proof.
  intros Hm. unfold memset_zero. enough (Hgen : forall l, (forall i, i ∈ l -> i < n) ->
    fold_outcome (fun m i => write_word m (base + i) 0) m l = Ok m).
  { apply Hgen. intros i [_ Hi]%elem_of_seq. lia. }
  induction l as [|i l IH]; intros Hl; [done|]. cbn [fold_outcome].
  assert (Hi : m !! (base + i) = Some 0) by (apply Hm, Hl; by left).
  assert (Hw : write_word m (base + i) 0 = Ok m).
  { unfold write_word. rewrite Hi. cbn [of_option mbind outcome_bind mret outcome_ret]. by rewrite insert_id. }
  rewrite Hw. cbn [mbind outcome_bind]. apply IH. intros j Hj. apply Hl. by right.
Qed.

Lemma lookup_zeroes (X : gset nat) (m : AddressSpace) a :
  (gset_to_gmap 0 X ∪ m) !! a = if decide (a ∈ X) then Some 0 else m !! a.
Proof.
  rewrite lookup_union, lookup_gset_to_gmap. case_decide; [rewrite option_guard_True by done|rewrite option_guard_False by done].
  - by destruct (m !! a).
  - by destruct (m !! a).
Qed.

Lemma lookup_munmap base bytes (m : AddressSpace) a :
  munmap page base bytes m !! a = if decide (a ∈ range page base (pages page bytes)) then None else m !! a.
Proof.
  unfold munmap. rewrite lookup_difference, lookup_gset_to_gmap.
  case_decide; [by rewrite option_guard_True by done|by rewrite option_guard_False by done].
Qed.

Lemma setup_shared_run (m : AddressSpace) :
  exists base m1, setup_shared page kernel instr newSharedInfo m = Ok (mkSharedInfo (Some base) [], m1) /\
    range page base (pages page (sizeof_uint32 * count)) ## dom m /\
    forall a, m1 !! a = if decide (a ∈ range page base (pages page (sizeof_uint32 * count))) then Some 0 else m !! a.
Proof.
  destruct (Hroom m (pages page (sizeof_uint32 * count))) as [base Hbase].
  exists base, (gset_to_gmap 0 (range page base (pages page (sizeof_uint32 * count))) ∪ m).
  split; [|split; [by apply (Hfree m)|intros a; apply lookup_zeroes]].
  unfold setup_shared. cbn [shared_mapping newSharedInfo shared_callstack].
  rewrite (proj2 (Nat.ltb_lt 1 count) Hfunctions). cbn [require mbind outcome_bind].
  unfold mmap. rewrite Hbase. cbn [mbind option_bind of_option outcome_bind]. rewrite memset_zeroed; [done|].
  intros i Hi. rewrite lookup_zeroes, decide_True; [done|]. by apply range_covers.
Qed.

(** Between the mapping and the cleanup only words of the array are written;
    then the address space has grown by what the cleanup forgets. *)
Lemma cleanup_leaves base (m m2 : AddressSpace) :
  range page base (pages page (sizeof_uint32 * count)) ## dom m ->
  (forall a, a ∈ range page base (pages page (sizeof_uint32 * count)) -> is_Some (m2 !! a)) ->
  (forall a, a ∉ range page base (pages page (sizeof_uint32 * count)) -> m2 !! a = m !! a) ->
  m ⊆ munmap page base count m2 /\ size (munmap page base count m2) = size m + leaked page count.
Proof.
  set (all := range page base (pages page (sizeof_uint32 * count))). intros Hdisj Hin Hout.
  assert (Hpages : pages page count <= pages page (sizeof_uint32 * count)) by (apply pages_mono; unfold sizeof_uint32; lia).
  pose proof (range_mono page Hpage base _ _ Hpages) as Hsub. fold all in Hsub. split.
  - apply map_subseteq_spec. intros a v Ha. rewrite lookup_munmap.
    assert (Hna : a ∉ all) by (intros Hall; apply (Hdisj a Hall); by apply elem_of_dom).
    rewrite decide_False by set_solver. by rewrite Hout.
  - assert (Hdom : dom (munmap page base count m2) = dom m ∪ (all ∖ range page base (pages page count))).
    { apply set_eq. intros a. rewrite elem_of_dom, lookup_munmap, elem_of_union, elem_of_difference, elem_of_dom.
      case_decide as Hr.
      - split; [by intros [? ?]|]. intros [Ha|[_ Ha]]; [|done]. exfalso. apply (Hdisj a); [by apply Hsub|by apply elem_of_dom].
      - destruct (decide (a ∈ all)) as [Ha|Ha]; [|rewrite (Hout a Ha); tauto].
        split; [by right|]. intros _. by apply Hin. }
    rewrite <-!size_dom, Hdom, size_union by set_solver. rewrite size_difference by done. unfold all. rewrite !size_range.
    unfold leaked. f_equal. nia.
Qed.

(** What one test leaves behind: the array it filled has been read, nothing that
    was mapped before is touched, and the pages beyond the wrong length stay. *)
Lemma shared_test_run (passed : bool) events (m : AddressSpace) info :
  fold_outcome callback (zeroed count) events = Ok info ->
  exists m', shared_test page kernel instr passed events m = Ok (if passed then Some (callTreeMapping info) else None, m') /\
    m ⊆ m' /\ size m' = size m + leaked page count.
Proof.
  intros Hrun. destruct (setup_shared_run m) as (base & m1 & Hsetup & Hdisj & Hm1).
  destruct (callbacks_represent base m1 events (zeroed count) (mkSharedInfo (Some base) [], m1) info) as ([s m2] & Hw & HR & Harr).
  { split; [done|]. split; [done|]. cbn. split; [|done]. intros i v [-> Hi]%lookup_replicate.
    rewrite Hm1, decide_True; [done|]. by apply range_covers. }
  { done. }
  cbn [snd callTreeMapping zeroed] in Harr. rewrite length_replicate in Harr. destruct HR as (_ & _ & Hin & Hout). cbn [fst snd] in *.
  assert (Hlen : length (callTreeMapping info) = count).
  { revert Hrun. apply (fold_outcome_inv (fun t => length (callTreeMapping t) = count)); [|cbn; apply length_replicate].
    intros t e t' _ <- Hc. by apply callback_length in Hc. }
  exists (munmap page base count m2). split.
  { unfold shared_test. rewrite Hsetup. cbn [mbind outcome_bind]. rewrite Hw. cbn [mbind outcome_bind of_option shared_mapping]. by rewrite Harr. }
  apply cleanup_leaves; [done| |].
  - intros a Ha. pose proof Ha as [Hge _]%elem_of_range. destruct (decide (a < base + count)) as [Hlt|].
    + destruct (lookup_lt_is_Some_2 (callTreeMapping info) (a - base)) as [v Hv]; [lia|]. exists v.
      rewrite <-(Hin _ _ Hv). f_equal. lia.
    + rewrite Hout by lia. by rewrite Hm1, decide_True.
  - intros a Ha. rewrite Hout, Hm1, decide_False; [done|done|]. rewrite Hlen. intros i Hi ->. by apply Ha, range_covers.
Qed.

(** C18: the memory the tests are recorded in.  Whatever the tests call (through
    callbacks the instrumentation inserted), mapping, recording, reading and
    unmapping go through for all of them; the array read for each test that passed is
    the one the callbacks describe, each test starting from zeros; nothing mapped before
    is lost.  But each test leaves the pages behind that the wrong length given to
    [munmap] leaves out: none exactly when the functions of the program fit one
    page of 32-bit words. *)
Theorem shared_tests_recorded (tests : list (bool * list CallEvent)) (m : AddressSpace) :
  (forall passed events, (passed, events) ∈ tests -> exists info, fold_outcome callback (zeroed count) events = Ok info) ->
  exists arrays m', shared_tests page kernel instr tests m = Ok (arrays, m') /\
    Forall2 (fun (test : bool * list CallEvent) array => exists info, fold_outcome callback (zeroed count) test.2 = Ok info /\
      array = if test.1 then Some (callTreeMapping info) else None) tests arrays /\
    m ⊆ m' /\ size m' = size m + length tests * leaked page count /\
    (leaked page count = 0 <-> count <= page).
Proof.
  intros Htests. unfold shared_tests.
  destruct (fold_outcome_progress (fun dn (st : list (option (list nat)) * AddressSpace) =>
      Forall2 (fun (test : bool * list CallEvent) array => exists info, fold_outcome callback (zeroed count) test.2 = Ok info /\
        array = if test.1 then Some (callTreeMapping info) else None) dn st.1 /\
      m ⊆ st.2 /\ size st.2 = size m + length dn * leaked page count)
    (fun st (test : bool * list CallEvent) => r ← shared_test page kernel instr test.1 test.2 (snd st); mret (fst st ++ [fst r], snd r)) tests ([], m))
    as ([arrays m'] & Hrun & Harr & Hsub & Hsize).
  - split; [constructor|]. split; [done|]. cbn. lia.
  - intros dn [passed events] rest [arrays m1] Hl (Harr & Hsub & Hsize). cbn [fst snd] in *.
    destruct (Htests passed events) as [info Hinfo]; [rewrite Hl; apply elem_of_app; right; by left|].
    destruct (shared_test_run passed events m1 info Hinfo) as (m2 & Ht & Hsub2 & Hsize2).
    exists (arrays ++ [if passed then Some (callTreeMapping info) else None], m2). rewrite Ht. split; [done|]. cbn [fst snd].
    split; [|split; [by etrans|rewrite length_app; cbn; lia]]. apply Forall2_app; [done|]. constructor; [by exists info|constructor].
  - exists arrays, m'. split; [done|]. split; [done|]. split; [done|]. split; [done|]. apply leaked_zero; lia.
Qed.
End Lifecycle.

(** A kernel that maps behind everything there is. *)
Definition sample_kernel (m : AddressSpace) (k : nat) : option nat := Some (S (max_list (elements (dom m)))).

Lemma sample_kernel_free page (m : AddressSpace) k base :
  sample_kernel m k = Some base -> range page base k ## dom m.
Proof.
  intros [= <-] a [Hge _]%elem_of_range Ha%elem_of_elements. apply max_list_elem_of_le in Ha. lia.
Qed.

(** Five functions on pages of two words: each test leaves two pages. *)
Definition sample_instr : Instrumentation := mkInstrumentation (replicate 5 (mkCallTreeFunction None None)) [].

Definition sample_events : list (bool * list CallEvent) := [(true, [Enter 1; Enter 3; Leave 3; Leave 1]); (false, [Enter 2; Leave 2])].

Lemma shared_tests_recorded_witness :
  exists arrays m', shared_tests 2 sample_kernel sample_instr sample_events ∅ = Ok (arrays, m') /\
    arrays = [Some [0; 1; 0; 1; 0]; None] /\ size m' = 2 * leaked 2 5 /\ leaked 2 5 = 4.
Proof.
  destruct (shared_tests_recorded 2 sample_kernel sample_instr ltac:(lia) (fun m k => mk_is_Some _ _ eq_refl)
    (sample_kernel_free 2) ltac:(cbn; lia) sample_events ∅) as (arrays & m' & Hrun & _ & _ & Hsize & _).
  - intros passed events [[= -> ->]|[[= -> ->]|H]%elem_of_cons]%elem_of_cons; [by eexists..|by apply elem_of_nil in H].
  - exists arrays, m'. split; [done|]. split; [|split; [exact Hsize|reflexivity]].
    vm_compute in Hrun. by injection Hrun as <- _.
Defined.
