(* ===== verification/Program.v ===== *)
(** * The program under test (lib/Program/Program.cpp)

    [Program] owns the bitcode files, keeps a registry of the functions they
    define and finds the static constructors.  Of a module it reads more than
    the functions IR.v holds: the aliases and the global variables with their
    initialisers. *)

From stdpp Require Import base list strings.
From Stdlib Require Import ZArith Lia Bool.
From S2P Require Import Prelude StdContainers StringFacts IR Samples.

(** ** Constants, types and global variables *)
Inductive Constant :=
  | NullValue
  | ConstantFunction (f : FnId)
  | ConstantGlobal (name : string)
  (** constant expressions: a cast of a constant, or another one with its operands *)
  | CastExpr (c : Constant)
  | ConstantExpr (operands : list Constant)
  | ConstantArray (elements : list Constant)
  | ConstantStruct (fields : list Constant)
  | ConstantDataArray (bytes : string)
  | OtherConstant.

(** A struct type without a name is a literal one. *)
Inductive IRType :=
  | PointerTo (pointee : IRType)
  | StructType (name : option string)
  | OtherType.

(** A use of a global variable: by a store, which stores the result of a call
    or invoke with its operands or something else, or by something else. *)
Inductive User :=
  | StoreInst (value : option (list Constant))
  | OtherUser.

Record GlobalVariable := mkGlobal {
  gv_name : string;
  gv_valueType : IRType;
  gv_localLinkage : bool;
  (** none for a declaration *)
  gv_initializer : option Constant;
  gv_users : list User
}.

(** An alias, when it is one of a function. *)
Record GlobalAlias := mkAlias {
  alias_name : string;
  alias_function : option FnId
}.

Record Unit := mkUnit {
  u_module : Module;
  u_aliases : list GlobalAlias;
  u_globals : list GlobalVariable
}.

(** ** Program *)
Record Program := mkProgram {
  functionsRegistry : list (string * FnId);
  bitcodeRegistry : list (string * nat);
  _bitcode : list Unit
}.

Definition emptyProgram : Program := mkProgram [] [] [].

Definition deleteBody (f : Function) : Function := mkFunction (fn_id f) (fn_name f) [] (fn_subprogram f).

Definition is_callback (f : Function) : bool :=
  String.eqb (fn_name f) "mull_enterFunction" || String.eqb (fn_name f) "mull_leaveFunction".

Definition strip_callback (f : Function) : Function := if is_callback f then deleteBody f else f.

Definition register_function (registry : list (string * FnId)) (f : Function) : list (string * FnId) :=
  if negb (isDeclaration f) then omap_insert (fn_name f) (fn_id f) registry else registry.

Definition register_alias (registry : list (string * FnId)) (a : GlobalAlias) : list (string * FnId) :=
  match alias_function a with
  | Some f => omap_insert (alias_name a) f registry
  | None => registry
  end.

Definition with_functions (m : Module) (functions : list Function) : Module :=
  mkModule (mod_identifier m) (mod_sourceFileName m) functions.

Definition bitcodeWithIdentifier (p : Program) (identifier : string) : option Unit :=
  omap_find identifier (bitcodeRegistry p) ≫= fun i => _bitcode p !! i.

Definition addBitcode (p : Program) (bitcode : Unit) : outcome Program :=
  let functions := map strip_callback (mod_functions (u_module bitcode)) in
  let registry := foldl register_function (functionsRegistry p) functions in
  let registry := foldl register_alias registry (u_aliases bitcode) in
  let identifier := mod_identifier (u_module bitcode) in
  _ ← require (match bitcodeWithIdentifier p identifier with None => true | Some _ => false end)
        "Attempt to add a module which has been added already!";
  let bitcode := mkUnit (with_functions (u_module bitcode) functions) (u_aliases bitcode) (u_globals bitcode) in
  mret (mkProgram registry (omap_insert identifier (length (_bitcode p)) (bitcodeRegistry p)) (_bitcode p ++ [bitcode])).

Definition newProgram (bitcode : list Unit) : outcome Program := fold_outcome addBitcode emptyProgram bitcode.

Definition lookupDefinedFunction (p : Program) (name : string) : option FnId := omap_find name (functionsRegistry p).

(** One entry of the list of constructors. *)
Definition constructor_of (entry : Constant) : list FnId :=
  match entry with
  | ConstantStruct fields =>
      match fields !! 1 with
      | Some NullValue => []
      | Some (CastExpr (ConstantFunction f)) | Some (ConstantFunction f) => [f]
      | _ => []
      end
  | _ => []
  end.

Definition unit_constructors (u : Unit) : list FnId :=
  match find_first (fun g => String.eqb (gv_name g) "llvm.global_ctors") (u_globals u) with
  | Some g =>
      if gv_localLinkage g then []
      else match gv_initializer g with
           | Some (ConstantArray entries) => concat (map constructor_of entries)
           | _ => []
           end
  | None => []
  end.

Definition getStaticConstructors (p : Program) : list FnId := concat (map unit_constructors (_bitcode p)).

(** ** The registry *)

(** What a module offers under names, in the order it is registered. *)
Definition offered (u : Unit) : list (string * FnId) :=
  map (fun f => (fn_name f, fn_id f))
    (List.filter (fun f => negb (isDeclaration f)) (map strip_callback (mod_functions (u_module u)))) ++
  omap (fun a => (fun f => (alias_name a, f)) <$> alias_function a) (u_aliases u).

Definition first_named (name : string) (l : list (string * FnId)) : option FnId :=
  snd <$> find_first (fun o => String.eqb (fst o) name) l.

Lemma first_named_app name l1 l2 :
  first_named name (l1 ++ l2) = match first_named name l1 with Some f => Some f | None => first_named name l2 end.
Proof. unfold first_named. rewrite find_first_app. by destruct (find_first _ l1). Qed.

Definition insert_offer (registry : list (string * FnId)) (o : string * FnId) : list (string * FnId) :=
  omap_insert o.1 o.2 registry.

Lemma register_offered registry u :
  foldl register_alias (foldl register_function registry (map strip_callback (mod_functions (u_module u)))) (u_aliases u) =
  foldl insert_offer registry (offered u).
Proof.
  unfold offered. rewrite foldl_app. generalize (map strip_callback (mod_functions (u_module u))) as fs. intros fs.
  assert (Hf : forall r, foldl register_function r fs =
    foldl insert_offer r (map (fun f => (fn_name f, fn_id f)) (List.filter (fun f => negb (isDeclaration f)) fs))).
  { induction fs as [|f fs IH]; intros r; [done|]. cbn [foldl List.filter]. unfold register_function at 2.
    destruct (negb (isDeclaration f)); [cbn [map foldl]|]; by rewrite IH. }
  rewrite Hf. generalize (foldl insert_offer registry (map (fun f => (fn_name f, fn_id f)) (List.filter (fun f => negb (isDeclaration f)) fs))).
  induction (u_aliases u) as [|a aliases IH]; intros r; [done|]. cbn [foldl omap list_omap]. unfold register_alias at 2.
  destruct (alias_function a); cbn [fmap option_fmap option_map foldl]; by rewrite IH.
Qed.

(** An insertion never hides an earlier one. *)
Lemma find_offers registry l name :
  omap_find name (foldl insert_offer registry l) =
  match omap_find name registry with Some f => Some f | None => first_named name l end.
Proof.
  revert registry. induction l as [|o l IH]; intros registry; [by cbn; destruct (omap_find name registry)|].
  cbn [foldl]. rewrite IH. unfold insert_offer. rewrite omap_find_insert. destruct (omap_find name registry); [done|].
  unfold first_named. cbn [find_first]. by destruct (String.eqb o.1 name).
Qed.

(** A module as the program keeps it. *)
Definition kept (u : Unit) : Unit :=
  mkUnit (with_functions (u_module u) (map strip_callback (mod_functions (u_module u)))) (u_aliases u) (u_globals u).

Abbreviation identifiers units := (map (fun u => mod_identifier (u_module u)) units).

(** The modules added so far. *)
Record program_of (units : list Unit) (p : Program) : Prop := {
  po_functions name : lookupDefinedFunction p name = first_named name (concat (map offered units));
  po_modules name i : omap_find name (bitcodeRegistry p) = Some i <-> identifiers units !! i = Some name;
  po_bitcode : _bitcode p = map kept units
}.

Lemma program_of_empty : program_of [] emptyProgram.
Proof. split; [done| |done]. by intros name [|i]. Qed.

(** An identifier leads to its file. *)
Lemma bitcode_found units p name unit :
  program_of units p ->
  bitcodeWithIdentifier p name = Some unit <-> exists i u, units !! i = Some u /\ mod_identifier (u_module u) = name /\ unit = kept u.
Proof.
  intros Hp. unfold bitcodeWithIdentifier. rewrite (po_bitcode _ _ Hp). split.
  - intros (i & Hi & Hu)%bind_Some. apply (po_modules _ _ Hp) in Hi. rewrite list_lookup_fmap in Hu.
    apply fmap_Some in Hu as (u & Hu & ->). exists i, u. rewrite list_lookup_fmap, Hu in Hi. by injection Hi.
  - intros (i & u & Hu & <- & ->). apply bind_Some. exists i. split; [|by rewrite list_lookup_fmap, Hu].
    apply (po_modules _ _ Hp). by rewrite list_lookup_fmap, Hu.
Qed.

Lemma bitcode_missing units p name :
  program_of units p -> bitcodeWithIdentifier p name = None <-> name ∉ identifiers units.
Proof.
  intros Hp. split.
  - intros Hnone (u & -> & [i Hi]%list_elem_of_lookup)%list_elem_of_fmap.
    assert (Hsome : bitcodeWithIdentifier p (mod_identifier (u_module u)) = Some (kept u)) by (apply (bitcode_found _ _ _ _ Hp); by exists i, u).
    congruence.
  - intros Hno. destruct (bitcodeWithIdentifier p name) as [unit|] eqn:E; [|done].
    apply (bitcode_found _ _ _ _ Hp) in E as (i & u & Hu & <- & _). destruct Hno. apply list_elem_of_fmap. exists u.
    split; [done|]. by eapply list_elem_of_lookup_2.
Qed.

Lemma addBitcode_spec units p u :
  program_of units p ->
  if decide (mod_identifier (u_module u) ∈ identifiers units)
  then addBitcode p u = Abort "Attempt to add a module which has been added already!"
  else exists p', addBitcode p u = Ok p' /\ program_of (units ++ [u]) p'.
Proof.
  intros Hp. unfold addBitcode. set (id := mod_identifier (u_module u)).
  pose proof (bitcode_missing _ _ id Hp) as Hid. destruct (decide (id ∈ _)) as [Hin|Hnot].
  - destruct (bitcodeWithIdentifier p id); [done|]. by destruct (proj1 Hid eq_refl).
  - rewrite (proj2 Hid Hnot). cbn [require mbind outcome_bind]. eexists. split; [reflexivity|].
    assert (Hnone : omap_find id (bitcodeRegistry p) = None).
    { destruct (omap_find id (bitcodeRegistry p)) as [i|] eqn:E; [|done]. apply (po_modules _ _ Hp) in E.
      destruct Hnot. by eapply list_elem_of_lookup_2. }
    assert (Hlen : length (_bitcode p) = length (identifiers units)) by (rewrite (po_bitcode _ _ Hp), !length_map; done).
    split; cbn [functionsRegistry bitcodeRegistry _bitcode lookupDefinedFunction].
    + intros name. unfold lookupDefinedFunction. cbn [functionsRegistry]. rewrite register_offered, find_offers.
      fold (lookupDefinedFunction p name). rewrite (po_functions _ _ Hp), map_app, concat_app, first_named_app. cbn [map concat].
      by rewrite app_nil_r.
    + intros name i. rewrite omap_find_insert, map_app. cbn [map]. rewrite lookup_snoc_Some, <-Hlen.
      destruct (String.eqb_spec id name) as [<-|Hne].
      * rewrite Hnone. cbn. split; [intros [= <-]; by right|]. intros [[_ Hi]|[-> _]]; [|done].
        apply (po_modules _ _ Hp) in Hi. congruence.
      * transitivity (omap_find name (bitcodeRegistry p) = Some i); [by destruct (omap_find name (bitcodeRegistry p))|].
        rewrite (po_modules _ _ Hp). split; [|by intros [[_ ?]|[_ ?]]]. intros Hi. left. split; [|done].
        rewrite Hlen. by eapply lookup_lt_Some.
    + by rewrite (po_bitcode _ _ Hp), map_app.
Qed.

Lemma newProgram_spec rest units p :
  program_of units p -> NoDup (identifiers units) ->
  match fold_outcome addBitcode p rest with
  | Ok p' => NoDup (identifiers (units ++ rest)) /\ program_of (units ++ rest) p'
  | Exit _ => False
  | Abort _ => ~ NoDup (identifiers (units ++ rest))
  end.
Proof.
  revert units p. induction rest as [|u rest IH]; intros units p Hp Hnd; [by cbn; rewrite app_nil_r|].
  cbn [fold_outcome]. pose proof (addBitcode_spec units p u Hp) as Hstep. destruct (decide _) as [Hin|Hnot].
  - rewrite Hstep. cbn [mbind outcome_bind]. intros Hn. rewrite map_app in Hn. apply NoDup_app in Hn as (_ & Hd & _).
    apply (Hd _ Hin). by left.
  - destruct Hstep as (p' & -> & Hp'). cbn [mbind outcome_bind]. rewrite (cons_middle u units rest), app_assoc.
    apply (IH _ _ Hp'). rewrite map_app. apply NoDup_app. split; [done|]. split; [|apply NoDup_singleton].
    by intros x Hx ->%list_elem_of_singleton.
Qed.

Lemma offered_callback name u f :
  name = "mull_enterFunction" \/ name = "mull_leaveFunction" ->
  (forall a, a ∈ u_aliases u -> alias_name a <> name) -> (name, f) ∉ offered u.
Proof.
  intros Hname Hal [Hin|Hin]%elem_of_app.
  - apply list_elem_of_fmap in Hin as (g & [= Hn _] & Hg). rewrite list_elem_of_In, filter_In in Hg. destruct Hg as [Hg Hd].
    apply list_elem_of_In, list_elem_of_fmap in Hg as (h & -> & _). unfold strip_callback, is_callback in *.
    destruct (_ || _) eqn:E; [done|]. apply orb_false_iff in E as [E1 E2]. bool_to_prop. by destruct Hname; subst.
  - apply list_elem_of_omap in Hin as (a & Ha & Heq). destruct (alias_function a); [|done]. injection Heq as Heq _. by apply (Hal a).
Qed.

(** C32: a program is put together exactly when no two of its bitcode files have
    the same identifier; then every name leads to the first function with a body,
    or alias of a function, in the order of the files, and an identifier leads to
    the file that has it, kept without the bodies of the callbacks, or to nothing
    when no file has it.  The callbacks of the instrumentation are not
    among the defined functions, whatever the files say: their bodies were
    dropped. *)
Theorem newProgram_registry units :
  match newProgram units with
  | Ok p =>
      NoDup (identifiers units) /\
      (forall name, lookupDefinedFunction p name = first_named name (concat (map offered units))) /\
      _bitcode p = map kept units /\
      (forall u, u ∈ units -> bitcodeWithIdentifier p (mod_identifier (u_module u)) = Some (kept u)) /\
      (forall name, bitcodeWithIdentifier p name = None <-> name ∉ identifiers units) /\
      (forall name, name = "mull_enterFunction" \/ name = "mull_leaveFunction" ->
         (forall u a, u ∈ units -> a ∈ u_aliases u -> alias_name a <> name) -> lookupDefinedFunction p name = None)
  | Exit _ => False
  | Abort _ => ~ NoDup (identifiers units)
  end.
Proof.
  pose proof (newProgram_spec units [] emptyProgram program_of_empty (NoDup_nil_2)) as Hspec. unfold newProgram.
  destruct (fold_outcome _ _ _) as [p| |]; [|done..]. destruct Hspec as [Hnd Hp]. split; [done|]. split; [apply Hp|].
  split; [apply (po_bitcode _ _ Hp)|]. split; [|split; [intros name; apply (bitcode_missing _ _ name Hp)|]].
  { intros u [i Hi]%list_elem_of_lookup. apply (bitcode_found _ _ _ _ Hp). by exists i, u. }
  intros name Hname Hal. rewrite (po_functions _ _ Hp). cbn [app]. unfold first_named.
  destruct (find_first _ _) as [[n f]|] eqn:E; [|done]. apply find_first_Some in E as [Hin Heq]. cbn in Heq. bool_to_prop. subst n.
  apply elem_of_concat_map in Hin as (u & Hu & Hin). exfalso. eapply offered_callback; [exact Hname| |exact Hin].
  intros a Ha. by apply (Hal u).
Qed.
