(* ===== verification/TestFinders.v ===== *)
(** * The finders of tests (lib/TestFrameworks)

    A finder reads the tests off the modules of the program: every function
    whose name contains test_ (SimpleTest), the functions the configuration
    names (CustomTest), or the registrations of GoogleTest, which static
    constructors store into global variables. *)

From stdpp Require Import base list strings.
From Stdlib Require Import ZArith Lia Bool Ascii.
From S2P Require Import Prelude StdContainers StringFacts IR Samples MutationPoint MutantExecution Driver Program.

(** ** SimpleTestFinder *)
Definition simple_tests (u : Unit) : list Test :=
  map (fun function => newTest (fn_name function) "mull" (fn_name function) [] (Some (fn_id function)))
    (List.filter (fun function => contains "test_" (fn_name function)) (mod_functions (u_module u))).

Definition SimpleTestFinder_findTests (program : Program) : list Test := concat (map simple_tests (_bitcode program)).

(** ** CustomTestFinder *)
Definition testMapping (testDefinitions : list CustomTestDefinition) : list (string * list CustomTestDefinition) :=
  foldl (fun m definition => omap_update [] (fun l => l ++ [definition]) (ctd_methodName definition) m) [] testDefinitions.

Definition custom_test (function : Function) (definition : CustomTestDefinition) : Test :=
  let programName := if String.eqb (ctd_programName definition) "" then "mull" else ctd_programName definition in
  newTest (ctd_testName definition) programName "main" (ctd_callArguments definition) (Some (fn_id function)).

Definition custom_tests (mapping : list (string * list CustomTestDefinition)) (function : Function) : list Test :=
  if isDeclaration function then []
  else match omap_find (fn_name function) mapping with
       | None => []
       | Some definitions => map (custom_test function) definitions
       end.

Definition CustomTestFinder_findTests (testDefinitions : list CustomTestDefinition) (program : Program) : list Test :=
  concat (map (fun u => concat (map (custom_tests (testMapping testDefinitions)) (mod_functions (u_module u)))) (_bitcode program)).

(** ** GoogleTestFinder *)

(** [StringRef::rtrim('\0')] *)
Fixpoint rtrim_nul (s : string) : string :=
  match s with
  | EmptyString => ""
  | String c s' =>
      match rtrim_nul s' with
      | EmptyString => if Ascii.eqb c nul then "" else String c ""
      | r => String c r
      end
  end.

(** A global variable holding a pointer to a [TestInfo].  [getName] asserts
    that the struct has a name. *)
Definition is_test_info (g : GlobalVariable) : outcome bool :=
  match gv_valueType g with
  | PointerTo (StructType name) =>
      name ← of_option "Literal structs never have names" name;
      mret (String.prefix "class.testing::TestInfo" name)
  | _ => mret false
  end.

(** [dyn_cast<ConstantExpr>(call->getOperand(n))]: its first operand. *)
Definition expr_operand (c : option Constant) : outcome Constant :=
  match c with
  | Some (CastExpr c) => mret c
  | Some (ConstantExpr operands) => of_option "operand out of range" (operands !! 0)
  | _ => Abort "dyn_cast<ConstantExpr>"
  end.

Section GoogleTest.
Context (u : Unit).

(** The bytes of the initialiser of the global variable a name refers to. *)
Definition name_bytes (c : Constant) : outcome string :=
  match c with
  | ConstantGlobal name =>
      g ← of_option "dangling global" (find_first (fun g => String.eqb (gv_name g) name) (u_globals u));
      initializer ← of_option "operand out of range" (gv_initializer g);
      match initializer with
      | ConstantDataArray bytes => mret (rtrim_nul bytes)
      | _ => Abort "dyn_cast<ConstantDataArray>"
      end
  | ConstantFunction _ => Abort "dyn_cast<ConstantDataArray>"
  | _ => Abort "dyn_cast<GlobalValue>"
  end.

Definition is_store (user : User) : bool := match user with StoreInst _ => true | OtherUser => false end.

(** The two names registered for the variable. *)
Definition registered_names (g : GlobalVariable) : outcome (string * string) :=
  user ← of_option "The Global should be used within a store instruction" (find_first is_store (gv_users g));
  operands ← match user with
             | StoreInst (Some operands) => mret operands
             | _ => Abort "Store should be using call to MakeAndRegisterTestInfo"
             end;
  testSuiteNameRef ← expr_operand (operands !! 0);
  testCaseNameRef ← expr_operand (operands !! 1);
  testSuiteName ← name_bytes testSuiteNameRef;
  testCaseName ← name_bytes testCaseNameRef;
  mret (testSuiteName, testCaseName).

Definition testBodyFunctionName (testSuiteName testCaseName : string) : string :=
  testSuiteName +:+ "_" +:+ testCaseName +:+ "_Test8TestBodyEv".

(** The first function whose name contains the name of the body. *)
Definition find_body (testSuiteName testCaseName : string) : option Function :=
  find_first (fun func => contains (testBodyFunctionName testSuiteName testCaseName) (fn_name func)) (mod_functions (u_module u)).

Definition google_test (g : GlobalVariable) : outcome (list Test) :=
  testInfo ← is_test_info g;
  if negb testInfo then mret []
  else
    names ← registered_names g;
    let '(testSuiteName, testCaseName) := names in
    let testName := testSuiteName +:+ "." +:+ testCaseName in
    testBody ← of_option "Cannot find the TestBody function for the Test" (find_body testSuiteName testCaseName);
    mret [newTest testName "mull" "main" ["--gtest_filter=" +:+ testName] (Some (fn_id testBody))].
End GoogleTest.

Definition collect {A B} (f : A -> outcome (list B)) (l : list A) : outcome (list B) :=
  fold_outcome (fun tests a => found ← f a; mret (tests ++ found)) [] l.

Definition GoogleTestFinder_findTests (program : Program) : outcome (list Test) :=
  collect (fun u => collect (google_test u) (u_globals u)) (_bitcode program).

(** ** TestFrameworkFactory *)
Inductive TestFinder := GoogleTestFinder | SimpleTestFinder | CustomTestFinder (definitions : list CustomTestDefinition).

Definition findTests (finder : TestFinder) (program : Program) : outcome (list Test) :=
  match finder with
  | GoogleTestFinder => GoogleTestFinder_findTests program
  | SimpleTestFinder => mret (SimpleTestFinder_findTests program)
  | CustomTestFinder definitions => mret (CustomTestFinder_findTests definitions program)
  end.

Definition createTestFramework (name : string) (configuration : Configuration) : outcome TestFinder :=
  if String.eqb name "GoogleTest" then mret GoogleTestFinder
  else if String.eqb name "SimpleTest" then mret SimpleTestFinder
  else if String.eqb name "CustomTest" then mret (CustomTestFinder (customTests configuration))
  else Abort ("Unknown test framework: " +:+ name).

Definition testFramework_commandLineOptions : list (string * string) :=
  [("GoogleTest", "Google Test Framework");
   ("CustomTest", "Custom Test Framework");
   ("SimpleTest", "Simple Test (For internal usage only)")].

(** ** Lemmas *)

Lemma collect_Ok {A B} (f : A -> outcome (list B)) (g : A -> list B) l :
  (forall a, a ∈ l -> f a = Ok (g a)) -> collect f l = Ok (concat (map g l)).
Proof.
  intros Hf. unfold collect.
  enough (Hgen : forall acc, fold_outcome (fun tests a => found ← f a; mret (tests ++ found)) acc l = Ok (acc ++ concat (map g l)))
    by apply Hgen.
  induction l as [|a l IH]; intros acc; [by cbn; rewrite app_nil_r|].
  cbn [fold_outcome map concat]. rewrite Hf by (by left). cbn [mbind outcome_bind mret outcome_ret].
  rewrite IH, <-app_assoc; [done|]. intros b Hb. apply Hf. by right.
Qed.

Lemma testMapping_find definitions name :
  omap_find name (testMapping definitions) =
  match filter (fun d => ctd_methodName d = name) definitions with [] => None | l => Some l end.
Proof.
  unfold testMapping. induction definitions as [|d definitions IH] using rev_ind; [done|].
  rewrite foldl_snoc, filter_app, filter_cons, filter_nil. destruct (decide (ctd_methodName d = name)) as [<-|Hne].
  - rewrite omap_find_update_eq, IH. by destruct (filter _ definitions).
  - rewrite omap_find_update_ne by done. by rewrite IH, app_nil_r.
Qed.

(** The tests of a custom framework are those of the configuration: for every
    function with a body, in the order of the modules, one test per definition
    that names it as its method, in the order of the definitions. *)
Theorem CustomTestFinder_finds definitions program :
  CustomTestFinder_findTests definitions program =
  concat (map (fun u => concat (map (fun f => map (custom_test f) (filter (fun d => ctd_methodName d = fn_name f) definitions))
    (List.filter (fun f => negb (isDeclaration f)) (mod_functions (u_module u))))) (_bitcode program)).
Proof.
  unfold CustomTestFinder_findTests. f_equal. apply map_ext. intros u. induction (mod_functions (u_module u)) as [|f fs IH]; [done|].
  cbn [map concat List.filter]. rewrite IH. unfold custom_tests. destruct (isDeclaration f); [done|]. cbn [negb map concat]. f_equal.
  rewrite testMapping_find. by destruct (filter _ definitions).
Qed.

(** ** What GoogleTest's macros leave in a module

    Described from the outside, by GoogleTest and the Itanium C++ ABI: the test
    [TEST(suite, case)] is a class [suite_case_Test] with a method [TestBody];
    a static variable of type [TestInfo *] is set to the result of
    [MakeAndRegisterTestInfo], whose first two arguments point to the texts of
    suite and case, as C keeps them. *)

(** <source-name> of the ABI. *)
Definition source_name (s : string) : string := to_string (Z.of_nat (String.length s)) +:+ s.

(** [void scope::...::suite_case_Test::TestBody()] *)
Definition mangled_TestBody (scopes : list string) (suite case : string) : string :=
  "_ZN" +:+ String.concat "" (map source_name (scopes ++ [suite +:+ "_" +:+ case +:+ "_Test"; "TestBody"])) +:+ "E" +:+ "v".

Record TestCase := mkTestCase {
  tc_scopes : list string;
  tc_suite : string;
  tc_case : string;
  tc_body : FnId
}.

(** The global variable of a string literal. *)
Definition literal (u : Unit) (name text : string) : Prop :=
  (forall before, text <> before +:+ String nul "") /\
  exists g, g ∈ u_globals u /\ gv_name g = name /\ gv_initializer g = Some (ConstantDataArray (text +:+ String nul "")).

(** The type of the variables, with what LLVM appends to the names of types that
    two modules share. *)
Definition TestInfo_pointer (suffix : string) : IRType := PointerTo (StructType (Some ("class.testing::TestInfo" +:+ suffix))).

(** The variable [g] is the one of the test.  Of the functions whose name holds
    [suite_case_Test8TestBodyEv] the body comes first. *)
Definition declares_test (u : Unit) (g : GlobalVariable) (t : TestCase) : Prop :=
  (exists suffix, gv_valueType g = TestInfo_pointer suffix) /\
  (exists earlier suiteName indices caseName indices' arguments later,
     gv_users g = earlier ++ StoreInst (Some (ConstantExpr (ConstantGlobal suiteName :: indices) ::
       ConstantExpr (ConstantGlobal caseName :: indices') :: arguments)) :: later /\
     Forall (fun user => user = OtherUser) earlier /\
     literal u suiteName (tc_suite t) /\ literal u caseName (tc_case t)) /\
  (exists earlier body later,
     mod_functions (u_module u) = earlier ++ body :: later /\ fn_id body = tc_body t /\
     fn_name body = mangled_TestBody (tc_scopes t) (tc_suite t) (tc_case t) /\
     forall f before after, f ∈ earlier ->
       fn_name f <> before +:+ (tc_suite t +:+ "_" +:+ tc_case t +:+ "_Test8TestBodyEv") +:+ after).

(** The variable is of another type, not one of a struct without a name. *)
Definition declares_nothing (g : GlobalVariable) : Prop :=
  match gv_valueType g with
  | PointerTo (StructType name) => exists n, name = Some n /\ forall suffix, n <> "class.testing::TestInfo" +:+ suffix
  | _ => True
  end.

(** The tests of the variables of a module, in order. *)
Inductive declared_tests (u : Unit) : list GlobalVariable -> list TestCase -> Prop :=
  | declared_none : declared_tests u [] []
  | declared_other g globals tests :
      declares_nothing g -> declared_tests u globals tests -> declared_tests u (g :: globals) tests
  | declared_test g globals t tests :
      declares_test u g t -> declared_tests u globals tests -> declared_tests u (g :: globals) (t :: tests).

Definition test_of (t : TestCase) : Test :=
  newTest (tc_suite t +:+ "." +:+ tc_case t) "mull" "main" ["--gtest_filter=" +:+ tc_suite t +:+ "." +:+ tc_case t] (Some (tc_body t)).

(** *** The finder reads them back *)
Lemma rtrim_nul_snoc s : rtrim_nul (s +:+ String nul "") = rtrim_nul s.
Proof. induction s as [|c s IH]; [done|]. change (rtrim_nul (String c (s +:+ String nul "")) = rtrim_nul (String c s)). cbn. by rewrite IH. Qed.

Lemma rtrim_nul_id s : (forall before, s <> before +:+ String nul "") -> rtrim_nul s = s.
Proof.
  induction s as [|c s IH]; intros Hend; [done|]. cbn. rewrite IH by (intros before ->; by apply (Hend (String c before))).
  destruct s; [|done]. destruct (Ascii.eqb_spec c nul) as [->|]; [|done]. by destruct (Hend "").
Qed.

Lemma name_bytes_literal u name text :
  NoDup (map gv_name (u_globals u)) -> literal u name text -> name_bytes u (ConstantGlobal name) = Ok text.
Proof.
  intros Hnd (Hend & g & Hg & <- & Hinit). cbn [name_bytes].
  destruct (find_first (fun g' => String.eqb (gv_name g') (gv_name g)) (u_globals u)) as [g'|] eqn:E.
  - apply find_first_Some in E as [Hg' Heq]. bool_to_prop. assert (g' = g) as ->.
    { apply list_elem_of_lookup in Hg as [i Hi], Hg' as [j Hj]. assert (j = i) as ->; [|congruence].
      apply (NoDup_lookup _ j i (gv_name g) Hnd); rewrite list_lookup_fmap; [by rewrite Hj, <-Heq|by rewrite Hi]. }
    cbn [of_option mbind outcome_bind]. rewrite Hinit. cbn. by rewrite rtrim_nul_snoc, rtrim_nul_id.
  - pose proof (proj1 (find_first_None _ _) E g Hg) as Hn. cbn beta in Hn. by rewrite String.eqb_refl in Hn.
Qed.

Lemma find_first_split {A} (p : A -> bool) l1 x l2 :
  (forall y, y ∈ l1 -> p y = false) -> p x = true -> find_first p (l1 ++ x :: l2) = Some x.
Proof.
  intros Hl Hx. induction l1 as [|y l1 IH]; cbn; [by rewrite Hx|].
  rewrite Hl by (by left). apply IH. intros z Hz. apply Hl. by right.
Qed.

Lemma registered_names_declared u g earlier suiteName indices caseName indices' arguments later suite case :
  NoDup (map gv_name (u_globals u)) ->
  gv_users g = earlier ++ StoreInst (Some (ConstantExpr (ConstantGlobal suiteName :: indices) ::
    ConstantExpr (ConstantGlobal caseName :: indices') :: arguments)) :: later ->
  Forall (fun user => user = OtherUser) earlier -> literal u suiteName suite -> literal u caseName case ->
  registered_names u g = Ok (suite, case).
Proof.
  intros Hnd Husers Hother Hsuite Hcase. unfold registered_names. rewrite Husers, find_first_split; [| |done].
  - cbn [of_option mbind outcome_bind mret outcome_ret]. cbn [lookup list_lookup expr_operand of_option mbind outcome_bind].
    by rewrite (name_bytes_literal _ _ _ Hnd Hsuite), (name_bytes_literal _ _ _ Hnd Hcase).
  - intros user Huser. rewrite Forall_forall in Hother. by rewrite (Hother user Huser).
Qed.

(** The mangled name ends in what the finder looks for. *)
Lemma mangled_scopes scopes cls :
  exists prefix, String.concat "" (map source_name (scopes ++ [cls; "TestBody"])) = prefix +:+ source_name cls +:+ "8TestBody".
Proof.
  induction scopes as [|scope scopes [prefix IH]].
  - exists "". cbn [app map]. by rewrite string_concat_cons.
  - exists (source_name scope +:+ prefix). cbn [app map]. rewrite string_concat_cons, IH. by rewrite !string_app_assoc.
Qed.

Lemma mangled_contains scopes suite case : contains (testBodyFunctionName suite case) (mangled_TestBody scopes suite case) = true.
Proof.
  apply contains_spec. unfold mangled_TestBody, testBodyFunctionName.
  destruct (mangled_scopes scopes (suite +:+ "_" +:+ case +:+ "_Test")) as [prefix ->].
  exists ("_ZN" +:+ prefix +:+ to_string (Z.of_nat (String.length (suite +:+ "_" +:+ case +:+ "_Test")))), "".
  unfold source_name. by rewrite !string_app_assoc.
Qed.

Lemma find_body_declared u suite case scopes earlier body later :
  mod_functions (u_module u) = earlier ++ body :: later -> fn_name body = mangled_TestBody scopes suite case ->
  (forall f before after, f ∈ earlier -> fn_name f <> before +:+ (suite +:+ "_" +:+ case +:+ "_Test8TestBodyEv") +:+ after) ->
  find_body u suite case = Some body.
Proof.
  intros Hfs Hname Hearlier. unfold find_body. rewrite Hfs. apply find_first_split.
  - intros f Hf. apply not_true_iff_false. intros (before & after & Heq)%contains_spec. by apply (Hearlier f before after).
  - rewrite Hname. apply mangled_contains.
Qed.

Lemma google_test_declared u g t :
  NoDup (map gv_name (u_globals u)) -> declares_test u g t -> google_test u g = Ok [test_of t].
Proof.
  intros Hnd ([suffix Htype] & (earlier & suiteName & indices & caseName & indices' & arguments & later & Husers & Hother & Hsuite & Hcase) &
    before & body & after & Hfs & Hid & Hname & Hfirst).
  unfold google_test, is_test_info. rewrite Htype. cbn [TestInfo_pointer of_option mbind outcome_bind mret outcome_ret].
  rewrite (proj2 (prefix_spec _ _)) by (by exists suffix). cbn [negb].
  rewrite (registered_names_declared _ _ _ _ _ _ _ _ _ _ _ Hnd Husers Hother Hsuite Hcase). cbn [mbind outcome_bind].
  rewrite (find_body_declared _ _ _ _ _ _ _ Hfs Hname Hfirst). cbn [of_option mbind outcome_bind mret outcome_ret]. by rewrite Hid.
Qed.

Lemma google_test_other u g : declares_nothing g -> google_test u g = Ok [].
Proof.
  unfold declares_nothing, google_test, is_test_info. destruct (gv_valueType g) as [[| name |]| |]; try done.
  intros (n & -> & Hn). cbn [of_option mbind outcome_bind mret outcome_ret].
  destruct (String.prefix _ n) eqn:E; [|done]. apply prefix_spec in E as [suffix ->]. by destruct (Hn suffix).
Qed.

Lemma google_tests_declared u globals tests acc :
  NoDup (map gv_name (u_globals u)) -> declared_tests u globals tests ->
  fold_outcome (fun tests g => found ← google_test u g; mret (tests ++ found)) acc globals = Ok (acc ++ map test_of tests).
Proof.
  intros Hnd Hd. revert acc. induction Hd as [|g globals tests Hg _ IH|g globals t tests Hg _ IH]; intros acc; cbn [fold_outcome].
  - by rewrite app_nil_r.
  - rewrite (google_test_other _ _ Hg). cbn [mbind outcome_bind mret outcome_ret]. by rewrite app_nil_r, IH.
  - rewrite (google_test_declared _ _ _ Hnd Hg). cbn [mbind outcome_bind mret outcome_ret]. by rewrite IH, <-app_assoc.
Qed.

(** C33: GoogleTest's finder reads back what the macros wrote.  Of a program whose
    modules have global variables of distinct names, among them one set by
    [MakeAndRegisterTestInfo] for each test, whatever else uses it, the finder
    returns one test per variable, in the order of the modules and of their
    variables: it is called [suite.case], selected by that name, and its body is
    the method [TestBody] of the test's class.  No assertion fails.  The method
    must be the first function of its module whose name holds
    [suite_case_Test8TestBodyEv], as the one of a longer suite does too. *)
Theorem GoogleTestFinder_finds program (tests : Unit -> list TestCase) :
  (forall u, u ∈ _bitcode program -> NoDup (map gv_name (u_globals u)) /\ declared_tests u (u_globals u) (tests u)) ->
  GoogleTestFinder_findTests program = Ok (map test_of (concat (map tests (_bitcode program)))).
Proof.
  intros Hall. unfold GoogleTestFinder_findTests.
  rewrite (collect_Ok _ (fun u => map test_of (tests u))).
  - f_equal. rewrite concat_map, map_map. done.
  - intros u Hu. destruct (Hall u Hu) as [Hnd Hd]. unfold collect. by rewrite (google_tests_declared _ _ _ [] Hnd Hd).
Qed.

(** *** A module with the test [Sum] of the suites [Foo] and [AFoo] *)
Definition name_global (name text : string) : GlobalVariable :=
  mkGlobal name OtherType true (Some (ConstantDataArray (text +:+ String nul ""))) [].

Definition info_global (name suite case : string) : GlobalVariable :=
  mkGlobal name (PointerTo (StructType (Some "class.testing::TestInfo.25"))) false (Some NullValue)
    [OtherUser; StoreInst (Some [ConstantExpr [ConstantGlobal suite]; ConstantExpr [ConstantGlobal case]; NullValue])].

Definition sample_body_of (id : FnId) (name : string) : Function :=
  mkFunction id name [mkBasicBlock 0 [mkInstruction 0 Ret None]] None.

Definition sample_unit_of (functions : list Function) : Unit :=
  mkUnit (mkModule "tests.bc" "tests.cpp" functions)
    [] [name_global ".str" "AFoo"; name_global ".str.1" "Sum"; name_global ".str.2" "Foo";
        info_global "_ZN2ns13AFoo_Sum_Test10test_info_E" ".str" ".str.1";
        info_global "_ZN12Foo_Sum_Test10test_info_E" ".str.2" ".str.1"].

Definition sample_unit : Unit :=
  sample_unit_of [sample_body_of 2 "_ZN12Foo_Sum_Test8TestBodyEv"; sample_body_of 1 "_ZN2ns13AFoo_Sum_Test8TestBodyEv"].

Definition sample_program : Program := mkProgram [] [] [sample_unit].

Definition sample_test_cases : list TestCase := [mkTestCase ["ns"] "AFoo" "Sum" 1; mkTestCase [] "Foo" "Sum" 2].

Lemma sample_literal name text :
  (name, text) ∈ [(".str", "AFoo"); (".str.1", "Sum"); (".str.2", "Foo")] -> literal sample_unit name text.
Proof.
  intros Hin. split.
  - intros before ->. assert (Hall : forallb (fun x => ends_with (fun c => negb (Ascii.eqb c nul)) x.2)
      [(".str", "AFoo"); (".str.1", "Sum"); (".str.2", "Foo")] = true) by reflexivity.
    rewrite forallb_elem in Hall. specialize (Hall _ Hin). cbn [snd] in Hall. clear Hin.
    assert (Hn : ends_with (fun c => negb (Ascii.eqb c nul)) (before +:+ String nul "") = false); [|congruence].
    clear. induction before as [|c [|c' before] IH]; [done|done|exact IH].
  - exists (name_global name text). split; [|done].
    apply elem_of_cons in Hin as [[= -> ->]|Hin]; [left|]. apply elem_of_cons in Hin as [[= -> ->]|Hin]; [right; left|].
    apply list_elem_of_singleton in Hin as [= -> ->]. right. right. left.
Defined.

Lemma sample_declared : declared_tests sample_unit (u_globals sample_unit) sample_test_cases.
Proof.
  do 3 (apply declared_other; [exact I|]).
  apply declared_test; [|apply declared_test; [|constructor]]; (split; [by exists ".25"|]; split).
  - exists [OtherUser], ".str", [], ".str.1", [], [NullValue], []. split; [reflexivity|]. split; [by constructor|].
    split; apply sample_literal; first [by left|by right; left|by right; right; left].
  - exists [sample_body_of 2 "_ZN12Foo_Sum_Test8TestBodyEv"], (sample_body_of 1 "_ZN2ns13AFoo_Sum_Test8TestBodyEv"), [].
    split; [reflexivity|]. split; [reflexivity|]. split; [vm_compute; reflexivity|].
    intros f before after ->%list_elem_of_singleton Heq.
    assert (Hc : contains "AFoo_Sum_Test8TestBodyEv" "_ZN12Foo_Sum_Test8TestBodyEv" = true) by (apply contains_spec; by exists before, after).
    vm_compute in Hc. discriminate Hc.
  - exists [OtherUser], ".str.2", [], ".str.1", [], [NullValue], []. split; [reflexivity|]. split; [by constructor|].
    split; apply sample_literal; first [by left|by right; left|by right; right; left].
  - exists [], (sample_body_of 2 "_ZN12Foo_Sum_Test8TestBodyEv"), [sample_body_of 1 "_ZN2ns13AFoo_Sum_Test8TestBodyEv"].
    split; [reflexivity|]. split; [reflexivity|]. split; [vm_compute; reflexivity|].
    intros f before after Hf. by apply not_elem_of_nil in Hf.
Defined.

Lemma GoogleTestFinder_finds_witness :
  GoogleTestFinder_findTests sample_program =
  Ok [newTest "AFoo.Sum" "mull" "main" ["--gtest_filter=AFoo.Sum"] (Some 1);
      newTest "Foo.Sum" "mull" "main" ["--gtest_filter=Foo.Sum"] (Some 2)].
Proof.
  apply (GoogleTestFinder_finds sample_program (fun _ => sample_test_cases)).
  intros u ->%list_elem_of_singleton. split; [|exact sample_declared]. apply (bool_decide_unpack _). vm_compute. exact I.
Defined.

(** With the functions in the other order the body of [Foo.Sum] is taken to be
    that of [AFoo.Sum]. *)
Example nested_names :
  GoogleTestFinder_findTests (mkProgram [] [] [sample_unit_of
    [sample_body_of 1 "_ZN2ns13AFoo_Sum_Test8TestBodyEv"; sample_body_of 2 "_ZN12Foo_Sum_Test8TestBodyEv"]]) =
  Ok [newTest "AFoo.Sum" "mull" "main" ["--gtest_filter=AFoo.Sum"] (Some 1);
      newTest "Foo.Sum" "mull" "main" ["--gtest_filter=Foo.Sum"] (Some 1)].
Proof. reflexivity. Qed.

(** The framework options name exactly the frameworks that can be made. *)
Lemma createTestFramework_options name configuration :
  is_ok (createTestFramework name configuration) = true <-> name ∈ map fst testFramework_commandLineOptions.
Proof.
  unfold createTestFramework. cbn [map fst testFramework_commandLineOptions]. rewrite !elem_of_cons, elem_of_nil.
  destruct (String.eqb_spec name "GoogleTest"), (String.eqb_spec name "SimpleTest"), (String.eqb_spec name "CustomTest");
    cbn; split; intros; auto; try done; intuition congruence.
Qed.
