(* ===== verification/Toolchain.v ===== *)
(** * The toolchain (lib/Toolchain, lib/Parallelization/Tasks/*CompilationTask.cpp,
    lib/TestFrameworks/NativeTestRunner.cpp)

    Bitcode is compiled to object files, which a cache on disk keeps under names
    made from the bitcode; object files are loaded by the JIT, whose symbols are
    found by a resolver; a test runs on what was loaded.  The compiler, the
    loader and the format of object files are LLVM's: parameters. *)

From stdpp Require Import base list strings gmap.
From Stdlib Require Import ZArith Lia Bool Ascii.
From S2P Require Import Prelude StdContainers StringFacts Diagnostics IR SourceLocation Samples MutationPoint Reachable.
From S2P Require Import CallTree Instrumentation Bitcode MutantExecution.

(** ** ObjectCache *)

(** LLVM's object files: what is written to disk, and reading it back. *)
Class ObjectFormat := {
  ObjectFile : Type;
  object_bytes : ObjectFile -> string;
  createObjectFile : string -> option ObjectFile;
  object_roundtrip o : createObjectFile (object_bytes o) = Some o
}.

(** Paths to contents. *)
Abbreviation Disk := (gmap string string).

Record ObjectCache := mkObjectCache {
  useOnDiskCache : bool;
  cacheDirectory : string
}.

(** The message of the failure to create the directory, if any. *)
Definition newObjectCache (useCache : bool) (cacheDir : string) (create_directories : string -> option string) : D ObjectCache :=
  if useCache then
    match create_directories cacheDir with
    | Some message =>
        _ ← warning ("Cache directory '" +:+ cacheDir +:+ "' is not accessible" +:+ eol +:+
                     "Underlying issue:" +:+ eol +:+ message +:+ eol +:+ "falling back to in-memory cache");
        mret (mkObjectCache false cacheDir)
    | None => mret (mkObjectCache true cacheDir)
    end
  else mret (mkObjectCache false cacheDir).

Section Cache.
Context `{ObjectFormat} (cache : ObjectCache).

Definition cacheName (identifier : string) : string := cacheDirectory cache +:+ "/" +:+ identifier +:+ ".o".

(** An object file without a binary stands for nothing. *)
Definition getObjectFromDisk (disk : Disk) (identifier : string) : option ObjectFile :=
  if negb (useOnDiskCache cache) then None
  else disk !! cacheName identifier ≫= createObjectFile.

Definition putObjectOnDisk (object : ObjectFile) (identifier : string) (disk : Disk) : Disk :=
  if negb (useOnDiskCache cache) then disk else <[cacheName identifier := object_bytes object]> disk.
End Cache.

(** ** The compilation tasks *)
Section Compilation.
Context `{ObjectFormat, Hasher} (cache : ObjectCache) (compile : Module -> ObjectFile).

(** A task's loop: the object of one bitcode, from the cache or compiled. *)
Definition compile_step (st : Disk * list ObjectFile) (identifier : string) (fresh : outcome ObjectFile)
    : outcome (Disk * list ObjectFile) :=
  let '(disk, storage) := st in
  match getObjectFromDisk cache disk identifier with
  | Some objectFile => mret (disk, storage ++ [objectFile])
  | None =>
      objectFile ← fresh;
      mret (putObjectOnDisk cache objectFile identifier disk, storage ++ [objectFile])
  end.

(** [clone] parses the file again; a module that cannot be is an error. *)
Definition InstrumentedCompilationTask (clone : Bitcode -> outcome Module) (st : Disk * list ObjectFile) (batch : list Bitcode)
    : outcome (Disk * list ObjectFile) :=
  fold_outcome (fun st bitcode =>
    compile_step st (getInstrumentedUniqueIdentifier bitcode)
      (module ← clone bitcode; mret (compile (insertCallbacks module)))) st batch.

Definition OriginalCompilationTask (store : Store) (st : Disk * list ObjectFile) (batch : list Bitcode)
    : outcome (Disk * list ObjectFile) :=
  fold_outcome (fun st bitcode =>
    identifier ← getMutatedUniqueIdentifier store bitcode;
    compile_step st identifier (mret (compile (bc_module bitcode)))) st batch.
End Compilation.

(** ** CXXRuntimeOverrides *)
Record CXXRuntimeOverrides := mkOverrides {
  overrides : list (string * Z);
  (** destructors and their arguments, as addresses *)
  DSOHandleOverride : list (Z * Z)
}.

Definition newCXXRuntimeOverrides `{Mangler} (handle_address atexit_address : Z) : CXXRuntimeOverrides :=
  mkOverrides (omap_insert (getNameWithPrefix "__cxa_atexit") atexit_address
    (omap_insert (getNameWithPrefix "__dso_handle") handle_address [])) [].

Definition CXAAtExitOverride (o : CXXRuntimeOverrides) (destructor arg : Z) : CXXRuntimeOverrides :=
  mkOverrides (overrides o) (DSOHandleOverride o ++ [(destructor, arg)]).

(** The calls made, in order. *)
Definition runDestructors (o : CXXRuntimeOverrides) : list (Z * Z) * CXXRuntimeOverrides :=
  (DSOHandleOverride o, mkOverrides (overrides o) []).

Definition searchOverrides (o : CXXRuntimeOverrides) (name : string) : option Z := omap_find name (overrides o).

(** ** The resolvers *)

(** [getSymbolAddressInProcess]: 0 when there is none. *)
Section Resolvers.
Context `{Mangler} (process : string -> Z) (o : CXXRuntimeOverrides).

(** The addresses of the overridden symbols and of the process come first. *)
Definition resolve_first (name : string) (rest : Z) : Z :=
  match searchOverrides o name with
  | Some address => address
  | None => if negb (Z.eqb (process name) 0) then process name else rest
  end.

(** [name.substr(n)] throws past the end. *)
Definition substr_from (n : nat) (name : string) : outcome string :=
  if Nat.leb n (String.length name) then mret (String.substring n (String.length name - n) name) else Abort "std::out_of_range".

(** What a symbol leads to: code or data at an address, the cell of an offset of
    the instrumentation, or nothing. *)
Inductive Resolved :=
  | AtAddress (address : Z)
  | TestInfo
  | FunctionOffset (moduleName : string)
  | NotFound.

(** [&mapping[moduleName]] creates the cell, with 0, when there is none. *)
Definition InstrumentationResolver_findSymbol (instr : Instrumentation) (name : string)
    : outcome (Resolved * Instrumentation) :=
  match searchOverrides o name with
  | Some address => mret (AtAddress address, instr)
  | None =>
      if negb (Z.eqb (process name) 0) then mret (AtAddress (process name), instr)
      else if String.eqb name (getNameWithPrefix instrumentationInfoVariableName) then mret (TestInfo, instr)
      else
        let prefix := getNameWithPrefix functionIndexOffsetPrefix in
        if contains prefix name then
          moduleName ← substr_from (String.length prefix) name;
          mret (FunctionOffset moduleName,
                mkInstrumentation (instr_functions instr) (omap_insert moduleName 0%Z (functionOffsetMapping instr)))
        else mret (NotFound, instr)
  end.

Definition MutationResolver_findSymbol (trampolines : Trampolines) (cell_address : Pointer -> Z) (name : string) : Z :=
  resolve_first name
    match findTrampoline trampolines name with
    | Some trampoline => cell_address trampoline
    | None => 0%Z
    end.
End Resolvers.

(** ** JITEngine *)

(** A symbol of an object file; its name may be unreadable. *)
Record Symbol := mkSymbol {
  symbol_name : option string;
  SF_Undefined : bool;
  SF_Weak : bool
}.

Definition symbol_step (st : gset string * list string) (symbol : Symbol) : gset string * list string :=
  let '(unresolvedSymbols, symbols) := st in
  match symbol_name symbol with
  | None => st
  | Some name =>
      if SF_Undefined symbol then
        ((if SF_Weak symbol then unresolvedSymbols else {[ name ]} ∪ unresolvedSymbols), symbols)
      else (unresolvedSymbols ∖ {[ name ]}, symbols ++ [name])
  end.

Definition collect_symbols (files : list (list Symbol)) : gset string * list string :=
  foldl (fun st object => foldl symbol_step st object) (∅, []) files.

(** [loader] is [RuntimeDyld::getSymbol] once the objects are loaded, [resolver]
    the resolver's answer; both 0 for an unknown symbol. *)
Section Loading.
Context (loader resolver : string -> Z).

Definition unresolved (files : list (list Symbol)) : list string :=
  List.filter (fun name => Z.eqb (loader name) 0 && Z.eqb (resolver name) 0) (elements (collect_symbols files).1).

Definition unresolved_message (names : list string) : string :=
  "JIT engine could not resolve the following symbols:" +:+ eol +:+
  String.concat "" (map (fun name => name +:+ eol) names).

Definition addObjectFiles (files : list (list Symbol)) : D JITEngine :=
  let symbols := (collect_symbols files).2 in
  let jit := mkJIT (list_to_map (map (fun name => (name, loader name)) symbols)) in
  match unresolved files with
  | [] => mret jit
  | names => _ ← warning (unresolved_message names); mret jit
  end.
End Loading.

(** ** NativeTestRunner *)
Inductive NativeCall :=
  | CallConstructor (address : Z)
  | CallMain (address : Z) (argc : Z) (argv : list string)
  | CallDestructor (destructor arg : Z).

Section Runner.
Context `{Mangler} (jit : JITEngine).

Definition getFunctionPointer (functionName : string) : D Z :=
  let pointer := getSymbol jit functionName in
  if Z.eqb pointer 0 then error ("Can not find a pointer to the function: " +:+ functionName) else mret pointer.

(** The strings [main] gets: the program name, then the arguments, as C strings. *)
Definition argv_of (test : Test) : list string := map c_string (programName test :: arguments test).

(** [call_main] is the exit status of the driver function, and the overrides
    after it and the constructors have run. *)
Definition runTest (constructors : list string) (test : Test)
    (call_main : Z -> list string -> Z * CXXRuntimeOverrides)
    : D (ExecutionStatus * list NativeCall * CXXRuntimeOverrides) :=
  calls ← d_fold (fun calls name =>
    address ← getFunctionPointer (getNameWithPrefix name); mret (calls ++ [CallConstructor address])) [] constructors;
  mainPointer ← getFunctionPointer (getNameWithPrefix (driverFunctionName test));
  let argv := argv_of test in
  let '(exitStatus, o) := call_main mainPointer argv in
  let '(destructors, o) := runDestructors o in
  mret (if Z.eqb exitStatus 0 then Passed else Failed,
        calls ++ [CallMain mainPointer (Z.of_nat (length argv)) argv] ++ map (fun p => CallDestructor p.1 p.2) destructors, o).
End Runner.

(** ** The cache *)
Section CacheFacts.
Context `{ObjectFormat} (cache : ObjectCache).

Lemma cacheName_inj id1 id2 : cacheName cache id1 = cacheName cache id2 -> id1 = id2.
Proof. unfold cacheName. rewrite <-!string_app_assoc. intros Heq%string_app_inj_r. by apply string_app_inj_l in Heq. Qed.

(** What the disk holds under these identifiers is what it should be. *)
Definition cache_sound (object_of : string -> ObjectFile) (identifiers : list string) (disk : Disk) : Prop :=
  forall id content o, id ∈ identifiers -> disk !! cacheName cache id = Some content -> createObjectFile content = Some o ->
    o = object_of id.

Context (object_of : string -> ObjectFile) (identifiers : list string).

Lemma get_sound disk id o :
  cache_sound object_of identifiers disk -> id ∈ identifiers -> getObjectFromDisk cache disk id = Some o -> o = object_of id.
Proof.
  intros Hs Hid. unfold getObjectFromDisk. destruct (useOnDiskCache cache); [|done]. cbn [negb].
  destruct (disk !! cacheName cache id) as [content|] eqn:E; [|done]. cbn [mbind option_bind]. by apply (Hs id content).
Qed.

Lemma put_get disk id o :
  useOnDiskCache cache = true -> getObjectFromDisk cache (putObjectOnDisk cache o id disk) id = Some o.
Proof.
  intros Hu. unfold getObjectFromDisk, putObjectOnDisk. rewrite Hu. cbn [negb]. rewrite lookup_insert_eq. cbn. apply object_roundtrip.
Qed.

Lemma put_get_ne disk id id' o :
  id <> id' -> getObjectFromDisk cache (putObjectOnDisk cache o id disk) id' = getObjectFromDisk cache disk id'.
Proof.
  intros Hne. unfold getObjectFromDisk, putObjectOnDisk. destruct (useOnDiskCache cache); [|done]. cbn [negb].
  rewrite lookup_insert_ne; [done|]. by intros Heq%cacheName_inj.
Qed.

Lemma put_sound disk id :
  cache_sound object_of identifiers disk -> cache_sound object_of identifiers (putObjectOnDisk cache (object_of id) id disk).
Proof.
  intros Hs id' content o Hid'. unfold putObjectOnDisk. destruct (useOnDiskCache cache); cbn [negb]; [|by apply Hs].
  destruct (decide (id = id')) as [<-|Hne].
  - rewrite lookup_insert_eq. intros [= <-]. rewrite object_roundtrip. by intros [= <-].
  - rewrite lookup_insert_ne; [by apply Hs|]. by intros Heq%cacheName_inj.
Qed.

(** The disk after some objects were asked for: sound, and when the cache is in
    use it has them all; otherwise it is as it was. *)
Definition disk_after (disk disk' : Disk) (asked : list string) : Prop :=
  cache_sound object_of identifiers disk' /\
  (useOnDiskCache cache = true -> forall id, id ∈ asked -> getObjectFromDisk cache disk' id = Some (object_of id)) /\
  (useOnDiskCache cache = false -> disk' = disk).

Lemma compile_step_sound start disk storage asked id :
  disk_after start disk asked -> id ∈ identifiers ->
  exists disk', compile_step cache (disk, storage) id (Ok (object_of id)) = Ok (disk', storage ++ [object_of id]) /\
    disk_after start disk' (asked ++ [id]).
Proof.
  intros (Hs & Hall & Hoff) Hid. unfold compile_step.
  destruct (getObjectFromDisk cache disk id) as [o|] eqn:Hget.
  - pose proof (get_sound _ _ _ Hs Hid Hget) as ->. exists disk. split; [done|]. split; [done|]. split; [|done].
    intros Hu id' [Hin| ->%list_elem_of_singleton]%elem_of_app; [by apply Hall|done].
  - cbn [mbind outcome_bind]. eexists. split; [reflexivity|]. split; [by apply put_sound|]. split.
    + intros Hu id' [Hin| ->%list_elem_of_singleton]%elem_of_app; [|by apply put_get].
      destruct (decide (id = id')) as [<-|Hne]; [by apply put_get|]. rewrite put_get_ne by done. by apply Hall.
    + intros Hu. unfold putObjectOnDisk. rewrite Hu. cbn. by apply Hoff.
Qed.

Lemma compile_loop {A} (key : A -> string) (run : Disk * list ObjectFile -> A -> outcome (Disk * list ObjectFile)) batch disk storage :
  (forall a, a ∈ batch -> key a ∈ identifiers) ->
  (forall a st, a ∈ batch -> run st a = compile_step cache st (key a) (Ok (object_of (key a)))) ->
  cache_sound object_of identifiers disk ->
  exists disk', fold_outcome run (disk, storage) batch = Ok (disk', storage ++ map (fun a => object_of (key a)) batch) /\
    disk_after disk disk' (map key batch).
Proof.
  intros Hkeys Hrun Hs.
  destruct (fold_outcome_progress (fun dn st =>
    snd st = storage ++ map (fun a => object_of (key a)) dn /\ disk_after disk (fst st) (map key dn)) run batch (disk, storage))
    as ([disk' storage'] & Hfold & Hst & Hdisk).
  - split; [by rewrite app_nil_r|]. split; [done|]. split; [|done]. by intros _ id ?%not_elem_of_nil.
  - intros dn a rest [d s] Hsplit [Hst Hd]. cbn [fst snd] in *. subst s.
    assert (Ha : a ∈ batch) by (rewrite Hsplit; apply elem_of_app; right; by left).
    destruct (compile_step_sound disk d (storage ++ map (fun a => object_of (key a)) dn) (map key dn) (key a) Hd (Hkeys a Ha))
      as (d' & Hstep & Hd').
    exists (d', (storage ++ map (fun a => object_of (key a)) dn) ++ [object_of (key a)]). rewrite Hrun by done. split; [done|].
    cbn [fst snd]. rewrite !map_app. cbn [map]. by rewrite <-app_assoc.
  - cbn [fst snd] in *. subst storage'. by exists disk'.
Qed.
End CacheFacts.

(** C30: the object cache is transparent: whether it is in use or not, and whatever
    it holds of earlier runs as long as that is the object its name stands for, the
    two compilation tasks give for every bitcode file the object that compiling it
    (with the callbacks inserted, or with its mutants) gives.  Afterwards the cache
    has them all; when it is not in use nothing is written. *)
Theorem compilation_cached `{ObjectFormat, Hasher} cache compile clone module_of key_of object_of batch store disk storage :
  let instrumented b := getInstrumentedUniqueIdentifier b in
  (forall b, b ∈ batch -> clone b = Ok (module_of b) /\ object_of (instrumented b) = compile (insertCallbacks (module_of b))) ->
  (forall b, b ∈ batch -> getMutatedUniqueIdentifier store b = Ok (key_of b) /\ object_of (key_of b) = compile (bc_module b)) ->
  cache_sound cache object_of (map instrumented batch ++ map key_of batch) disk ->
  exists disk1 disk2,
    InstrumentedCompilationTask cache compile clone (disk, storage) batch =
      Ok (disk1, storage ++ map (fun b => compile (insertCallbacks (module_of b))) batch) /\
    OriginalCompilationTask cache compile store (disk1, storage) batch =
      Ok (disk2, storage ++ map (fun b => compile (bc_module b)) batch) /\
    (useOnDiskCache cache = true -> forall b, b ∈ batch ->
       getObjectFromDisk cache disk1 (instrumented b) = Some (compile (insertCallbacks (module_of b))) /\
       getObjectFromDisk cache disk2 (key_of b) = Some (compile (bc_module b))) /\
    (useOnDiskCache cache = false -> disk2 = disk).
Proof.
  intros instrumented Hinstr Horig Hs.
  assert (Hkey1 : forall b, b ∈ batch -> instrumented b ∈ map instrumented batch ++ map key_of batch).
  { intros b Hb. apply elem_of_app. left. by apply list_elem_of_fmap_2. }
  assert (Hkey2 : forall b, b ∈ batch -> key_of b ∈ map instrumented batch ++ map key_of batch).
  { intros b Hb. apply elem_of_app. right. by apply list_elem_of_fmap_2. }
  destruct (compile_loop cache object_of _ instrumented (fun st bitcode =>
      compile_step cache st (getInstrumentedUniqueIdentifier bitcode)
        (module ← clone bitcode; mret (compile (insertCallbacks module)))) batch disk storage Hkey1)
    as (disk1 & Hrun1 & Hs1 & Hall1 & Hoff1); [|done|].
  { intros b st Hb. destruct (Hinstr b Hb) as [-> Hobj]. cbn [mbind outcome_bind]. by rewrite Hobj. }
  destruct (compile_loop cache object_of _ key_of (fun st bitcode =>
      identifier ← getMutatedUniqueIdentifier store bitcode;
      compile_step cache st identifier (mret (compile (bc_module bitcode)))) batch disk1 storage Hkey2)
    as (disk2 & Hrun2 & _ & Hall2 & Hoff2); [|done|].
  { intros b st Hb. destruct (Horig b Hb) as [-> Hobj]. cbn [mbind outcome_bind]. by rewrite Hobj. }
  exists disk1, disk2. split; [|split; [|split]].
  - unfold InstrumentedCompilationTask. rewrite Hrun1. do 3 f_equal. apply map_ext_in. intros b Hb%list_elem_of_In. by apply Hinstr.
  - unfold OriginalCompilationTask. rewrite Hrun2. do 3 f_equal. apply map_ext_in. intros b Hb%list_elem_of_In. by apply Horig.
  - intros Hu b Hb. destruct (Hinstr b Hb) as [_ <-], (Horig b Hb) as [_ <-].
    split; [apply Hall1|apply Hall2]; try done; by apply list_elem_of_fmap_2.
  - intros Hu. by rewrite (Hoff2 Hu), (Hoff1 Hu).
Qed.

#[local] Program Instance text_objects : ObjectFormat := {|
  ObjectFile := string; object_bytes := fun o => o; createObjectFile := Some
|}.
Next Obligation. done. Defined.

Definition sample_compile (m : Module) : @ObjectFile text_objects := to_string (Z.of_nat (length (concat (map instructions (mod_functions m))))).

Definition sample_cache : ObjectCache := mkObjectCache true "/tmp/mull".

Definition sample_object_of (id : string) : @ObjectFile text_objects :=
  if String.eqb id (getInstrumentedUniqueIdentifier sample_bitcode_file) then sample_compile (insertCallbacks sample_module)
  else sample_compile sample_module.

Lemma compilation_cached_witness :
  exists disk1 disk2,
    InstrumentedCompilationTask sample_cache sample_compile (fun b => Ok (bc_module b)) (∅, []) [sample_bitcode_file] =
      Ok (disk1, [sample_compile (insertCallbacks sample_module)]) /\
    OriginalCompilationTask (H0:=concatenating_hasher) sample_cache sample_compile sample_store (disk1, []) [sample_bitcode_file] =
      Ok (disk2, [sample_compile sample_module]).
Proof.
  destruct (compilation_cached (H0:=concatenating_hasher) sample_cache sample_compile (fun b => Ok (bc_module b)) (fun b => bc_module b)
    (fun b => bitcode_uniqueIdentifier (bc_ptr b)) sample_object_of [sample_bitcode_file] sample_store ∅ [])
    as (disk1 & disk2 & H1 & H2 & _ & _).
  - intros b ->%list_elem_of_singleton. split; [reflexivity|vm_compute; reflexivity].
  - intros b ->%list_elem_of_singleton. split; [reflexivity|vm_compute; reflexivity].
  - intros id content o _ Hd. by rewrite lookup_empty in Hd.
  - exists disk1, disk2. split; [exact H1|exact H2].
Defined.

(** ** The offsets of the instrumentation *)

Lemma contains_prefix p s : contains p (p +:+ s) = true.
Proof.
  unfold contains. assert (Hi : String.index 0 p (p +:+ s) = Some 0).
  { destruct p as [|c p]; [by destruct s|].
    assert (Hp : forall q, String.prefix q (q +:+ s) = true).
    { induction q as [|x q IH]; [by destruct s|]. change (String x q +:+ s) with (String x (q +:+ s)). cbn [String.prefix]. by destruct (Ascii.ascii_dec x x). }
    specialize (Hp (String c p)). change (String c p +:+ s) with (String c (p +:+ s)) in *. cbn [String.index]. by rewrite Hp. }
  by rewrite Hi.
Qed.

Lemma substr_from_app p s : substr_from (String.length p) (p +:+ s) = Ok s.
Proof.
  unfold substr_from. rewrite string_length_app, (proj2 (Nat.leb_le _ _)) by lia. f_equal.
  replace (String.length p + String.length s - String.length p) with (String.length s) by lia.
  rewrite <-(string_app_nil_r (p +:+ s)), string_app_assoc.
  induction p as [|c p IH]; [exact (substring_app_l s "")|exact IH].
Qed.

Definition offset_symbol `{Mangler} (identifier : string) : string :=
  getNameWithPrefix (functionIndexOffsetPrefix +:+ identifier).

Lemma offset_symbol_split `{Mangler} identifier :
  offset_symbol identifier = getNameWithPrefix functionIndexOffsetPrefix +:+ identifier.
Proof. unfold offset_symbol. by rewrite !mangling_is_prefix, string_app_assoc. Qed.

Lemma offset_symbol_not_info `{Mangler} identifier :
  offset_symbol identifier <> getNameWithPrefix instrumentationInfoVariableName.
Proof. unfold offset_symbol. rewrite !mangling_is_prefix. by intros Heq%string_app_inj_l. Qed.

Lemma find_offset `{Mangler} process o instr identifier :
  searchOverrides o (offset_symbol identifier) = None -> process (offset_symbol identifier) = 0%Z ->
  InstrumentationResolver_findSymbol process o instr (offset_symbol identifier) =
  Ok (FunctionOffset identifier, mkInstrumentation (instr_functions instr) (omap_insert identifier 0%Z (functionOffsetMapping instr))).
Proof.
  intros Ho Hp. unfold InstrumentationResolver_findSymbol. rewrite Ho, Hp. cbn [Z.eqb negb].
  destruct (String.eqb_spec (offset_symbol identifier) (getNameWithPrefix instrumentationInfoVariableName)) as [Heq|_];
    [by apply offset_symbol_not_info in Heq|].
  rewrite offset_symbol_split, contains_prefix, substr_from_app. done.
Qed.

(** C31: the global an instrumented module reads its offset from is resolved to the
    offset recorded for that module, the place where its functions start in the
    table, whatever the target's mangling; looking it up changes nothing.  A
    module that was not recorded is not refused: it is given a new offset, 0.
    That happens to the objects of a bitcode file loaded from another directory,
    because the name they are cached under leaves out the directory that the
    name of the global contains. *)
Theorem offsets_resolved `{Mangler} process o pre m post :
  (forall id, searchOverrides o (offset_symbol id) = None /\ process (offset_symbol id) = 0%Z) ->
  mod_identifier m ∉ map mod_identifier post ->
  (let instr := record_all (pre ++ m :: post) in
   InstrumentationResolver_findSymbol process o instr (offset_symbol (mod_identifier m)) =
     Ok (FunctionOffset (mod_identifier m), instr) /\
   omap_find (mod_identifier m) (functionOffsetMapping instr) =
     Some (to_uint32 (Z.of_nat (S (length (concat (map defined_functions pre))))))) /\
  (forall instr id, omap_find id (functionOffsetMapping instr) = None ->
     exists instr', InstrumentationResolver_findSymbol process o instr (offset_symbol id) = Ok (FunctionOffset id, instr') /\
       omap_find id (functionOffsetMapping instr') = Some 0%Z) /\
  (forall id module1 module2, mod_identifier module1 <> mod_identifier module2 ->
     getInstrumentedUniqueIdentifier (mkBitcode id module1 []) = getInstrumentedUniqueIdentifier (mkBitcode id module2 []) /\
     injectFunctionIndexOffset module1 functionIndexOffsetPrefix <> injectFunctionIndexOffset module2 functionIndexOffsetPrefix).
Proof.
  intros Hfree Hpost. split; [|split].
  - cbn zeta. pose proof (record_all_offset pre m post Hpost) as Hoff. split; [|done].
    destruct (Hfree (mod_identifier m)) as [Ho Hp]. rewrite find_offset by done. do 2 f_equal.
    unfold omap_insert. rewrite Hoff. by destruct (record_all (pre ++ m :: post)).
  - intros instr id Hnone. destruct (Hfree id) as [Ho Hp]. rewrite find_offset by done. eexists. split; [reflexivity|].
    cbn [functionOffsetMapping]. by rewrite omap_find_insert, Hnone, String.eqb_refl.
  - intros id m1 m2 Hne. split; [done|]. intros [= Heq%string_app_inj_l]. done.
Qed.

Lemma offsets_resolved_witness :
  let instr := record_all [sample_module] in
  InstrumentationResolver_findSymbol (fun _ => 0%Z) (newCXXRuntimeOverrides 8 16) instr (offset_symbol "sum.bc") =
    Ok (FunctionOffset "sum.bc", instr).
Proof.
  apply (offsets_resolved (fun _ => 0%Z) (newCXXRuntimeOverrides 8 16) [] sample_module []).
  - intros id. split; [|done]. reflexivity.
  - by intros ?%not_elem_of_nil.
Defined.

(** ** The symbols of the JIT *)

Definition all_symbols (files : list (list Symbol)) : list Symbol := concat files.

Lemma collect_symbols_flat files : collect_symbols files = foldl symbol_step (∅, []) (all_symbols files).
Proof.
  unfold collect_symbols, all_symbols. generalize (∅ : gset string, [] : list string).
  induction files as [|f files IH]; intros st; [done|]. cbn [foldl concat]. by rewrite foldl_app, IH.
Qed.

(** A symbol defined, or referred to without being weak. *)
Definition defines (name : string) (s : Symbol) : Prop := symbol_name s = Some name /\ SF_Undefined s = false.
Definition requires (name : string) (s : Symbol) : Prop := symbol_name s = Some name /\ SF_Undefined s = true /\ SF_Weak s = false.

Lemma collected symbols :
  let st := foldl symbol_step (∅, []) symbols in
  (forall name, name ∈ st.2 <-> exists s, s ∈ symbols /\ defines name s) /\
  (forall name, name ∈ st.1 -> exists s, s ∈ symbols /\ requires name s) /\
  (forall name s, s ∈ symbols -> requires name s -> name ∈ st.1 \/ exists s', s' ∈ symbols /\ defines name s').
Proof.
  cbn zeta. induction symbols as [|s symbols IH] using rev_ind.
  { cbn. split; [intros name; split; [intros H; by apply not_elem_of_nil in H|intros (s & H & _); by apply not_elem_of_nil in H]|].
    split; [intros name; set_solver|]. intros name s H. by apply not_elem_of_nil in H. }
  rewrite foldl_snoc. destruct (foldl symbol_step (∅, []) symbols) as [U S]. destruct IH as (Hd & Hu & Hr). cbn [fst snd] in *.
  assert (Hlift : forall P : Symbol -> Prop, (exists x, x ∈ symbols ++ [s] /\ P x) <-> (exists x, x ∈ symbols /\ P x) \/ P s).
  { intros P. setoid_rewrite elem_of_app. setoid_rewrite list_elem_of_singleton. split.
    - intros (x & [Hx| ->] & HP); [left; by exists x|by right].
    - intros [(x & Hx & HP)|HP]; [exists x; auto|exists s; auto]. }
  assert (Hcase : forall name x, x ∈ symbols ++ [s] -> requires name x -> (exists x, x ∈ symbols /\ requires name x) \/ requires name s).
  { intros name x Hx Hreq. apply (Hlift (requires name)). by exists x. }
  setoid_rewrite Hlift. unfold symbol_step. destruct s as [[n|] [] weak]; cbn [symbol_name SF_Undefined SF_Weak fst snd].
  - split; [intros name; rewrite Hd; split; [by left|intros [?|[_ ?]]; [done|done]]|]. split.
    + intros name Hin. destruct weak; [left; by apply Hu|]. apply elem_of_union in Hin as [->%elem_of_singleton|Hin]; [right; done|left; by apply Hu].
    + intros name x Hx Hreq. destruct (Hcase name x Hx Hreq) as [(y & Hy & Hyr)|[[= ->] [_ Hw]]].
      * destruct (Hr name y Hy Hyr) as [?|?]; [left; destruct weak; set_solver|right; by left].
      * cbn in Hw. subst weak. left. set_solver.
  - split; [|split].
    + intros name. rewrite elem_of_app, list_elem_of_singleton, Hd. split; [intros [?| ->]; [by left|right; done]|].
      intros [?|[[= ->] _]]; [by left|by right].
    + intros name [Hin _]%elem_of_difference. left. by apply Hu.
    + intros name x Hx Hreq. destruct (Hcase name x Hx Hreq) as [(y & Hy & Hyr)|[_ [Hf _]]]; [|done].
      destruct (decide (name = n)) as [->|Hne]; [right; right; done|].
      destruct (Hr name y Hy Hyr) as [?|?]; [left; set_solver|right; by left].
  - split; [intros name; rewrite Hd; split; [by left|intros [?|[? _]]; done]|]. split; [intros name Hin; left; by apply Hu|].
    intros name x Hx Hreq. destruct (Hcase name x Hx Hreq) as [(y & Hy & Hyr)|[Hf _]]; [|done].
    destruct (Hr name y Hy Hyr) as [?|?]; [by left|right; by left].
  - split; [intros name; rewrite Hd; split; [by left|intros [?|[? _]]; done]|]. split; [intros name Hin; left; by apply Hu|].
    intros name x Hx Hreq. destruct (Hcase name x Hx Hreq) as [(y & Hy & Hyr)|[Hf _]]; [|done].
    destruct (Hr name y Hy Hyr) as [?|?]; [by left|right; by left].
Qed.

(** Loading the object files of a run: a symbol has an address exactly when
    some object defines it, the one the loader gave it, and otherwise 0; and when
    the loader knows what the objects define, the symbols the user is warned of are
    those some object needs, not weakly, and neither the loader nor the resolver
    knows, in whatever order the objects were given. *)
Theorem addObjectFiles_symbols loader resolver files d :
  strictModeEnabled d = false -> seenProgress d = false ->
  (forall s name, s ∈ all_symbols files -> defines name s -> loader name <> 0%Z) ->
  exists jit names,
    addObjectFiles loader resolver files d =
      (Ok jit, match names with [] => d | _ => logged d [LogWarn (unresolved_message names)] end) /\
    (forall name, getSymbol jit name =
       if existsb (fun s => bool_decide (symbol_name s = Some name) && negb (SF_Undefined s)) (all_symbols files)
       then loader name else 0%Z) /\
    forall name, name ∈ names <->
      (exists s, s ∈ all_symbols files /\ requires name s) /\ loader name = 0%Z /\ resolver name = 0%Z.
Proof.
  intros Hstrict Hseen Hdef. pose proof (collected (all_symbols files)) as (Hs & Hu & Hr).
  rewrite <-collect_symbols_flat in Hs, Hu, Hr.
  exists (mkJIT (list_to_map (map (fun name => (name, loader name)) (collect_symbols files).2))), (unresolved loader resolver files).
  split; [|split].
  - unfold addObjectFiles. destruct (unresolved loader resolver files); [done|]. by rewrite D_bind_run, warning_logged.
  - intros name. unfold getSymbol. cbn [symbolTable].
    assert (Hex : existsb (fun s => bool_decide (symbol_name s = Some name) && negb (SF_Undefined s)) (all_symbols files) = true <->
      name ∈ (collect_symbols files).2).
    { rewrite Hs, existsb_elem. split; intros (s & Hin & Hp); exists s; (split; [done|]).
      - apply andb_true_iff in Hp as [H1%bool_decide_eq_true H2%negb_true_iff]. done.
      - destruct Hp as [H1 H2]. rewrite H2, andb_true_r. by apply bool_decide_eq_true. }
    destruct (existsb _ _).
    + assert (Hm : forall l, name ∈ l -> (list_to_map (map (fun name => (name, loader name)) l) : gmap string Z) !! name = Some (loader name)).
      { induction l as [|x l IH]; [by intros ?%not_elem_of_nil|]. cbn [map list_to_map foldr]. intros [<-|Hin]%elem_of_cons;
          [by rewrite lookup_insert_eq|]. destruct (decide (x = name)) as [->|]; [by rewrite lookup_insert_eq|].
        cbn. rewrite lookup_insert_ne by done. by apply IH. }
      rewrite Hm by (by apply Hex). done.
    + rewrite not_elem_of_list_to_map_1; [done|]. rewrite map_map. cbn. rewrite map_id. intros Hin. by apply Hex in Hin.
  - intros name. unfold unresolved. rewrite list_elem_of_In, filter_In, <-list_elem_of_In, elem_of_elements, andb_true_iff, !Z.eqb_eq.
    split; [intros [Hin Hz]; split; [by apply Hu|done]|]. intros [(s & Hin & Hreq) Hz]. split; [|done].
    destruct (Hr name s Hin Hreq) as [?|(s' & Hin' & Hd)]; [done|]. exfalso. by apply (Hdef s' name Hin' Hd), Hz.
Qed.

(** One object defines what it needs first, another needs more. *)
Definition sample_objects : list (list Symbol) :=
  [[mkSymbol (Some "sum") true false; mkSymbol (Some "sum") false false]; [mkSymbol (Some "missing") true false; mkSymbol None false false]].

Lemma addObjectFiles_symbols_witness :
  exists jit names, addObjectFiles (fun name => if String.eqb name "sum" then 64%Z else 0%Z) (fun _ => 0%Z) sample_objects newDiagnostics =
    (Ok jit, match names with [] => newDiagnostics | _ => logged newDiagnostics [LogWarn (unresolved_message names)] end) /\
    "missing" ∈ names /\ getSymbol jit "sum" = 64%Z /\ getSymbol jit "main" = 0%Z.
Proof.
  destruct (addObjectFiles_symbols (fun name => if String.eqb name "sum" then 64%Z else 0%Z) (fun _ => 0%Z) sample_objects newDiagnostics)
    as (jit & names & Hrun & Hsym & Hnames).
  - reflexivity.
  - reflexivity.
  - intros s name Hin [Hn Hu]. repeat (apply elem_of_cons in Hin as [->|Hin]; [cbn in Hn, Hu; simplify_eq; done|]).
    by apply not_elem_of_nil in Hin.
  - exists jit, names. split; [exact Hrun|]. split; [|split; [exact (Hsym "sum")|exact (Hsym "main")]].
    apply Hnames. split; [|split; reflexivity]. exists (mkSymbol (Some "missing") true false).
    split; [right; right; by left|split; [reflexivity|split; reflexivity]].
Defined.

(** ** Running a test *)
Section RunTest.
Context `{Mangler} (jit : JITEngine).

Definition constructor_calls (constructors : list string) : list NativeCall :=
  map (fun name => CallConstructor (getSymbol jit (getNameWithPrefix name))) constructors.

Lemma getFunctionPointer_known name d :
  getSymbol jit name <> 0%Z -> getFunctionPointer jit name d = (Ok (getSymbol jit name), d).
Proof. intros Hn. unfold getFunctionPointer. by rewrite (proj2 (Z.eqb_neq _ _) Hn). Qed.

Lemma run_constructors constructors acc d :
  (forall name, name ∈ constructors -> getSymbol jit (getNameWithPrefix name) <> 0%Z) ->
  d_fold (fun calls name => address ← getFunctionPointer jit (getNameWithPrefix name); mret (calls ++ [CallConstructor address]))
    acc constructors d = (Ok (acc ++ constructor_calls constructors), d).
Proof.
  revert acc. induction constructors as [|name constructors IH]; intros acc Hc; [by rewrite app_nil_r|].
  cbn [d_fold]. rewrite !D_bind_run, getFunctionPointer_known by (apply Hc; by left). cbn [mret D_ret].
  rewrite IH by (intros n Hn; apply Hc; by right). by rewrite <-app_assoc.
Qed.
End RunTest.

(** A test is run the way the system would run the program: first the static
    constructors in their order, then the driver function with the program's name
    and the arguments, then the destructors registered meanwhile; the test passes
    exactly when the driver function returns 0.  (The destructors run in the order
    they were registered in, where the C++ ABI runs them in the reverse order.) *)
Theorem runTest_calls `{Mangler} jit constructors test call_main d :
  (forall name, name ∈ constructors -> getSymbol jit (getNameWithPrefix name) <> 0%Z) ->
  getSymbol jit (getNameWithPrefix (driverFunctionName test)) <> 0%Z ->
  let mainPointer := getSymbol jit (getNameWithPrefix (driverFunctionName test)) in
  let after_main := (call_main mainPointer (argv_of test)).2 in
  exists status o,
    runTest jit constructors test call_main d =
      (Ok (status,
           constructor_calls jit constructors ++
           CallMain mainPointer (Z.of_nat (S (length (arguments test)))) (argv_of test) ::
           map (fun p => CallDestructor p.1 p.2) (DSOHandleOverride after_main), o), d) /\
    (status = Passed <-> (call_main mainPointer (argv_of test)).1 = 0%Z) /\ DSOHandleOverride o = [].
Proof.
  intros Hc Hm mainPointer after_main. subst mainPointer after_main. unfold runTest.
  set (main := getSymbol jit _) in *. rewrite D_bind_run, run_constructors by done.
  rewrite D_bind_run, getFunctionPointer_known by done. fold main.
  destruct (call_main main (argv_of test)) as [exitStatus o]. cbn [fst snd runDestructors].
  do 2 eexists. split; [|split].
  - unfold argv_of at 1. rewrite length_map. cbn [length]. reflexivity.
  - destruct (Z.eqb_spec exitStatus 0); split; congruence.
  - done.
Qed.

(** The program registers destructor 1, then destructor 2. *)
Lemma runTest_calls_witness :
  exists status o,
    runTest (mkJIT {["main" := 64%Z]}) [] (newTest "t" "mull" "main" ["-v"] None)
      (fun _ _ => (0%Z, CXAAtExitOverride (CXAAtExitOverride (newCXXRuntimeOverrides 8 16) 1 10) 2 20)) newDiagnostics =
      (Ok (status, [CallMain 64 2 ["mull"; "-v"]; CallDestructor 1 10; CallDestructor 2 20], o), newDiagnostics) /\
    status = Passed.
Proof.
  destruct (runTest_calls (mkJIT {["main" := 64%Z]}) [] (newTest "t" "mull" "main" ["-v"] None)
    (fun _ _ => (0%Z, CXAAtExitOverride (CXAAtExitOverride (newCXXRuntimeOverrides 8 16) 1 10) 2 20)) newDiagnostics)
    as (status & o & Hrun & Hs & _).
  - by intros name ?%not_elem_of_nil.
  - done.
  - exists status, o. split; [exact Hrun|by apply Hs].
Defined.
