(* ===== verification/NativeRunner.v ===== *)
(** * A test in the worker (lib/TestFrameworks/NativeTestRunner.cpp within
    lib/Sandbox/ProcessSandbox.cpp)

    Toolchain.v has the calls a test consists of, Sandbox.v a worker that
    writes and ends somehow.  Here the worker runs the test: what it writes and
    how it ends follow from what the code called does, and the verdict of the
    sandbox is told in terms of the test.  What native code does is a parameter. *)

From stdpp Require Import base list strings gmap.
From Stdlib Require Import ZArith Lia Bool Ascii.
From S2P Require Import Prelude StdContainers StringFacts Diagnostics IR SourceLocation MutationPoint Reachable.
From S2P Require Import CallTree Instrumentation Bitcode MutantExecution Sandbox Toolchain.

(** How a call of native code ends. *)
Inductive CallEffect :=
  | CallReturns (value : Z)
  | CallExits (code : Z)
  | CallRaises (signal : Z)
  | CallLoops.

(** The code: what a call prints before it ends, the destructors it registers
    through [__cxa_atexit], and its end; what an error message of mull looks like
    on the worker's output. *)
Record NativeCode := mkNativeCode {
  prints : NativeCall -> list (Stream * ascii);
  registers : NativeCall -> list (Z * Z);
  effect : NativeCall -> CallEffect;
  reported : string -> list (Stream * ascii)
}.

(** What the runner does next: a call, or giving up on a function it has no
    pointer for ([Diagnostics::error] ends the process with 1). *)
Inductive RunnerStep :=
  | Calls (call : NativeCall)
  | Missing (functionName : string).

Section Worker.
Context `{Mangler} (code : NativeCode) (jit : JITEngine).

Definition step_for (functionName : string) (call : Z -> NativeCall) : RunnerStep :=
  let pointer := getSymbol jit functionName in
  if Z.eqb pointer 0 then Missing functionName else Calls (call pointer).

Definition missing_message (functionName : string) : string := "Can not find a pointer to the function: " +:+ functionName.

Definition step_prints (s : RunnerStep) : list (Stream * ascii) :=
  match s with Calls c => prints code c | Missing name => reported code (missing_message name) end.

Definition step_registers (s : RunnerStep) : list (Z * Z) :=
  match s with Calls c => registers code c | Missing _ => [] end.

(** The process ends at this step, or goes on with a value. *)
Definition step_effect (s : RunnerStep) : Ending + Z :=
  match s with
  | Missing _ => inl (Exits 1)
  | Calls c =>
      match effect code c with
      | CallReturns value => inr value
      | CallExits code => inl (Exits code)
      | CallRaises signal => inl (Raises signal)
      | CallLoops => inl NeverEnds
      end
  end.

(** Steps one after the other: what was printed, the destructors registered, and
    the end or the last value. *)
Fixpoint perform (steps : list RunnerStep) (printed : list (Stream * ascii)) (registered : list (Z * Z)) (value : Z)
    : list (Stream * ascii) * list (Z * Z) * (Ending + Z) :=
  match steps with
  | [] => (printed, registered, inr value)
  | s :: steps =>
      let printed := printed ++ step_prints s in
      let registered := registered ++ step_registers s in
      match step_effect s with
      | inl e => (printed, registered, inl e)
      | inr value => perform steps printed registered value
      end
  end.

(** The static constructors, then the driver function of the test. *)
Definition program_steps (constructors : list string) (test : Test) : list RunnerStep :=
  map (fun name => step_for (getNameWithPrefix name) CallConstructor) constructors ++
  [step_for (getNameWithPrefix (driverFunctionName test))
     (fun pointer => CallMain pointer (Z.of_nat (length (argv_of test))) (argv_of test))].

Definition destructor_steps (registered : list (Z * Z)) : list RunnerStep :=
  map (fun p => Calls (CallDestructor p.1 p.2)) registered.

Definition status_of_exit (exitStatus : Z) : ExecutionStatus := if Z.eqb exitStatus 0 then Passed else Failed.

(** [NativeTestRunner::runTest] as the function a sandbox runs. *)
Definition worker_runs (constructors : list string) (test : Test) : Behaviour :=
  match perform (program_steps constructors test) [] [] 0 with
  | (printed, _, inl e) => mkBehaviour printed e
  | (printed, registered, inr exitStatus) =>
      match perform (destructor_steps registered) printed [] exitStatus with
      | (printed, _, inl e) => mkBehaviour printed e
      | (printed, _, inr _) => mkBehaviour printed (Returns (status_of_exit exitStatus))
      end
  end.
End Worker.

(** ** Steps that return *)
Section Steps.
Context (code : NativeCode).

Definition returns (s : RunnerStep) : Prop := exists value, step_effect code s = inr value.

(** The first step that ends the process. *)
Definition stops (steps : list RunnerStep) (e : Ending) : Prop :=
  exists before s after, steps = before ++ s :: after /\ Forall returns before /\ step_effect code s = inl e.

Definition last_value (steps : list RunnerStep) (value : Z) : Z :=
  match last steps with Some s => match step_effect code s with inr v => v | inl _ => value end | None => value end.

Lemma perform_spec steps printed registered value :
  (Forall returns steps /\
     perform code steps printed registered value =
       (printed ++ concat (map (step_prints code) steps), registered ++ concat (map (step_registers code) steps),
        inr (last_value steps value))) \/
  (exists before s after e, steps = before ++ s :: after /\ Forall returns before /\ step_effect code s = inl e /\
     (perform code steps printed registered value).2 = inl e /\
     (perform code steps printed registered value).1.1 = printed ++ concat (map (step_prints code) (before ++ [s]))).
Proof.
  revert printed registered value. induction steps as [|s steps IH]; intros printed registered value; cbn [perform].
  - left. split; [constructor|]. cbn. by rewrite !app_nil_r.
  - destruct (step_effect code s) as [e|v] eqn:Hs.
    + right. exists [], s, steps, e. cbn. rewrite !app_nil_r. done.
    + assert (Hret : returns s) by (by exists v).
      destruct (IH (printed ++ step_prints code s) (registered ++ step_registers code s) v)
        as [[Hall Heq]|(before & x & after & e & -> & Hb & Hx & H2 & H1)].
      * left. split; [by constructor|]. rewrite Heq. cbn [map concat]. rewrite !app_assoc. do 2 f_equal.
        unfold last_value. destruct steps as [|s' steps]; [cbn; by rewrite Hs|]. rewrite last_cons_cons.
        destruct (last (s' :: steps)) eqn:Hl; [|by apply last_None in Hl].
        apply last_Some_elem_of in Hl. rewrite Forall_forall in Hall. by destruct (Hall _ Hl) as [w ->].
      * right. exists (s :: before), x, after, e. split; [done|]. split; [by constructor|]. split; [done|]. split; [exact H2|].
        rewrite H1. cbn [app map concat]. by rewrite <-!app_assoc.
Qed.

Lemma stops_not_returns steps e : stops steps e -> ~ Forall returns steps.
Proof.
  intros (before & s & after & -> & _ & Hs) [_ [[v Hv] _]%Forall_cons]%Forall_app. congruence.
Qed.

Lemma stops_unique steps e1 e2 : stops steps e1 -> stops steps e2 -> e1 = e2.
Proof.
  intros (b1 & s1 & a1 & -> & H1 & E1) (b2 & s2 & a2 & Heq & H2 & E2).
  revert b2 Heq H2. induction b1 as [|x b1 IH]; intros [|y b2] Heq H2; cbn in Heq; simplify_eq.
  - congruence.
  - apply Forall_cons in H2 as [[v Hv] _]. congruence.
  - apply Forall_cons in H1 as [[v Hv] _]. congruence.
  - apply Forall_cons in H1 as [_ H1]. apply Forall_cons in H2 as [_ H2]. by apply (IH H1 b2).
Qed.
End Steps.

(** ** The verdict *)

(** A result reports a time-out or how the worker ended by itself. *)
Lemma run_status capacity (shouldCapture : bool) timeout b r :
  (0 < timeout)%Z -> ForkTimerSandbox_run capacity shouldCapture (handle_timeout timeout) b r ->
  status r = Timedout \/ natural_status (ending b) = Some (status r).
Proof.
  intros Htime. rewrite handle_timeout_positive by done. intros [w shared pipe out err o e time Hrun _ _ _ _]. cbn [status].
  destruct (reachable_worker_at _ _ _ _ _ Hrun) as (dn & todo & _ & _ & _ & [[_ Hend]| ->]); [right|left; apply worker_status_timeout].
  by apply natural_status_end in Hend.
Qed.

(** A worker whose time is not limited by what it writes ends by itself. *)
Section Verdict.
Context `{Mangler} (code : NativeCode) (jit : JITEngine) (constructors : list string) (test : Test).

Definition program : list RunnerStep := program_steps jit constructors test.

(** All that is called when nothing ends the process before. *)
Definition test_steps : list RunnerStep :=
  program ++ destructor_steps (concat (map (step_registers code) program)).

(** What the driver function returned. *)
Definition exit_status : Z := last_value code program 0.

Lemma test_ends :
  (Forall (returns code) test_steps /\
     ending (worker_runs code jit constructors test) = Returns (status_of_exit exit_status) /\
     writes (worker_runs code jit constructors test) = concat (map (step_prints code) test_steps)) \/
  (exists before s after e, test_steps = before ++ s :: after /\ Forall (returns code) before /\ step_effect code s = inl e /\
     ending (worker_runs code jit constructors test) = e /\
     writes (worker_runs code jit constructors test) = concat (map (step_prints code) (before ++ [s]))).
Proof.
  unfold worker_runs, test_steps. fold program.
  destruct (perform_spec code program [] [] 0) as [[Hall Heq]|(before & s & after & e & Hp & Hb & Hs & H2 & H1)].
  - rewrite Heq. cbn [app].
    set (ds := destructor_steps (concat (map (step_registers code) program))).
    destruct (perform_spec code ds (concat (map (step_prints code) program)) [] exit_status)
      as [[Hall2 Heq2]|(before & s & after & e & Hp & Hb & Hs & H2 & H1)].
    + left. fold exit_status. rewrite Heq2. split; [by apply Forall_app|]. split; [done|]. cbn [writes]. by rewrite map_app, concat_app.
    + right. exists (program ++ before), s, after, e. rewrite Hp. split; [by rewrite <-app_assoc|]. split; [by apply Forall_app|].
      split; [done|]. fold exit_status. rewrite Hp in H1, H2.
      destruct (perform code (before ++ s :: after) _ [] exit_status) as [[printed registered] res]. cbn in H1, H2. subst res printed.
      split; [done|]. cbn [writes]. by rewrite <-app_assoc, !map_app, !concat_app.
  - right. exists before, s, (after ++ destructor_steps (concat (map (step_registers code) program))), e.
    destruct (perform code program [] [] 0) as [[printed registered] res]. cbn in H1, H2. subst res printed.
    split; [rewrite Hp at 1; by rewrite <-app_assoc|]. done.
Qed.

(** C9: what the verdict on a test says of the test.  Run in the sandbox, a test is
    reported as [Failed] exactly when everything called returned and the driver
    function did not return 0; as [Passed] when it did return 0, but also when
    anything called ended the process with a code that is 0 in eight bits, whatever
    had been checked by then; as [Crashed] when a call raised a signal, as
    [AbnormalExit] when one ended the process with another code (mull itself does,
    with 1, on a function it cannot find); else as [Timedout], which is what is left
    for a call that does not end.  Some run always ends. *)
Theorem test_verdict capacity (shouldCapture : bool) timeout r :
  (0 < timeout)%Z ->
  ForkTimerSandbox_run capacity shouldCapture (handle_timeout timeout) (worker_runs code jit constructors test) r ->
  (status r = Failed <-> status r <> Timedout /\ Forall (returns code) test_steps /\ exit_status <> 0%Z) /\
  (status r = Passed <-> status r <> Timedout /\
     (Forall (returns code) test_steps /\ exit_status = 0%Z \/
      exists code_, stops code test_steps (Exits code_) /\ (code_ mod 256 = 0)%Z)) /\
  (status r = Crashed <-> status r <> Timedout /\ exists signal, stops code test_steps (Raises signal)) /\
  (status r = AbnormalExit <-> status r <> Timedout /\
     exists code_, stops code test_steps (Exits code_) /\ (code_ mod 256 <> 0)%Z) /\
  (stops code test_steps NeverEnds -> status r = Timedout).
Proof.
  intros Htime Hrun. pose proof (run_status _ _ _ _ _ Htime Hrun) as Hst.
  destruct (decide (status r = Timedout)) as [Ht|Hnt].
  { rewrite Ht. repeat split; try done; by intros []. }
  destruct Hst as [|Hst]; [done|].
  destruct test_ends as [(Hall & He & _)|(before & s & after & e & Hsteps & Hb & Hs & He & _)]; rewrite He in Hst.
  - assert (Hno : forall e, ~ stops code test_steps e) by (intros e Hstop; by apply (stops_not_returns _ _ _ Hstop)).
    unfold status_of_exit in Hst. destruct (Z.eqb_spec exit_status 0); cbn in Hst; injection Hst as Hst; rewrite <-Hst in *;
      naive_solver.
  - assert (Hstop : stops code test_steps e) by (by exists before, s, after).
    assert (Hnr : ~ Forall (returns code) test_steps) by (by apply (stops_not_returns _ _ e)).
    assert (Huniq : forall e', stops code test_steps e' -> e' = e) by (intros e' He'; by apply (stops_unique code test_steps)).
    destruct e as [status0|code_|signal|]; cbn in Hst.
    + exfalso. destruct s as [c|name]; cbn in Hs; [destruct (effect code c)|]; discriminate Hs.
    + injection Hst as Hst. unfold MullTimeoutCode, MullExitCode in Hst.
      destruct (Z.eqb_spec (code_ mod 256) 239); [congruence|]. destruct (Z.eqb_spec (code_ mod 256) 0) as [Hz|Hz];
        rewrite <-Hst in *; (repeat split; intros; try done); naive_solver.
    + injection Hst as Hst. rewrite <-Hst in *. (repeat split; intros; try done); naive_solver.
    + done.
Qed.
End Verdict.

(** A program with a constructor whose test leaves by [exit(256)] in the driver. *)
Definition sample_code : NativeCode := mkNativeCode
  (fun call => match call with CallMain _ _ _ => [(Stdout, "!"%char)] | _ => [] end)
  (fun call => match call with CallConstructor _ => [(1, 2)%Z] | _ => [] end)
  (fun call => match call with CallMain _ _ _ => CallExits 256 | _ => CallReturns 0 end)
  (fun _ => []).

Definition sample_loaded : JITEngine := mkJIT {["init" := 32%Z; "main" := 64%Z]}.

Definition sample_exiting_test : Test := newTest "t" "mull" "main" [] None.

Lemma sample_exits :
  exists r, ForkTimerSandbox_run 8 true (handle_timeout 30) (worker_runs sample_code sample_loaded ["init"] sample_exiting_test) r /\
    status r <> Timedout.
Proof.
  eexists. split; [apply (sandbox_result _ _ _ _ (exited 256) Invalid (put (fun _ => "") Stdout "!"%char)
    (ReadBytes "!" ReadEOF) ReadEOF "!" "" 0)|done].
  - eapply rtc_l; [apply step_write; [done|vm_compute; lia]|]. apply rtc_once, step_exit. reflexivity.
  - apply (delivers_bytes "!" "" ReadEOF); [cbn; lia|constructor].
  - constructor.
  - reflexivity.
  - reflexivity.
Defined.

Lemma test_verdict_witness :
  exists r, ForkTimerSandbox_run 8 true (handle_timeout 30)
      (worker_runs sample_code sample_loaded ["init"] sample_exiting_test) r /\
    status r = Passed.
Proof.
  destruct sample_exits as (r & Hrun & Hnt). exists r. split; [exact Hrun|].
  apply (proj1 (proj2 (test_verdict sample_code sample_loaded ["init"] sample_exiting_test 8 true 30 r eq_refl Hrun))).
  split; [exact Hnt|]. right. exists 256%Z. split; [|reflexivity].
  exists [Calls (CallConstructor 32)], (Calls (CallMain 64 1 ["mull"])), [Calls (CallDestructor 1 2)].
  split; [reflexivity|]. split; [|reflexivity]. constructor; [by exists 0%Z|constructor].
Defined.
