(* ===== verification/MutatedProgram.v ===== *)
(** * Loading the program for a run (NativeTestRunner::loadMutatedProgram,
    loadInstrumentedProgram, lib/Bitcode.cpp, lib/Toolchain/Compiler.cpp)

    Puts together the copy of a bitcode file that is instrumented, the compiler's
    front door, the loading of object files and the trampolines their symbols
    lead to: what MutantExecution.v assumes of the JIT follows from what the
    object files define. *)

From stdpp Require Import base list strings gmap.
From Stdlib Require Import ZArith Lia Bool.
From S2P Require Import Prelude StdContainers StringFacts Diagnostics IR Compat SourceLocation Mutator Samples MutationPoint Reachable.
From S2P Require Import CallTree Instrumentation Bitcode MutantExecution Toolchain.

(** ** The copy that is instrumented *)
Section Clone.
Context `{LLVMPath} (parseBitcodeFile : string -> Expected Module).

Definition set_identifier (identifier : string) (m : Module) : Module :=
  mkModule identifier (mod_sourceFileName m) (mod_functions m).

(** [Bitcode::clone]: [buffer] is the file's content, which only a bitcode that
    was loaded has; what is written to the standard error is left out. *)
Definition clone (id : nat) (bitcode : Bitcode) (buffer : option string) : D Bitcode :=
  content ← lift (of_option "Cannot clone non-original module" buffer);
  match (llvm_compat.parseBitcode parseBitcodeFile content).1 with
  | None => error ("Cannot clone module " +:+ eol)
  | Some copy => mret (newBitcode id (set_identifier (mod_identifier (bc_module bitcode)) copy) "")
  end.
End Clone.

(** ** The compiler *)
Record Compilable := mkCompilable {
  cm_module : Module;
  (** the string of the data layout; the empty one is the default *)
  cm_dataLayout : string
}.

Section Compiler.
Context {ObjectFile : Type} (SimpleCompiler : Compilable -> string) (createObjectFile : string -> Expected ObjectFile).

Definition Compiler_compileModule (module : Compilable) (machineDataLayout : string) : option (ObjectFile * string) :=
  let module := if empty_string (cm_dataLayout module) then mkCompilable (cm_module module) machineDataLayout else module in
  llvm_compat.compileModule SimpleCompiler createObjectFile module.

Definition Compiler_compileBitcode (bitcode : Bitcode) (dataLayout machineDataLayout : string) : option (ObjectFile * string) :=
  Compiler_compileModule (mkCompilable (bc_module bitcode) dataLayout) machineDataLayout.
End Compiler.

(** ** Loading *)
Section Load.
Context `{Mangler} (process : string -> Z) (o : CXXRuntimeOverrides) (loader : string -> Z).
(** The address of a cell, and of mull's variables. *)
Context (cell_address : Pointer -> Z).

Definition loadMutatedProgram (objectFiles : list (list Symbol)) (trampolines : Trampolines) (memory : Memory)
    : D (JITEngine * Trampolines * Memory) :=
  let '(trampolines, memory) := allocateTrampolines trampolines memory in
  jit ← addObjectFiles loader (MutationResolver_findSymbol process o trampolines cell_address) objectFiles;
  mret (jit, trampolines, memory).

Context (info_address : Z) (offset_address : string -> Z).

Definition address_of (r : Resolved) : Z :=
  match r with
  | AtAddress a => a
  | TestInfo => info_address
  | FunctionOffset moduleName => offset_address moduleName
  | NotFound => 0%Z
  end.

(** The resolver is asked about every symbol the objects do not define, and may
    add to the offsets each time. *)
Definition resolve_names (instr : Instrumentation) (names : list string) : outcome (gmap string Z * Instrumentation) :=
  fold_outcome (fun st name =>
    r ← InstrumentationResolver_findSymbol process o (snd st) name;
    mret (<[name := address_of (fst r)]> (fst st), snd r)) (∅, instr) names.

Definition loadInstrumentedProgram (objectFiles : list (list Symbol)) (instr : Instrumentation)
    : D (JITEngine * Instrumentation) :=
  r ← lift (resolve_names instr (elements (collect_symbols objectFiles).1));
  let '(resolved, instr) := r in
  jit ← addObjectFiles loader (fun name => default 0%Z (resolved !! name)) objectFiles;
  mret (jit, instr).
End Load.

(** ** The copy keeps its name *)
Lemma clone_run `{LLVMPath} parse id bitcode content copy d :
  parse content = Value copy ->
  clone parse id bitcode (Some content) d =
    (Ok (newBitcode id (set_identifier (mod_identifier (bc_module bitcode)) copy) ""), d).
Proof. intros Hp. unfold clone, llvm_compat.parseBitcode. rewrite lift_bind. cbn [of_option]. by rewrite Hp. Qed.

(** A content that cannot be parsed ends the run; a copy of a copy is refused. *)
Lemma clone_fails `{LLVMPath} parse id bitcode content message d :
  parse content = Failure message -> (clone parse id bitcode (Some content) d).1 = Exit 1.
Proof. intros Hp. unfold clone, llvm_compat.parseBitcode. rewrite lift_bind. cbn [of_option]. rewrite Hp. apply error_exits. Qed.

(** The copy, instrumented, reads its offset from the global named after the
    original, whatever name the parser gave it; and that name was recorded with the
    place of the original's functions. *)
Theorem instrumented_clone_offset `{LLVMPath, Mangler} parse id bitcode content copy pre post process o d :
  parse content = Value copy ->
  (forall n, searchOverrides o (offset_symbol n) = None /\ process (offset_symbol n) = 0%Z) ->
  mod_identifier (bc_module bitcode) ∉ map mod_identifier post ->
  let instr := record_all (pre ++ bc_module bitcode :: post) in
  exists b, clone parse id bitcode (Some content) d = (Ok b, d) /\
    mod_functions (bc_module b) = mod_functions copy /\
    injectFunctionIndexOffset (bc_module b) functionIndexOffsetPrefix =
      GlobalRef (functionIndexOffsetPrefix +:+ mod_identifier (bc_module bitcode)) /\
    InstrumentationResolver_findSymbol process o instr (offset_symbol (mod_identifier (bc_module b))) =
      Ok (FunctionOffset (mod_identifier (bc_module bitcode)), instr) /\
    omap_find (mod_identifier (bc_module bitcode)) (functionOffsetMapping instr) =
      Some (to_uint32 (Z.of_nat (S (length (concat (map defined_functions pre)))))).
Proof.
  intros Hp Hfree Hpost instr. subst instr. eexists. split; [by apply clone_run|]. cbn [bc_module newBitcode mod_functions set_identifier].
  split; [done|]. split; [done|]. pose proof (record_all_offset pre (bc_module bitcode) post Hpost) as Hoff. split; [|exact Hoff].
  cbn [mod_identifier]. destruct (Hfree (mod_identifier (bc_module bitcode))) as [Ho Hproc]. rewrite find_offset by done.
  do 2 f_equal. unfold omap_insert. cbn [set_identifier mod_identifier]. rewrite Hoff. by destruct (record_all _).
Qed.

Lemma instrumented_clone_offset_witness :
  exists b, clone (fun _ => Value (mkModule "" "" (mod_functions sample_module))) 1 sample_bitcode_file (Some "BC") newDiagnostics =
      (Ok b, newDiagnostics) /\ mod_identifier (bc_module b) = mod_identifier sample_module.
Proof.
  destruct (instrumented_clone_offset (fun _ => Value (mkModule "" "" (mod_functions sample_module))) 1 sample_bitcode_file "BC"
    (mkModule "" "" (mod_functions sample_module)) [] [] (fun _ => 0%Z) (newCXXRuntimeOverrides 8 16) newDiagnostics)
    as (b & Hrun & _); [reflexivity|by intros n|by intros ?%not_elem_of_nil|].
  exists b. split; [exact Hrun|]. by injection Hrun as <-.
Defined.

(** ** Trampolines in the program *)
Section Trampolines.
Context `{Mangler} (process : string -> Z) (o : CXXRuntimeOverrides) (loader : string -> Z) (cell_address : Pointer -> Z).

Definition trampoline_symbol (p : MutationPoint) : string := getNameWithPrefix (getTrampolineName p).
Definition original_function_symbol (p : MutationPoint) : string := getNameWithPrefix (getOriginalFunctionName p).

Lemma original_of_trampoline p : original_symbol (trampoline_symbol p) = original_function_symbol p.
Proof.
  unfold trampoline_symbol, original_function_symbol, getTrampolineName, getOriginalFunctionName.
  by rewrite <-!string_app_assoc, original_symbol_suffix.
Qed.

(** Some object defines the symbol. *)
Definition defined_in (files : list (list Symbol)) (name : string) : Prop := exists s, s ∈ all_symbols files /\ defines name s.

Lemma getSymbol_defined files jit name :
  (forall name, getSymbol jit name =
     if existsb (fun s => bool_decide (symbol_name s = Some name) && negb (SF_Undefined s)) (all_symbols files)
     then loader name else 0%Z) ->
  defined_in files name -> getSymbol jit name = loader name.
Proof.
  intros Hsym (s & Hin & Hn & Hu). rewrite Hsym. assert (Hex : existsb (fun s => bool_decide (symbol_name s = Some name) &&
    negb (SF_Undefined s)) (all_symbols files) = true); [|by rewrite Hex].
  apply existsb_elem. exists s. split; [done|]. by rewrite Hn, Hu, bool_decide_eq_true_2.
Qed.

(** C10: what the trampolines of a loaded program do.  Loading the object files for
    a task gives every function that has mutants a cell of its own; the program's
    symbol for the trampoline is resolved to that cell (it is never among the
    symbols the user is warned of); and the cells are then filled with the
    addresses the loader gave the original functions, so that before the first
    mutant runs every call through a trampoline reaches its original. *)
Theorem trampolines_loaded files (points : list MutationPoint) d :
  strictModeEnabled d = false -> seenProgress d = false ->
  (forall name, defined_in files name -> loader name <> 0%Z) ->
  (forall p, p ∈ points -> defined_in files (original_function_symbol p)) ->
  (forall p, p ∈ points -> searchOverrides o (trampoline_symbol p) = None /\ process (trampoline_symbol p) = 0%Z) ->
  (forall c, cell_address c <> 0%Z) ->
  exists jit trampolines memory memory' missing,
    loadMutatedProgram process o loader cell_address files (newTrampolines (map getTrampolineName points)) [] d =
      (Ok (jit, trampolines, memory), match missing with [] => d | _ => logged d [LogWarn (unresolved_message missing)] end) /\
    fixupOriginalFunctions trampolines jit memory = Ok memory' /\
    forall p, p ∈ points -> trampoline_symbol p ∉ missing /\ exists c,
      findTrampoline trampolines (trampoline_symbol p) = Some c /\
      MutationResolver_findSymbol process o trampolines cell_address (trampoline_symbol p) = cell_address c /\
      memory' !! c = Some (Some (loader (original_function_symbol p))) /\
      forall q c', q ∈ points -> findTrampoline trampolines (trampoline_symbol q) = Some c' -> c' = c ->
        trampoline_symbol q = trampoline_symbol p.
Proof.
  intros Hstrict Hseen Hdef Horig Hfree Hcell.
  destruct (allocateTrampolines_spec (map getTrampolineName points)) as (t & memory & Hal & Hspec).
  destruct (addObjectFiles_symbols loader (MutationResolver_findSymbol process o t cell_address) files d Hstrict Hseen)
    as (jit & missing & Hrun & Hsym & Hmissing).
  { intros s name Hin Hd. apply Hdef. by exists s. }
  assert (Hget : forall p, p ∈ points -> getSymbol jit (original_symbol (trampoline_symbol p)) = loader (original_function_symbol p)).
  { intros p Hp. rewrite original_of_trampoline. by apply (getSymbol_defined files), Horig. }
  destruct (fixupOriginalFunctions_spec (map getTrampolineName points) jit t memory Hspec) as (memory' & Hfix & Haim).
  { intros name (p & -> & Hp)%list_elem_of_fmap. fold (trampoline_symbol p). rewrite Hget by done. by apply Hdef, Horig. }
  exists jit, t, memory, memory', missing. split; [|split; [done|]].
  - unfold loadMutatedProgram. rewrite Hal, D_bind_run, Hrun. done.
  - intros p Hp. destruct (al_find _ _ _ Hspec (getTrampolineName p)) as [c Hc]; [by apply list_elem_of_fmap_2|].
    fold (trampoline_symbol p) in Hc. destruct (Hfree p Hp) as [Ho Hproc].
    assert (Hres : MutationResolver_findSymbol process o t cell_address (trampoline_symbol p) = cell_address c).
    { unfold MutationResolver_findSymbol, resolve_first. by rewrite Ho, Hproc, Hc. }
    split; [intros (_ & _ & Hz)%Hmissing; rewrite Hres in Hz; by apply (Hcell c)|].
    exists c. split; [done|]. split; [done|]. split; [rewrite (Haim _ _ Hc); by rewrite Hget|].
    intros q c' Hq Hc' ->. by apply (al_inj _ _ _ Hspec _ _ c).
Qed.
End Trampolines.

Definition sample_loaded_point : MutationPoint :=
  mkMutationPoint (Mutator.Trivial cxx.AddToSub) None (newAddress 0 0 0) (mkBitcodePtr 0 "sum_d41d8") 0 "sum" None "id" "" ""
    (mkSourceLocation "" "" "" "" 0 0) [].

(** The object of [sum], prepared: it defines the original and needs the trampoline. *)
Definition sample_prepared_object : list Symbol :=
  [mkSymbol (Some "sum_sum_d41d8_original") false false; mkSymbol (Some "sum_sum_d41d8_trampoline") true false].

Lemma trampolines_loaded_witness :
  exists jit trampolines memory memory' missing c,
    loadMutatedProgram (fun _ => 0%Z) (newCXXRuntimeOverrides 8 16) (fun _ => 64%Z) (fun c => 4096 + Z.of_nat c)%Z
      [sample_prepared_object] (newTrampolines ["sum_sum_d41d8_trampoline"]) [] newDiagnostics =
      (Ok (jit, trampolines, memory), match missing with [] => newDiagnostics | _ => logged newDiagnostics [LogWarn (unresolved_message missing)] end) /\
    fixupOriginalFunctions trampolines jit memory = Ok memory' /\ memory' !! c = Some (Some 64%Z).
Proof.
  destruct (trampolines_loaded (fun _ => 0%Z) (newCXXRuntimeOverrides 8 16) (fun _ => 64%Z) (fun c => 4096 + Z.of_nat c)%Z
    [sample_prepared_object] [sample_loaded_point] newDiagnostics)
    as (jit & trampolines & memory & memory' & missing & Hrun & Hfix & Hpoints).
  - reflexivity.
  - reflexivity.
  - done.
  - intros p ->%list_elem_of_singleton. exists (mkSymbol (Some "sum_sum_d41d8_original") false false).
    split; [by left|]. split; reflexivity.
  - intros p ->%list_elem_of_singleton. split; reflexivity.
  - intros c. lia.
  - destruct (Hpoints sample_loaded_point) as (_ & c & _ & _ & Hm & _); [by left|].
    exists jit, trampolines, memory, memory', missing, c. split; [exact Hrun|]. split; [exact Hfix|exact Hm].
Defined.
