(* ===== verification/CLIOptions.v ===== *)
(** * The command line (tools/driver-cxx/CLIOptions.cpp)

    The options of mull-cxx, what LLVM's parser leaves in them, and what each
    of the helper classes makes of the values: the mutators, the test framework,
    the sandbox and the reporters; and the two dumps of the interface for the
    documentation.  The parser itself is LLVM's: [Options] is what it leaves
    behind, starting from [newOptions]. *)

From stdpp Require Import base list strings gmap sorting.
From Stdlib Require Import ZArith Lia Bool Ascii.
From S2P Require Import Prelude StdContainers StringFacts Diagnostics MutatorKind Irm Mutator LogicalMutators Mutators MutatorsFactory.
From S2P Require Import SourceLocation Bitcode MutantExecution Driver Sandbox Reporters SQLiteReporter TestFinders.

(** ** The options *)
Inductive SandboxKind := NoSandbox | WatchdogSandbox | TimerSandbox.
Inductive ReporterKind := IDE | SQLiteKind | Elements.

#[global] Instance SandboxKind_eq_dec : EqDecision SandboxKind.
Proof. solve_decision. Defined.
#[global] Instance ReporterKind_eq_dec : EqDecision ReporterKind.
Proof. solve_decision. Defined.

(** The values of the options. *)
Record Options := mkOptions {
  InputFile : string;
  Workers : nat;
  ReportDirectory : string;
  ReportName : string;
  DisableCache : bool;
  CacheDir : string;
  CompilationDatabasePath : string;
  CompilationFlags : string;
  DryRunOption : bool;
  Mutators : list nat;
  TestFrameworks : nat;
  LDSearchPaths : list string;
  ExcludePaths : list string;
  IncludePaths : list string;
  SandboxOption : SandboxKind;
  EnableAST : bool;
  ReportersOption : list ReporterKind;
  IDEReporterShowKilled : bool;
  DebugEnabled : bool;
  StrictModeEnabled : bool;
  NoTestOutput : bool;
  NoMutantOutput : bool;
  NoOutput : bool;
  DumpCLIInterface : bool;
  DumpMutators : bool
}.

(** The required ones given, the others at their [init]. *)
Definition newOptions (inputFile : string) (testFramework : nat) : Options := {|
  InputFile := inputFile;
  Workers := 0;
  ReportDirectory := ".";
  ReportName := "";
  DisableCache := false;
  CacheDir := "/tmp/mull-cache";
  CompilationDatabasePath := "";
  CompilationFlags := "";
  DryRunOption := false;
  Mutators := [];
  TestFrameworks := testFramework;
  LDSearchPaths := [];
  ExcludePaths := [];
  IncludePaths := [];
  SandboxOption := TimerSandbox;
  EnableAST := false;
  ReportersOption := [];
  IDEReporterShowKilled := false;
  DebugEnabled := false;
  StrictModeEnabled := false;
  NoTestOutput := false;
  NoMutantOutput := false;
  NoOutput := false;
  DumpCLIInterface := false;
  DumpMutators := false
|}.

(** The options themselves, as the dump enumerates them. *)
Module tool.
Inductive Option :=
  | InputFile | Workers | ReportDirectory | ReportName | DisableCache | CacheDir | CompilationDatabasePath
  | CompilationFlags | DryRunOption | Mutators | TestFrameworks | LDSearchPaths | ExcludePaths | IncludePaths
  | SandboxOption | EnableAST | ReportersOption | IDEReporterShowKilled | DebugEnabled | StrictModeEnabled
  | NoTestOutput | NoMutantOutput | NoOutput | DumpCLIInterface | DumpMutators.

#[global] Instance Option_eq_dec : EqDecision Option.
Proof. solve_decision. Defined.

Definition all_options : list Option :=
  [InputFile; Workers; ReportDirectory; ReportName; DisableCache; CacheDir; CompilationDatabasePath;
   CompilationFlags; DryRunOption; Mutators; TestFrameworks; LDSearchPaths; ExcludePaths; IncludePaths;
   SandboxOption; EnableAST; ReportersOption; IDEReporterShowKilled; DebugEnabled; StrictModeEnabled;
   NoTestOutput; NoMutantOutput; NoOutput; DumpCLIInterface; DumpMutators].
End tool.

(** [ArgStr], [ValueStr] and [HelpStr] of an option. *)
Definition option_strings (o : tool.Option) : string * string * string :=
  match o with
  | tool.InputFile => ("", "path", "<input file>")
  | tool.Workers => ("workers", "number", "How many threads to use")
  | tool.ReportDirectory => ("report-dir", "directory", "Where to store report (defaults to '.')")
  | tool.ReportName =>
      ("report-name", "filename",
       "Filename for the report (only for supported reporters). Defaults to <timestamp>.<extension>")
  | tool.DisableCache => ("disable-cache", "", "Disables cache (enabled by default)")
  | tool.CacheDir => ("cache-dir", "directory", "Where to store cache (defaults to /tmp/mull-cache)")
  | tool.CompilationDatabasePath =>
      ("compdb-path", "filename", "Path to a compilation database (compile_commands.json) for junk detection")
  | tool.CompilationFlags => ("compilation-flags", "string", "Extra compilation flags for junk detection")
  | tool.DryRunOption => ("dry-run", "", "Skips real mutants execution. Disabled by default")
  | tool.Mutators => ("mutators", "mutator", "Choose mutators:")
  | tool.TestFrameworks => ("test-framework", "framework", "Choose test framework:")
  | tool.LDSearchPaths => ("ld-search-path", "directory", "Library search path")
  | tool.ExcludePaths => ("exclude-path", "regex", "File/directory paths to ignore (supports regex)")
  | tool.IncludePaths => ("include-path", "regex", "File/directory paths to whitelist (supports regex)")
  | tool.SandboxOption => ("sandbox", "sandbox", "Choose sandbox approach:")
  | tool.EnableAST =>
      ("enable-ast", "", "Enable " +:+ quote +:+ "white" +:+ quote +:+ " AST search (disabled by default)")
  | tool.ReportersOption => ("reporters", "reporter", "Choose reporters:")
  | tool.IDEReporterShowKilled =>
      ("ide-reporter-show-killed", "",
       "Makes IDEReporter to also report killed mutations (disabled by default)")
  | tool.DebugEnabled => ("debug", "", "Enables Debug Mode: more logs are printed")
  | tool.StrictModeEnabled =>
      ("strict", "", "Enables Strict Mode: all warning messages are treated as fatal errors")
  | tool.NoTestOutput => ("no-test-output", "", "Does not capture output from test runs")
  | tool.NoMutantOutput => ("no-mutant-output", "", "Does not capture output from mutant runs")
  | tool.NoOutput => ("no-output", "", "Combines -no-test-output and -no-mutant-output")
  | tool.DumpCLIInterface => ("dump-cli", "", "Prints CLI options in the Sphinx/RST friendly format")
  | tool.DumpMutators => ("dump-mutators", "", "Prints available mutators in the Sphinx/RST friendly format")
  end.

(** The options with the flag [Hidden]. *)
Definition hidden (o : tool.Option) : bool :=
  match o with tool.DumpCLIInterface | tool.DumpMutators => true | _ => false end.

(** ** The mutators *)

(** The options registered with the parser are numbered from 0. *)
Definition literals (options : list (string * string)) : list (string * nat * string) :=
  imap (fun index option => (option.1, index, option.2)) options.

Record MutatorsCLIOptions := mkMutatorsCLIOptions {
  cli_factory : MutatorsFactory;
  cli_options : list (string * string)
}.

Definition newMutatorsCLIOptions : D MutatorsCLIOptions :=
  r ← commandLineOptions newMutatorsFactory;
  let '(options, factory) := r in
  mret (mkMutatorsCLIOptions factory options).

(** [options[i].first] *)
Definition option_name (options : list (string * string)) (index : nat) : outcome string :=
  option ← of_option "options[i]" (options !! index); mret option.1.

Definition cli_mutators (cli : MutatorsCLIOptions) (parameter : list nat) : D (list Mutator * MutatorsCLIOptions) :=
  selectedGroups ← lift (fold_outcome (fun selectedGroups index =>
    name ← option_name (cli_options cli) index; mret (selectedGroups ++ [name])) [] parameter);
  r ← mutators (cli_factory cli) selectedGroups;
  let '(ms, factory) := r in
  mret (ms, mkMutatorsCLIOptions factory (cli_options cli)).

(** ** The test framework *)
Definition testFramework (parameter : nat) (configuration : Configuration) : outcome TestFinder :=
  name ← option_name testFramework_commandLineOptions parameter;
  createTestFramework name configuration.

(** ** The sandbox *)
Definition sandboxes : list (string * string * SandboxKind) :=
  [("None", "No sandboxing", NoSandbox);
   ("Watchdog", "Uses 4 processes, not recommended", WatchdogSandbox);
   ("Timer", "Fastest, Recommended", TimerSandbox)].

Inductive ProcessSandbox := NullProcessSandbox | ForkWatchdogSandbox | ForkTimerSandbox.

Definition sandbox (parameter : SandboxKind) : ProcessSandbox :=
  match parameter with
  | NoSandbox => NullProcessSandbox
  | WatchdogSandbox => ForkWatchdogSandbox
  | TimerSandbox => ForkTimerSandbox
  end.

(** ** The reporters *)
Definition reporterOptions : list (string * string * ReporterKind) :=
  [("IDE", "Prints compiler-like warnings into stdout", IDE);
   ("SQLite", "Saves results into an SQLite database", SQLiteKind);
   ("Elements", "Generates mutation-testing-elements compatible JSON file", Elements)].

Record ReporterParameters := mkReporterParameters {
  reporterName : string;
  reporterDirectory : string
}.

Inductive Reporter :=
  | IDEReporter (showKilled : bool)
  | SQLiteReporter (databasePath : string)
  | ElementsReporter (reporter : MutationTestingElementsReporter).

(** [now] is the time stamp the reporters name their files after. *)
Definition newReporter (now : string) (showKilled : bool) (params : ReporterParameters) (kind : ReporterKind) : Reporter :=
  match kind with
  | IDE => IDEReporter showKilled
  | SQLiteKind => SQLiteReporter (newSQLiteReporter now (reporterDirectory params) (reporterName params))
  | Elements => ElementsReporter (newMutationTestingElementsReporter now (reporterDirectory params) (reporterName params))
  end.

Definition reporters (now : string) (showKilled : bool) (params : ReporterParameters) (parameter : list ReporterKind)
    : list Reporter :=
  let reporters := map (newReporter now showKilled params) parameter in
  match reporters with [] => [IDEReporter showKilled] | _ => reporters end.

(** ** The dumps *)

(** [input.replace(pos, n, s)] at the first occurrence. *)
Definition sanitize (replacement input : string) : string :=
  match String.index 0 replacement input with
  | Some pos =>
      String.substring 0 pos input +:+ "\" +:+ replacement +:+
      String.substring (pos + String.length replacement)
        (String.length input - (pos + String.length replacement)) input
  | None => input
  end.

Definition sanitizeString (input : string) : string := sanitize "*=" (sanitize "|=" input).

Definition print_out (text : string) : D unit := d_modify (write (StandardOutput text)).

Definition tab : string := String "009"%char "".
Definition entry (indent name description : string) : string :=
  indent +:+ ":" +:+ name +:+ ":" +:+ tab +:+ description +:+ eol +:+ eol.

Definition mullOptions : list tool.Option :=
  [tool.Workers; tool.DryRunOption;
   tool.CacheDir; tool.DisableCache;
   tool.ReportName; tool.ReportDirectory; tool.EnableAST; tool.ReportersOption; tool.IDEReporterShowKilled;
   tool.DebugEnabled; tool.StrictModeEnabled;
   tool.NoTestOutput; tool.NoMutantOutput; tool.NoOutput;
   tool.CompilationDatabasePath; tool.CompilationFlags; tool.LDSearchPaths; tool.IncludePaths; tool.ExcludePaths;
   tool.SandboxOption; tool.TestFrameworks;
   tool.Mutators].

Definition concat_map_string {A} (f : A -> string) (l : list A) : string := String.concat "" (map f l).

Definition option_help (option : tool.Option) : string :=
  let '(argStr, valueStr, helpStr) := option_strings option in
  "--" +:+ argStr +:+ (if empty_string valueStr then "" else " " +:+ valueStr) +:+ tab +:+ tab +:+ helpStr +:+ eol +:+ eol +:+
  (if decide (option = tool.Mutators) then
     let factory := init newMutatorsFactory in
     "    Groups:" +:+ eol +:+
     concat_map_string (fun pair => entry "      " pair.1 (descriptionForGroup pair.2)) (groupsMapping factory) +:+
     "    Single mutators:" +:+ eol +:+
     concat_map_string (fun pair => entry "      " pair.1 (sanitizeString (getDescription pair.2))) (mutatorsMapping factory)
   else "") +:+
  (if decide (option = tool.ReportersOption) then
     concat_map_string (fun opt => entry "    " opt.1.1 opt.1.2) reporterOptions else "") +:+
  (if decide (option = tool.SandboxOption) then
     concat_map_string (fun opt => entry "    " opt.1.1 opt.1.2) sandboxes else "") +:+
  (if decide (option = tool.TestFrameworks) then
     concat_map_string (fun pair => entry "    " pair.1 pair.2) testFramework_commandLineOptions else "").

Definition dumpCLIInterface : D unit := print_out (concat_map_string option_help mullOptions).

(** [std::string(n, c)] *)
Definition fill (n : nat) (c : ascii) : string := String.concat "" (replicate n (String c "")).

Definition identifier_le (lhs rhs : Mutator) : Prop := str_le (getUniqueIdentifier lhs) (getUniqueIdentifier rhs).

#[global] Instance identifier_le_dec : RelDecision identifier_le.
Proof. intros a b. unfold identifier_le. apply _. Defined.

Definition firstHeaderName : string := "Operator Name".
Definition secondHeaderName : string := "Operator Semantics".
Definition firstHeader : string := fill (String.length firstHeaderName) "="%char.
Definition secondHeader : string := fill (String.length secondHeaderName) "="%char.

Definition headers : string := firstHeader +:+ " " +:+ secondHeader +:+ eol.

(** The [i]-th mutator's line of the table and its two substitutions; the width
    of the padding is an unsigned subtraction. *)
Definition table_row (i : nat) : outcome string :=
  let n := to_string (Z.of_nat i) in
  let name := "op" +:+ n in
  let description := "desc" +:+ n in
  _ ← require (Nat.ltb (String.length name) (String.length firstHeader)) "std::length_error";
  let padding := fill (String.length firstHeader - String.length name - 1) " "%char in
  mret ("|" +:+ name +:+ "|" +:+ padding +:+ "|" +:+ description +:+ "|" +:+ eol).

Definition replacement_rows (i : nat) (mutator : Mutator) : string :=
  let n := to_string (Z.of_nat i) in
  ".. |" +:+ "op" +:+ n +:+ "| replace:: " +:+ getUniqueIdentifier mutator +:+ eol +:+
  ".. |" +:+ "desc" +:+ n +:+ "| replace:: " +:+ sanitizeString (getDescription mutator) +:+ eol.

Definition availableMutators : list Mutator :=
  merge_sort identifier_le (map snd (mutatorsMapping (init newMutatorsFactory))).

Definition dumpMutators : D unit :=
  rows ← lift (fold_outcome (fun table i => row ← table_row i; mret (table +:+ row))
           (headers +:+ firstHeaderName +:+ " " +:+ secondHeaderName +:+ eol +:+ headers)
           (seq 0 (length availableMutators)));
  _ ← print_out (String.concat "" (imap replacement_rows availableMutators) +:+ eol +:+ eol);
  print_out (rows +:+ headers).

(** ** What is offered can be chosen *)

(** The table of options [commandLineOptions] returns. *)
Definition offered : list (string * string) :=
  map (fun group => (group.1, descriptionForGroup group.2)) initial_groups ++
  map (fun m => (getUniqueIdentifier m, getDescription m)) (omap registered all_names).

Lemma newMutatorsCLIOptions_run d :
  exists f, newMutatorsCLIOptions d = (Ok (mkMutatorsCLIOptions f offered), d) /\ factory_inv f.
Proof.
  destruct (mutators_all_run newMutatorsFactory d factory_inv_new) as (f & Hrun & Hf). exists f. split; [|done].
  unfold newMutatorsCLIOptions, commandLineOptions. rewrite !D_bind_run. unfold lift.
  destruct (expandGroups_initial [AllMutatorsGroup] []) as [r Hr]. unfold initial_groups in Hr. rewrite Hr, D_bind_run, Hrun.
  reflexivity.
Qed.

(** The names of the options chosen; none chosen is the default group. *)
Definition chosen (parameter : list nat) : list string :=
  requested (omap (fun index => fst <$> offered !! index) parameter).

Definition expansion_known (name : string) : bool :=
  match expandGroups expansion_depth initial_groups [name] [] with
  | Ok r => forallb (fun x => negb (is_unknown x)) r && negb (bool_decide (r = []))
  | _ => false
  end.

Lemma offered_known : forallb expansion_known (CXX_Default :: map fst offered) = true.
Proof. by vm_compute. Qed.

Lemma chosen_names parameter name : name ∈ chosen parameter -> expansion_known name = true.
Proof.
  intros Hn. pose proof offered_known as Hk. rewrite forallb_elem in Hk. apply Hk.
  unfold chosen, requested in Hn. destruct (omap _ parameter) as [|y l] eqn:E.
  - apply list_elem_of_singleton in Hn as ->. by left.
  - right. rewrite <-E in Hn. apply list_elem_of_omap in Hn as (i & _ & Hi).
    destruct (offered !! i) as [o|] eqn:Ho; [|done]. injection Hi as <-.
    apply (list_elem_of_fmap_2 fst). by eapply list_elem_of_lookup_2.
Qed.

Lemma expansion_known_spec name :
  expansion_known name = true ->
  (exists x, expands initial_groups name x) /\ forall x, expands initial_groups name x -> is_unknown x = false.
Proof.
  unfold expansion_known. destruct (expandGroups expansion_depth initial_groups [name] []) as [r| |] eqn:E; [|done|done].
  intros [Hall Hne]%andb_true_iff. rewrite forallb_elem in Hall. apply negb_true_iff, bool_decide_eq_false_1 in Hne.
  destruct (expandGroups_spec _ _ _ _ _ (SSorted_nil _) E) as [_ Hin].
  assert (Hin' : forall x, x ∈ r <-> expands initial_groups name x).
  { intros x. rewrite Hin. split; [intros [[]%not_elem_of_nil|(g & ->%list_elem_of_singleton & ?)]; done|].
    intros Hx. right. exists name. split; [by left|done]. }
  split.
  - destruct r as [|x r]; [done|]. exists x. apply Hin'. by left.
  - intros x Hx%Hin'. by apply negb_true_iff, Hall.
Qed.

Lemma selected_names parameter :
  Forall (fun index => index < length offered) parameter -> forall acc,
  fold_outcome (fun selectedGroups index => name ← option_name offered index; mret (selectedGroups ++ [name])) acc parameter =
  Ok (acc ++ omap (fun index => fst <$> offered !! index) parameter).
Proof.
  induction 1 as [|i l Hi _ IH]; intros acc; [by rewrite app_nil_r|].
  destruct (lookup_lt_is_Some_2 offered i Hi) as [o Ho].
  assert (Hname : option_name offered i = Ok o.1) by (unfold option_name; by rewrite Ho).
  cbn [fold_outcome omap list_omap]. rewrite Hname, Ho. cbn [fmap option_fmap option_map mbind outcome_bind mret outcome_ret].
  rewrite IH. by rewrite <-app_assoc.
Qed.

Lemma init_order_shipped m : m ∈ init_order -> m ∈ shipped_mutators.
Proof.
  assert (H : forallb (fun m => bool_decide (m ∈ shipped_mutators)) init_order = true) by (by vm_compute).
  rewrite forallb_elem in H. intros Hm. by apply (bool_decide_eq_true_1 _ (H m Hm)).
Qed.

Lemma registered_spec x m : registered x = Some m <-> m ∈ shipped_mutators /\ getUniqueIdentifier m = x.
Proof.
  split.
  - intros [Hm Hx]%find_first_Some. split; [by apply init_order_shipped|]. by apply String.eqb_eq.
  - intros [Hm <-]. rewrite <-all_mutators_shipped in Hm. apply list_elem_of_omap in Hm as (y & _ & Hy).
    rewrite <-Hy. f_equal. apply find_first_Some in Hy as [_ Hy]. by apply String.eqb_eq.
Qed.

(** The mutators of known names, in the order of the names. *)
Lemma registered_all r : List.filter is_unknown r = [] -> map getUniqueIdentifier (omap registered r) = r.
Proof.
  induction r as [|x r IH]; [done|]. cbn [List.filter]. unfold is_unknown at 1. intros Hr.
  cbn [omap list_omap]. destruct (registered x) as [m|] eqn:Hm; [|done]. cbn [map]. rewrite IH by done.
  by apply registered_spec in Hm as [_ ->].
Qed.

(** The selection on any state of the factory. *)
Lemma cli_mutators_run f parameter d :
  factory_inv f -> Forall (fun index => index < length offered) parameter ->
  exists r f', expandGroups expansion_depth initial_groups (chosen parameter) [] = Ok r /\ r <> [] /\
    List.filter is_unknown r = [] /\ factory_inv f' /\
    cli_mutators (mkMutatorsCLIOptions f offered) parameter d = (Ok (omap registered r, mkMutatorsCLIOptions f' offered), d).
Proof.
  intros Hf Hp. destruct (expandGroups_initial (chosen parameter) []) as [r Hr].
  destruct (expandGroups_spec _ _ _ _ _ (SSorted_nil _) Hr) as [_ Hin].
  assert (Hknown : forall x, x ∈ r -> is_unknown x = false).
  { intros x [[]%not_elem_of_nil|(g & Hg & Hx)]%Hin. by apply (expansion_known_spec g (chosen_names _ _ Hg)). }
  assert (Hne : r <> []).
  { assert (exists g, g ∈ chosen parameter) as [g Hg].
    { unfold chosen. destruct (omap _ parameter) as [|y l]; eexists; by left. }
    destruct (expansion_known_spec g (chosen_names _ _ Hg)) as [[x Hx] _]. intros ->.
    apply (not_elem_of_nil x), Hin. eauto. }
  assert (Hnone : List.filter is_unknown r = []).
  { clear -Hknown. induction r as [|x r IH]; [done|]. cbn. rewrite (Hknown x) by by left. apply IH. intros; apply Hknown. by right. }
  destruct (mutators_known f (omap (fun index => fst <$> offered !! index) parameter) r d Hf Hr Hnone Hne) as (f' & Hrun & Hf').
  exists r, f'. repeat split; [done..| | |apply Hf'|]; [apply Hf'..|].
  unfold cli_mutators. rewrite D_bind_run. unfold lift. cbn [cli_options cli_factory].
  rewrite selected_names by done. cbn [app]. by rewrite D_bind_run, Hrun.
Qed.

(** The mutators the names stand for. *)
Lemma selected_members parameter r :
  expandGroups expansion_depth initial_groups (chosen parameter) [] = Ok r -> forall m,
  m ∈ omap registered r <-> m ∈ shipped_mutators /\
    exists name, name ∈ chosen parameter /\ expands initial_groups name (getUniqueIdentifier m).
Proof.
  intros Hr m. destruct (expandGroups_spec _ _ _ _ _ (SSorted_nil _) Hr) as [_ Hin]. rewrite list_elem_of_omap. split.
  - intros (x & Hx & Hm). apply (proj1 (registered_spec x m)) in Hm as [Hm <-]. split; [done|].
    apply (proj1 (Hin _)) in Hx as [Hx|(g & ? & ?)]; [by apply not_elem_of_nil in Hx|exists g; by split].
  - intros (Hm & g & Hg & Hx). exists (getUniqueIdentifier m). split; [|by apply (proj2 (registered_spec _ _))].
    apply (proj2 (Hin _)). right. by exists g.
Qed.

(** Whatever options of the table the tool offers are chosen on the command
    line, none included, selecting the mutators reports nothing, in strict mode
    neither, and yields at least one mutator: each of those the chosen names
    stand for, once, in the order of their identifiers; and asking again, as the
    tool does for the AST search, yields the same ones. *)
Theorem offered_selection parameter d :
  Forall (fun index => index < length offered) parameter ->
  exists cli, newMutatorsCLIOptions d = (Ok cli, d) /\ cli_options cli = offered /\
    forall d', exists ms cli', cli_mutators cli parameter d' = (Ok (ms, cli'), d') /\
      ms <> [] /\ StronglySorted (fun a b => key_lt a b = true) (map getUniqueIdentifier ms) /\
      (forall m, m ∈ ms <-> m ∈ shipped_mutators /\
         exists name, name ∈ chosen parameter /\ expands initial_groups name (getUniqueIdentifier m)) /\
      exists cli'', cli_mutators cli' parameter d' = (Ok (ms, cli''), d').
Proof.
  intros Hp. destruct (newMutatorsCLIOptions_run d) as (f & Hnew & Hf). eexists. split; [exact Hnew|]. split; [done|]. intros d'.
  destruct (cli_mutators_run f parameter d' Hf Hp) as (r & f' & Hr & Hne & Hnone & Hf' & Hrun).
  destruct (cli_mutators_run f' parameter d' Hf' Hp) as (r' & f'' & Hr' & _ & _ & _ & Hrun').
  rewrite Hr in Hr'. injection Hr' as <-. exists (omap registered r), (mkMutatorsCLIOptions f' offered).
  split; [done|]. destruct (expandGroups_spec _ _ _ _ _ (SSorted_nil _) Hr) as [Hwf Hin].
  pose proof (registered_all r Hnone) as Hids. rewrite Hids. split; [|split; [exact Hwf|split; [|by eexists]]].
  - intros He. apply Hne. rewrite <-Hids, He. reflexivity.
  - by apply selected_members.
Qed.

Lemma offered_selection_witness :
  exists cli, newMutatorsCLIOptions strict_diagnostics = (Ok cli, strict_diagnostics) /\ cli_options cli = offered /\
    forall d', exists ms cli', cli_mutators cli [0; 20] d' = (Ok (ms, cli'), d') /\
      ms <> [] /\ StronglySorted (fun a b => key_lt a b = true) (map getUniqueIdentifier ms) /\
      (forall m, m ∈ ms <-> m ∈ shipped_mutators /\
         exists name, name ∈ chosen [0; 20] /\ expands initial_groups name (getUniqueIdentifier m)) /\
      exists cli'', cli_mutators cli' [0; 20] d' = (Ok (ms, cli''), d').
Proof.
  apply (offered_selection [0; 20] strict_diagnostics).
  apply (bool_decide_unpack _). vm_compute. exact I.
Defined.
