(* ===== verification/DynamicLibraries.v ===== *)
(** * The dynamic libraries of the executable (tools/driver-cxx/DynamicLibraries.cpp)

    The libraries the program under test was linked against, read from its ELF
    sections or Mach-O load commands and looked up in the search paths.  The
    layout of the file is LLVM's to find: a parsed file is its list of sections
    with their bytes, or its load commands; the entries of the dynamic section
    are decoded here, as the source does. *)

From stdpp Require Import base list strings.
From Stdlib Require Import ZArith Lia Bool Ascii.
From S2P Require Import Prelude StringFacts Diagnostics IR SourceLocation Samples.

(** ** Files *)
Definition SHT_STRTAB : Z := 3.
Definition SHT_DYNAMIC : Z := 6.
Definition DT_NEEDED : Z := 1.
Definition LC_LOAD_DYLIB : Z := 12.

Record ElfSection := mkElfSection {
  es_name : string;
  es_type : Z;
  es_content : string
}.

(** The word size is 4 or 8 bytes. *)
Record ELFObjectFile := mkELF {
  elf_wordSize : nat;
  elf_bigEndian : bool;
  elf_sections : list ElfSection
}.

(** A command, its bytes, and the offset of the name in them when it is one that
    loads a library. *)
Record LoadCommand := mkLoadCommand {
  lc_cmd : Z;
  lc_bytes : string;
  lc_dylib_name : Z
}.

Inductive SymbolicFile :=
  | ELF (file : ELFObjectFile)
  | MachO (load_commands : list LoadCommand)
  | OtherSymbolicFile.

(** ** Reading memory *)
Definition byte (c : ascii) : Z := Z.of_nat (nat_of_ascii c).

Fixpoint word_le (s : string) : Z :=
  match s with
  | EmptyString => 0
  | String c rest => byte c + 256 * word_le rest
  end.

Fixpoint word_be (acc : Z) (s : string) : Z :=
  match s with
  | EmptyString => acc
  | String c rest => word_be (acc * 256 + byte c) rest
  end.

(** The packed, unaligned integers of [Elf_Dyn_Base<T>]. *)
Definition word (bigEndian : bool) (s : string) : Z := if bigEndian then word_be 0 s else word_le s.

(** The characters from an address of a block of memory to the first NUL. *)
Definition c_string_at (memory : string) (offset : Z) : outcome string :=
  let rest := String.substring (Z.to_nat offset) (String.length memory - Z.to_nat offset) memory in
  _ ← require (Z.ltb offset (Z.of_nat (String.length memory)) && negb (lacks nul rest)) "read past the end";
  mret (c_string rest).

(** ** ELF *)
Definition is_string_table (s : ElfSection) : bool := Z.eqb (es_type s) SHT_STRTAB && String.eqb (es_name s) ".dynstr".
Definition is_dynamic (s : ElfSection) : bool := Z.eqb (es_type s) SHT_DYNAMIC.

(** The last section of each of the two kinds. *)
Definition find_sections (sections : list ElfSection) : option ElfSection * option ElfSection :=
  foldl (fun found elfSection =>
    (if is_string_table elfSection then Some elfSection else found.1,
     if is_dynamic elfSection then Some elfSection else found.2)) (None, None) sections.

Definition dynamic_entry (file : ELFObjectFile) (stringTable dynamicSection : string) (libraries : list string) (i : nat)
    : outcome (list string) :=
  let offset := i * (2 * elf_wordSize file) in
  let d_tag := word (elf_bigEndian file) (String.substring offset (elf_wordSize file) dynamicSection) in
  let d_val := word (elf_bigEndian file) (String.substring (offset + elf_wordSize file) (elf_wordSize file) dynamicSection) in
  if Z.eqb d_tag DT_NEEDED then
    name ← c_string_at stringTable d_val; mret (libraries ++ [name])
  else mret libraries.

Definition librariesFromElf (file : ELFObjectFile) (libraries : list string) : outcome (list string) :=
  let found := find_sections (elf_sections file) in
  stringTable ← of_option "Could not find string table" found.1;
  dynamicSection ← of_option "Could not find .dynamic section" found.2;
  let sectionSize := String.length (es_content dynamicSection) in
  let entrySize := 2 * elf_wordSize file in
  _ ← require (Nat.eqb (sectionSize mod entrySize) 0) "Number of entries should be aligned with the size of the section";
  fold_outcome (dynamic_entry file (es_content stringTable) (es_content dynamicSection)) libraries
    (seq 0 (sectionSize / entrySize)).

(** ** Mach-O *)
Definition librariesFromMachO (load_commands : list LoadCommand) (libraries : list string) : outcome (list string) :=
  fold_outcome (fun libraries loadCommand =>
    if negb (Z.eqb (lc_cmd loadCommand) LC_LOAD_DYLIB) then mret libraries
    else name ← c_string_at (lc_bytes loadCommand) (lc_dylib_name loadCommand); mret (libraries ++ [name]))
    libraries load_commands.

(** ** Looking the libraries up *)
Section Lookup.
(** [llvm::sys::fs::exists], reading a file, and LLVM's parser of object files. *)
Context `{LLVMPath} (exists_file : string -> bool).
Context (getFile : string -> option string) (createSymbolicFile : string -> option SymbolicFile).

Definition resolveLibraryPath (library : string) (librarySearchPaths : list string) : string :=
  if is_absolute library then library
  else
    match find_first exists_file (map (fun searchPath => searchPath +:+ "/" +:+ library) librarySearchPaths) with
    | Some fullPath => fullPath
    | None => library
    end.

Definition resolve_step (librarySearchPaths : list string) (resolvedLibraries : list string) (library : string)
    : D (list string) :=
  let libraryPath := resolveLibraryPath library librarySearchPaths in
  if exists_file libraryPath then mret (resolvedLibraries ++ [libraryPath])
  else _ ← warning ("Could not find dynamic library: " +:+ library); mret resolvedLibraries.

Definition librariesOf (symbolicFile : SymbolicFile) : outcome (list string) :=
  match symbolicFile with
  | MachO load_commands => librariesFromMachO load_commands []
  | ELF file => librariesFromElf file []
  | OtherSymbolicFile => mret []
  end.

Definition findDynamicLibraries (executablePath : string) (librarySearchPaths : list string) : D (list string) :=
  buffer ← match getFile executablePath with
           | Some buffer => mret buffer
           | None => error ("Cannot open executable: " +:+ executablePath)
           end;
  symbolicFile ← match createSymbolicFile buffer with
                 | Some file => mret file
                 | None => error ("Cannot create symbolic file from: " +:+ executablePath)
                 end;
  libraries ← lift (librariesOf symbolicFile);
  d_fold (resolve_step librarySearchPaths) [] libraries.
End Lookup.

(** ** Encoding *)

Fixpoint encode_le (n : nat) (v : Z) : string :=
  match n with
  | 0 => ""
  | S n => String (ascii_of_nat (Z.to_nat (v mod 256))) (encode_le n (v / 256))
  end.

(** The most significant byte first. *)
Fixpoint encode_be (n : nat) (v : Z) : string :=
  match n with
  | 0 => ""
  | S n => encode_be n (v / 256) +:+ String (ascii_of_nat (Z.to_nat (v mod 256))) ""
  end.

Definition encode (bigEndian : bool) (n : nat) (v : Z) : string := if bigEndian then encode_be n v else encode_le n v.

Definition dynamic_bytes (bigEndian : bool) (n : nat) (entries : list (Z * Z)) : string :=
  String.concat "" (map (fun e => encode bigEndian n e.1 +:+ encode bigEndian n e.2) entries).

Open Scope Z_scope.

Lemma byte_of_nat v : 0 <= v < 256 -> byte (ascii_of_nat (Z.to_nat v)) = v.
Proof. intros Hv. unfold byte. rewrite nat_ascii_embedding by lia. lia. Qed.

Lemma word_be_app s1 s2 acc : word_be acc (s1 +:+ s2) = word_be (word_be acc s1) s2.
Proof. revert acc. induction s1 as [|c s1 IH]; intros acc; [done|]. cbn. apply IH. Qed.

Lemma div_range n v : 0 <= v < 256 ^ Z.of_nat (S n) -> 0 <= v / 256 < 256 ^ Z.of_nat n.
Proof.
  intros Hv. rewrite Nat2Z.inj_succ, Z.pow_succ_r in Hv by lia. split; [apply Z.div_pos; lia|].
  apply Z.div_lt_upper_bound; lia.
Qed.

(** Reading back what was written, in either order of the bytes. *)
Lemma word_encode big n v : 0 <= v < 256 ^ Z.of_nat n -> word big (encode big n v) = v.
Proof.
  pose proof (Z.mod_pos_bound v 256 ltac:(lia)) as Hm. unfold word, encode. destruct big; clear Hm.
  - revert v. induction n as [|n IH]; intros v Hv; [cbn in *; lia|]. cbn [encode_be].
    pose proof (Z.mod_pos_bound v 256 ltac:(lia)). rewrite word_be_app, IH by by apply div_range.
    cbn [word_be]. rewrite byte_of_nat by lia. pose proof (Z.div_mod v 256). lia.
  - revert v. induction n as [|n IH]; intros v Hv; [cbn in *; lia|]. cbn [encode_le word_le].
    pose proof (Z.mod_pos_bound v 256 ltac:(lia)). rewrite byte_of_nat, IH by (by apply div_range || lia).
    pose proof (Z.div_mod v 256). lia.
Qed.

Close Scope Z_scope.

Lemma length_encode big n v : String.length (encode big n v) = n.
Proof.
  unfold encode. destruct big; revert v; induction n as [|n IH]; intros v; [done| |done|]; cbn [encode_be encode_le].
  - rewrite string_length_app, IH. cbn. lia.
  - cbn. by rewrite IH.
Qed.

(** ** The entries of the dynamic section *)
Section Entries.
Context (file : ELFObjectFile) (stringTable : string) (name_at : Z -> string).

Definition in_word (v : Z) : Prop := (0 <= v < 256 ^ Z.of_nat (elf_wordSize file))%Z.

(** The values of the entries that name a library. *)
Definition needed (entries : list (Z * Z)) : list Z := map snd (List.filter (fun e => Z.eqb e.1 DT_NEEDED) entries).

Lemma dynamic_entry_at before tag value rest libraries k :
  in_word tag -> in_word value -> String.length before = k * (2 * elf_wordSize file) ->
  dynamic_entry file stringTable
    (before +:+ encode (elf_bigEndian file) (elf_wordSize file) tag +:+
     encode (elf_bigEndian file) (elf_wordSize file) value +:+ rest) libraries k =
  if Z.eqb tag DT_NEEDED then name ← c_string_at stringTable value; mret (libraries ++ [name]) else mret libraries.
Proof.
  intros Ht Hv Hk. unfold dynamic_entry. cbv zeta.
  rewrite (substring_mid before (encode _ _ tag)) by (rewrite ?length_encode; lia).
  rewrite <-(string_app_assoc before), <-Hk.
  rewrite (substring_mid (before +:+ _) (encode _ _ value)) by (rewrite ?string_length_app, ?length_encode; lia).
  by rewrite !word_encode.
Qed.

Lemma dynamic_entries entries : forall before libraries k,
  Forall (fun e => in_word e.1 /\ in_word e.2) entries ->
  (forall value, value ∈ needed entries -> c_string_at stringTable value = Ok (name_at value)) ->
  String.length before = k * (2 * elf_wordSize file) ->
  fold_outcome (dynamic_entry file stringTable (before +:+ dynamic_bytes (elf_bigEndian file) (elf_wordSize file) entries))
    libraries (seq k (length entries)) = Ok (libraries ++ map name_at (needed entries)).
Proof.
  induction entries as [|[tag value] entries IH]; intros before libraries k Hr Hn Hk; [by rewrite app_nil_r|].
  apply Forall_cons in Hr as [[Ht Hv] Hr]. cbn [fst snd] in Ht, Hv.
  replace (dynamic_bytes _ _ ((tag, value) :: entries)) with
    (encode (elf_bigEndian file) (elf_wordSize file) tag +:+ encode (elf_bigEndian file) (elf_wordSize file) value +:+
     dynamic_bytes (elf_bigEndian file) (elf_wordSize file) entries)
    by (unfold dynamic_bytes; cbn [map]; by rewrite string_concat_cons, string_app_assoc).
  cbn [length seq fold_outcome]. rewrite dynamic_entry_at by done.
  pose proof (fun libraries => IH (before +:+ encode (elf_bigEndian file) (elf_wordSize file) tag +:+
    encode (elf_bigEndian file) (elf_wordSize file) value) libraries (S k) Hr) as Hrest.
  rewrite !string_app_assoc, !string_length_app, !length_encode in Hrest.
  unfold needed in *. cbn [List.filter fst] in *. destruct (Z.eqb tag DT_NEEDED); cbn [map snd] in *.
  - rewrite Hn by by left. cbn [mbind outcome_bind mret outcome_ret]. rewrite Hrest; [by rewrite <-app_assoc| |lia].
    intros v Hin. apply Hn. by right.
  - cbn [mbind outcome_bind mret outcome_ret]. apply Hrest; [done|lia].
Qed.

Lemma length_dynamic_bytes entries :
  String.length (dynamic_bytes (elf_bigEndian file) (elf_wordSize file) entries) = length entries * (2 * elf_wordSize file).
Proof.
  unfold dynamic_bytes. induction entries as [|e entries IH]; [done|]. cbn [map length].
  rewrite string_concat_cons, !string_length_app, !length_encode, IH. lia.
Qed.
End Entries.

(** ** The libraries that are found *)
Section Located.
Context `{LLVMPath} (exists_file : string -> bool) (librarySearchPaths : list string).

Definition located (library : string) : bool := exists_file (resolveLibraryPath exists_file library librarySearchPaths).

Definition not_found (library : string) : string := "Could not find dynamic library: " +:+ library.

Lemma resolve_all libraries : forall acc d,
  strictModeEnabled d = false ->
  exists d', d_fold (resolve_step exists_file librarySearchPaths) acc libraries d =
      (Ok (acc ++ map (fun library => resolveLibraryPath exists_file library librarySearchPaths) (List.filter located libraries)), d') /\
    warnings d' = warnings d ++ map not_found (List.filter (fun library => negb (located library)) libraries).
Proof.
  induction libraries as [|library libraries IH]; intros acc d Hd.
  - exists d. cbn. by rewrite !app_nil_r.
  - cbn [d_fold List.filter]. rewrite D_bind_run. unfold resolve_step at 1. cbv zeta.
    change (exists_file (resolveLibraryPath exists_file library librarySearchPaths)) with (located library).
    destruct (located library); cbn [negb].
    + destruct (IH (acc ++ [resolveLibraryPath exists_file library librarySearchPaths]) d Hd) as (d' & Hrun & Hw).
      exists d'. cbn [map]. split; [|done]. cbn [mret D_ret]. rewrite Hrun. by rewrite <-app_assoc.
    + destruct (warning_lenient (not_found library) d Hd) as (d1 & Hwarn & Hd1 & Hw1).
      destruct (IH acc d1 Hd1) as (d' & Hrun & Hw). exists d'.
      unfold not_found in Hwarn. rewrite D_bind_run, Hwarn. cbn [mret D_ret map]. rewrite Hrun. split; [done|].
      by rewrite Hw, Hw1, <-app_assoc.
Qed.

(** Where a library is looked for. *)
Lemma resolveLibraryPath_cases library :
  located library = true ->
  let path := resolveLibraryPath exists_file library librarySearchPaths in
  exists_file path = true /\
  (path = library \/ is_absolute library = false /\ exists searchPath, searchPath ∈ librarySearchPaths /\ path = searchPath +:+ "/" +:+ library).
Proof.
  intros Hl. cbv zeta. split; [exact Hl|]. unfold resolveLibraryPath. destruct (is_absolute library); [by left|].
  destruct (find_first _ _) as [path|] eqn:E; [|by left]. right. split; [done|].
  apply find_first_Some in E as [(searchPath & -> & Hin)%list_elem_of_fmap _]. eauto.
Qed.
End Located.

(** ** Claims *)

(** C34: from an ELF executable of either width and byte order, the libraries its
    dynamic section asks for are read in order, whatever the other entries are;
    each is taken from where it exists (as it is when absolute, else in the
    first search path that has it, else in the working directory), and a library
    that is nowhere is left out with a warning naming it.  Every path returned
    exists. *)
Theorem findDynamicLibraries_elf `{LLVMPath} exists_file getFile createSymbolicFile executablePath librarySearchPaths
    buffer file strings dynamic entries name_at d :
  strictModeEnabled d = false ->
  getFile executablePath = Some buffer -> createSymbolicFile buffer = Some (ELF file) ->
  elf_wordSize file <> 0 ->
  find_sections (elf_sections file) = (Some strings, Some dynamic) ->
  es_content dynamic = dynamic_bytes (elf_bigEndian file) (elf_wordSize file) entries ->
  Forall (fun e => in_word file e.1 /\ in_word file e.2) entries ->
  (forall value, value ∈ needed entries -> c_string_at (es_content strings) value = Ok (name_at value)) ->
  let libraries := map name_at (needed entries) in
  exists paths d', findDynamicLibraries exists_file getFile createSymbolicFile executablePath librarySearchPaths d = (Ok paths, d') /\
    paths = map (fun library => resolveLibraryPath exists_file library librarySearchPaths)
              (List.filter (located exists_file librarySearchPaths) libraries) /\
    warnings d' = warnings d ++
      map not_found (List.filter (fun library => negb (located exists_file librarySearchPaths library)) libraries) /\
    Forall (fun path => exists_file path = true) paths.
Proof.
  intros Hd Hget Hcreate Hsize Hfind Hcontent Hr Hn libraries.
  assert (Helf : librariesFromElf file [] = Ok libraries).
  { unfold librariesFromElf. rewrite Hfind. cbn [fst snd of_option mbind outcome_bind].
    rewrite Hcontent, length_dynamic_bytes, Nat.Div0.mod_mul, Nat.div_mul by lia. cbn [Nat.eqb require mbind outcome_bind].
    exact (dynamic_entries file (es_content strings) name_at entries "" [] 0 Hr Hn eq_refl). }
  destruct (resolve_all exists_file librarySearchPaths libraries [] d Hd) as (d' & Hrun & Hw).
  eexists _, d'. split; [|split; [reflexivity|split; [exact Hw|]]].
  - unfold findDynamicLibraries. rewrite D_bind_run, Hget. cbn [mret D_ret]. rewrite D_bind_run, Hcreate. cbn [mret D_ret].
    rewrite D_bind_run. unfold lift. cbn [librariesOf]. by rewrite Helf.
  - apply Forall_forall. intros path (library & -> & Hin)%list_elem_of_fmap.
    apply list_elem_of_In, filter_In in Hin as [_ Hl]. exact Hl.
Qed.

Definition sample_strings : string := String nul ("libm.so" +:+ String nul ("libzz.so" +:+ String nul "")).

Definition sample_entries : list (Z * Z) := [(1, 1); (10, 5000); (1, 9); (0, 0)]%Z.

Definition sample_elf : ELFObjectFile := mkELF 8 false
  [mkElfSection ".shstrtab" SHT_STRTAB ""; mkElfSection ".dynstr" SHT_STRTAB sample_strings;
   mkElfSection ".dynamic" SHT_DYNAMIC (dynamic_bytes false 8 sample_entries)].

Definition sample_names (value : Z) : string := if Z.eqb value 1 then "libm.so" else "libzz.so".

Definition sample_exists (path : string) : bool := String.eqb path "/usr/lib/libm.so".

Lemma sample_in_word : Forall (fun e => in_word sample_elf e.1 /\ in_word sample_elf e.2) sample_entries.
Proof. repeat constructor; unfold in_word; cbn; lia. Qed.

Lemma sample_needed value : value ∈ needed sample_entries -> c_string_at sample_strings value = Ok (sample_names value).
Proof. intros [->|[->|[]%not_elem_of_nil]%elem_of_cons]%elem_of_cons; reflexivity. Qed.

Lemma findDynamicLibraries_elf_witness :
  exists paths d', findDynamicLibraries sample_exists (fun _ => Some "") (fun _ => Some (ELF sample_elf))
      "a.out" ["/lib"; "/usr/lib"] newDiagnostics = (Ok paths, d') /\
    paths = ["/usr/lib/libm.so"] /\ warnings d' = ["Could not find dynamic library: libzz.so"] /\
    Forall (fun path => sample_exists path = true) paths.
Proof.
  exact (findDynamicLibraries_elf sample_exists (fun _ => Some "") (fun _ => Some (ELF sample_elf)) "a.out" ["/lib"; "/usr/lib"]
    "" sample_elf (mkElfSection ".dynstr" SHT_STRTAB sample_strings)
    (mkElfSection ".dynamic" SHT_DYNAMIC (dynamic_bytes false 8 sample_entries)) sample_entries sample_names newDiagnostics
    eq_refl eq_refl eq_refl (Nat.neq_succ_0 7) eq_refl eq_refl sample_in_word sample_needed).
Defined.
