(* ===== verification/Loading.v ===== *)
(** * Loading (lib/BitcodeLoader.cpp, lib/ObjectLoader.cpp, lib/BitcodeMetadataReader.cpp,
    lib/Parallelization/Tasks/{LoadBitcodeFromBinary,BitcodeLoading,LoadObjectFiles}Task.cpp)

    Bitcode, embedded in the executable or in files of its own, becomes modules
    named after the digest of their bytes; what the compiler recorded in them
    about how they were compiled is collected.  Parsing bitcode and object files
    is LLVM's. *)

From stdpp Require Import base list strings.
From Stdlib Require Import ZArith Lia Bool.
From S2P Require Import Prelude StdContainers StringFacts Diagnostics IR SourceLocation Samples MutationPoint Bitcode.
From S2P Require Import Program CompilationDatabase.

(** A compile unit of the debug information. *)
Record DICompileUnit := mkCompileUnit {
  cu_directory : string;
  cu_filename : string;
  cu_flags : string
}.

(** A parsed module; without the named metadata of debug information it has no
    list of units at all. *)
Record ParsedModule := mkParsedModule {
  pm_unit : Unit;
  pm_debug_compile_units : option (list DICompileUnit)
}.

(** A [mull::Bitcode] with all of its module. *)
Record LoadedBitcode := mkLoadedBitcode {
  lb_bitcode : Bitcode;
  lb_unit : Unit;
  lb_debug_compile_units : list DICompileUnit
}.

Section Loader.
Context `{LLVMPath, Hasher} (parseBitcode : string -> option ParsedModule) (getFile : string -> option string).

Definition loadModuleFromBuffer (buffer : string) : string * option ParsedModule :=
  let module := parseBitcode buffer in
  let md5 := md5_hex buffer in
  (md5, module).

(** [make_unique<Bitcode>(module, buffer, hash)]: the object is [id]. *)
Definition makeBitcode (id : nat) (u : Unit) (units : option (list DICompileUnit)) (hash : string) : LoadedBitcode :=
  mkLoadedBitcode (newBitcode id (u_module u) hash) u (default [] units).

Definition setModuleIdentifier (identifier : string) (u : Unit) : Unit :=
  mkUnit (mkModule identifier (mod_sourceFileName (u_module u)) (mod_functions (u_module u))) (u_aliases u) (u_globals u).

Definition noDebugInformation : string := "Bitcode module does not have debug information.".

(** The module is used before it is asserted to be there. *)
Definition load_embedded (storage : list LoadedBitcode) (item : nat * string) : D (list LoadedBitcode) :=
  let '(id, data) := item in
  _ ← lift (require (negb (empty_string data)) "size");
  let '(hash, parsed) := loadModuleFromBuffer data in
  module ← lift (of_option "null module" parsed);
  _ ← match pm_debug_compile_units module with
      | None => warning noDebugInformation
      | Some _ => mret tt
      end;
  mret (storage ++ [makeBitcode id (setModuleIdentifier hash (pm_unit module)) (pm_debug_compile_units module) hash]).

Definition LoadBitcodeFromBinaryTask (storage : list LoadedBitcode) (batch : list (nat * string)) : D (list LoadedBitcode) :=
  d_fold load_embedded storage batch.

(** [error] does not return, so neither [return nullptr] is reached. *)
Definition loadBitcodeAtPath (id : nat) (path : string) : D (option LoadedBitcode) :=
  match getFile path with
  | None => error ("Cannot load module " +:+ path +:+ eol)
  | Some buffer =>
      let '(hash, parsed) := loadModuleFromBuffer buffer in
      match parsed with
      | None => error ("Cannot parse bitcode " +:+ path +:+ eol)
      | Some module => mret (Some (makeBitcode id (pm_unit module) (pm_debug_compile_units module) hash))
      end
  end.

Definition BitcodeLoadingTask (storage : list LoadedBitcode) (batch : list (nat * string)) : D (list LoadedBitcode) :=
  d_fold (fun storage item =>
    bitcode ← loadBitcodeAtPath item.1 item.2;
    mret (match bitcode with Some bitcode => storage ++ [bitcode] | None => storage end)) storage batch.

(** ** BitcodeMetadataReader *)
Definition unit_entry (bitcodeCompilationFlags : list (string * string)) (unit : DICompileUnit) : list (string * string) :=
  let unitFullPath := absoluteFilePath (cu_directory unit) (cu_filename unit) in
  if negb (empty_string (cu_flags unit)) then omap_assign unitFullPath (cu_flags unit) bitcodeCompilationFlags
  else bitcodeCompilationFlags.

Definition getCompilationDatabase (bitcode : list LoadedBitcode) : list (string * string) :=
  foldl (fun flags bitcodeModule => foldl unit_entry flags (lb_debug_compile_units bitcodeModule)) [] bitcode.
End Loader.

(** ** Object files *)
Section Objects.
Context {ObjectFile : Type} (createObjectFile : string -> option ObjectFile).

Definition cannot_load (path : string) : string := "Cannot load object file: " +:+ path.

Definition LoadObjectFilesTask (storage : list ObjectFile) (batch : list string) : D (list ObjectFile) :=
  d_fold (fun storage objectFilePath =>
    match createObjectFile objectFilePath with
    | None => _ ← warning (cannot_load objectFilePath); mret storage
    | Some objectFile => mret (storage ++ [objectFile])
    end) storage batch.

(** [objectFile.get()] is taken after the warning too. *)
Definition loadObjectFiles (objectFilePaths : list string) : D (list ObjectFile) :=
  d_fold (fun objectFiles path =>
    let objectFile := createObjectFile path in
    _ ← match objectFile with None => warning (cannot_load path) | Some _ => mret tt end;
    file ← lift (of_option "Expected<T> holds an error" objectFile);
    mret (objectFiles ++ [file])) [] objectFilePaths.
End Objects.

(** ** What is loaded from the executable *)
Section Embedded.
Context `{LLVMPath, Hasher} (parseBitcode : string -> option ParsedModule).

(** What one embedded file becomes. *)
Definition embedded (item : nat * string) (module : ParsedModule) : LoadedBitcode :=
  makeBitcode item.1 (setModuleIdentifier (md5_hex item.2) (pm_unit module)) (pm_debug_compile_units module) (md5_hex item.2).

Definition no_units (module : ParsedModule) : bool :=
  match pm_debug_compile_units module with None => true | Some _ => false end.

Lemma load_embedded_run storage item module d :
  item.2 <> "" -> parseBitcode item.2 = Some module ->
  load_embedded parseBitcode storage item d =
  (_ ← (if no_units module then warning noDebugInformation else mret tt); mret (storage ++ [embedded item module])) d.
Proof.
  destruct item as [id data]. cbn [fst snd]. intros Hdata%String.eqb_neq Hparse.
  unfold load_embedded, loadModuleFromBuffer, empty_string, no_units. rewrite Hdata, Hparse. cbn [negb require of_option].
  rewrite D_bind_run. unfold lift at 1. rewrite D_bind_run. unfold lift at 1.
  by destruct (pm_debug_compile_units module) eqn:E; unfold embedded; cbn [fst snd]; rewrite E.
Qed.

Lemma load_all items modules : forall storage d,
  strictModeEnabled d = false ->
  Forall2 (fun item module => item.2 <> "" /\ parseBitcode item.2 = Some module) items modules ->
  exists d', LoadBitcodeFromBinaryTask parseBitcode storage items d = (Ok (storage ++ zip_with embedded items modules), d') /\
    warnings d' = warnings d ++ map (fun _ => noDebugInformation) (List.filter no_units modules).
Proof.
  intros storage d Hd Hitems. revert storage d Hd. unfold LoadBitcodeFromBinaryTask.
  induction Hitems as [|item module items modules [Hdata Hparse] _ IH]; intros storage d Hd.
  - exists d. cbn. by rewrite !app_nil_r.
  - cbn [d_fold zip_with List.filter]. rewrite D_bind_run, (load_embedded_run storage item module d Hdata Hparse), D_bind_run.
    destruct (no_units module).
    + destruct (warning_lenient noDebugInformation d Hd) as (d1 & -> & Hd1 & Hw1). cbn [mret D_ret].
      destruct (IH (storage ++ [embedded item module]) d1 Hd1) as (d' & -> & Hw). exists d'.
      rewrite Hw, Hw1, <-!app_assoc. by split.
    + cbn [mret D_ret]. destruct (IH (storage ++ [embedded item module]) d Hd) as (d' & -> & Hw). exists d'.
      by rewrite <-app_assoc.
Qed.
Lemma embedded_identifiers items : forall modules,
  length items = length modules ->
  identifiers (map lb_unit (zip_with embedded items modules)) = map (fun item => md5_hex item.2) items /\
  map (fun b => bitcode_uniqueIdentifier (bc_ptr (lb_bitcode b))) (zip_with embedded items modules) =
    map (fun item => path_stem (md5_hex item.2) +:+ "_" +:+ md5_hex item.2) items.
Proof.
  induction items as [|item items IH]; intros [|module modules] Hlen; [done..|]. injection Hlen as Hlen.
  destruct (IH modules Hlen) as [IH1 IH2]. cbn [zip_with map]. by rewrite IH1, IH2.
Qed.
End Embedded.

(** ** The flags recorded in the bitcode *)

(** The units that say how the file at a path was compiled. *)
Definition compiled_with `{LLVMPath} (path : string) (unit : DICompileUnit) : bool :=
  String.eqb (absoluteFilePath (cu_directory unit) (cu_filename unit)) path && negb (empty_string (cu_flags unit)).

Lemma unit_entries_find `{LLVMPath} path units : forall flags,
  omap_find path (foldl unit_entry flags units) =
  match last (List.filter (compiled_with path) units) with
  | Some unit => Some (cu_flags unit)
  | None => omap_find path flags
  end.
Proof.
  induction units as [|unit units IH] using rev_ind; intros flags; [done|].
  rewrite foldl_snoc, List.filter_app. cbn [List.filter]. unfold unit_entry at 1, compiled_with at 2.
  destruct (empty_string (cu_flags unit)); cbn [negb]; [by rewrite andb_false_r, app_nil_r|]. rewrite andb_true_r.
  destruct (String.eqb_spec (absoluteFilePath (cu_directory unit) (cu_filename unit)) path) as [<-|Hne].
  - by rewrite last_snoc, omap_find_assign_eq.
  - by rewrite app_nil_r, omap_find_assign_ne.
Qed.

Lemma unit_entries_wf `{LLVMPath} units : forall flags, omap_wf flags -> omap_wf (foldl unit_entry flags units).
Proof.
  induction units as [|unit units IH]; intros flags Hwf; [done|]. cbn [foldl]. apply IH. unfold unit_entry.
  destruct (negb _); auto with mull.
Qed.

Lemma getCompilationDatabase_flat `{LLVMPath} bitcode :
  getCompilationDatabase bitcode = foldl unit_entry [] (concat (map lb_debug_compile_units bitcode)).
Proof.
  unfold getCompilationDatabase. generalize (@nil (string * string)) as flags.
  induction bitcode as [|b bitcode IH]; intros flags; [done|]. cbn [foldl map concat]. by rewrite IH, foldl_app.
Qed.

(** Each entry of a map is turned into one entry. *)
Lemma createBitcodeFlags_find extraFlags bitcodeFlags path flags :
  omap_wf bitcodeFlags -> omap_find path bitcodeFlags = Some flags ->
  omap_find path (createBitcodeFlags bitcodeFlags extraFlags) =
  Some (erase_value path (filterFlags (flagsFromString flags) true) ++ extraFlags).
Proof.
  intros Hwf Hfind. unfold createBitcodeFlags.
  enough (Hgen : forall merged, omap_find path (foldl (bitcode_entry extraFlags) merged bitcodeFlags) =
    match omap_find path bitcodeFlags with
    | Some flags => Some (erase_value path (filterFlags (flagsFromString flags) true) ++ extraFlags)
    | None => omap_find path merged
    end) by by rewrite Hgen, Hfind.
  clear Hfind. induction bitcodeFlags as [|[k v] l IH]; intros merged; [done|]. cbn [foldl].
  pose proof (omap_wf_tail _ _ _ Hwf) as Hwf'. rewrite (IH Hwf'), omap_find_cons by done. unfold bitcode_entry. cbn [fst snd].
  destruct (decide (k = path)) as [<-|Hne].
  - by rewrite !key_lt_irrefl, (omap_find_fresh _ _ _ Hwf), omap_find_assign_eq.
  - rewrite omap_find_assign_ne by auto. destruct (key_lt path k) eqn:E1; [done|]. destruct (key_lt k path) eqn:E2; [done|].
    by destruct Hne; apply key_lt_total.
Qed.

(** ** Claims *)

(** From the bitcode embedded in an executable every file becomes a module
    named after the digest of its bytes, in order, with one warning for each that
    has no debug information; and a program is made of them exactly when the
    digests are distinct, in which case each is found under its digest: the same
    bitcode embedded twice stops the tool. *)
Theorem embedded_program `{LLVMPath, Hasher} parseBitcode items modules d :
  strictModeEnabled d = false ->
  Forall2 (fun item module => item.2 <> "" /\ parseBitcode item.2 = Some module) items modules ->
  let digests := map (fun item => md5_hex item.2) items in
  exists loaded d', LoadBitcodeFromBinaryTask parseBitcode [] items d = (Ok loaded, d') /\
    warnings d' = warnings d ++ map (fun _ => noDebugInformation) (List.filter no_units modules) /\
    identifiers (map lb_unit loaded) = digests /\
    map (fun b => bitcode_uniqueIdentifier (bc_ptr (lb_bitcode b))) loaded = map (fun hash => path_stem hash +:+ "_" +:+ hash) digests /\
    match newProgram (map lb_unit loaded) with
    | Ok p => NoDup digests /\ forall digest, bitcodeWithIdentifier p digest = None <-> digest ∉ digests
    | Exit _ => False
    | Abort _ => ~ NoDup digests
    end.
Proof.
  intros Hd Hitems digests. destruct (load_all parseBitcode items modules [] d Hd Hitems) as (d' & Hrun & Hw).
  exists (zip_with embedded items modules), d'. split; [exact Hrun|]. split; [exact Hw|].
  destruct (embedded_identifiers items modules (Forall2_length _ _ _ Hitems)) as [Hids Huids].
  split; [exact Hids|]. split; [rewrite Huids; unfold digests; by rewrite map_map|].
  pose proof (newProgram_spec (map lb_unit (zip_with embedded items modules)) [] emptyProgram program_of_empty NoDup_nil_2) as Hspec.
  unfold newProgram. cbn [app] in Hspec. rewrite Hids in Hspec. destruct (fold_outcome _ _ _) as [p| |]; [|done..].
  destruct Hspec as [Hnd Hp]. split; [done|]. intros digest. rewrite (bitcode_missing _ _ _ Hp). by rewrite Hids.
Qed.

#[local] Existing Instance concatenating_hasher.

Definition sample_parsed (data : string) : option ParsedModule :=
  Some (mkParsedModule (mkUnit sample_module [] [])
    (if String.eqb data "b" then None else Some [mkCompileUnit "/home/dev" "sum.cpp" "clang -O1 -c sum.cpp"])).

Lemma embedded_program_witness :
  exists loaded d', LoadBitcodeFromBinaryTask sample_parsed [] [(0, "a"); (1, "b"); (2, "a")] newDiagnostics = (Ok loaded, d') /\
    warnings d' = [noDebugInformation] /\
    identifiers (map lb_unit loaded) = ["a"; "b"; "a"] /\
    map (fun b => bitcode_uniqueIdentifier (bc_ptr (lb_bitcode b))) loaded =
      map (fun hash => path_stem hash +:+ "_" +:+ hash) ["a"; "b"; "a"] /\
    match newProgram (map lb_unit loaded) with
    | Ok p => NoDup ["a"; "b"; "a"] /\ forall digest, bitcodeWithIdentifier p digest = None <-> digest ∉ ["a"; "b"; "a"]
    | Exit _ => False
    | Abort _ => ~ NoDup ["a"; "b"; "a"]
    end.
Proof.
  refine (embedded_program sample_parsed [(0, "a"); (1, "b"); (2, "a")]
    [mkParsedModule (mkUnit sample_module [] []) (Some [mkCompileUnit "/home/dev" "sum.cpp" "clang -O1 -c sum.cpp"]);
     mkParsedModule (mkUnit sample_module [] []) None;
     mkParsedModule (mkUnit sample_module [] []) (Some [mkCompileUnit "/home/dev" "sum.cpp" "clang -O1 -c sum.cpp"])]
    newDiagnostics eq_refl _).
  repeat constructor; discriminate.
Defined.

(** A file the compiler recorded flags for is parsed, for junk detection,
    with these flags (those of the last unit that names it) less the compiler,
    [-c] and the file itself, followed by the flags of mull's command line,
    whatever a compilation database says of it. *)
Theorem embedded_flags_used `{LLVMPath} read_commands path flags bitcode db d d' file unit :
  last (List.filter (compiled_with file) (concat (map lb_debug_compile_units bitcode))) = Some unit ->
  newCompilationDatabase read_commands path flags (getCompilationDatabase bitcode) d = (Ok db, d') ->
  compilationFlagsForFile db file =
  erase_value file (filterFlags (flagsFromString (cu_flags unit)) true) ++ filterFlags (flagsFromString flags) false.
Proof.
  intros Hlast Hdb. unfold newCompilationDatabase in Hdb. rewrite D_bind_run in Hdb.
  destruct (loadDatabaseFromFile _ _ _ d) as [[db0|c|w] d1]; [|done|done]. injection Hdb as <- <-.
  rewrite getCompilationDatabase_flat. set (units := concat _) in *.
  assert (Hfind : omap_find file (foldl unit_entry [] units) = Some (cu_flags unit)) by by rewrite unit_entries_find, Hlast.
  pose proof (createBitcodeFlags_find (filterFlags (flagsFromString flags) false) _ file _ (unit_entries_wf units [] omap_wf_nil) Hfind) as Hflags.
  unfold compilationFlagsForFile. cbn [database bitcodeFlags extraFlags]. rewrite Hflags.
  destruct db0; [|done]. by destruct (createBitcodeFlags _ _).
Qed.

Lemma embedded_flags_used_witness :
  exists db d', newCompilationDatabase (fun _ => None) "" "-O2" (getCompilationDatabase
      [makeBitcode 0 (mkUnit sample_module [] []) (Some [mkCompileUnit "/home/dev" "sum.cpp" "clang -g -c x.cpp"]) "a"]) newDiagnostics = (Ok db, d') /\
    compilationFlagsForFile db "/home/dev/sum.cpp" = ["-g"; "-O2"].
Proof.
  do 2 eexists. split; [reflexivity|].
  exact (embedded_flags_used (fun _ => None) "" "-O2"
    [makeBitcode 0 (mkUnit sample_module [] []) (Some [mkCompileUnit "/home/dev" "sum.cpp" "clang -g -c x.cpp"]) "a"] _ newDiagnostics _
    "/home/dev/sum.cpp" (mkCompileUnit "/home/dev" "sum.cpp" "clang -g -c x.cpp") eq_refl eq_refl).
Defined.

(** ** Loading object files *)
Section ObjectFiles.
Context {ObjectFile : Type} (createObjectFile : string -> option ObjectFile).

Definition loadable (path : string) : bool := match createObjectFile path with Some _ => true | None => false end.

Lemma LoadObjectFilesTask_run paths : forall storage d,
  strictModeEnabled d = false ->
  exists d', LoadObjectFilesTask createObjectFile storage paths d = (Ok (storage ++ omap createObjectFile paths), d') /\
    warnings d' = warnings d ++ map cannot_load (List.filter (fun path => negb (loadable path)) paths).
Proof.
  unfold LoadObjectFilesTask. induction paths as [|path paths IH]; intros storage d Hd; [exists d; cbn; by rewrite !app_nil_r|].
  cbn [d_fold omap list_omap List.filter]. rewrite D_bind_run. unfold loadable at 1.
  destruct (createObjectFile path) as [o|]; cbn [negb].
  - cbn [mret D_ret]. destruct (IH (storage ++ [o]) d Hd) as (d' & -> & Hw). exists d'. by rewrite <-app_assoc.
  - rewrite D_bind_run. destruct (warning_lenient (cannot_load path) d Hd) as (d1 & -> & Hd1 & Hw1). cbn [mret D_ret].
    destruct (IH storage d1 Hd1) as (d' & -> & Hw). exists d'. by rewrite Hw, Hw1, <-app_assoc.
Qed.

Lemma loadObjectFiles_run paths : forall storage d,
  strictModeEnabled d = false ->
  let result := d_fold (fun objectFiles path =>
    let objectFile := createObjectFile path in
    _ ← match objectFile with None => warning (cannot_load path) | Some _ => mret tt end;
    file ← lift (of_option "Expected<T> holds an error" objectFile);
    mret (objectFiles ++ [file])) storage paths d in
  if forallb loadable paths then result = (Ok (storage ++ omap createObjectFile paths), d)
  else result.1 = Abort "Expected<T> holds an error".
Proof.
  induction paths as [|path paths IH]; intros storage d Hd; [cbn; by rewrite app_nil_r|].
  cbn [d_fold omap list_omap forallb]. unfold loadable at 1. rewrite D_bind_run.
  destruct (createObjectFile path) as [o|] eqn:E; cbn [andb].
  - rewrite D_bind_run. cbn [mret D_ret]. rewrite D_bind_run. unfold lift. cbn [of_option mret outcome_ret D_ret].
    specialize (IH (storage ++ [o]) d Hd). cbv zeta in IH. rewrite <-app_assoc in IH. exact IH.
  - rewrite D_bind_run. destruct (warning_lenient (cannot_load path) d Hd) as (d1 & -> & _ & _). done.
Qed.
End ObjectFiles.
