(* ===== verification/ASTStorage.v ===== *)
(** * The parsed sources (lib/JunkDetection/CXX/ASTStorage.cpp)

    [ASTStorage] parses a source file when it is first asked for, with the flags
    the compilation database has for it, and keeps the unit.  It is asked by
    several threads, one at a time: its mutex makes any run a sequence of
    queries.  Parsing is clang's; the storage records every command line clang is
    started on, so that how often a file is parsed can be told. *)

From stdpp Require Import base list strings gmap.
From Stdlib Require Import ZArith Lia Bool.
From S2P Require Import Prelude StdContainers StringFacts Diagnostics IR SourceLocation Samples MutatorKind MutationPoint ClangAST.
From S2P Require Import ASTSearch CompilationDatabase JunkDetection.

Record ASTStorage := mkASTStorage {
  compilationDatabase : CompilationDatabase;
  (** a unit that could not be parsed is kept as a null pointer *)
  astUnits : gmap string (option ASTUnit);
  mutations : ASTMutationStorage;
  (** not in the code: what clang was started on, in order *)
  clang_commands : list (list string)
}.

(** The files of a sequence of queries that are parsed, when they are. *)
Fixpoint parsed_files (known : gset string) (files : list string) : list string :=
  match files with
  | [] => []
  | file :: rest => if decide (file ∈ known) then parsed_files known rest else file :: parsed_files ({[file]} ∪ known) rest
  end.

Lemma parsed_files_NoDup files : forall known, NoDup (parsed_files known files) /\ forall f, f ∈ parsed_files known files <-> f ∈ files /\ f ∉ known.
Proof.
  induction files as [|file files IH]; intros known; cbn [parsed_files]; [split; [constructor|set_solver]|].
  destruct (decide (file ∈ known)) as [Hin|Hnin].
  - destruct (IH known) as [Hnd Hf]. split; [done|]. intros f. rewrite Hf, elem_of_cons. split; [tauto|].
    intros [[->|?] ?]; [done|tauto].
  - destruct (IH ({[file]} ∪ known)) as [Hnd Hf]. split.
    + constructor; [|done]. rewrite Hf. set_solver.
    + intros f. rewrite !elem_of_cons, Hf. destruct (decide (f = file)) as [->|]; set_solver.
Qed.

Lemma parsed_files_sublist files : forall known, parsed_files known files `sublist_of` files.
Proof.
  induction files as [|file files IH]; intros known; cbn [parsed_files]; [done|].
  destruct (decide (file ∈ known)); [by apply sublist_cons|by apply sublist_skip].
Qed.

Section Storage.
Context `{LLVMPath}.
(** [ASTUnit::LoadFromCommandLine]: the unit, if any, and whether errors of any
    of the kinds asked about occurred. *)
Context (LoadFromCommandLine : list string -> option ASTUnit * bool).

Definition newASTStorage (read_commands : string -> option (list CompileCommand * bool))
    (cxxCompilationDatabasePath cxxCompilationFlags : string) (bitcodeCompilationFlags : list (string * string))
    : D ASTStorage :=
  db ← newCompilationDatabase read_commands cxxCompilationDatabasePath cxxCompilationFlags bitcodeCompilationFlags;
  mret (mkASTStorage db ∅ ∅ []).

Definition arguments (db : CompilationDatabase) (sourceFile : string) : list string :=
  ["mull-cxx"] ++ compilationFlagsForFile db sourceFile ++ [sourceFile].

Definition parse_message (sourceFile : string) (args : list string) : string :=
  "Cannot parse file: '" +:+ sourceFile +:+ "':" +:+ eol +:+
  String.concat "" (map (fun arg => arg +:+ " ") args) +:+ eol +:+
  "Make sure that the flags provided to Mull are the same flags that are used for normal compilation.".

(** Starting clang: the only way to a unit. *)
Definition run_clang (storage : ASTStorage) (args : list string) : (option ASTUnit * bool) * ASTStorage :=
  (LoadFromCommandLine args,
   mkASTStorage (compilationDatabase storage) (astUnits storage) (mutations storage) (clang_commands storage ++ [args])).

Definition findAST_file (storage : ASTStorage) (sourceFile : string) : D (option ASTUnit * ASTStorage) :=
  match astUnits storage !! sourceFile with
  | Some ast => mret (ast, storage)
  | None =>
      let args := arguments (compilationDatabase storage) sourceFile in
      let '((ast, errorOccurred), storage) := run_clang storage args in
      let hasErrors := bool_decide (ast = None) || errorOccurred in
      _ ← (if hasErrors then warning (parse_message sourceFile args) else mret tt);
      mret (ast, mkASTStorage (compilationDatabase storage) (<[sourceFile := ast]> (astUnits storage)) (mutations storage)
                   (clang_commands storage))
  end.

(** Queries, one after the other. *)
Definition query (st : list (option ASTUnit) * ASTStorage) (sourceFile : string) : D (list (option ASTUnit) * ASTStorage) :=
  r ← findAST_file st.2 sourceFile; mret (st.1 ++ [r.1], r.2).

(** ** The units, without the cache *)
Definition parse (db : CompilationDatabase) (sourceFile : string) : option ASTUnit :=
  (LoadFromCommandLine (arguments db sourceFile)).1.

Definition has_errors (db : CompilationDatabase) (sourceFile : string) : bool :=
  bool_decide (parse db sourceFile = None) || (LoadFromCommandLine (arguments db sourceFile)).2.

(** What is kept is what parsing gives. *)
Definition units_current (storage : ASTStorage) : Prop :=
  forall file ast, astUnits storage !! file = Some ast -> ast = parse (compilationDatabase storage) file.

Lemma findAST_file_run storage file d :
  strictModeEnabled d = false -> units_current storage ->
  let db := compilationDatabase storage in
  exists storage' d', findAST_file storage file d = (Ok (parse db file, storage'), d') /\
    units_current storage' /\ compilationDatabase storage' = db /\ mutations storage' = mutations storage /\
    dom (astUnits storage') = {[file]} ∪ dom (astUnits storage) /\ strictModeEnabled d' = false /\
    clang_commands storage' = clang_commands storage ++
      (if decide (file ∈ dom (astUnits storage)) then [] else [arguments db file]) /\
    warnings d' = warnings d ++
      if decide (file ∈ dom (astUnits storage)) then []
      else if has_errors db file then [parse_message file (arguments db file)] else [].
Proof.
  intros Hd Hc db. unfold findAST_file. destruct (astUnits storage !! file) as [ast|] eqn:E.
  - pose proof (elem_of_dom_2 _ _ _ E) as Hin. exists storage, d. rewrite (Hc _ _ E). rewrite !decide_True by done.
    rewrite !app_nil_r. repeat split; [done..|set_solver|done].
  - pose proof (proj2 (not_elem_of_dom _ _) E) as Hnin. rewrite !decide_False by done. fold db.
    assert (Hc' : units_current (mkASTStorage db (<[file := parse db file]> (astUnits storage)) (mutations storage)
      (clang_commands storage ++ [arguments db file]))).
    { intros f ast. cbn [astUnits compilationDatabase]. destruct (decide (f = file)) as [->|Hne].
      - rewrite lookup_insert_eq. by intros [= <-].
      - rewrite lookup_insert_ne by done. apply Hc. }
    unfold has_errors, run_clang. cbn [compilationDatabase astUnits mutations clang_commands]. fold db.
    destruct (LoadFromCommandLine (arguments db file)) as [ast errors] eqn:El.
    assert (Hp : parse db file = ast) by (unfold parse; by rewrite El). rewrite Hp in *. cbn [snd].
    rewrite D_bind_run. destruct (bool_decide (ast = None) || errors).
    + destruct (warning_lenient (parse_message file (arguments db file)) d Hd) as (d' & -> & Hd' & Hw).
      eexists _, d'. split; [reflexivity|]. repeat split; [done| |done..]. cbn [astUnits]. apply dom_insert_L.
    + eexists _, d. split; [reflexivity|]. rewrite app_nil_r. repeat split; [done| |done..]. cbn [astUnits]. apply dom_insert_L.
Qed.

Lemma queries_run files : forall answers storage d,
  strictModeEnabled d = false -> units_current storage ->
  let db := compilationDatabase storage in
  exists storage' d', d_fold query (answers, storage) files d = (Ok (answers ++ map (parse db) files, storage'), d') /\
    units_current storage' /\ compilationDatabase storage' = db /\ mutations storage' = mutations storage /\
    clang_commands storage' = clang_commands storage ++ map (arguments db) (parsed_files (dom (astUnits storage)) files) /\
    warnings d' = warnings d ++ map (fun file => parse_message file (arguments db file))
                                  (List.filter (has_errors db) (parsed_files (dom (astUnits storage)) files)).
Proof.
  induction files as [|file files IH]; intros answers storage d Hd Hc db.
  - exists storage, d. cbn. by rewrite !app_nil_r.
  - destruct (findAST_file_run storage file d Hd Hc) as (s1 & d1 & Hrun & Hc1 & Hdb & Hm & Hdom & Hd1 & Hcmd1 & Hw1).
    fold db in Hrun, Hdb, Hcmd1, Hw1.
    destruct (IH (answers ++ [parse db file]) s1 d1 Hd1 Hc1) as (s' & d' & Hrun' & Hc' & Hdb' & Hm' & Hcmd' & Hw').
    rewrite Hdb in Hrun', Hdb', Hcmd', Hw'. exists s', d'. split; [|split; [done|]; split; [done|]; split; [congruence|]; split].
    + cbn [d_fold map]. rewrite D_bind_run. unfold query at 1. rewrite D_bind_run. cbn [fst snd]. rewrite Hrun. cbn [mret D_ret fst snd].
      by rewrite Hrun', <-app_assoc.
    + rewrite Hcmd', Hcmd1, Hdom, <-app_assoc. f_equal. cbn [parsed_files].
      destruct (decide (file ∈ dom (astUnits storage))) as [Hin|Hnin]; [|done].
      by replace ({[file]} ∪ dom (astUnits storage)) with (dom (astUnits storage)) by set_solver.
    + rewrite Hw', Hw1, Hdom, <-app_assoc. f_equal. cbn [parsed_files].
      destruct (decide (file ∈ dom (astUnits storage))) as [Hin|Hnin].
      * by replace ({[file]} ∪ dom (astUnits storage)) with (dom (astUnits storage)) by set_solver.
      * cbn [List.filter]. by destruct (has_errors db file).
Qed.

End Storage.

(** C35: however often and in whatever order files are asked for, every answer is
    the file parsed with its flags; clang is started exactly once on each file
    asked for that was not in the storage yet, in an order in which they are asked
    for, and on no other, whether the file parses or not; one that does not is
    warned about once, with the command line used; and neither the flags nor the
    recorded mutations change. *)
Theorem findAST_parses_once `{LLVMPath} LoadFromCommandLine storage files d :
  strictModeEnabled d = false -> units_current LoadFromCommandLine storage ->
  let db := compilationDatabase storage in
  exists storage' d', d_fold (query LoadFromCommandLine) ([], storage) files d =
      (Ok (map (parse LoadFromCommandLine db) files, storage'), d') /\
    units_current LoadFromCommandLine storage' /\ compilationDatabase storage' = db /\ mutations storage' = mutations storage /\
    exists parsed, NoDup parsed /\ (forall file, file ∈ parsed <-> file ∈ files /\ file ∉ dom (astUnits storage)) /\
      parsed `sublist_of` files /\
      clang_commands storage' = clang_commands storage ++ map (arguments db) parsed /\
      warnings d' = warnings d ++ map (fun file => parse_message file (arguments db file))
                                    (List.filter (has_errors LoadFromCommandLine db) parsed).
Proof.
  intros Hd Hc db. destruct (queries_run LoadFromCommandLine files [] storage d Hd Hc) as (s' & d' & Hrun & Hc' & Hdb & Hm & Hcmd & Hw).
  exists s', d'. split; [exact Hrun|]. split; [done|]. split; [done|]. split; [done|].
  exists (parsed_files (dom (astUnits storage)) files). destruct (parsed_files_NoDup files (dom (astUnits storage))) as [Hnd Hf].
  split; [done|]. split; [done|]. split; [apply parsed_files_sublist|]. by split.
Qed.

Definition sample_load (args : list string) : option ASTUnit * bool :=
  if bool_decide ("broken.cpp" ∈ args) then (None, true) else (Some sample_ast, false).

Definition sample_storage : ASTStorage := mkASTStorage (mkCompilationDatabase ["-O1"] [] []) ∅ ∅ [].

Lemma sample_storage_current : units_current sample_load sample_storage.
Proof. intros file ast. cbn. by rewrite lookup_empty. Qed.

(** The file that does not parse is kept as well: asked for twice, it is parsed
    once. *)
Lemma findAST_parses_once_witness :
  exists storage' d', d_fold (query sample_load) ([], sample_storage) ["sum.cpp"; "broken.cpp"; "sum.cpp"; "broken.cpp"] newDiagnostics =
      (Ok ([Some sample_ast; None; Some sample_ast; None], storage'), d') /\
    (exists parsed, NoDup parsed /\ clang_commands storage' = map (arguments (compilationDatabase sample_storage)) parsed) /\
    clang_commands storage' = [["mull-cxx"; "-O1"; "sum.cpp"]; ["mull-cxx"; "-O1"; "broken.cpp"]].
Proof.
  destruct (findAST_parses_once sample_load sample_storage ["sum.cpp"; "broken.cpp"; "sum.cpp"; "broken.cpp"] newDiagnostics
    eq_refl sample_storage_current) as (s & d & Hrun & _ & _ & _ & parsed & Hnd & _ & _ & Hcmd & _).
  exists s, d. split; [exact Hrun|]. split; [by exists parsed|]. vm_compute in Hrun. injection Hrun as <- _. reflexivity.
Defined.
