(* ===== verification/ASTFinder.v ===== *)
(** * The AST search over a program (lib/AST/ASTSearchTask.cpp, ASTFinder.cpp)

    Before the driver runs, the sources of all bitcode files are parsed and the
    places of the selected kinds of mutation are recorded, file by file, by as
    many tasks as configured; afterwards [ASTMutationFilter] asks what was
    recorded.  The tasks share the parsed files of ASTStorage.v; clang's
    traversal of a unit is a parameter. *)

From stdpp Require Import base list strings gmap.
From Stdlib Require Import ZArith Lia Bool.
From S2P Require Import Prelude StdContainers StringFacts Diagnostics MutatorKind IR SourceLocation Irm Mutator Samples MutationPoint Reachable Executor.
From S2P Require Import Filters ClangAST ASTSearch CompilationDatabase JunkDetection ASTStorage.

Section Search.
Context `{FileSystem, LLVMPath, Regex} (filePathFilter : FilePathFilter) (mutatorKindSet : MutatorKindSet).
Context (LoadFromCommandLine : list string -> option ASTUnit * bool).
(** what [TraverseDecl] visits in the translation unit, in order *)
Context (visits : ASTUnit -> list Visit).

(** A file clang gave up on is a null pointer, which is dereferenced. *)
Definition search_unit (sourceFileName : string) (ast : option ASTUnit) : outcome (list (string * SingleASTUnitMutations)) :=
  unit ← of_option "null ASTUnit" ast;
  mutations ← traverse filePathFilter mutatorKindSet (visits unit);
  mret [(sourceFileName, mutations)].

Definition search_file (st : ASTStorage * list (string * SingleASTUnitMutations)) (sourceFileName : string)
    : D (ASTStorage * list (string * SingleASTUnitMutations)) :=
  let '(astStorage, mutationUnits) := st in
  if (shouldSkip_path filePathFilter sourceFileName).1 then
    _ ← debug ("ASTSearchTask: skipping path: " +:+ sourceFileName); mret st
  else
    _ ← (if source_file_ok sourceFileName then mret tt
         else error ("ASTSearchTask: invalid source file path: " +:+ sourceFileName));
    ast ← findAST_file LoadFromCommandLine astStorage sourceFileName;
    found ← lift (search_unit sourceFileName ast.1);
    mret (ast.2, mutationUnits ++ found).

Definition ASTSearchTask (astStorage : ASTStorage) (storage : list (string * SingleASTUnitMutations)) (batch : list string)
    : D (ASTStorage * list (string * SingleASTUnitMutations)) :=
  r ← d_fold search_file (astStorage, []) batch;
  mret (r.1, storage ++ r.2).

(** What a file contributes, whatever was parsed before. *)
Definition ast_search (db : CompilationDatabase) (sourceFileName : string) : outcome (list (string * SingleASTUnitMutations)) :=
  if (shouldSkip_path filePathFilter sourceFileName).1 then mret []
  else if source_file_ok sourceFileName then search_unit sourceFileName (parse LoadFromCommandLine db sourceFileName)
  else Exit 1.

(** What [findMutations] makes of the results of the tasks. *)
Definition collect_units (mutationsAsVector : list (string * SingleASTUnitMutations)) : ASTMutationStorage :=
  foldl (fun mutations unit => emplace unit.1 unit.2 mutations) ∅ mutationsAsVector.

(** [saveMutations] swaps the map in. *)
Definition saveMutations (astStorage : ASTStorage) (storage : ASTMutationStorage) : ASTStorage :=
  mkASTStorage (compilationDatabase astStorage) (astUnits astStorage) storage (clang_commands astStorage).

(** The tasks, in any interleaving, leave some of the files parsed. *)
Inductive findMutations (workers : nat) (files : list string) (astStorage : ASTStorage) : ASTStorage -> Prop :=
  | find_mutations mutationsAsVector astStorage' :
      execute (ast_search (compilationDatabase astStorage)) workers files [] mutationsAsVector ->
      units_current LoadFromCommandLine astStorage' -> compilationDatabase astStorage' = compilationDatabase astStorage ->
      findMutations workers files astStorage (saveMutations astStorage' (collect_units mutationsAsVector)).

(** ** A task does what its files contribute *)
Lemma debug_run m d : exists d', debug m d = (Ok tt, d') /\ strictModeEnabled d' = strictModeEnabled d.
Proof.
  destruct d as [sp db st o]. unfold debug, prepare, d_get, d_modify, mbind, D_bind, mret, D_ret. cbn.
  destruct db; [|by eexists]. cbn. destruct sp; by eexists.
Qed.

Lemma search_file_run astStorage units file found d :
  strictModeEnabled d = false -> units_current LoadFromCommandLine astStorage ->
  ast_search (compilationDatabase astStorage) file = Ok found ->
  exists astStorage' d', search_file (astStorage, units) file d = (Ok (astStorage', units ++ found), d') /\
    strictModeEnabled d' = false /\ units_current LoadFromCommandLine astStorage' /\
    compilationDatabase astStorage' = compilationDatabase astStorage /\ mutations astStorage' = mutations astStorage.
Proof.
  intros Hd Hc. unfold ast_search, search_file. destruct (shouldSkip_path _ _).1.
  - intros [= <-]. destruct (debug_run ("ASTSearchTask: skipping path: " +:+ file) d) as (d' & Hrun & Hst).
    exists astStorage, d'. rewrite D_bind_run, Hrun, app_nil_r. repeat split; [congruence|done].
  - destruct (source_file_ok file); [|done]. intros Hs. rewrite D_bind_run. cbn [mret D_ret]. rewrite D_bind_run.
    destruct (findAST_file_run LoadFromCommandLine astStorage file d Hd Hc) as (s & d' & -> & Hc' & Hdb & Hm & _ & Hd' & _).
    exists s, d'. rewrite D_bind_run. unfold lift. cbn [fst snd]. rewrite Hs. by repeat split.
Qed.

Lemma search_files_run files : forall astStorage units d r,
  strictModeEnabled d = false -> units_current LoadFromCommandLine astStorage ->
  run_task (ast_search (compilationDatabase astStorage)) units files = Ok r ->
  exists astStorage' d', d_fold search_file (astStorage, units) files d = (Ok (astStorage', r), d') /\
    strictModeEnabled d' = false /\ units_current LoadFromCommandLine astStorage' /\
    compilationDatabase astStorage' = compilationDatabase astStorage /\ mutations astStorage' = mutations astStorage.
Proof.
  induction files as [|file files IH]; intros astStorage units d r Hd Hc Hrun.
  - injection Hrun as <-. by exists astStorage, d.
  - unfold run_task in Hrun. cbn [fold_outcome] in Hrun. apply bind_Ok in Hrun as (units1 & (found & Hf & [= <-])%bind_Ok & Hrun).
    destruct (search_file_run astStorage units file found d Hd Hc Hf) as (s1 & d1 & Hstep & Hd1 & Hc1 & Hdb1 & Hm1).
    rewrite <-Hdb1 in Hrun. destruct (IH s1 _ d1 r Hd1 Hc1 Hrun) as (s2 & d2 & Hrest & Hd2 & Hc2 & Hdb2 & Hm2).
    exists s2, d2. cbn [d_fold]. rewrite D_bind_run, Hstep, Hrest. repeat split; congruence || done.
Qed.

(** A task run to its end yields what running the step over its batch does, and
    leaves the parsed files current. *)
Lemma ASTSearchTask_run files astStorage storage d r :
  strictModeEnabled d = false -> units_current LoadFromCommandLine astStorage ->
  run_task (ast_search (compilationDatabase astStorage)) [] files = Ok r ->
  exists astStorage' d', ASTSearchTask astStorage storage files d = (Ok (astStorage', storage ++ r), d') /\
    units_current LoadFromCommandLine astStorage' /\ compilationDatabase astStorage' = compilationDatabase astStorage /\
    mutations astStorage' = mutations astStorage.
Proof.
  intros Hd Hc Hrun. destruct (search_files_run files astStorage [] d r Hd Hc Hrun) as (s & d' & Hf & _ & ? & ? & ?).
  exists s, d'. unfold ASTSearchTask. by rewrite D_bind_run, Hf.
Qed.
End Search.

(** ** What the search leaves behind *)
Lemma lookup_emplace `{Countable K} {V} (k : K) (v : V) m i :
  emplace k v m !! i = match m !! i with Some x => Some x | None => if decide (k = i) then Some v else None end.
Proof.
  unfold emplace. destruct (m !! k) as [x|] eqn:Hk.
  - destruct (m !! i) eqn:Hi; [done|]. destruct (decide (k = i)); congruence.
  - destruct (decide (k = i)) as [->|Hne]; [by rewrite lookup_insert_eq, Hk|]. rewrite lookup_insert_ne by done.
    by destruct (m !! i).
Qed.

(** Of several entries of a file the first stays. *)
Lemma lookup_collected (l : list (string * SingleASTUnitMutations)) file : forall m,
  foldl (fun mutations unit => emplace unit.1 unit.2 mutations) m l !! file =
  match m !! file with Some x => Some x | None => snd <$> find_first (fun unit => bool_decide (unit.1 = file)) l end.
Proof.
  induction l as [|[f u] l IH]; intros m; cbn [foldl find_first]; [by destruct (m !! file)|].
  rewrite IH. cbn [fst snd]. rewrite lookup_emplace. destruct (m !! file); [done|]. unfold bool_decide.
  by destruct (decide_rel (=) f file), (decide (f = file)).
Qed.

Section Result.
Context `{FileSystem, LLVMPath, Regex} (filePathFilter : FilePathFilter) (kinds : MutatorKindSet).
Context (LoadFromCommandLine : list string -> option ASTUnit * bool) (visits : ASTUnit -> list Visit).

(** The file is searched, and the traversal recorded [m] in it. *)
Definition searched (db : CompilationDatabase) (file : string) (m : SingleASTUnitMutations) : Prop :=
  (shouldSkip_path filePathFilter file).1 = false /\ source_file_ok file = true /\
  exists unit, parse LoadFromCommandLine db file = Some unit /\ traverse filePathFilter kinds (visits unit) = Ok m.

Abbreviation file_step db := (ast_search filePathFilter kinds LoadFromCommandLine visits db).

Lemma step_cases db file found :
  file_step db file = Ok found ->
  (shouldSkip_path filePathFilter file).1 = true /\ found = [] \/ exists m, searched db file m /\ found = [(file, m)].
Proof.
  unfold ast_search, searched, search_unit. destruct (shouldSkip_path filePathFilter file).1; [intros [= <-]; by left|].
  destruct (source_file_ok file); [|done]. destruct (parse _ _ _) as [unit|]; [|done]. cbn [of_option mbind outcome_bind].
  intros (m & Hm & [= <-])%bind_Ok. right. exists m. split; [|done]. split; [done|]. split; [done|]. by exists unit.
Qed.

Lemma searched_fun db file m m' : searched db file m -> searched db file m' -> m = m'.
Proof. intros (_ & _ & u & Hu & Hm) (_ & _ & u' & Hu' & Hm'). congruence. Qed.

Lemma collected_searched db files found file m :
  (forall f, f ∈ files -> file_step db f = Ok (found f)) ->
  collect_units (concat (map found files)) !! file = Some m <-> file ∈ files /\ searched db file m.
Proof.
  intros Hall. unfold collect_units. rewrite lookup_collected, lookup_empty.
  assert (Hpairs : forall f x, (f, x) ∈ concat (map found files) <-> f ∈ files /\ searched db f x).
  { intros f x. rewrite elem_of_concat_map. split.
    - intros (g & Hg & Hin). destruct (step_cases _ _ _ (Hall g Hg)) as [[_ Hn]|(y & Hy & Hn)]; rewrite Hn in Hin.
      + by apply not_elem_of_nil in Hin.
      + apply list_elem_of_singleton in Hin as [= -> ->]. done.
    - intros [Hf Hx]. exists f. split; [done|]. destruct (step_cases _ _ _ (Hall f Hf)) as [[Hskip _]|(y & Hy & ->)].
      + destruct Hx as [Hx _]. congruence.
      + rewrite (searched_fun _ _ _ _ Hx Hy). left. }
  destruct (find_first _ _) as [[f x]|] eqn:E; cbn.
  - apply find_first_Some in E as [Hin Hf]. apply bool_decide_eq_true in Hf. cbn in Hf. subst f. apply Hpairs in Hin as [Hin Hx].
    split; [intros [= <-]; done|]. intros [_ Hm]. f_equal. by apply (searched_fun db file).
  - split; [done|]. intros Hm%Hpairs. exfalso. pose proof (proj1 (find_first_None _ _) E (file, m) Hm) as Hb.
    change (bool_decide (file = file) = false) in Hb. by rewrite bool_decide_true in Hb.
Qed.

(** After the search the storage has the searched files, each with what its
    traversal recorded. *)
Lemma findMutations_searched workers files astStorage astStorage' file m :
  0 < workers -> (2 * Z.of_nat (length files) <= int_max)%Z ->
  (forall f, f ∈ files -> exists found, file_step (compilationDatabase astStorage) f = Ok found) ->
  findMutations filePathFilter kinds LoadFromCommandLine visits workers files astStorage astStorage' ->
  mutations astStorage' !! file = Some m <-> file ∈ files /\ searched (compilationDatabase astStorage) file m.
Proof.
  intros Hw Hsize Hall [vec s Hexec _ _]. cbn [saveMutations mutations].
  set (found f := match file_step (compilationDatabase astStorage) f with Ok r => r | _ => [] end).
  assert (Hf : forall f, f ∈ files -> file_step (compilationDatabase astStorage) f = Ok (found f)).
  { intros f Hin. destruct (Hall f Hin) as [r Hr]. unfold found. by rewrite Hr. }
  apply (execute_result _ _ _ _ _ Hw Hsize (run_task_yields _ found files [] Hf)) in Hexec as ->.
  by apply collected_searched.
Qed.
End Result.

(** ** Claims *)

(** C37: the AST filter after the AST search.  However many tasks searched the
    files, and in whatever interleaving, a mutant whose instruction lies in one
    of the files searched is kept exactly when the traversal of that file met the
    mutant's kind at the line and column, and dropped when it met the kind
    elsewhere in the file only; when it never met the kind, or the instruction
    lies in a file that was not searched (a header, or a file the path filter
    skips), an assertion fails. *)
Theorem ast_filter_answers `{FileSystem, LLVMPath, Regex} filter kinds LoadFromCommandLine visits workers files astStorage astStorage'
    module point instruction debugInfo :
  0 < workers -> (2 * Z.of_nat (length files) <= int_max)%Z ->
  (forall f, f ∈ files -> exists found,
     ast_search filter kinds LoadFromCommandLine visits (compilationDatabase astStorage) f = Ok found) ->
  findMutations filter kinds LoadFromCommandLine visits workers files astStorage astStorage' ->
  getOriginalValue module point = Ok instruction -> inst_debug instruction = Some debugInfo ->
  let file := filePath (locationFromInstruction instruction) in
  let k := mutatorKind (mutator point) in
  let l := to_int (dl_line debugInfo) in
  let c := to_int (dl_column debugInfo) in
  let answer := ASTMutationFilter_shouldSkip (mutations astStorage') module point in
  (0 < l /\ 0 < c /\ l + c <= 46340)%Z -> is_regular_file file = true ->
  (forall unit, file ∈ files -> (shouldSkip_path filter file).1 = false ->
     parse LoadFromCommandLine (compilationDatabase astStorage) file = Some unit ->
     let met := exists loc, (k, loc) ∈ places filter kinds false (visits unit) in
     (answer = Ok false <-> place_at filter kinds (visits unit) k l c) /\
     (answer = Ok true <-> met /\ ~ place_at filter kinds (visits unit) k l c) /\
     (answer = Abort "astUnitMutations.count(mutatorKind) > 0" <-> ~ met)) /\
  (file ∉ files \/ (shouldSkip_path filter file).1 = true -> answer = Abort "storage.count(sourceFile) > 0").
Proof.
  intros Hw Hsize Hall Hfind Hvalue Hdebug file k l c answer (Hl & Hc & Hsum) Hregular.
  assert (Hans : answer = (found ← mutationExists (mutations astStorage') file k l c; mret (negb found))).
  { unfold answer, ASTMutationFilter_shouldSkip. rewrite Hvalue. cbn [mbind outcome_bind]. rewrite Hdebug.
    fold l c file k. rewrite (proj2 (Z.leb_gt l 0)), (proj2 (Z.leb_gt c 0)) by lia. cbn [orb negb require mbind outcome_bind].
    by rewrite Hregular. }
  assert (Hok : source_file_ok file = true) by (unfold source_file_ok; by rewrite Hregular).
  assert (Hstored := fun m => findMutations_searched filter kinds LoadFromCommandLine visits workers files astStorage astStorage'
    file m Hw Hsize Hall Hfind).
  split.
  - intros unit Hin Hskip Hparse met.
    assert (exists m, traverse filter kinds (visits unit) = Ok m) as [m Hm].
    { destruct (Hall file Hin) as [found Hf]. unfold ast_search, search_unit in Hf. rewrite Hskip, Hok, Hparse in Hf.
      cbn [of_option mbind outcome_bind] in Hf. apply bind_Ok in Hf as (m & Hm & _). by exists m. }
    assert (Hs : mutations astStorage' !! file = Some m).
    { apply Hstored. split; [done|]. split; [done|]. split; [done|]. by exists unit. }
    destruct (mutationExists_agrees filter kinds (visits unit) m (mutations astStorage') file k l c Hm Hs Hok) as (Ht & Hf & Ha);
      [done|]. rewrite Hans. fold met in Hf, Ha.
    destruct (mutationExists (mutations astStorage') file k l c) as [[] | |why]; cbn [mbind outcome_bind negb mret outcome_ret] in *.
    + split; [split; [intros _; by apply Ht|done]|]. split; [split; [done|intros [_ Hn]; destruct Hn; by apply Ht]|].
      split; [done|]. intros Hn. by apply Ha in Hn.
    + split; [split; [done|]|]; [intros Hp; by apply Ht in Hp|]. split; [|split; [done|intros Hn; by apply Ha in Hn]].
      split; [intros _|done]. by destruct (proj1 Hf eq_refl).
    + split; [split; [done|intros Hp; by apply Ht in Hp]|]. split; [split; [done|]|].
      * intros [Hm1 Hm2]. by assert (Habs := proj2 Hf (conj Hm2 Hm1)).
      * split; [done|]. intros Hn. by apply Ha in Hn.
    + split; [split; [done|intros Hp; by apply Ht in Hp]|]. split; [split; [done|]|].
      * intros [Hm1 Hm2]. by assert (Habs := proj2 Hf (conj Hm2 Hm1)).
      * split; [intros [= ->]; by apply Ha|]. intros Hn. apply Ha in Hn. by injection Hn as ->.
  - intros Hno. rewrite Hans. unfold mutationExists, kind_bucket. rewrite Hok. cbn [require mbind outcome_bind].
    destruct (mutations astStorage' !! file) as [m|]; [|done]. exfalso. destruct (proj1 (Hstored m) eq_refl) as [Hin (Hskip & _)].
    destruct Hno; [done|congruence].
Qed.

Definition sum_storage : ASTStorage := mkASTStorage (mkCompilationDatabase ["-O1"] [] []) ∅ ∅ [].
Definition sum_load (args : list string) : option ASTUnit * bool := (Some sample_ast, false).
Definition sum_visits (unit : ASTUnit) : list Visit := decl_nodes sample_sum.
Definition sum_files : list string := ["/home/dev/sum.cpp"; "/home/dev/test/sum.cpp"].
Definition sum_kinds : MutatorKindSet := create [CXX_AddToSub; CXX_PostIncToPostDec].

Definition sum_found (file : string) : list (string * SingleASTUnitMutations) :=
  match ast_search sample_filter sum_kinds sum_load sum_visits (compilationDatabase sum_storage) file with Ok r => r | _ => [] end.

Definition sum_searched : ASTStorage := saveMutations sum_storage (collect_units (concat (map sum_found sum_files))).

Lemma sum_answers f : f ∈ sum_files ->
  exists found, ast_search sample_filter sum_kinds sum_load sum_visits (compilationDatabase sum_storage) f = Ok found.
Proof. intros [->|[->|H]%elem_of_cons]%elem_of_cons; [by eexists..|by apply not_elem_of_nil in H]. Defined.

Lemma sum_findMutations : findMutations sample_filter sum_kinds sum_load sum_visits 2 sum_files sum_storage sum_searched.
Proof.
  constructor; [|intros f ast Hf; cbn in Hf; by rewrite lookup_empty in Hf|done].
  refine (proj2 (execute_result _ 2 sum_files [] (concat (map sum_found sum_files)) _ _ _ _) eq_refl); [lia|done|].
  refine (run_task_yields _ sum_found sum_files [] _).
  intros f Hf. destruct (sum_answers f Hf) as [r Hr]. unfold sum_found. by rewrite Hr.
Defined.

(** The place is met, an increment never; the second file is not searched. *)
Lemma ast_filter_answers_witness :
  exists p, sample_point (Trivial cxx.AddToSub) = Ok p /\
    ASTMutationFilter_shouldSkip (mutations sum_searched) sample_module p = Ok false.
Proof.
  eexists. split; [reflexivity|].
  refine (proj2 (proj1 (proj1 (ast_filter_answers sample_filter sum_kinds sum_load sum_visits 2 sum_files sum_storage sum_searched
    sample_module _ sample_add (mkDebugLoc "/home/dev" "sum.cpp" 3 10 (Some ("/home/dev", "sum.cpp")))
    _ _ sum_answers sum_findMutations _ _ _ _) sample_ast _ _ _)) _).
  - lia.
  - done.
  - reflexivity.
  - reflexivity.
  - vm_compute. split; [done|]. split; [done|discriminate].
  - reflexivity.
  - left.
  - reflexivity.
  - reflexivity.
  - exists (sample_loc 3 10). split; [left|done].
Defined.
