(* ===== verification/Run.v ===== *)
(** * A run of the driver (lib/Driver.cpp, lib/IDEDiagnostics.cpp)

    [Driver::Run] from the loaded program to the [Result]: the components of the
    other files, put together in the order of the source.  The executors give
    each stage its results in any interleaving (Executor.v); the original tests
    are run here by one task, the mutants by as many as configured. *)

From stdpp Require Import base list strings gmap.
From Stdlib Require Import ZArith Lia Bool.
From S2P Require Import Prelude StdContainers StringFacts Diagnostics IR SourceLocation Irm Mutator Samples MutationPoint Reachable Mutators.
From S2P Require Import CallTree Instrumentation Executor Filters Bitcode Preparation MutantExecution Driver OriginalTests Reporters Program TestFinders Toolchain.

(** ** IDEDiagnostics *)

(** What [NormalIDEDiagnostics::report] prints on the standard error. *)
Definition ide_report (diagnostics : IDEDiagnosticsKind) (mutationPoint : MutationPoint) (killed : bool) : option string :=
  match diagnostics, killed with
  | DiagnosticsNone, _ | DiagnosticsSurvived, true | DiagnosticsKilled, false => None
  | _, _ =>
      let message := point_diagnostics mutationPoint in
      let location := sourceLocation mutationPoint in
      if empty_string message then None
      else if isNull location then None
      else Some (eol +:+ filePath location +:+ ":" +:+ to_string (line location) +:+ ":" +:+ to_string (column location) +:+
                 ": warning: " +:+ message +:+ eol)
  end.

Section Run.
Context `{LLVMPath, LibIrm, LLVMNames, Mangler, Hasher, ObjectFormat}.
Context (config : Configuration).

(** *** The instrumented program *)
Section Instrumented.
Context (cache : ObjectCache) (compile : Module -> ObjectFile) (clone : Bitcode -> outcome Module).

Definition compileInstrumentedBitcodeFiles (disk : Disk) (files : list Bitcode)
    : outcome (Instrumentation * Disk * list ObjectFile) :=
  let instrumentation := record_all (map bc_module files) in
  r ← InstrumentedCompilationTask cache compile clone (disk, []) files;
  mret (instrumentation, r.1, r.2).

Definition AllInstrumentedObjectFiles (instrumentedObjectFiles precompiledObjectFiles : list ObjectFile) : list ObjectFile :=
  instrumentedObjectFiles ++ precompiledObjectFiles.
End Instrumented.

(** [LoadLibraryPermanently]: the message when it fails. *)
Definition loadDynamicLibraries (load_library : string -> option string) (dynamicLibraryPaths : list string) : D unit :=
  d_iter (fun dylibPath =>
    match load_library dylibPath with
    | Some msg => warning ("Cannot load dynamic library '" +:+ dylibPath +:+ "': " +:+ msg +:+ eol)
    | None => mret tt
    end) dynamicLibraryPaths.

(** *** Running the mutants *)
Section Mutants.
Context (cache : ObjectCache) (compile : Module -> ObjectFile).
(** the symbols the JIT has once these objects are loaded with these
    trampolines, and the sandbox *)
Context (jit_of : list ObjectFile -> list string -> JITEngine).
Context (sandbox : nat -> Memory -> TestId -> Z -> bool -> ExecutionResult).
Context (disk : Disk) (precompiledObjectFiles : list ObjectFile).

(** The points are shared out to the tasks of the executor. *)
Inductive normalRunMutations (files : list Bitcode) (store : Store) (tests : list Test) (points : list PointId)
    : list MutationResult -> Prop :=
  | normal_run files' store' names disk' ownedObjectFiles sizes parts :
      prepare_files store files points = Ok (files', store', names) ->
      OriginalCompilationTask cache compile store' (disk, []) files' = Ok (disk', ownedObjectFiles) ->
      0 < mutantExecutionWorkers (parallelization config) ->
      taskBatches (length points) (Nat.min (length points) (mutantExecutionWorkers (parallelization config))) = Ok sizes ->
      Forall2 (fun batch part =>
          MutantExecutionTask store' tests sandbox (failFastEnabled config) (captureMutantOutput config)
            (jit_of (ownedObjectFiles ++ precompiledObjectFiles) names) names batch = Ok part)
        (cut_batches sizes points) parts ->
      normalRunMutations files store tests points (concat parts).
End Mutants.

(** *** The run *)
Section Driver.
Context (cache : ObjectCache) (compile : Module -> ObjectFile) (clone : Bitcode -> outcome Module).
Context (mutators : list Mutator) (functionFilters : list FunctionFilter) (instructionFilters : list InstructionFilter)
        (mutationFilters : list MutationFilter).
Context (function_of : FnId -> option Function) (bitcode_of : FnId -> Module * BitcodePtr).
(** the original tests on the objects loaded, in the sandbox *)
Context (test_sandbox : list ObjectFile -> TestId -> Z -> bool -> OriginalRun).
Context (load_library : string -> option string).
Context (jit_of : list ObjectFile -> list string -> JITEngine).
Context (sandbox : nat -> Memory -> TestId -> Z -> bool -> ExecutionResult).
Context (disk : Disk) (precompiled : list ObjectFile) (files : list Bitcode).

Definition initial_tests (tests : list Test) : TaskState := mkTaskState tests (map (fun _ => None) tests) [].

(** [files] are the bitcode files of the program.  The store is the list of the
    points that passed the filters. *)
Inductive Driver_Run (finder : TestFinder) (program : Program) (libraries : list string) (d : Diagnostics)
    : Store -> Result -> Diagnostics -> Prop :=
  | driver_run instrumentation disk' instrumented d1 d2 tests st points filtered results :
      compileInstrumentedBitcodeFiles cache compile clone disk files = Ok (instrumentation, disk', instrumented) ->
      loadDynamicLibraries load_library libraries d = (Ok tt, d1) ->
      findTests finder program = Ok tests ->
      OriginalTestExecutionTask instrumentation function_of
        (test_sandbox (AllInstrumentedObjectFiles instrumented precompiled)) (timeout config) (maxDistance config)
        (captureTestOutput config) (initial_tests tests) (seq 0 (length tests)) d1 = (Ok st, d2) ->
      findMutationPoints config mutators functionFilters instructionFilters bitcode_of (length tests) (ts_storage st) points ->
      filterMutations (workers (parallelization config)) mutationFilters points filtered ->
      runMutations config filtered (ts_tests st)
        (normalRunMutations cache compile jit_of sandbox disk' precompiled files filtered (ts_tests st))
        (seq 0 (length filtered)) results ->
      Driver_Run finder program libraries d filtered (mkResult (ts_tests st) results (seq 0 (length filtered))) d2.
End Driver.
End Run.

(** ** Where the results of a run come from *)
Section From.
Context `{LLVMPath, LibIrm}.

Lemma filterMutations_from workers filters points result p :
  filterMutations workers filters points result -> p ∈ result ->
  p ∈ points /\ forall f, f ∈ filters -> mfilter_shouldSkip f p = Ok false.
Proof.
  induction 1 as [points|filter filters points tmp result Hexec _ IH]; intros Hp; [split; [done|intros f Hf; by apply not_elem_of_nil in Hf]|].
  destruct (IH Hp) as [Htmp Hrest]. destruct (execute_from _ _ _ _ _ Hexec Htmp) as (q & found & Hq & Hstep & Hin).
  unfold mutation_filter_step in Hstep. apply bind_Ok in Hstep as ([] & Hskip & [= <-]); [by apply not_elem_of_nil in Hin|].
  apply list_elem_of_singleton in Hin as ->. split; [done|]. intros f [->|Hf]%elem_of_cons; [done|by apply Hrest].
Qed.

Lemma filterFunctions_from workers filters functions result x :
  filterFunctions workers filters functions result -> x ∈ result ->
  x ∈ functions /\ forall f, f ∈ filters -> ffilter_shouldSkip f (fut_function x) = Ok false.
Proof.
  induction 1 as [functions|filter filters functions tmp result Hexec _ IH]; intros Hx; [split; [done|intros f Hf; by apply not_elem_of_nil in Hf]|].
  destruct (IH Hx) as [Htmp Hrest]. destruct (execute_from _ _ _ _ _ Hexec Htmp) as (q & found & Hq & Hstep & Hin).
  unfold function_filter_step in Hstep. apply bind_Ok in Hstep as ([] & Hskip & [= <-]); [by apply not_elem_of_nil in Hin|].
  apply list_elem_of_singleton in Hin as ->. split; [done|]. intros f [->|Hf]%elem_of_cons; [done|by apply Hrest].
Qed.

Lemma selectInstructions_keeps filters f f' :
  selectInstructions filters f = Ok f' -> fut_function f' = fut_function f /\ fut_reachableTests f' = fut_reachableTests f.
Proof.
  apply (fold_outcome_inv (fun g => fut_function g = fut_function f /\ fut_reachableTests g = fut_reachableTests f)); [|done].
  intros g i g' _ Hg Hstep. unfold select_one in Hstep. by apply bind_Ok in Hstep as ([] & _ & [= <-]).
Qed.

Lemma instruction_selected_all filters i :
  instruction_selected filters i = Ok true -> forall filter, filter ∈ filters -> ifilter_shouldSkip filter i = Ok false.
Proof.
  induction filters as [|g filters IH]; intros Hsel filter Hin; [by apply not_elem_of_nil in Hin|].
  cbn in Hsel. apply bind_Ok in Hsel as ([] & Hg & Hsel); [done|]. apply elem_of_cons in Hin as [->|Hin]; [done|by apply IH].
Qed.

Lemma selectInstructions_selected filters f f' :
  selectInstructions filters f = Ok f' -> fut_selectedInstructions f = [] ->
  forall i, i ∈ fut_selectedInstructions f' ->
    i ∈ instructions (fut_function f) /\ forall filter, filter ∈ filters -> ifilter_shouldSkip filter i = Ok false.
Proof.
  intros Hrun Hnone. revert Hrun. apply (fold_outcome_inv (fun g => forall i, i ∈ fut_selectedInstructions g ->
    i ∈ instructions (fut_function f) /\ forall filter, filter ∈ filters -> ifilter_shouldSkip filter i = Ok false)).
  - intros g i g' Hi Hg Hstep j Hj. unfold select_one in Hstep. apply bind_Ok in Hstep as ([] & Hsel & [= <-]); [|by apply Hg].
    apply elem_of_app in Hj as [Hj| ->%list_elem_of_singleton]; [by apply Hg|]. split; [done|]. by apply instruction_selected_all.
  - rewrite Hnone. intros i Hi. by apply not_elem_of_nil in Hi.
Qed.

Lemma search_step_from mutators bitcode_of f found p :
  search_step mutators bitcode_of f = Ok found -> p ∈ found ->
  exists mu q, mu ∈ mutators /\ p = with_tests f q /\
    made mu (bitcode_of (fn_id (fut_function f))).1 (bitcode_of (fn_id (fut_function f))).2 f q.
Proof.
  unfold search_step. destruct (bitcode_of (fn_id (fut_function f))) as [module ptr]. cbn [fst snd]. intros Hrun Hp.
  assert (Hall : forall p, p ∈ found -> exists mu q, mu ∈ mutators /\ p = with_tests f q /\ made mu module ptr f q);
    [|by apply Hall].
  clear p Hp. revert Hrun.
  apply (fold_outcome_inv (fun found => forall p, p ∈ found -> exists mu q, mu ∈ mutators /\ p = with_tests f q /\
    made mu module ptr f q)); [|intros x Hx; by apply not_elem_of_nil in Hx].
  intros acc mu acc' Hmu Hacc Hstep x Hx. apply bind_Ok in Hstep as (l & Hl & [= <-]).
  apply elem_of_app in Hx as [Hx|(q & -> & Hq)%list_elem_of_fmap]; [by apply Hacc|]. exists mu, q. split; [done|]. split; [done|].
  pose proof (getMutations_made _ _ _ _ _ Hl) as Hmade. rewrite Forall_forall in Hmade. by apply Hmade.
Qed.

(** A point lies at an instruction of its function that no filter skips; the
    mutators of [&&] and [||] do not ask the instruction filters. *)
Definition placed_at (instructionFilters : list InstructionFilter) (module : Module) (f : Function) (p : MutationPoint) : Prop :=
  exists i, i ∈ instructions f /\ addressFromInstruction module f i = Ok (address p) /\
    sourceLocation p = locationFromInstruction i /\
    (is_logical (mutator p) = false -> forall filter, filter ∈ instructionFilters -> ifilter_shouldSkip filter i = Ok false).

Lemma with_tests_location f m : sourceLocation (with_tests f m) = sourceLocation m.
Proof. unfold with_tests. induction (fut_reachableTests f) as [|t l IH] using rev_ind; [done|]. by rewrite foldl_snoc. Qed.

(** A point the search found: of a mutator of the run, in a function no function
    filter skips, at an instruction no instruction filter skips, with the tests of
    that function. *)
Lemma findMutationPoints_from config mutators functionFilters instructionFilters bitcode_of n reachable points p :
  findMutationPoints config mutators functionFilters instructionFilters bitcode_of n reachable points -> p ∈ points ->
  mutator p ∈ mutators /\
  exists r, r ∈ reachable /\ originalFunction p = rf_key r /\
    (forall f, f ∈ functionFilters -> ffilter_shouldSkip f (rf_function r) = Ok false) /\
    reachableTests p = tests_of (rf_key r) reachable /\
    placed_at instructionFilters (bitcode_of (rf_key r)).1 (rf_function r) p.
Proof.
  intros Hfind Hp. destruct Hfind as [_|filtered selected points _ Hfun Hsel Hget]; [by apply not_elem_of_nil in Hp|].
  destruct (execute_from _ _ _ _ _ Hget Hp) as (f & found & Hf & Hstep & Hin).
  destruct (search_step_from _ _ _ _ _ Hstep Hin) as (mu & q & Hmu & -> & Hmade).
  destruct (execute_from _ _ _ _ _ Hsel Hf) as (g & l & Hg & Hgstep & Hfl).
  apply bind_Ok in Hgstep as (f' & Hselect & [= <-]). apply list_elem_of_singleton in Hfl as <-.
  pose proof (selectInstructions_selected _ _ _ Hselect) as Hselected. apply selectInstructions_keeps in Hselect as [Hfn Htests].
  destruct (filterFunctions_from _ _ _ _ _ Hfun Hg) as [Hin' Hskip]. rewrite merge_groups in Hin'.
  apply list_elem_of_fmap in Hin' as (r & -> & Hr). cbn [fut_function fut_reachableTests fut_selectedInstructions] in *.
  destruct (with_tests_fields f q) as (Ht & _ & Ha & Hm & Ho). pose proof (made_where _ _ _ _ _ Hmade) as (i & Hi & Haddr & Hloc).
  apply made_fields in Hmade as (Hqm & _ & Hqo & _ & _ & Hqt). rewrite Hfn in *.
  split; [by rewrite Hm, Hqm|]. exists r. split; [by apply first_mentions_subset|]. split; [|split; [done|split]].
  - by rewrite Ho, Hqo.
  - by rewrite Ht, Hqt, Htests.
  - unfold searched_instructions in Hi. rewrite Hfn in Hi.
    exists i. rewrite Ha, Hm, Hqm, with_tests_location. split; [|split; [done|split; [done|]]].
    + destruct (is_logical mu); [done|by apply Hselected].
    + intros Hl. rewrite Hl in Hi. by apply Hselected.
Qed.

Lemma elem_of_tests_of k l t d :
  (t, d) ∈ tests_of k l <-> exists r, r ∈ l /\ rf_key r = k /\ rf_test r = t /\ rf_distance r = d.
Proof.
  unfold tests_of. rewrite list_elem_of_fmap. split.
  - intros (r & [= -> ->] & Hr). apply list_elem_of_In, filter_In in Hr as [Hr Hk]. bool_to_prop.
    exists r. by rewrite list_elem_of_In.
  - intros (r & Hr & Hk & <- & <-). exists r. split; [done|]. apply list_elem_of_In, filter_In.
    split; [by apply list_elem_of_In|]. by apply Nat.eqb_eq.
Qed.
End From.

(** A result is of a point and of a test that reaches it, at its distance. *)
Definition of_reachable_test (store : Store) (points : list PointId) (r : MutationResult) : Prop :=
  mr_point r ∈ points /\ exists p, store !! mr_point r = Some p /\ (mr_test r, mr_distance r) ∈ reachableTests p.

Lemma of_reachable_test_sub store points points' r :
  (forall pid, pid ∈ points -> pid ∈ points') -> of_reachable_test store points r -> of_reachable_test store points' r.
Proof. intros Hsub [Hp Hr]. split; [by apply Hsub|done]. Qed.

Lemma run_mutant_from `{Mangler} store tests sandbox ff capture jit t st pid st' :
  run_mutant store tests sandbox ff capture jit t st pid = Ok st' ->
  forall r, r ∈ st'.1.2 -> r ∈ st.1.2 \/ mr_point r = pid /\ of_reachable_test store [pid] r.
Proof.
  destruct st as [[memory storage] n]. intros Hrun. unfold run_mutant in Hrun.
  apply bind_Ok in Hrun as (p & Hp & Hrun). apply bind_Ok in Hrun as (c & _ & Hrun). apply bind_Ok in Hrun as (a & _ & Hrun).
  apply bind_Ok in Hrun as ([[results failed] n'] & Hfold & [= <-]). intros r [Hr|Hr]%elem_of_app; [by left|right].
  assert (Hall : mr_point r = pid /\ (mr_test r, mr_distance r) ∈ reachableTests p).
  { revert r Hr. change results with (results, failed, n').1.1. revert Hfold.
    apply (fold_outcome_inv (fun s : list MutationResult * bool * nat =>
      forall r, r ∈ s.1.1 -> mr_point r = pid /\ (mr_test r, mr_distance r) ∈ reachableTests p));
      [|intros r Hr; by apply not_elem_of_nil in Hr].
    intros [[acc f] k] [test dist] [[acc' f'] k'] Hin Hacc Hstep r Hr. unfold run_reachable_test in Hstep.
    destruct (ff && f).
    - injection Hstep as <- _ _. apply elem_of_app in Hr as [Hr| ->%list_elem_of_singleton]; [by apply Hacc|done].
    - apply bind_Ok in Hstep as (tt1 & _ & Hstep). apply bind_Ok in Hstep as (tm & _ & Hstep). apply bind_Ok in Hstep as ([] & _ & Hstep).
      injection Hstep as <- _ _. apply elem_of_app in Hr as [Hr| ->%list_elem_of_singleton]; [by apply Hacc|done]. }
  destruct Hall as [<- Hin]. split; [done|]. split; [by left|]. unfold point_at in Hp.
  destruct (store !! mr_point r) as [p'|]; [|done]. injection Hp as ->. by exists p.
Qed.

Lemma MutantExecutionTask_from `{Mangler} store tests sandbox ff capture jit names batch part r :
  MutantExecutionTask store tests sandbox ff capture jit names batch = Ok part -> r ∈ part -> of_reachable_test store batch r.
Proof.
  intros Hrun Hr. unfold MutantExecutionTask in Hrun. destruct (allocateTrampolines _ _) as [t memory0].
  apply bind_Ok in Hrun as (memory & _ & Hrun). apply bind_Ok in Hrun as ([[m results] n] & Hfold & [= <-]).
  revert r Hr. change results with (m, results, n).1.2. revert Hfold. unfold run_mutants.
  apply (fold_outcome_inv (fun s : Memory * list MutationResult * nat => forall r, r ∈ s.1.2 -> of_reachable_test store batch r));
    [|intros r Hr; by apply not_elem_of_nil in Hr].
  intros st pid st' Hpid Hst Hstep r Hr. destruct (run_mutant_from _ _ _ _ _ _ _ _ _ _ Hstep r Hr) as [Hold|[<- Hnew]]; [by apply Hst|].
  apply (of_reachable_test_sub store [mr_point r]); [|done]. by intros q ->%list_elem_of_singleton.
Qed.

Lemma dry_run_from store tests workers points results r :
  execute (dry_run_mutant store tests) workers points [] results -> r ∈ results -> of_reachable_test store points r.
Proof.
  intros Hexec Hr. destruct (execute_from _ _ _ _ _ Hexec Hr) as (pid & found & Hpid & Hstep & Hin).
  unfold dry_run_mutant in Hstep. apply bind_Ok in Hstep as (p & Hp & Hfold). unfold point_at in Hp.
  destruct (store !! pid) as [p'|] eqn:Hs; [|done]. injection Hp as ->.
  assert (Hall : mr_point r = pid /\ (mr_test r, mr_distance r) ∈ reachableTests p).
  { revert r Hr Hin. assert (Hgen : forall r, r ∈ found -> mr_point r = pid /\ (mr_test r, mr_distance r) ∈ reachableTests p); [|auto].
    revert Hfold. apply (fold_outcome_inv (fun found => forall r, r ∈ found -> mr_point r = pid /\ (mr_test r, mr_distance r) ∈ reachableTests p));
      [|intros r Hr; by apply not_elem_of_nil in Hr].
    intros acc [test dist] acc' Ht Hacc Hs' r Hr. apply bind_Ok in Hs' as (x & Hx & [= <-]).
    apply elem_of_app in Hr as [Hr| ->%list_elem_of_singleton]; [by apply Hacc|]. unfold dry_run_test in Hx.
    apply bind_Ok in Hx as (tst & _ & Hx). by apply bind_Ok in Hx as (tm & _ & [= <-]). }
  destruct Hall as [<- Ht]. split; [done|]. by exists p.
Qed.

Section Results.
Context `{LLVMPath, LibIrm, LLVMNames, Mangler, Hasher, ObjectFormat}.
Context (config : Configuration) (cache : ObjectCache) (compile : Module -> ObjectFile).
Context (jit_of : list ObjectFile -> list string -> JITEngine).
Context (sandbox : nat -> Memory -> TestId -> Z -> bool -> ExecutionResult).
Context (disk : Disk) (precompiled : list ObjectFile) (files : list Bitcode).

Lemma normal_run_from store tests points results r :
  normalRunMutations config cache compile jit_of sandbox disk precompiled files store tests points results ->
  r ∈ results -> of_reachable_test store points r.
Proof.
  intros [files' store' names disk' owned sizes parts Hprep _ _ _ Hparts] Hr.
  apply list_elem_of_In, in_concat in Hr as (part & Hpart & Hr). apply list_elem_of_In in Hpart, Hr.
  apply list_elem_of_lookup in Hpart as [i Hi]. destruct (Forall2_lookup_r _ _ _ _ _ Hparts Hi) as (batch & Hb & Htask).
  destruct (MutantExecutionTask_from _ _ _ _ _ _ _ _ _ _ Htask Hr) as (Hin & p & Hp & Ht).
  split; [eapply cut_batches_elem; [by eapply list_elem_of_lookup_2|done]|].
  pose proof (prepare_files_keep reachableTests _ _ _ _ _ _ (mr_point r) (fun _ _ => eq_refl) Hprep) as Hk. rewrite Hp in Hk.
  destruct (store !! mr_point r) as [p0|]; [|done]. injection Hk as Hk. exists p0. split; [done|]. by rewrite <-Hk.
Qed.

Lemma runMutations_from store tests points results r :
  runMutations config store tests
    (normalRunMutations config cache compile jit_of sandbox disk precompiled files store tests) points results ->
  r ∈ results -> of_reachable_test store points r.
Proof.
  intros [_|results' _ _ Hexec|results' _ _ Hrun] Hr; [by apply not_elem_of_nil in Hr|by eapply dry_run_from|by eapply normal_run_from].
Qed.
End Results.

(** ** A run *)

(** The functions with a body, of all the files. *)
Definition functions_of (files : list Bitcode) : list Function := concat (map defined_functions (map bc_module files)).

Lemma record_all_table ms :
  NoDup (map fn_id (concat (map defined_functions ms))) -> function_table (instr_functions (record_all ms)).
Proof.
  intros Hnd. rewrite record_all_functions. set (l := concat _) in *. split; [done|]. split.
  - intros [|i] Hi; cbn in Hi; [lia|]. rewrite length_map in Hi. destruct (lookup_lt_is_Some_2 l i) as [f Hf]; [lia|].
    exists f. unfold fn0. by rewrite lookup_cons_S, list_lookup_fmap, Hf.
  - assert (Hat : forall i f, fn0 (mkCallTreeFunction None None :: map (fun f => mkCallTreeFunction (Some f) None) l) i = Some f ->
      exists k, i = S k /\ l !! k = Some f).
    { intros [|k] f; [done|]. unfold fn0. rewrite lookup_cons_S, list_lookup_fmap. destruct (l !! k) as [g|] eqn:Hg; [|done].
      cbn. intros [= ->]. eauto. }
    intros i j f g (k & -> & Hf)%Hat (n & -> & Hg)%Hat Heq. f_equal. apply (NoDup_lookup _ k n (fn_id f) Hnd).
    + exact (eq_trans (list_lookup_fmap fn_id l k) (f_equal _ Hf)).
    + rewrite Heq. exact (eq_trans (list_lookup_fmap fn_id l n) (f_equal _ Hg)).
Qed.

Lemma record_all_entry ms body :
  body ∈ concat (map defined_functions ms) -> exists entry, fn0 (instr_functions (record_all ms)) entry = Some body.
Proof.
  intros [k Hk]%list_elem_of_lookup. exists (S k). rewrite record_all_functions. unfold fn0.
  rewrite lookup_cons_S. by rewrite list_lookup_fmap, Hk.
Qed.

Lemma record_all_from ms entry f :
  fn0 (instr_functions (record_all ms)) entry = Some f -> f ∈ concat (map defined_functions ms).
Proof.
  rewrite record_all_functions. destruct entry as [|k]; [done|]. unfold fn0. rewrite lookup_cons_S, list_lookup_fmap.
  destruct (_ !! k) as [g|] eqn:Hg; [|done]. cbn. intros [= ->]. by eapply list_elem_of_lookup_2.
Qed.

Lemma loadDynamicLibraries_keeps load_library libraries : forall d, strictModeEnabled d = false -> seenProgress d = false ->
  exists d', loadDynamicLibraries load_library libraries d = (Ok tt, d') /\ strictModeEnabled d' = false /\ seenProgress d' = false.
Proof.
  induction libraries as [|path libraries IH]; intros d Hstrict Hseen; [by exists d|].
  unfold loadDynamicLibraries in *. cbn [d_iter]. rewrite D_bind_run. destruct (load_library path) as [msg|].
  - rewrite warning_logged by done. by apply IH.
  - by apply IH.
Qed.

(** The tests that reach the function of a point: those that passed and called
    it, at the distance they have. *)
Definition reaching (table : list CallTreeFunction) (function_of : FnId -> option Function) (runs : TestId -> OriginalRun)
    (maxDistance : Z) (tests : list Test) (f : FnId) (t : TestId) (distance : Z) : Prop :=
  status (run_result_of (runs t)) = Passed /\
  exists test body entry r, tests !! t = Some test /\ testBody test ≫= function_of = Some body /\ fn0 table entry = Some body /\
    reached_by table (run_mapping (runs t)) maxDistance t entry r /\ fn_id (rf_function r) = f /\ rf_distance r = distance.

Section Stored.
Context (instr : Instrumentation) (function_of : FnId -> option Function).
Context (sandbox : TestId -> Z -> bool -> OriginalRun) (timeout maxDistance : Z) (capture : bool) (tests : list Test).

(** The functions stored are those of the table. *)
Lemma stored_in_table batch parts r :
  Forall2 (stored_for instr function_of sandbox timeout maxDistance capture tests) batch parts -> r ∈ concat parts ->
  exists i, fn0 (instr_functions instr) i = Some (rf_function r).
Proof.
  intros Hparts Hr. apply list_elem_of_In, in_concat in Hr as (part & Hpart & Hr). apply list_elem_of_In in Hpart, Hr.
  apply list_elem_of_lookup in Hpart as [k Hk]. destruct (Forall2_lookup_r _ _ _ _ _ Hparts Hk) as (t' & _ & _ & test & body & entry & Htest & Hbody & Hentry & Hall).
  destruct (proj1 (Hall r) Hr) as [Hpassed (Ht & Hcalled & i & n & Hne & Hbelow & Hi & _)]. by exists i.
Qed.

(** What all the tests have stored, as one list. *)
Lemma stored_reaching parts f t distance :
  distinct_functions (instr_functions instr) ->
  Forall2 (stored_for instr function_of sandbox timeout maxDistance capture tests) (seq 0 (length tests)) parts ->
  (t, distance) ∈ tests_of f (concat parts) <->
  reaching (instr_functions instr) function_of (fun t => sandbox t timeout capture) maxDistance tests f t distance.
Proof.
  intros Hdist Hparts. rewrite elem_of_tests_of. split.
  - intros (r & Hr & Hf & Ht & Hd). apply list_elem_of_In, in_concat in Hr as (part & Hpart & Hr).
    apply list_elem_of_In in Hpart, Hr. apply list_elem_of_lookup in Hpart as [i Hi].
    destruct (Forall2_lookup_r _ _ _ _ _ Hparts Hi) as (t' & _ & _ & test & body & entry & Htest & Hbody & Hentry & Hall).
    apply Hall in Hr as [Hpassed Hreach]. assert (t' = t) as -> by (destruct Hreach as [<- _]; done).
    split; [exact Hpassed|]. exists test, body, entry, r. repeat (split; [done|]). done.
  - intros (Hpassed & test & body & entry & r & Htest & Hbody & Hentry & Hreach & Hf & Hd).
    assert (Hlt : t < length tests) by (by eapply lookup_lt_Some).
    destruct (Forall2_lookup_l _ _ _ t t Hparts) as (part & Hi & _ & test' & body' & entry' & Htest' & Hbody' & Hentry' & Hall).
    { by apply lookup_seq. }
    assert (test' = test) as -> by congruence. assert (body' = body) as -> by congruence.
    assert (entry' = entry) as -> by (by apply (Hdist _ _ body body)).
    exists r. split; [|by destruct Hreach as [Ht _]]. apply list_elem_of_In, in_concat. exists part.
    split; apply list_elem_of_In; [by eapply list_elem_of_lookup_2|]. by apply Hall.
Qed.
End Stored.

(** C3: what a run of the driver may report.  Let the functions of the files be
    distinct, every test found have its body among them, and the arrays the
    tests leave be those callbacks can write.  Whatever the executors do, a
    mutant of the result is of a mutator of the configuration, and no filter on
    mutants skips it; it lies in a function with a body of one of the files that
    no filter on functions skips, at the instruction its address and its location
    are of, which no filter on instructions skips, unless the mutator is one of
    those of [&&] and [||], which do not ask these; its tests are exactly the
    tests that passed and reached its function in the distance allowed, with that
    distance.  Every result is of such a mutant and of one of
    its tests, and every test found has the result of its run. *)
Theorem run_sound `{LLVMPath, LibIrm, LLVMNames, Mangler, Hasher, ObjectFormat}
    config cache compile clone mutators functionFilters instructionFilters mutationFilters function_of bitcode_of
    test_sandbox load_library jit_of sandbox disk precompiled files finder program libraries d store result d' :
  NoDup (map fn_id (functions_of files)) -> functions_of files <> [] ->
  (forall tests test, findTests finder program = Ok tests -> test ∈ tests ->
     exists body, testBody test ≫= function_of = Some body /\ body ∈ functions_of files) ->
  (forall objects t, left_by_callbacks (record_all (map bc_module files))
     (run_mapping (test_sandbox objects t (timeout config) (captureTestOutput config)))) ->
  strictModeEnabled d = false -> seenProgress d = false ->
  Driver_Run config cache compile clone mutators functionFilters instructionFilters mutationFilters function_of bitcode_of
    test_sandbox load_library jit_of sandbox disk precompiled files finder program libraries d store result d' ->
  exists tests objects,
    let runs t := test_sandbox objects t (timeout config) (captureTestOutput config) in
    findTests finder program = Ok tests /\
    (forall t test, tests !! t = Some test ->
       result_tests result !! t = Some (setExecutionResult test (run_result_of (runs t)))) /\
    (forall p, p ∈ store ->
       mutator p ∈ mutators /\ (forall f, f ∈ mutationFilters -> mfilter_shouldSkip f p = Ok false) /\
       (exists f, f ∈ functions_of files /\ fn_id f = originalFunction p /\
          (forall filter, filter ∈ functionFilters -> ffilter_shouldSkip filter f = Ok false) /\
          placed_at instructionFilters (bitcode_of (fn_id f)).1 f p) /\
       forall t distance, (t, distance) ∈ reachableTests p <->
         reaching (instr_functions (record_all (map bc_module files))) function_of runs (maxDistance config) tests
           (originalFunction p) t distance) /\
    forall r, r ∈ mutationResults result -> of_reachable_test store (seq 0 (length store)) r.
Proof.
  intros Hnd Hne Hbodies Hleft Hstrict Hseen Hrun.
  destruct Hrun as [instr disk' instrumented d1 d2 tests st points filtered results Hcomp Hlib Hfind Horig Hpoints Hfilter Hmut].
  apply bind_Ok in Hcomp as (compiled & _ & [= <- _ <-]).
  destruct (loadDynamicLibraries_keeps load_library libraries d Hstrict Hseen) as (d1' & Hlib' & Hstrict1 & Hseen1).
  assert (d1' = d1) as -> by congruence.
  exists tests, (AllInstrumentedObjectFiles compiled.2 precompiled).
  pose proof (record_all_table _ Hnd) as Htab.
  destruct (task_spec (record_all (map bc_module files)) function_of
    (test_sandbox (AllInstrumentedObjectFiles compiled.2 precompiled)) (timeout config) (maxDistance config) (captureTestOutput config)
    (seq 0 (length tests)) (initial_tests tests) d1 Htab) as (st' & parts & Hrun & Hst & Hparts & Htests).
  - rewrite record_all_functions. cbn [length]. rewrite length_map. unfold functions_of in Hne. destruct (concat _); [done|cbn; lia].
  - apply NoDup_seq.
  - intros t [_ Ht]%elem_of_seq. destruct (lookup_lt_is_Some_2 tests t) as [test Htest]; [done|].
    destruct (Hbodies tests test Hfind) as (body & Hbody & Hin); [by eapply list_elem_of_lookup_2|].
    destruct (record_all_entry _ _ Hin) as [entry Hentry]. exists test, body, entry. cbn.
    split; [done|]. split; [by rewrite list_lookup_fmap, Htest|]. split; [done|]. split; [done|apply Hleft].
  - done.
  - done.
  - assert (st' = st) as -> by congruence. split; [done|]. split; [|split].
    + cbn [result_tests]. intros t test Ht. rewrite (Htests t test Ht). destruct (decide (t ∈ seq 0 (length tests))) as [|Hn]; [done|].
      destruct Hn. apply elem_of_seq. split; [lia|]. by eapply lookup_lt_Some.
    + intros p Hp. destruct (filterMutations_from _ _ _ _ _ Hfilter Hp) as [Hp' Hskip].
      destruct (findMutationPoints_from _ _ _ _ _ _ _ _ _ Hpoints Hp') as (Hmu & r & Hin & Hr & Hffilter & Hreach & Hplace).
      split; [done|]. split; [done|]. split; [|].
      { exists (rf_function r). split; [|done]. rewrite Hst in Hin.
        destruct (stored_in_table _ _ _ _ _ _ _ _ _ _ Hparts Hin) as [i Hi]. by eapply record_all_from. }
      intros t distance. rewrite Hreach, Hst, <-Hr.
      apply stored_reaching; [by destruct Htab as (_ & _ & ?)|done].
    + intros r Hr. by eapply runMutations_from.
Qed.

(** ** A run on two functions: a test that calls [sum] *)
#[local] Existing Instance text_objects.
#[local] Existing Instance concatenating_hasher.

Definition run_test_function : Function :=
  mkFunction 4 "test_sum" [mkBasicBlock 0 [mkInstruction 0 (Call (Some "sum") []) (at_line 7 3); mkInstruction 1 Ret None]] None.

Definition run_module : Module := mkModule "sum.bc" "sum.cpp" [run_test_function; sample_function].

Definition run_program : Program := mkProgram [] [] [mkUnit run_module [] []].

Definition run_files : list Bitcode := [mkBitcode sample_bitcode run_module []].

Definition run_config : Configuration := newConfiguration.

Definition run_function_of (id : FnId) : option Function := find_first (fun f => Nat.eqb (fn_id f) id) (mod_functions run_module).

(** The test enters itself, then [sum]. *)
Definition run_tests (objects : list ObjectFile) (t : TestId) (timeout : Z) (capture : bool) : OriginalRun :=
  mkOriginalRun (mkExecutionResult Passed 0 12 "" "") [0; 1; 1].

Definition run_jit (objects : list ObjectFile) (names : list string) : JITEngine := sample_jit.

Definition run_under_test : FunctionUnderTest := mkUnderTest sample_function [(0, 1%Z)] (instructions sample_function).

Definition run_store : Store :=
  match search_step [Trivial cxx.AddToSub] (fun _ => (run_module, sample_bitcode)) run_under_test with Ok l => l | _ => [] end.

Definition run_missing (path : string) : option string := Some "not found".

Definition run_diagnostics : Diagnostics :=
  logged newDiagnostics [LogWarn ("Cannot load dynamic library 'libm.so': not found" +:+ eol)].

Definition run_cache : ObjectCache := mkObjectCache false "".

Definition run_compile (m : Module) : ObjectFile := mod_identifier m.

Definition sample_driver_run (result : Result) : Prop :=
  Driver_Run run_config run_cache run_compile (fun b => Ok (bc_module b)) [Trivial cxx.AddToSub] [] [noDebugInfo_instructionFilter]
    [noDebugInfo_mutationFilter] run_function_of (fun _ => (run_module, sample_bitcode)) run_tests run_missing run_jit
    sample_sandbox ∅ [] run_files SimpleTestFinder run_program ["libm.so"] newDiagnostics run_store result run_diagnostics.

Definition run_found : list Test := [newTest "test_sum" "mull" "test_sum" [] (Some 4)].

(** The test passed and reached [sum]. *)
Definition run_state : TaskState :=
  mkTaskState [setExecutionResult (newTest "test_sum" "mull" "test_sum" [] (Some 4)) (mkExecutionResult Passed 0 12 "" "")]
    [Some (mkInfo [0; 1; 1] [])] [mkReachable sample_function 0 1].

Definition run_prepared : list Bitcode * Store * list string :=
  match prepare_files run_store run_files [0] with Ok r => r | _ => ([], [], []) end.

(** The mutant is killed. *)
Definition run_results : list MutationResult := [mkMutationResult (mkExecutionResult Failed 0 1 "" "") 0 1%Z 0].

Lemma sample_normal_run :
  normalRunMutations run_config run_cache run_compile run_jit sample_sandbox ∅ [] run_files run_store (ts_tests run_state) [0]
    run_results.
Proof.
  apply (normal_run run_config run_cache run_compile run_jit sample_sandbox ∅ [] run_files run_store (ts_tests run_state) [0]
    run_prepared.1.1 run_prepared.1.2 run_prepared.2 ∅ ["sum.bc"] [1%Z] [run_results]).
  - vm_compute. reflexivity.
  - vm_compute. reflexivity.
  - cbn. lia.
  - vm_compute. reflexivity.
  - constructor; [|constructor]. vm_compute. reflexivity.
Defined.

Lemma sample_run : sample_driver_run (mkResult (ts_tests run_state) run_results [0]).
Proof.
  apply (driver_run run_config run_cache run_compile (fun b => Ok (bc_module b)) [Trivial cxx.AddToSub] [] [noDebugInfo_instructionFilter]
    [noDebugInfo_mutationFilter] run_function_of (fun _ => (run_module, sample_bitcode)) run_tests run_missing run_jit
    sample_sandbox ∅ [] run_files SimpleTestFinder run_program ["libm.so"] newDiagnostics (record_all [run_module]) ∅ ["sum.bc"]
    run_diagnostics run_diagnostics run_found run_state run_store run_store run_results).
  - vm_compute. reflexivity.
  - vm_compute. reflexivity.
  - reflexivity.
  - vm_compute. reflexivity.
  - apply (findMutationPoints_some _ _ _ _ _ _ _ [mkUnderTest sample_function [(0, 1%Z)] []] [run_under_test]); [done|constructor|..];
      (apply execute_sequentially; [done|done|by left|vm_compute; reflexivity]).
  - eapply filterMutations_step; [|constructor]. apply execute_sequentially; [done|done|by left|vm_compute; reflexivity].
  - apply runMutations_normal; [done|done|exact sample_normal_run].
Defined.

Lemma run_sound_witness :
  exists result, sample_driver_run result /\ mutationResults result = run_results /\
    (forall r, r ∈ mutationResults result -> of_reachable_test run_store [0] r) /\
    exists p, run_store = [p] /\
      (exists f, f ∈ functions_of run_files /\ placed_at [noDebugInfo_instructionFilter] run_module f p) /\ forall t distance, (t, distance) ∈ reachableTests p <->
      reaching (instr_functions (record_all [run_module])) run_function_of (fun t => run_tests [] t 3000 true) 128
        run_found (originalFunction p) t distance.
Proof.
  exists (mkResult (ts_tests run_state) run_results [0]). split; [exact sample_run|]. split; [reflexivity|].
  destruct (run_sound run_config run_cache run_compile (fun b => Ok (bc_module b)) [Trivial cxx.AddToSub] [] [noDebugInfo_instructionFilter]
    [noDebugInfo_mutationFilter] run_function_of (fun _ => (run_module, sample_bitcode)) run_tests run_missing run_jit
    sample_sandbox ∅ [] run_files SimpleTestFinder run_program ["libm.so"] newDiagnostics run_store
    (mkResult (ts_tests run_state) run_results [0]) run_diagnostics)
    as (tests & objects & Htests & _ & Hpoints & Hresults).
  - apply (bool_decide_unpack _). vm_compute. exact I.
  - discriminate.
  - intros tests test Htests Htest. assert (tests = run_found) as -> by (injection Htests as <-; reflexivity).
    apply list_elem_of_singleton in Htest as ->. exists run_test_function. split; [reflexivity|]. left.
  - intros objects t. eexists [Enter 1; Enter 2; Leave 2; Leave 1], _. split; reflexivity.
  - reflexivity.
  - reflexivity.
  - exact sample_run.
  - split; [exact Hresults|]. eexists. split; [reflexivity|].
    assert (tests = run_found) as -> by (injection Htests as <-; reflexivity).
    split; [|apply Hpoints; left].
    edestruct Hpoints as (_ & _ & (f & Hf & _ & _ & Hplace) & _); [left|]. by exists f.
Defined.
