(* ===== verification/Metrics.v ===== *)
(** * The metrics of a run (lib/Metrics/Metrics.cpp, lib/Reporters/TimeReporter.cpp)

    Pairs of readings of the clock, one per activity, and what is printed of
    them.  The clock is an argument of every operation: milliseconds since the
    epoch.  The maps are keyed by pointers, in the order of the identities. *)

From stdpp Require Import base list strings functions.
From Stdlib Require Import ZArith Lia Bool.
From S2P Require Import Prelude StdContainers StringFacts Diagnostics.

Record MetricsMeasure := mkMeasure {
  measure_begin : Z;
  measure_end : Z
}.

Definition newMetricsMeasure : MetricsMeasure := mkMeasure 0 0.
Definition start (now : Z) (m : MetricsMeasure) : MetricsMeasure := mkMeasure now (measure_end m).
Definition finish (now : Z) (m : MetricsMeasure) : MetricsMeasure := mkMeasure (measure_begin m) now.

Definition duration (m : MetricsMeasure) : outcome Z := long_op (measure_end m - measure_begin m).

Definition precision : string := "ms".

(** ** The object *)

(** The members that are one measure. *)
Inductive Phase :=
  | loadModules | loadPrecompiledObjectFiles | loadDynamicLibraries | loadOriginalProgram | findTests | runTime
  | reportResult | instrumentedCompilation | originalTestsExecution | mutantsExecution.

(** The members that are a map from a module, a test or a mutation point. *)
Inductive Table :=
  | originalModuleCompilation | instrumentedModuleCompilation
  | runOriginalTest | findMutations
  | compileMutant | loadMutant.

#[global] Instance Phase_eq_dec : EqDecision Phase.
Proof. solve_decision. Defined.
#[global] Instance Table_eq_dec : EqDecision Table.
Proof. solve_decision. Defined.

Abbreviation Measures := (list (nat * MetricsMeasure)).

Record Metrics := mkMetrics {
  phases : Phase -> MetricsMeasure;
  tables : Table -> Measures;
  mutantRuns : list (nat * Measures)
}.

Definition newMetrics : Metrics := mkMetrics (fun _ => newMetricsMeasure) (fun _ => []) [].

(** What the pairs of methods [begin...], [end...] are about. *)
Inductive Activity :=
  | During (p : Phase)
  | Of (t : Table) (key : nat)
  | RunMutant (mutant test : nat).

(** [map[key]] makes the entry when it is not there. *)
Definition at_activity (f : MetricsMeasure -> MetricsMeasure) (a : Activity) (m : Metrics) : Metrics :=
  match a with
  | During p => mkMetrics (<[p := f (phases m p)]> (phases m)) (tables m) (mutantRuns m)
  | Of t key => mkMetrics (phases m) (<[t := omap_update newMetricsMeasure f key (tables m t)]> (tables m)) (mutantRuns m)
  | RunMutant mutant test =>
      mkMetrics (phases m) (tables m)
        (omap_update [] (fun testRun => omap_update newMetricsMeasure f test testRun) mutant (mutantRuns m))
  end.

Definition begin_activity (a : Activity) (now : Z) : Metrics -> Metrics := at_activity (start now) a.
Definition end_activity (a : Activity) (now : Z) : Metrics -> Metrics := at_activity (finish now) a.

Definition setDriverRunTime (measure : MetricsMeasure) : Metrics -> Metrics := at_activity (fun _ => measure) (During runTime).

(** ** Sums and averages *)
Definition accumulate_duration (metrics : Measures) : outcome Z :=
  fold_outcome (fun total pair => d ← duration pair.2; long_op (total + d)) 0%Z metrics.

(** The signed sum is converted to the unsigned type of the size. *)
Definition average_duration (metrics : Measures) : outcome Z :=
  match metrics with
  | [] => mret 0%Z
  | _ =>
      total ← accumulate_duration metrics;
      mret (to_int64 (to_uint64 total / Z.of_nat (length metrics)))
  end.

Definition totalMutantRunTime (m : Metrics) : outcome Z :=
  fold_outcome (fun total pair => d ← accumulate_duration pair.2; long_op (total + d)) 0%Z (mutantRuns m).

(** Printed as the unsigned number it is. *)
Definition averageMutantRunTime (m : Metrics) : outcome Z :=
  total ← totalMutantRunTime m;
  mret (to_uint64 total / Z.of_nat (Nat.max (length (mutantRuns m)) 1))%Z.

(** ** dump *)
Definition printed_line (label : string) (value : outcome Z) : outcome string :=
  v ← value; mret (label +:+ to_string v +:+ precision +:+ eol).

Definition empty_line : outcome string := mret eol.

Definition dump_lines (m : Metrics) : list (outcome string) :=
  let phase p := duration (phases m p) in
  let total t := accumulate_duration (tables m t) in
  let average t := average_duration (tables m t) in
  [ mret ("Execution Metrics:" +:+ eol); empty_line;
    printed_line "Total run time: ................... " (phase runTime); empty_line;
    printed_line "Find tests: ....................... " (phase findTests);
    printed_line "Find mutations: ................... " (total findMutations); empty_line;
    printed_line "Load modules: ..................... " (phase loadModules);
    printed_line "Load object files: ................ " (phase loadPrecompiledObjectFiles);
    printed_line "Load dylibs: ...................... " (phase loadDynamicLibraries); empty_line;
    printed_line "Load original program: ............ " (phase loadOriginalProgram);
    printed_line "Load mutant (avg): ................ " (average loadMutant);
    printed_line "Load mutant (total): .............. " (total loadMutant); empty_line;
    printed_line "Original compilation (total): ..... " (total originalModuleCompilation);
    printed_line "Instrumented compilation (total): . " (phase instrumentedCompilation);
    printed_line "Mutant compilation (total): ....... " (total compileMutant); empty_line;
    printed_line "Original compilation (avg): ....... " (average originalModuleCompilation);
    printed_line "Instrumented compilation (avg): ... " (average instrumentedModuleCompilation);
    printed_line "Mutant compilation (avg): ......... " (average compileMutant); empty_line;
    printed_line "Tests run time (total): ........... " (phase originalTestsExecution);
    printed_line "Mutants run time (total): ......... " (phase mutantsExecution);
    printed_line "Tests run time (avg): ............. " (average runOriginalTest);
    printed_line "Mutants run time (avg): ........... " (averageMutantRunTime m); empty_line ].

(** The sum over the runs is taken before anything is printed. *)
Definition dump (m : Metrics) : D unit :=
  _ ← lift (totalMutantRunTime m);
  d_iter (fun o => text ← lift o; d_modify (write (StandardOutput text))) (dump_lines m).

(** TimeReporter *)
Definition TimeReporter_reportResults (metrics : Metrics) : D unit := dump metrics.

(** ** What is measured *)

(** The measure of an activity, if there is one. *)
Definition measure_of (a : Activity) (m : Metrics) : option MetricsMeasure :=
  match a with
  | During p => Some (phases m p)
  | Of t key => omap_find key (tables m t)
  | RunMutant mutant test => omap_find mutant (mutantRuns m) ≫= omap_find test
  end.

#[global] Instance Activity_eq_dec : EqDecision Activity.
Proof. solve_decision. Defined.

Lemma measure_at f a m : measure_of a (at_activity f a m) = Some (f (default newMetricsMeasure (measure_of a m))).
Proof.
  destruct a as [p|t key|mutant test]; cbn.
  - by rewrite fn_lookup_insert.
  - by rewrite fn_lookup_insert, omap_find_update_eq.
  - rewrite omap_find_update_eq. cbn. rewrite omap_find_update_eq. by destruct (omap_find mutant (mutantRuns m)).
Qed.

(** An activity changes no other's measure. *)
Lemma measure_other f a b m : a <> b -> measure_of b (at_activity f a m) = measure_of b m.
Proof.
  destruct a as [p|t key|mutant test], b as [p'|t' key'|mutant' test']; cbn; intros Hne; try done.
  - rewrite fn_lookup_insert_ne; [done|congruence].
  - destruct (decide (t = t')) as [<-|Ht]; [|by rewrite fn_lookup_insert_ne].
    rewrite fn_lookup_insert, omap_find_update_ne; [done|congruence].
  - destruct (decide (mutant = mutant')) as [<-|Hm]; [|by rewrite omap_find_update_ne].
    rewrite omap_find_update_eq. cbn. rewrite omap_find_update_ne by congruence.
    by destruct (omap_find mutant (mutantRuns m)).
Qed.

(** Calls of the methods, in order. *)
Inductive Call :=
  | Begin (a : Activity) (now : Z)
  | End (a : Activity) (now : Z).

Definition run_call (m : Metrics) (c : Call) : Metrics :=
  match c with Begin a now => begin_activity a now m | End a now => end_activity a now m end.

Definition run_calls (calls : list Call) : Metrics := foldl run_call newMetrics calls.

(** The last reading at the beginning, at the end of an activity; 0 without one. *)
Definition begun (a : Activity) (acc : Z) (c : Call) : Z :=
  match c with Begin b now => if decide (a = b) then now else acc | End _ _ => acc end.
Definition ended (a : Activity) (acc : Z) (c : Call) : Z :=
  match c with End b now => if decide (a = b) then now else acc | Begin _ _ => acc end.

Definition mentions (a : Activity) (c : Call) : Prop := match c with Begin b _ | End b _ => a = b end.

Lemma run_calls_measure a calls :
  default newMetricsMeasure (measure_of a (run_calls calls)) = mkMeasure (foldl (begun a) 0%Z calls) (foldl (ended a) 0%Z calls) /\
  (is_Some (measure_of a (run_calls calls)) <-> (exists p, a = During p) \/ exists c, c ∈ calls /\ mentions a c).
Proof.
  unfold run_calls. induction calls as [|c calls [IH1 IH2]] using rev_ind.
  { split; [by destruct a|]. destruct a; cbn; split; try (by intros [? [=]]); try (by intros _; left; eexists); try done;
      (intros [[? [=]]|(c & Hc & _)]; by apply not_elem_of_nil in Hc). }
  rewrite !foldl_snoc. set (m := foldl run_call newMetrics calls) in *.
  assert (Hcase : (exists b f, run_call m c = at_activity f b m /\ (mentions a c <-> a = b) /\
    forall x, f x = mkMeasure (begun b (measure_begin x) c) (ended b (measure_end x) c) /\
      (a <> b -> forall i j, begun a i c = i /\ ended a j c = j))).
  { destruct c as [b now|b now]; [exists b, (start now)|exists b, (finish now)]; (split; [done|]; split; [done|]); intros x;
      (split; [unfold begun, ended, start, finish; by rewrite decide_True|]);
      intros Hne i j; cbn; by rewrite decide_False. }
  destruct Hcase as (b & f & -> & Hmen & Hf). destruct (decide (a = b)) as [<-|Hne].
  - rewrite measure_at. cbn [default]. rewrite IH1. split; [by destruct (Hf (mkMeasure (foldl (begun a) 0%Z calls) (foldl (ended a) 0%Z calls))) as [-> _]|].
    split; [intros _; right; exists c|by eexists]. split; [apply elem_of_app; right; left|by apply Hmen].
  - rewrite (measure_other f b a m) by done. destruct (proj2 (Hf newMetricsMeasure) Hne (foldl (begun a) 0%Z calls) (foldl (ended a) 0%Z calls)) as [-> ->].
    split; [done|]. rewrite IH2. split; (intros [?|(c' & Hc' & Hm')]; [by left|right; exists c'; split; [|done]]).
    + apply elem_of_app. by left.
    + apply elem_of_app in Hc' as [?| ->%list_elem_of_singleton]; [done|]. by apply Hmen in Hm'.
Qed.

(** ** Averages *)
Lemma tables_wf calls t : omap_wf (tables (run_calls calls) t).
Proof.
  unfold run_calls. induction calls as [|c calls IH] using rev_ind; [constructor|]. rewrite foldl_snoc.
  set (m := foldl run_call newMetrics calls) in *.
  assert (Hat : forall f a, omap_wf (tables (at_activity f a m) t)).
  { intros f [p|t' key|mutant test]; cbn; [done| |done]. destruct (decide (t' = t)) as [->|Hne].
    - rewrite fn_lookup_insert. by apply omap_wf_assign.
    - by rewrite fn_lookup_insert_ne. }
  destruct c; apply Hat.
Qed.

Definition span (m : MetricsMeasure) : Z := measure_end m - measure_begin m.

Definition spans (metrics : Measures) : Z := foldr Z.add 0%Z (map (fun pair => span pair.2) metrics).

Lemma spans_bounds metrics lo hi :
  (forall pair, pair ∈ metrics -> lo <= span pair.2 <= hi)%Z ->
  (lo * Z.of_nat (length metrics) <= spans metrics <= hi * Z.of_nat (length metrics))%Z.
Proof.
  unfold spans. induction metrics as [|x l IH]; intros Hb; cbn [map foldr length]; [lia|].
  specialize (Hb x (list_elem_of_here _ _)) as Hx. specialize (IH (fun p Hp => Hb p (list_elem_of_further _ _ _ Hp))). lia.
Qed.

(** With durations that are not negative no sum along the way overflows. *)
Lemma accumulate_from metrics : forall total,
  (forall pair, pair ∈ metrics -> 0 <= span pair.2)%Z -> (0 <= total)%Z -> (total + spans metrics <= long_max)%Z ->
  fold_outcome (fun total pair => d ← duration pair.2; long_op (total + d)) total metrics = Ok (total + spans metrics)%Z.
Proof.
  unfold spans. induction metrics as [|x l IH]; intros total Hs Ht Hmax; cbn [map foldr fold_outcome] in *; [f_equal; lia|].
  assert (Hl : (0 <= foldr Z.add 0 (map (fun pair => span pair.2) l))%Z).
  { pose proof (spans_bounds l 0 (foldr Z.max 0 (map (fun pair => span pair.2) l))%Z) as Hb. unfold spans in Hb.
    apply (Z.le_trans _ (0 * Z.of_nat (length l))%Z); [lia|]. apply Hb. intros p Hp. split; [apply Hs; by right|].
    clear -Hp. induction l as [|y l IH]; [by apply not_elem_of_nil in Hp|]. cbn. apply elem_of_cons in Hp as [->|Hp]; [lia|].
    specialize (IH Hp). lia. }
  specialize (Hs x (list_elem_of_here _ _)) as Hx. change (duration x.2) with (long_op (span x.2)).
  rewrite long_op_Ok by (unfold long_min; lia). cbn [mbind outcome_bind].
  rewrite long_op_Ok by (unfold long_min; lia). cbn [mbind outcome_bind]. rewrite IH; [f_equal; lia|intros p Hp; apply Hs; by right|lia|lia].
Qed.

(** The averages printed are averages, of activities that ended.  When no
    duration is negative and the sum fits, the average is the sum divided by the
    number of entries, rounded down, and lies between the shortest and the
    longest; but with a negative sum (an activity was begun and never ended) and
    more than one entry the number printed is huge: the sum is converted to an
    unsigned type first.  What is summed up is the last reading at the end of an
    activity less the last at its beginning, whatever was measured in between. *)
Theorem average_duration_mean t calls lo hi :
  let metrics := tables (run_calls calls) t in
  let n := Z.of_nat (length metrics) in
  (forall key m, (key, m) ∈ metrics ->
     m = mkMeasure (foldl (begun (Of t key)) 0%Z calls) (foldl (ended (Of t key)) 0%Z calls)) /\
  (metrics <> [] -> (forall key m, (key, m) ∈ metrics -> 0 <= lo <= span m /\ span m <= hi)%Z -> (spans metrics <= long_max)%Z ->
     average_duration metrics = Ok (spans metrics / n)%Z /\ (lo <= spans metrics / n <= hi)%Z) /\
  (forall total, accumulate_duration metrics = Ok total -> (long_min <= total < 0)%Z -> (2 <= n)%Z ->
     exists average, average_duration metrics = Ok average /\ (long_max < (average + 1) * n)%Z).
Proof.
  intros metrics n. split; [|split].
  - intros key m Hin. destruct (run_calls_measure (Of t key) calls) as [Hm _]. rewrite <-Hm. cbn [measure_of].
    rewrite (omap_elem_find key m (tables (run_calls calls) t)); [done|apply tables_wf|done].
  - intros Hne Hb Hmax. assert (Hn : (0 < n)%Z) by (unfold n; destruct metrics; [done|cbn; lia]).
    pose proof (spans_bounds metrics lo hi) as Hbounds.
    assert (Hlohi : (lo * n <= spans metrics <= hi * n)%Z) by (apply Hbounds; intros [key m] Hp; destruct (Hb key m Hp); cbn; lia).
    assert (H0 : (0 <= spans metrics)%Z).
    { pose proof (spans_bounds metrics 0 hi) as H0. fold n in H0. assert (0 * n <= spans metrics <= hi * n)%Z; [|lia].
      apply H0. intros [key m] Hp. destruct (Hb key m Hp); cbn; lia. }
    assert (Hacc : accumulate_duration metrics = Ok (spans metrics)).
    { unfold accumulate_duration. rewrite accumulate_from; [done| |lia|lia]. intros [key m] Hp. destruct (Hb key m Hp); cbn; lia. }
    assert (Havg : (lo <= spans metrics / n <= hi)%Z).
    { split; [apply Z.div_le_lower_bound; lia|]. apply Z.div_le_upper_bound; lia. }
    split; [|done]. unfold average_duration. destruct metrics as [|x l] eqn:E; [done|]. rewrite Hacc. cbn [mbind outcome_bind].
    fold n. rewrite to_uint64_id by (unfold long_max in Hmax; lia).
    rewrite to_int64_id; [done|]. split; [unfold long_min; apply (Z.le_trans _ 0); [lia|by apply Z.div_pos; lia]|].
    apply (Z.le_trans _ (spans (x :: l))); [|done]. apply Z.div_le_upper_bound; [done|]. nia.
  - intros total Hacc Htotal Hn. unfold average_duration. destruct metrics as [|x l] eqn:E; [cbn in n; lia|]. rewrite Hacc.
    cbn [mbind outcome_bind]. fold n. set (u := (total + 18446744073709551616)%Z).
    assert (Hmod : to_uint64 total = u).
    { symmetry. apply (Z.mod_unique_pos _ _ (-1)); unfold u, long_min in *; lia. }
    rewrite Hmod.
    assert (Hu : (0 <= u / n <= long_max)%Z).
    { unfold long_min, long_max in *. split; [apply Z.div_pos; lia|]. apply Z.lt_succ_r.
      apply Z.div_lt_upper_bound; lia. }
    rewrite to_int64_id by (unfold long_min; lia). exists (u / n)%Z. split; [done|].
    pose proof (Z.mul_succ_div_gt u n ltac:(lia)). unfold u, long_min, long_max in *. lia.
Qed.

(** Two tests; the second runs twice, 41 ms the last time. *)
Definition sample_calls : list Call :=
  [Begin (Of runOriginalTest 0) 1000; End (Of runOriginalTest 0) 1030;
   Begin (Of runOriginalTest 1) 1040; End (Of runOriginalTest 1) 1050;
   Begin (Of runOriginalTest 1) 1060; Begin (During runTime) 1065; End (Of runOriginalTest 1) 1101].

Lemma average_duration_mean_witness :
  let metrics := tables (run_calls sample_calls) runOriginalTest in
  (forall key m, (key, m) ∈ metrics -> m = mkMeasure (foldl (begun (Of runOriginalTest key)) 0%Z sample_calls)
     (foldl (ended (Of runOriginalTest key)) 0%Z sample_calls)) /\
  average_duration metrics = Ok 35%Z /\ (30 <= 35 <= 41)%Z.
Proof.
  destruct (average_duration_mean runOriginalTest sample_calls 30 41) as (Hm & Havg & _). split; [exact Hm|].
  apply Havg.
  - discriminate.
  - intros key m Hin. change (tables (run_calls sample_calls) runOriginalTest) with [(0, mkMeasure 1000 1030); (1, mkMeasure 1060 1101)] in Hin.
    apply elem_of_cons in Hin as [[= -> ->]|[= -> ->]%list_elem_of_singleton]; unfold span; cbn; lia.
  - discriminate.
Defined.
