(* ===== verification/Progress.v ===== *)
(** * The progress of a task executor (lib/Parallelization/Progress.cpp, TaskExecutor.{h,cpp})

    Beside the threads of an executor runs one more: it polls their counters
    every ten milliseconds, prints a bar when the sum has grown, and stops when
    the sum is the number of items.  The counters are read one after the other
    while the threads go on counting: reading a counter is a step of its own, in
    any interleaving with those of [Executor.worker_step].  What the tasks
    themselves print in between is left out. *)

From stdpp Require Import base list strings sets relations sorting.
From Stdlib Require Import ZArith Lia Bool Ascii SpecFloat Sorted.
From S2P Require Import Prelude StringFacts Doubles Diagnostics Executor Metrics.

(** ** progress_reporter *)
Record progress_reporter := mkReporter {
  total : Z;
  previousValue : Z;
  name : string;
  reporter_workers : Z;
  hasTerminal : bool
}.

(** [getenv("TERM") != nullptr] is [hasTerminal]. *)
Definition new_progress_reporter (hasTerminal : bool) (name : string) (total workers : Z) : D progress_reporter :=
  let r := mkReporter total 0 name workers hasTerminal in
  _ ← info (name +:+ " (threads: " +:+ to_string workers +:+ ")");
  mret r.

Definition barWidth : Z := 32.

Definition string_of_char (n : Z) (c : ascii) : string := String.string_of_list_ascii (replicate (Z.to_nat n) c).

Definition stars_count (current total : Z) : outcome Z :=
  size_of_double (SFmul 53 1024 (SFdiv 53 1024 (double_of_size current) (double_of_size total)) (double_of_size barWidth)).

Definition progress_line (hasTerminal : bool) (current total starsCount : Z) : string :=
  String (if hasTerminal then "013"%char else "010"%char) (string_of_char 7 " "%char) +:+
  "[" +:+ string_of_char starsCount "#"%char +:+ string_of_char (barWidth - starsCount) "-"%char +:+ "] " +:+
  to_string current +:+ "/" +:+ to_string total.

(** A string of more than [max_size] characters is refused: here one of a
    negative number of dots, which wraps around. *)
Definition printProgress (r : progress_reporter) (current total : Z) (force : bool) : D progress_reporter :=
  if Z.eqb current (previousValue r) then mret r
  else
    starsCount ← lift (stars_count current total);
    _ ← lift (require (starsCount <=? barWidth)%Z "std::length_error");
    _ ← progress (progress_line (hasTerminal r) current total starsCount);
    mret (mkReporter (Progress.total r) current (name r) (reporter_workers r) (hasTerminal r)).

Definition printTimeSummary (measure : MetricsMeasure) : D unit :=
  elapsed ← lift (duration measure);
  progress (". Finished in " +:+ to_string elapsed +:+ precision).

(** A task that is not about items: run in place, and reported when it is done. *)
Definition SingleTaskExecutor_execute (hasTerminal : bool) (name : string) (measure : MetricsMeasure) {A} (task : D A) : D A :=
  reporter ← new_progress_reporter hasTerminal name 1 1;
  a ← task;
  _ ← printProgress reporter 1 1 true;
  _ ← printTimeSummary measure;
  mret a.

(** ** The threads and the reporter *)
Section System.
Context {A B : Type} (step : A -> outcome (list B)).

(** Where the reporter is: in a poll, with the sum of the first counters; or at
    its end. *)
Inductive Where := Reading (next : nat) (current : Z) | Stopped.

Record System := mkSystem {
  sys_workers : list (@Worker A B);
  sys_where : Where;
  sys_reporter : progress_reporter;
  sys_log : Diagnostics
}.

Inductive system_step : System -> System -> Prop :=
  | thread_step ws ws' w r d :
      worker_step step ws ws' -> system_step (mkSystem ws w r d) (mkSystem ws' w r d)
  | read_counter ws worker i current r d :
      ws !! i = Some worker ->
      system_step (mkSystem ws (Reading i current) r d)
        (mkSystem ws (Reading (S i) (to_uint64 (current + Z.of_nat (w_counter worker)))) r d)
  | poll_again ws r d :
      system_step (mkSystem ws (Reading (length ws) 0) r d) (mkSystem ws (Reading 0 0) r d)
  | report ws current r r' d d' :
      current <> 0%Z -> printProgress r current (total r) false d = (Ok r', d') ->
      system_step (mkSystem ws (Reading (length ws) current) r d)
        (mkSystem ws (if Z.eqb current (total r) then Stopped else Reading 0 0) r' d').
End System.

(** ** The bar *)
Lemma length_string_of_char n c : String.length (string_of_char n c) = Z.to_nat n.
Proof. unfold string_of_char. induction (Z.to_nat n) as [|k IH]; [done|]. cbn. by rewrite IH. Qed.

Lemma stars_of_share current total :
  (0 < current <= total)%Z -> (total < 2 ^ 53)%Z ->
  exists stars, stars_count current total = Ok stars /\ (0 <= stars <= barWidth)%Z /\ (current = total -> stars = barWidth).
Proof. intros Hc Ht. exact (share_le current total 5 Hc Ht ltac:(lia)). Qed.

(** The line that is printed for a number of items done. *)
Definition line_of (terminal : bool) (total current : Z) : string :=
  progress_line terminal current total (ok_or 0%Z (stars_count current total)).

Lemma printProgress_run r current d :
  (0 < current <= total r)%Z -> (total r < 2 ^ 53)%Z -> current <> previousValue r ->
  exists d', printProgress r current (total r) false d =
      (Ok (mkReporter (total r) current (name r) (reporter_workers r) (hasTerminal r)), d') /\
    out d' = out d ++ [RawProgress (line_of (hasTerminal r) (total r) current)].
Proof.
  intros Hc Ht Hne. destruct (stars_of_share current (total r) Hc Ht) as (stars & Hs & Hbound & _).
  unfold printProgress. rewrite (proj2 (Z.eqb_neq _ _) Hne), lift_bind, Hs, lift_bind.
  rewrite (proj2 (Z.leb_le _ _)) by lia. cbn [require]. eexists. split; [reflexivity|]. cbn. unfold line_of. by rewrite Hs.
Qed.

(** ** Sums of counters *)
Abbreviation sum := (foldr Nat.add 0).

Lemma sum_app l1 l2 : sum (l1 ++ l2) = sum l1 + sum l2.
Proof. induction l1 as [|x l IH]; [done|]. cbn. rewrite IH. lia. Qed.

Lemma sum_split i l : sum l = sum (take i l) + sum (drop i l).
Proof. by rewrite <-sum_app, take_drop. Qed.

Lemma sum_take_S l i c : l !! i = Some c -> sum (take (S i) l) = sum (take i l) + c.
Proof. intros Hi. rewrite (take_S_r l i c Hi), sum_app. cbn. lia. Qed.

Lemma sum_drop_S l i c : l !! i = Some c -> sum (drop i l) = c + sum (drop (S i) l).
Proof. intros Hi. by rewrite (drop_S l c i Hi). Qed.

Lemma sum_mono l l' : Forall2 le l l' -> sum l <= sum l'.
Proof. induction 1 as [|x y l l' Hx _ IH]; cbn; lia. Qed.

(** ** Growing lists *)
Lemma SSorted_last (l : list Z) : forall a x, StronglySorted Z.lt (a :: l) -> x ∈ a :: l -> (x <= default a (last l))%Z.
Proof.
  induction l as [|b l IH]; intros a x Hs Hx; [apply list_elem_of_singleton in Hx as ->; cbn; lia|].
  apply StronglySorted_inv in Hs as [Hs Ha].
  replace (default a (last (b :: l))) with (default b (last l))
    by (by destruct l as [|c l]; [|cbn; destruct (last (c :: l)) eqn:E; [|apply last_None in E]]).
  apply elem_of_cons in Hx as [->|Hx]; [|by apply IH].
  apply Forall_cons in Ha as [Hab _]. pose proof (IH b b Hs (list_elem_of_here _ _)). lia.
Qed.

Lemma SSorted_snoc (l : list Z) v : StronglySorted Z.lt (0%Z :: l) -> (default 0 (last l) < v)%Z -> StronglySorted Z.lt (0%Z :: (l ++ [v])).
Proof.
  intros Hl Hv. change (0%Z :: l ++ [v]) with ((0%Z :: l) ++ [v]). apply StronglySorted_app_2; [|done|repeat constructor].
  intros x y Hx ->%list_elem_of_singleton. pose proof (SSorted_last l 0%Z x Hl Hx). lia.
Qed.

Section Invariant.
Context {A B : Type} (step : A -> outcome (list B)).
Context (f : A -> list B) (batches : list (list A)) (items : nat) (terminal : bool) (d0 : Diagnostics).
Context (Hf : yields step f (concat batches)) (Hitems : items = length (concat batches)) (Hne : 0 < items).
Context (Hbound : (Z.of_nat items < 2 ^ 53)%Z).

Abbreviation counters ws := (map (@w_counter A B) ws).

(** A poll has read at most what the counters are now, and what it has read
    together with what it has not is at least what was printed. *)
Record inv (s : @System A B) (printed : list Z) : Prop := {
  inv_workers : Forall2 (worker_ok f) batches (sys_workers s);
  inv_total : total (sys_reporter s) = Z.of_nat items;
  inv_terminal : Progress.hasTerminal (sys_reporter s) = terminal;
  inv_printed : out (sys_log s) = out d0 ++ map (fun v => RawProgress (line_of terminal (Z.of_nat items) v)) printed;
  inv_previous : default 0%Z (last printed) = previousValue (sys_reporter s);
  inv_sorted : StronglySorted Z.lt (0%Z :: printed);
  inv_where : match sys_where s with
    | Reading i current => i <= length batches /\
        (0 <= current <= Z.of_nat (sum (take i (counters (sys_workers s)))))%Z /\
        (previousValue (sys_reporter s) <= current + Z.of_nat (sum (drop i (counters (sys_workers s)))))%Z
    | Stopped => joined (sys_workers s) = true /\ previousValue (sys_reporter s) = Z.of_nat items
    end
}.

Lemma counters_bound ws : Forall2 (worker_ok f) batches ws -> sum (counters ws) <= items.
Proof. intros Hok. pose proof (workers_total f batches ws Hok). unfold progress_total in *. lia. Qed.

Lemma joined_when_counted ws : Forall2 (worker_ok f) batches ws -> sum (counters ws) = items <-> joined ws = true.
Proof. intros Hok. pose proof (workers_total f batches ws Hok). unfold progress_total in *. rewrite joined_total. lia. Qed.

Lemma worker_step_counters ws ws' : worker_step step ws ws' -> Forall2 le (counters ws) (counters ws').
Proof.
  intros [i item rest storage counter found w Hi _].
  rewrite (list_fmap_insert w_counter w i (mkWorker rest (storage ++ found) (S counter)) : counters _ = _).
  apply Forall2_same_length_lookup. split; [by rewrite length_insert|]. intros j x y Hx Hy.
  destruct (decide (i = j)) as [<-|Hne'].
  - rewrite list_lookup_insert_eq in Hy by (by eapply lookup_lt_Some). injection Hy as <-.
    rewrite list_lookup_fmap, Hi in Hx. injection Hx as <-. cbn. lia.
  - rewrite list_lookup_insert_ne in Hy by done. assert (Some x = Some y) as [= ->] by (rewrite <-Hx, <-Hy; done). lia.
Qed.

Lemma inv_thread ws ws' w r d printed :
  inv (mkSystem ws w r d) printed -> worker_step step ws ws' -> inv (mkSystem ws' w r d) printed.
Proof.
  intros [Hok Ht Hterm Hout Hprev Hsort Hw] Hs. cbn [sys_workers sys_where sys_reporter sys_log] in *.
  pose proof (worker_step_ok step f batches ws ws' Hf Hok Hs) as Hok'.
  constructor; cbn [sys_workers sys_where sys_reporter sys_log]; [done..|]. destruct w as [i current|].
  - destruct Hw as (Hi & Hc & Hp). pose proof (worker_step_counters ws ws' Hs) as Hle.
    pose proof (sum_mono _ _ (Forall2_take _ _ _ i Hle)). pose proof (sum_mono _ _ (Forall2_drop _ _ _ i Hle)).
    split; [done|]. lia.
  - exfalso. destruct Hw as [Hj _]. apply (joined_when_counted ws Hok) in Hj.
    pose proof (counters_bound ws' Hok'). pose proof (worker_step_total step ws ws' Hs) as Hsum. unfold progress_total in Hsum. lia.
Qed.

Lemma inv_read ws worker i current r d printed :
  inv (mkSystem ws (Reading i current) r d) printed -> ws !! i = Some worker ->
  inv (mkSystem ws (Reading (S i) (to_uint64 (current + Z.of_nat (w_counter worker)))) r d) printed.
Proof.
  intros [Hok Ht Hterm Hout Hprev Hsort (Hi & Hc & Hp)] Hworker. cbn [sys_workers sys_where sys_reporter sys_log] in *.
  assert (Hci : counters ws !! i = Some (w_counter worker)) by (by rewrite list_lookup_fmap, Hworker).
  constructor; cbn [sys_workers sys_where sys_reporter sys_log]; [done..|].
  pose proof (counters_bound ws Hok) as Hsum. rewrite (sum_split (S i)), (sum_take_S _ _ _ Hci) in Hsum.
  rewrite (sum_drop_S _ _ _ Hci) in Hp. rewrite (sum_take_S _ _ _ Hci), to_uint64_id by lia.
  split; [|lia]. rewrite (Forall2_length _ _ _ Hok). by eapply lookup_lt_Some.
Qed.

Lemma inv_report ws current r r' d d' printed :
  inv (mkSystem ws (Reading (length ws) current) r d) printed ->
  current <> 0%Z -> printProgress r current (total r) false d = (Ok r', d') ->
  exists printed', inv (mkSystem ws (if Z.eqb current (total r) then Stopped else Reading 0 0) r' d') printed'.
Proof.
  intros [Hok Ht Hterm Hout Hprev Hsort (Hi & Hc & Hp)] Hne0 Hprint. cbn [sys_workers sys_where sys_reporter sys_log] in *.
  pose proof (counters_bound ws Hok) as Hsum.
  rewrite take_ge in Hc by (by rewrite length_map). rewrite drop_ge in Hp by (by rewrite length_map). cbn in Hp.
  assert (Hwhere : forall p, p = current -> match (if Z.eqb current (total r) then Stopped else Reading 0 0) with
    | Reading i c => i <= length batches /\ (0 <= c <= Z.of_nat (sum (take i (counters ws))))%Z /\
        (p <= c + Z.of_nat (sum (drop i (counters ws))))%Z
    | Stopped => joined ws = true /\ p = Z.of_nat items end).
  { intros p ->. rewrite Ht. destruct (Z.eqb_spec current (Z.of_nat items)) as [->|].
    - split; [|done]. apply (joined_when_counted ws Hok). lia.
    - split; [lia|]. rewrite drop_0. split; [|lia]. split; [done|lia]. }
  destruct (Z.eq_dec current (previousValue r)) as [Heq|Hne'].
  - unfold printProgress in Hprint. rewrite (proj2 (Z.eqb_eq _ _) Heq) in Hprint. injection Hprint as <- <-.
    exists printed. constructor; cbn [sys_workers sys_where sys_reporter sys_log]; [done..|]. by apply Hwhere.
  - destruct (printProgress_run r current d) as (d1 & Hrun & Hout1); [lia..|done|]. rewrite Hrun in Hprint. injection Hprint as <- <-.
    exists (printed ++ [current]). constructor; cbn [sys_workers sys_where sys_reporter sys_log total Progress.hasTerminal previousValue].
    + done.
    + done.
    + done.
    + by rewrite Hout1, Hout, map_app, <-app_assoc, Ht, Hterm.
    + by rewrite last_snoc.
    + apply SSorted_snoc; [done|]. rewrite Hprev. lia.
    + by apply Hwhere.
Qed.

Lemma inv_step s s' printed : inv s printed -> system_step step s s' -> exists printed', inv s' printed'.
Proof.
  intros Hinv Hstep. destruct Hstep as [ws ws' w r d Hs|ws worker i current r d Hi|ws r d|ws current r r' d d' Hne' Hprint].
  - exists printed. by eapply inv_thread.
  - exists printed. by eapply inv_read.
  - exists printed. destruct Hinv as [Hok Ht Hterm Hout Hprev Hsort (Hi & Hc & Hp)]. cbn [sys_workers sys_where sys_reporter sys_log] in *.
    constructor; cbn [sys_workers sys_where sys_reporter sys_log]; [done..|]. split; [lia|]. rewrite drop_0. split; [split; [done|lia]|].
    rewrite drop_ge in Hp by (by rewrite length_map). cbn in *. lia.
  - by eapply inv_report.
Qed.

(** What was printed is the sum of counters that were there. *)
Lemma inv_shown s printed v : inv s printed -> v ∈ printed -> (0 < v <= Z.of_nat items)%Z.
Proof.
  intros Hinv Hv. pose proof (counters_bound _ (inv_workers _ _ Hinv)) as Hsum.
  pose proof (inv_sorted _ _ Hinv) as Hs. pose proof (SSorted_last _ _ v Hs (list_elem_of_further _ _ _ Hv)) as Hle.
  rewrite (inv_previous _ _ Hinv) in Hle. apply StronglySorted_inv in Hs as [_ Hpos]. rewrite Forall_forall in Hpos.
  specialize (Hpos v Hv). pose proof (inv_where _ _ Hinv) as Hw. destruct (sys_where s) as [i current|]; [|lia].
  rewrite (sum_split i) in Hsum. lia.
Qed.

(** Until it stops the reporter can go on. *)
Lemma inv_moves s printed : inv s printed -> sys_where s <> Stopped -> exists s', system_step step s s'.
Proof.
  destruct s as [ws [i current|] r d]; [|done]. intros [Hok Ht Hterm Hout Hprev Hsort (Hi & Hc & Hp)] _.
  cbn [sys_workers sys_where sys_reporter sys_log] in *. rewrite (Forall2_length _ _ _ Hok) in Hi.
  destruct (decide (i = length ws)) as [->|Hlt].
  - destruct (Z.eq_dec current 0) as [->|Hne']; [eexists; apply poll_again|].
    pose proof (counters_bound ws Hok) as Hsum. rewrite take_ge in Hc by (by rewrite length_map).
    destruct (Z.eq_dec current (previousValue r)) as [Heq|Hnew].
    + eexists. apply (report step ws current r r d d); [done|]. unfold printProgress. by rewrite (proj2 (Z.eqb_eq _ _) Heq).
    + destruct (printProgress_run r current d) as (d1 & Hrun & _); [lia..|done|]. eexists. by eapply report.
  - destruct (lookup_lt_is_Some_2 ws i) as [worker Hw]; [lia|]. eexists. by eapply read_counter.
Qed.

(** The steps that are left when the threads are done: those of this poll, and
    of one more if this one began too early. *)
Definition steps_left (s : @System A B) : nat :=
  match sys_where s with
  | Stopped => 0
  | Reading i current =>
      length (sys_workers s) - i + 1 +
      if Z.eqb current (Z.of_nat (sum (take i (counters (sys_workers s))))) then 0 else length (sys_workers s) + 1
  end.

Lemma steps_left_bound s : steps_left s <= 2 * length (sys_workers s) + 2.
Proof. clear. unfold steps_left. destruct (sys_where s) as [i current|]; [|lia]. destruct (Z.eqb _ _); lia. Qed.

Lemma joined_step s s' printed :
  inv s printed -> joined (sys_workers s) = true -> system_step step s s' ->
  sys_workers s' = sys_workers s /\ steps_left s' < steps_left s.
Proof.
  intros Hinv Hj Hstep. pose proof (proj2 (joined_when_counted _ (inv_workers s printed Hinv)) Hj) as Hall.
  destruct Hstep as [ws ws' w r d Hs|ws worker i current r d Hi|ws r d|ws current r r' d d' Hne' Hprint];
    cbn [sys_workers sys_where sys_reporter sys_log] in *.
  - exfalso. destruct (inv_thread _ _ _ _ _ _ Hinv Hs) as [Hok' _ _ _ _ _ _]. pose proof (counters_bound ws' Hok').
    pose proof (worker_step_total step ws ws' Hs) as Hsum. unfold progress_total in Hsum. lia.
  - split; [done|]. pose proof (lookup_lt_Some _ _ _ Hi) as Hlt.
    assert (Hci : counters ws !! i = Some (w_counter worker)) by (by rewrite list_lookup_fmap, Hi).
    unfold steps_left. cbn [sys_workers sys_where]. rewrite (sum_take_S _ _ _ Hci).
    destruct (inv_where _ _ Hinv) as (_ & Hc & _). cbn [sys_workers] in Hc.
    rewrite (sum_split (S i)), (sum_take_S _ _ _ Hci) in Hall. rewrite to_uint64_id by lia.
    destruct (Z.eqb_spec current (Z.of_nat (sum (take i (counters ws))))), (Z.eqb_spec (current + Z.of_nat (w_counter worker))
      (Z.of_nat (sum (take i (counters ws)) + w_counter worker))); lia.
  - split; [done|]. unfold steps_left. cbn [sys_workers sys_where]. rewrite (take_ge _ (length ws)) by (by rewrite length_map).
    rewrite Hall. rewrite (proj2 (Z.eqb_neq 0 (Z.of_nat items))) by lia. change (Z.eqb 0 (Z.of_nat (sum (take 0 (counters ws))))) with true. cbv iota. lia.
  - split; [done|]. unfold steps_left. cbn [sys_workers sys_where]. rewrite (take_ge _ (length ws)) by (by rewrite length_map).
    rewrite Hall. pose proof (inv_total _ _ Hinv) as Ht. cbn [sys_reporter] in Ht. rewrite Ht.
    destruct (Z.eqb current (Z.of_nat items)); cbv iota; [lia|]. change (Z.eqb 0 (Z.of_nat (sum (take 0 (counters ws))))) with true. cbv iota. lia.
Qed.

Lemma joined_steps k : forall s s' printed,
  inv s printed -> joined (sys_workers s) = true -> nsteps (system_step step) k s s' -> k + steps_left s' <= steps_left s.
Proof.
  induction k as [|k IH]; intros s s' printed Hinv Hj Hk; inversion Hk as [|? ? s1 ? Hstep Hrest]; subst; [lia|].
  destruct (joined_step _ _ _ Hinv Hj Hstep) as [Hsame Hlt]. destruct (inv_step _ _ _ Hinv Hstep) as [printed1 Hinv1].
  rewrite <-Hsame in Hj. pose proof (IH _ _ _ Hinv1 Hj Hrest). lia.
Qed.

Lemma inv_reachable s s' printed : inv s printed -> rtc (system_step step) s s' -> exists printed', inv s' printed'.
Proof.
  intros Hinv Hr. revert printed Hinv. induction Hr as [s|s s1 s2 Hstep _ IH]; intros printed Hinv; [by exists printed|].
  destruct (inv_step _ _ _ Hinv Hstep) as [printed1 Hinv1]. by eapply IH.
Qed.
End Invariant.

(** ** Claims *)

(** C12: the progress of an executor is reported to its end, whatever the
    interleaving, with the batches cut by [batch_sizes], which [taskBatches] gives
    the executor ([taskBatches_cases]).  Each line printed is a bar of 32 characters over the number
    of items done; the numbers grow strictly, from 1 up to at most the number of
    items; no assertion or exception is possible; the reporter stops only when
    every thread is done, and then the last line was full.  The reporter can
    always go on, and when the threads are done it stops within two polls. *)
Theorem progress_reported {A B} (step : A -> outcome (list B)) tasks input result title terminal d d1 r s :
  0 < tasks <= length input -> (Z.of_nat (length input) < 2 ^ 53)%Z -> run_task step [] input = Ok result ->
  let items := Z.of_nat (length input) in
  new_progress_reporter terminal title items (Z.of_nat tasks) d = (Ok r, d1) ->
  rtc (system_step step)
    (mkSystem (map start_worker (cut_batches (batch_sizes (length input) tasks) input)) (Reading 0 0) r d1) s ->
  (exists printed, out (sys_log s) = out d1 ++ map (fun v => RawProgress (line_of terminal items v)) printed /\
     StronglySorted Z.lt printed /\
     (forall v, v ∈ printed -> (0 < v <= items)%Z /\
        exists stars, line_of terminal items v = progress_line terminal v items stars /\ (0 <= stars <= barWidth)%Z /\
          (v = items -> stars = barWidth)) /\
     (sys_where s = Stopped -> joined (sys_workers s) = true /\ last printed = Some items)) /\
  (sys_where s <> Stopped -> exists s', system_step step s s') /\
  (joined (sys_workers s) = true -> forall k s', nsteps (system_step step) k s s' -> k <= 2 * tasks + 2).
Proof.
  intros Ht Hbound Hresult items Hr Hreach. destruct (run_task_Ok step input [] result Hresult) as [f Hf].
  set (batches := cut_batches (batch_sizes (length input) tasks) input) in *.
  assert (Hcat : concat batches = input) by (by apply batches_partition).
  assert (Hf' : yields step f (concat batches)) by (by rewrite Hcat).
  assert (Hitems : length input = length (concat batches)) by (by rewrite Hcat).
  assert (Hinit : inv f batches (length input) terminal d1 (mkSystem (map start_worker batches) (Reading 0 0) r d1) []).
  { apply D_bind_Ok in Hr as ([] & d2 & _ & [= <- <-]). constructor; cbn [sys_workers sys_where sys_reporter sys_log]; try done.
    - apply (workers_ok step); [done|constructor].
    - by rewrite app_nil_r.
    - repeat constructor.
    - cbn. lia. }
  destruct (inv_reachable step f batches (length input) terminal d1 Hf' Hitems ltac:(lia) Hbound _ _ _ Hinit Hreach) as [printed Hinv].
  split; [|split].
  - exists printed. split; [apply (inv_printed _ _ _ _ _ _ _ Hinv)|].
    split; [apply (proj1 (StronglySorted_inv (inv_sorted _ _ _ _ _ _ _ Hinv)))|]. split.
    + intros v Hv. pose proof (inv_shown f batches (length input) terminal d1 Hitems ltac:(lia) s printed v Hinv Hv) as Hrange. split; [done|].
      destruct (stars_of_share v items) as (stars & Hs & Hstars & Hfull); [done|done|].
      exists stars. split; [|done]. unfold line_of. by rewrite Hs.
    + intros Hstop. pose proof (inv_where _ _ _ _ _ _ _ Hinv) as Hw. rewrite Hstop in Hw. destruct Hw as [Hj Hp]. split; [done|].
      rewrite <-(inv_previous _ _ _ _ _ _ _ Hinv) in Hp. destruct (last printed); cbn in Hp; [by rewrite Hp|lia].
  - by apply (inv_moves step f batches (length input) terminal d1 Hitems ltac:(lia) Hbound s printed).
  - intros Hj k s' Hk.
    pose proof (joined_steps step f batches (length input) terminal d1 Hf' Hitems ltac:(lia) Hbound k s s' printed Hinv Hj Hk) as Hleft.
    pose proof (steps_left_bound s) as Hmax. rewrite <-(Forall2_length _ _ _ (inv_workers _ _ _ _ _ _ _ Hinv)) in Hmax.
    replace (length batches) with tasks in Hmax; [lia|]. unfold batches, batch_sizes. by rewrite length_cut_batches, !length_map, length_seq.
Qed.

(** Two threads on four items; the second is done with one when it is polled. *)
Definition polled_reporter : progress_reporter := mkReporter 4 0 "Searching" 2 true.
Definition polled_log : Diagnostics := logged newDiagnostics [LogInfo "Searching (threads: 2)"].
Definition polled_start : list (@Worker nat nat) := map start_worker (cut_batches (batch_sizes 4 2) [1; 2; 3; 4]).
Definition polled_workers : list (@Worker nat nat) := <[1 := mkWorker [4] ([] ++ []) 1]> polled_start.

Definition polled : @System nat nat :=
  mkSystem polled_workers (Reading 0 0) (mkReporter 4 1 "Searching" 2 true)
    (printProgress polled_reporter 1 4 false polled_log).2.

Lemma polled_reached : rtc (system_step double_even) (mkSystem polled_start (Reading 0 0) polled_reporter polled_log) polled.
Proof.
  eapply rtc_l; [apply (thread_step double_even polled_start polled_workers)|].
  { eapply worker_step_at; reflexivity. }
  eapply rtc_l; [eapply read_counter; reflexivity|]. eapply rtc_l; [eapply read_counter; reflexivity|].
  apply rtc_once. apply (report double_even polled_workers 1%Z polled_reporter (mkReporter 4 1 "Searching" 2 true)); [done|].
  vm_compute. reflexivity.
Defined.

Lemma progress_reported_witness :
  out (sys_log polled) = [LogInfo "Searching (threads: 2)";
    RawProgress (String "013" "       [########------------------------] 1/4")] /\
  exists s', system_step double_even polled s'.
Proof.
  split; [vm_compute; reflexivity|].
  refine (proj1 (proj2 (progress_reported double_even 2 [1; 2; 3; 4] [2; 2; 4; 4] "Searching" true newDiagnostics polled_log
    polled_reporter polled _ _ _ _ polled_reached)) _).
  - cbn. lia.
  - cbn. lia.
  - reflexivity.
  - vm_compute. reflexivity.
  - discriminate.
Defined.
