(* ===== verification/Validator.v ===== *)
(** * The validator of mutators (tools/internal/mutator-validator/mutator-validator.cpp)

    A tool for the developers of mull: it means to apply a group of mutators to
    every function of a bitcode file and to have LLVM's verifier check what comes
    out.  It is put together from the parts of the library and forgets two of
    them: nothing selects the instructions to mutate, and the mutants are never
    handed to their bitcode file. *)

From stdpp Require Import base list strings gmap.
From Stdlib Require Import ZArith Lia Bool.
From S2P Require Import Prelude StdContainers StringFacts Diagnostics IR SourceLocation Irm Mutator Samples MutationPoint Reachable LogicalMutators.
From S2P Require Import Mutators MutatorsFactory Executor Bitcode Driver Program Loading CLIOptions.

Section Validator.
Context `{LLVMPath, LibIrm, LLVMNames, Hasher}.
Context (parseBitcode : string -> option ParsedModule) (getFile : string -> option string).
(** LLVM's verifier, which answers whether a module is broken *)
Context (verifyModule : Module -> bool).
(** the null pointer the functions get for a test; nothing looks at it *)
Context (null_test : TestId).

Definition validated_function (function : Function) : FunctionUnderTest := mkUnderTest function [(null_test, 1%Z)] [].

(** [finder.getMutationPoints]: the default configuration has one worker. *)
Definition validated_mutants (ms : list Mutator) (module : Module) (bitcode : BitcodePtr) : outcome (list MutationPoint) :=
  run_task (search_step ms (fun _ => (module, bitcode))) [] (map validated_function (mod_functions module)).

Definition prepare_validated (store : Store) (module : Module) (points : list (FnId * list PointId)) : outcome (Module * Store) :=
  cloned ← cloneFunctions module store points;
  let '(module, store, mutatedFunctions) := cloned in
  module ← deleteFunctions store module points;
  module ← insertTrampolines store module points;
  mret (module, store).

(** From the second line on, up to the compilation: the module compiled. *)
Definition validate (mutatorGroup bitcodePath : string) : D Module :=
  loaded ← loadBitcodeAtPath parseBitcode getFile 0 bitcodePath;
  bitcode ← lift (of_option "null Bitcode" loaded);
  program ← lift (newProgram [lb_unit bitcode]);
  unit ← lift (of_option "program.bitcode()" (head (_bitcode program)));
  let module := u_module unit in
  selected ← mutators newMutatorsFactory [mutatorGroup];
  mutants ← lift (validated_mutants selected.1 module (bc_ptr (lb_bitcode bitcode)));
  _ ← print_out ("Found " +:+ to_string (Z.of_nat (length mutants)) +:+ " mutants" +:+ eol);
  prepared ← lift (prepare_validated mutants module (mutationPoints (lb_bitcode bitcode)));
  module ← lift (applyMutations prepared.2 prepared.1 (seq 0 (length mutants)));
  _ ← lift (require (negb (verifyModule module)) "!llvm::verifyModule(*bc->getModule(), &llvm::errs())");
  mret module.

(** ** What it finds *)

(** The mutators that look at the selected instructions only. *)
Definition needs_selection (m : Mutator) : bool :=
  match m with LogicalAndToOr | LogicalOrToAnd => false | _ => true end.

Lemma nothing_selected m module bitcode f :
  needs_selection m = true -> getMutations m module bitcode (validated_function f) = Ok [].
Proof. by destruct m as [m| | | | | | |]. Qed.

Lemma validated_none ms module bitcode :
  forallb needs_selection ms = true -> validated_mutants ms module bitcode = Ok [].
Proof.
  intros Hms. unfold validated_mutants. induction (mod_functions module) as [|f fs IH]; [done|].
  cbn [map]. unfold run_task in *. cbn [fold_outcome].
  rewrite (search_step_total ms (fun _ => (module, bitcode)) (validated_function f) (fun _ => [])).
  - cbn [mbind outcome_bind mret outcome_ret app map concat].
    replace (concat (map (fun _ : Mutator => []) ms)) with (@nil MutationPoint); [exact IH|]. clear. by induction ms.
  - intros mu Hmu. apply nothing_selected. apply (proj1 (forallb_elem _ _) Hms mu Hmu).
Qed.

(** Nothing a search finds has been cloned. *)
Lemma found_uncloned ms module bitcode found :
  validated_mutants ms module bitcode = Ok found -> Forall (fun p => mutatedFunction p = None) found.
Proof.
  unfold validated_mutants, run_task. apply fold_outcome_inv; [|constructor].
  intros acc f acc' _ Hacc Hstep. apply bind_Ok in Hstep as (l & Hl & [= <-]). apply Forall_app. split; [done|].
  revert Hl. unfold search_step. apply fold_outcome_inv; [|constructor].
  intros acc2 mu acc2' _ Hacc2 Hstep2. apply bind_Ok in Hstep2 as (mutants & Hm & [= <-]). apply Forall_app. split; [done|].
  apply getMutations_made in Hm. apply Forall_fmap. eapply Forall_impl; [exact Hm|]. intros p (_ & _ & _ & _ & Hnone & _)%made_fields.
  cbn. unfold with_tests. induction (fut_reachableTests f) as [|t l' IH] using rev_ind; [done|]. by rewrite foldl_snoc.
Qed.

Lemma newProgram_one u :
  newProgram [u] = Ok (mkProgram
    (foldl register_alias (foldl register_function [] (map strip_callback (mod_functions (u_module u)))) (u_aliases u))
    (omap_insert (mod_identifier (u_module u)) 0 [])
    [mkUnit (with_functions (u_module u) (map strip_callback (mod_functions (u_module u)))) (u_aliases u) (u_globals u)]).
Proof. done. Qed.

Lemma apply_first store module p rest :
  store = p :: rest -> mutatedFunction p = None ->
  applyMutations store module (seq 0 (length store)) = Abort "mutatedFunction != nullptr".
Proof. intros -> Hp. unfold applyMutations, apply_point, point_at. cbn [length seq fold_outcome]. cbn. by rewrite Hp. Qed.
End Validator.

(** The validator validates nothing.  On a file that can be loaded it either
    finds no mutants, and then the module it verifies and compiles is the one it
    read, without a mutation; or it finds some and stops on an assertion at the
    first.  It finds none whenever the mutators selected are not those of [&&]
    and [||]: the others look at the instructions selected, and none are. *)
Theorem validator_vacuous `{LLVMPath, LibIrm, LLVMNames, Hasher} parseBitcode getFile verifyModule null_test group path
    buffer parsed ms f d d' :
  getFile path = Some buffer -> parseBitcode buffer = Some parsed ->
  mutators newMutatorsFactory [group] d = (Ok (ms, f), d') ->
  let module := with_functions (u_module (pm_unit parsed)) (map strip_callback (mod_functions (u_module (pm_unit parsed)))) in
  let mutants := validated_mutants null_test ms module (bc_ptr (newBitcode 0 (u_module (pm_unit parsed)) (md5_hex buffer))) in
  let result := (validate parseBitcode getFile verifyModule null_test group path d).1 in
  (forallb needs_selection ms = true -> mutants = Ok []) /\
  (mutants = Ok [] -> verifyModule module = false -> result = Ok module) /\
  (forall p rest, mutants = Ok (p :: rest) -> result = Abort "mutatedFunction != nullptr").
Proof.
  intros Hfile Hparse Hms module mutants result. split; [apply validated_none|].
  assert (Hresult : forall found, mutants = Ok found -> result =
    (module' ← applyMutations found module (seq 0 (length found));
     _ ← require (negb (verifyModule module')) "!llvm::verifyModule(*bc->getModule(), &llvm::errs())"; mret module')).
  { intros found Hfound. unfold result, validate. rewrite D_bind_run. unfold loadBitcodeAtPath, loadModuleFromBuffer.
    rewrite Hfile, Hparse. cbn [mret D_ret]. rewrite lift_bind. cbn [of_option]. rewrite lift_bind, newProgram_one.
    rewrite lift_bind. cbn [_bitcode head of_option u_module]. rewrite D_bind_run, Hms. cbn [fst].
    rewrite lift_bind. unfold mutants in Hfound. cbn [makeBitcode lb_bitcode lb_unit]. fold module. rewrite Hfound, D_bind_run.
    cbn [newBitcode mutationPoints]. cbv beta iota zeta delta [print_out d_modify]. rewrite lift_bind.
    change (prepare_validated found module []) with (Ok (module, found)). cbv beta iota. rewrite lift_bind. cbn [fst snd].
    destruct (applyMutations found module (seq 0 (length found))) as [m'| |]; [|done..]. rewrite lift_bind.
    cbn [mbind outcome_bind]. by destruct (verifyModule m'). }
  split.
  - intros Hm Hv. rewrite (Hresult [] Hm). cbn. by rewrite Hv.
  - intros p rest Hm. rewrite (Hresult _ Hm). pose proof (found_uncloned _ _ _ _ _ Hm) as Hp. apply Forall_cons in Hp as [Hp _].
    by rewrite (apply_first _ _ p rest).
Qed.

#[local] Existing Instance concatenating_hasher.

Definition validated_parse (buffer : string) : option ParsedModule := Some (mkParsedModule (mkUnit sample_module [] []) None).

(** [sum] has an addition, and the mutator of additions finds none. *)
Lemma validator_vacuous_witness :
  validated_mutants 0 [Trivial cxx.AddToSub] sample_module sample_bitcode = Ok [] /\
  (validate validated_parse (fun _ => Some "bc") (fun _ => false) 0 "cxx_add_to_sub" "sum.bc" newDiagnostics).1 = Ok sample_module.
Proof.
  assert (exists f d', mutators newMutatorsFactory ["cxx_add_to_sub"] newDiagnostics = (Ok ([Trivial cxx.AddToSub], f), d'))
    as (f & d' & Hms) by (do 2 eexists; vm_compute; reflexivity).
  destruct (validator_vacuous validated_parse (fun _ => Some "bc") (fun _ => false) 0 "cxx_add_to_sub" "sum.bc" "bc"
    (mkParsedModule (mkUnit sample_module [] []) None) [Trivial cxx.AddToSub] f newDiagnostics d' eq_refl eq_refl Hms)
    as (Hnone & Hsame & _).
  split; [apply Hnone; reflexivity|]. apply Hsame; [apply Hnone|]; reflexivity.
Defined.
