(* ===== verification/Main.v ===== *)
(** * mull-cxx (tools/driver-cxx/driver-cxx.cpp)

    [main]: the options become a configuration, the executable is taken apart
    into bitcode, libraries and compilation flags, the filters are put together,
    the sources are searched if asked for, the driver runs, the reports are
    written.  What the operating system, LLVM, clang and the extractor of
    embedded bitcode (ebc) do are parameters. *)

From stdpp Require Import base list strings gmap.
From Stdlib Require Import ZArith Lia Bool.
From S2P Require Import Prelude StdContainers StringFacts Diagnostics MutatorKind IR SourceLocation Irm Mutator Samples MutationPoint Reachable.
From S2P Require Import Mutators MutatorsFactory CallTree Instrumentation Executor Filters ClangAST ASTSearch CompilationDatabase Bitcode MutantExecution.
From S2P Require Import Driver JunkDetection Reporters SQLiteReporter OriginalTests Program TestFinders Toolchain CLIOptions DynamicLibraries.
From S2P Require Import Preparation Loading ASTStorage ASTFinder Run.

(** ** From the options to the configuration *)

Definition strictModeMessage : string :=
  "Diagnostics: Strict Mode enabled. Warning messages will be treated as fatal errors.".
Definition debugModeMessage : string :=
  "Diagnostics: Debug Mode enabled. Debug-level messages will be printed.".

(** [access(path, R_OK)]; what [perror] prints on the standard error is left out. *)
Definition validateInputFile (access : string -> bool) (inputFile : string) : D unit :=
  if access inputFile then mret tt else d_exit 1.

(** Up to the reading of the input; [return] from [main] is the end of the
    process. *)
Definition start_up (access : string -> bool) (validOptions : bool) (o : Options) : D MutatorsCLIOptions :=
  mutatorsOptions ← newMutatorsCLIOptions;
  if negb validOptions then
    if DumpCLIInterface o then _ ← dumpCLIInterface; d_exit 0
    else if DumpMutators o then _ ← dumpMutators; d_exit 0
    else d_exit 1
  else
    _ ← (if DebugEnabled o then _ ← enableDebugMode; debug debugModeMessage else mret tt);
    _ ← (if StrictModeEnabled o then _ ← enableStrictMode; info strictModeMessage else mret tt);
    _ ← validateInputFile access (InputFile o);
    mret mutatorsOptions.

(** The unsigned option is assigned to an [int]: beyond, the number is negative,
    and no loop that makes the tasks of an executor runs. *)
Definition parallelization_of (hardware_concurrency : nat) (option : nat) : ParallelizationConfig :=
  if Nat.eqb option 0 then defaultConfig hardware_concurrency
  else if (Z.of_nat option <=? int_max)%Z then normalize hardware_concurrency (mkParallelizationConfig option 0 0)
  else mkParallelizationConfig 0 0 0.

Definition configuration_of (hardware_concurrency : nat) (o : Options) : Configuration := {|
  dryRunEnabled := DryRunOption o;
  failFastEnabled := true;
  cacheEnabled := negb (DisableCache o);
  captureTestOutput := negb (NoTestOutput o || NoOutput o);
  captureMutantOutput := negb (NoMutantOutput o || NoOutput o);
  timeout := timeout newConfiguration;
  maxDistance := maxDistance newConfiguration;
  ide_diagnostics := ide_diagnostics newConfiguration;
  bitcodePaths := [];
  objectFilePaths := [];
  dynamicLibraryPaths := [];
  Driver.cacheDirectory := if DisableCache o then "" else CacheDir o;
  parallelization := parallelization_of hardware_concurrency (Workers o);
  customTests := [mkCustomTestDefinition "main" "main" "mull" []; mkCustomTestDefinition "main" "_main" "mull" []]
|}.

(** ** What the executable holds *)

(** An architecture of the executable, with the embedded files of its container. *)
Record BitcodeInfo := mkBitcodeInfo {
  arch : string;
  bitcodeContainer : option (list string)
}.

Definition extract_bitcode (bitcodeInfo : list BitcodeInfo) : D (list string) :=
  d_fold (fun embeddedFiles info =>
    match bitcodeContainer info with
    | Some files => mret (embeddedFiles ++ files)
    | None => _ ← warning ("No bitcode: " +:+ arch info); mret embeddedFiles
    end) [] bitcodeInfo.

(** The three sources of compilation flags: whether there is one. *)
Definition compilationDatabaseInfoAvailable (o : Options) (bitcodeCompilationFlags : list (string * string)) : bool :=
  negb (bool_decide (bitcodeCompilationFlags = [])) || negb (empty_string (CompilationDatabasePath o)) ||
  negb (empty_string (CompilationFlags o)).

(** The excluded expressions first, then the included ones. *)
Definition configure_filePathFilter `{Regex} (o : Options) : outcome FilePathFilter :=
  filePathFilter ← fold_outcome (fun f r => exclude r f) newFilePathFilter (ExcludePaths o);
  fold_outcome (fun f r => include r f) filePathFilter (IncludePaths o).

(** What [main] has made when the filters are put together. *)
Record Tool `{Regex} := mkTool {
  t_configuration : Configuration;
  t_dynamicLibraries : list string;
  t_program : Program;
  (** the same bitcode files, as the driver works on them *)
  t_files : list Bitcode;
  t_cache : ObjectCache;
  t_finder : TestFinder;
  t_infoAvailable : bool;
  t_astStorage : ASTStorage;
  t_mutators : list Mutator;
  t_mutatorsOptions : MutatorsCLIOptions;
  t_filePathFilter : FilePathFilter
}.

Section SetUp.
Context `{LLVMPath, Hasher, Regex}.
Context (hardware_concurrency : nat) (GetBitcodeInfo : string -> list BitcodeInfo) (parseBitcode : string -> option ParsedModule).
Context (exists_file : string -> bool) (getFile : string -> option string) (createSymbolicFile : string -> option SymbolicFile).
Context (create_directories : string -> option string) (read_commands : string -> option (list CompileCommand * bool)).

(** The program strips the callbacks off the modules it is given. *)
Definition files_of (bitcode : list LoadedBitcode) (program : Program) : list Bitcode :=
  zip_with (fun b u => mkBitcode (bc_ptr (lb_bitcode b)) (u_module u) []) bitcode (_bitcode program).

(** The embedded files are loaded by one task. *)
Definition set_up (o : Options) (mutatorsOptions : MutatorsCLIOptions) : D Tool :=
  let configuration := configuration_of hardware_concurrency o in
  embeddedFiles ← extract_bitcode (GetBitcodeInfo (InputFile o));
  bitcode ← LoadBitcodeFromBinaryTask parseBitcode [] (imap pair embeddedFiles);
  dynamicLibraries ← findDynamicLibraries exists_file getFile createSymbolicFile (InputFile o) (LDSearchPaths o);
  let bitcodeCompilationFlags := getCompilationDatabase bitcode in
  program ← lift (newProgram (map lb_unit bitcode));
  cache ← newObjectCache (cacheEnabled configuration) (Driver.cacheDirectory configuration) create_directories;
  finder ← lift (testFramework (TestFrameworks o) configuration);
  _ ← (if bool_decide (bitcodeCompilationFlags = []) then mret tt
       else info "Found compilation flags in the input bitcode");
  astStorage ← newASTStorage read_commands (CompilationDatabasePath o) (CompilationFlags o) bitcodeCompilationFlags;
  selected ← cli_mutators mutatorsOptions (Mutators o);
  filePathFilter ← lift (configure_filePathFilter o);
  mret {|
    t_configuration := configuration;
    t_dynamicLibraries := dynamicLibraries;
    t_program := program;
    t_files := files_of bitcode program;
    t_cache := cache;
    t_finder := finder;
    t_infoAvailable := compilationDatabaseInfoAvailable o bitcodeCompilationFlags;
    t_astStorage := astStorage;
    t_mutators := selected.1;
    t_mutatorsOptions := selected.2;
    t_filePathFilter := filePathFilter
  |}.
End SetUp.

(** ** The program seen from a run *)

(** Every function of the program is in one of its files; the defaults are not
    met. *)
Definition no_file : Bitcode := mkBitcode (mkBitcodePtr 0 "") (mkModule "" "" []) [].

Definition file_of_function (files : list Bitcode) (id : FnId) : Bitcode :=
  default no_file (find_first (fun b => existsb (fun f => Nat.eqb (fn_id f) id) (mod_functions (bc_module b))) files).

Definition program_function (files : list Bitcode) (id : FnId) : option Function :=
  find_first (fun f => Nat.eqb (fn_id f) id) (concat (map (fun b => mod_functions (bc_module b)) files)).

Definition file_at (files : list Bitcode) (pointer : BitcodePtr) : outcome Bitcode :=
  of_option "dangling bitcode" (find_first (fun b => Nat.eqb (bitcode_id (bc_ptr b)) (bitcode_id pointer)) files).

(** ** The filters *)
Section ToolFilters.
Context `{LLVMPath, FileSystem, Regex}.
Context (LoadFromCommandLine : list string -> option ASTUnit * bool) (visits : ASTUnit -> list Visit).
Context (variable : DeclId -> option VarDecl) (fuel : nat).

(** The filter over the AST search, on the record the search left. *)
Definition ast_mutationFilter (files : list Bitcode) (storage : ASTMutationStorage) : MutationFilter :=
  mkMutationFilter "AST mutation filter" (fun point =>
    file ← file_at files (bitcode point);
    ASTMutationFilter_shouldSkip storage (bc_module file) point).

(** The answer of the junk filter does not depend on what is recorded
    ([junk_storage_irrelevant]): it is taken on an empty record. *)
Definition junk_mutationFilter (db : CompilationDatabase) : MutationFilter :=
  mkMutationFilter "junk" (fun point =>
    r ← JunkMutationFilter_shouldSkip (parse LoadFromCommandLine db) variable fuel ∅ point; mret r.1).

Definition tool_mutationFilters (o : Options) (tool : Tool) (searched : ASTStorage) : list MutationFilter :=
  driver_filters (t_filePathFilter tool) ++
  (if EnableAST o && t_infoAvailable tool then [ast_mutationFilter (t_files tool) (mutations searched)] else []) ++
  (if t_infoAvailable tool then [junk_mutationFilter (compilationDatabase (t_astStorage tool))] else []).

Definition tool_functionFilters (tool : Tool) : list FunctionFilter :=
  [noDebugInfo_functionFilter; filePath_functionFilter (t_filePathFilter tool)].

Definition tool_instructionFilters : list InstructionFilter := [noDebugInfo_instructionFilter].

(** *** The search for mutations in the sources *)
Definition selected_kinds (ms : list Mutator) : MutatorKindSet := create (map mutatorKind ms).

(** The tasks only add to the log. *)
Definition only_logged (d d' : Diagnostics) : Prop :=
  debugModeEnabled d' = debugModeEnabled d /\ strictModeEnabled d' = strictModeEnabled d /\ exists events, out d' = out d ++ events.

Inductive ast_stage (o : Options) (tool : Tool) (d : Diagnostics) : ASTStorage -> Diagnostics -> Prop :=
  | ast_not_searched :
      EnableAST o && t_infoAvailable tool = false -> ast_stage o tool d (t_astStorage tool) d
  | ast_searched selected d1 astStorage d2 :
      EnableAST o && t_infoAvailable tool = true ->
      cli_mutators (t_mutatorsOptions tool) (Mutators o) d = (Ok selected, d1) ->
      findMutations (t_filePathFilter tool) (selected_kinds selected.1) LoadFromCommandLine visits
        (workers (parallelization (t_configuration tool)))
        (map (fun b => mod_sourceFileName (bc_module b)) (t_files tool)) (t_astStorage tool) astStorage ->
      only_logged d1 d2 -> ast_stage o tool d astStorage d2.

(** What the junk filter adds to the record, asked about these points in turn. *)
Definition junk_records (tool : Tool) (points : list MutationPoint) (storage : ASTMutationStorage) : outcome ASTMutationStorage :=
  if t_infoAvailable tool then
    fold_outcome (fun storage point =>
      r ← JunkMutationFilter_shouldSkip (parse LoadFromCommandLine (compilationDatabase (t_astStorage tool))) variable fuel storage point;
      mret r.2) storage points
  else mret storage.
End ToolFilters.

(** ** The reports *)
Inductive Report `{SQLite} :=
  | Printed
  | InDatabase (path : string) (database : Database)
  | InFiles (contents : list (string * string)).

Section Reports.
Context `{LLVMPath, FileSystem, SQLite}.
(** the source files, an existing database or a new one, json11's printer *)
Context (source_files : string -> option string) (open_database : string -> Database) (json_dump : Json -> string).
Context (getSourceInfo_of : ASTMutationStorage -> MutationPoint -> D MutationPointSourceInfo).
Context (now : string) (files : list Bitcode) (store : Store) (storage : ASTMutationStorage).

Definition module_identifier (pointer : BitcodePtr) : string :=
  match file_at files pointer with Ok b => mod_identifier (bc_module b) | _ => "" end.

Definition report (result : Result) (reporter : Reporter) : D Report :=
  match reporter with
  | IDEReporter showKilled => _ ← IDEReporter_reportResults store source_files showKilled result; mret Printed
  | SQLiteReporter path =>
      database ← SQLiteReporter_reportResults (program_function files) module_identifier store path (open_database path) result;
      mret (InDatabase path database)
  | ElementsReporter reporter =>
      let provider := Build_SourceInfoProvider (getSourceInfo_of storage) in
      contents ← Elements_reportResults store source_files json_dump reporter result; mret (InFiles contents)
  end.

Definition report_all (result : Result) (rs : list Reporter) : D (list Report) :=
  d_fold (fun reports reporter => r ← report result reporter; mret (reports ++ [r])) [] rs.
End Reports.

(** ** main *)
Section Main.
Context `{LLVMPath, FileSystem, Regex, LibIrm, LLVMNames, Mangler, Hasher, ObjectFormat, SQLite}.
(** the machine and the executable *)
Context (access : string -> bool) (hardware_concurrency : nat) (GetBitcodeInfo : string -> list BitcodeInfo).
Context (parseBitcode : string -> option ParsedModule) (exists_file : string -> bool) (getFile : string -> option string).
Context (createSymbolicFile : string -> option SymbolicFile) (create_directories : string -> option string).
Context (read_commands : string -> option (list CompileCommand * bool)).
(** clang *)
Context (LoadFromCommandLine : list string -> option ASTUnit * bool) (visits : ASTUnit -> list Visit).
Context (variable : DeclId -> option VarDecl) (fuel : nat).
(** code generation and execution *)
Context (compile : Module -> ObjectFile) (clone : Bitcode -> outcome Module) (load_library : string -> option string).
Context (jit_of : list ObjectFile -> list string -> JITEngine) (disk : Disk).
Context (test_sandbox : ProcessSandbox -> list ObjectFile -> TestId -> Z -> bool -> OriginalRun).
Context (mutant_sandbox : ProcessSandbox -> nat -> Memory -> TestId -> Z -> bool -> ExecutionResult).
(** the reports *)
Context (source_files : string -> option string) (open_database : string -> Database) (json_dump : Json -> string).
Context (getSourceInfo_of : ASTMutationStorage -> MutationPoint -> D MutationPointSourceInfo) (now : string).

Abbreviation tool_set_up := (set_up hardware_concurrency GetBitcodeInfo parseBitcode exists_file getFile createSymbolicFile
  create_directories read_commands).

Definition tool_run (o : Options) (tool : Tool) (searched : ASTStorage) : Diagnostics -> Store -> Result -> Diagnostics -> Prop :=
  let configuration := t_configuration tool in
  let sandbox := sandbox (SandboxOption o) in
  Driver_Run configuration (t_cache tool) compile clone (t_mutators tool)
    (tool_functionFilters tool) tool_instructionFilters
    (tool_mutationFilters LoadFromCommandLine variable fuel o tool searched)
    (program_function (t_files tool))
    (fun f => let file := file_of_function (t_files tool) f in (bc_module file, bc_ptr file))
    (test_sandbox sandbox) load_library jit_of (mutant_sandbox sandbox) disk [] (t_files tool)
    (t_finder tool) (t_program tool) (t_dynamicLibraries tool).

(** A run of [main] to its last line.  The junk filter was asked about every
    point of the result, and about points it dropped. *)
Inductive main_run (validOptions : bool) (o : Options) (d : Diagnostics) : Store -> Result -> list Report -> Diagnostics -> Prop :=
  | main_ran mutatorsOptions d1 tool d2 searched d3 store result d4 asked recorded reports d5 :
      start_up access validOptions o d = (Ok mutatorsOptions, d1) ->
      tool_set_up o mutatorsOptions d1 = (Ok tool, d2) ->
      ast_stage LoadFromCommandLine visits o tool d2 searched d3 ->
      tool_run o tool searched d3 store result d4 ->
      store ⊆ asked -> junk_records LoadFromCommandLine variable fuel tool asked (mutations searched) = Ok recorded ->
      report_all source_files open_database json_dump getSourceInfo_of (t_files tool) store recorded result
        (reporters now (IDEReporterShowKilled o) (mkReporterParameters (ReportName o) (ReportDirectory o)) (ReportersOption o)) d4 =
        (Ok reports, d5) ->
      main_run validOptions o d store result reports d5.
End Main.

(** ** The junk filter and the record *)
Lemma saveMutation_outcome `{FileSystem} storage file kind e l c :
  (_ ← saveMutation storage file kind e l c; mret tt) =
  (_ ← require (source_file_ok file) "is_regular_file(sourceFile)"; _ ← lineColumnHash l c; mret tt).
Proof.
  unfold saveMutation, record_mutation. destruct (source_file_ok file); [|done]. cbn [require mbind outcome_bind].
  by destruct (lineColumnHash l c).
Qed.

Lemma junk_storage_irrelevant `{FileSystem} parse variable fuel storage storage' point :
  (r ← JunkMutationFilter_shouldSkip parse variable fuel storage point; mret r.1) =
  (r ← JunkMutationFilter_shouldSkip parse variable fuel storage' point; mret r.1).
Proof.
  unfold JunkMutationFilter_shouldSkip, isJunk. destruct (isNull _); [done|]. unfold isJunkMutation.
  destruct (findAST parse point) as [unit| |]; [|done..]. cbn [mbind outcome_bind].
  destruct (JunkDetection.getLocation unit point) as [l| |]; [|done..]. cbn [mbind outcome_bind].
  destruct (loc_systemHeader l); [done|]. destruct (getDecl _ l) as [decl|]; [|done].
  destruct (TraverseDecl _ _ _) as [[e|]| |]; [|done..]. cbn [mbind outcome_bind].
  pose proof (saveMutation_outcome storage (unitFilePath (sourceLocation point)) (mutatorKind (mutator point)) e (loc_line l) (loc_column l)) as H1.
  rewrite <-(saveMutation_outcome storage' _ (mutatorKind (mutator point)) e) in H1. revert H1.
  destruct (saveMutation storage _ _ _ _ _), (saveMutation storage' _ _ _ _ _); cbv [mret outcome_ret mbind outcome_bind fst]; congruence.
Qed.

(** ** The path filter of the options *)
Section Paths.
Context `{LLVMPath, Regex}.

Definition matches (expression path : string) : bool :=
  match regex_compile expression with Some r => regex_search path r | None => false end.

(** What the options say of a path: with included expressions one must match;
    without, no excluded one may. *)
Definition path_selected (o : Options) (path : string) : bool :=
  match IncludePaths o with
  | [] => forallb (fun expression => negb (matches expression path)) (ExcludePaths o)
  | _ => existsb (fun expression => matches expression path) (IncludePaths o)
  end.

Lemma configured_excludes expressions : forall f f',
  fold_outcome (fun f r => exclude r f) f expressions = Ok f' ->
  includeFilters f' = includeFilters f /\ cache f' = cache f /\
  exists rs, excludeFilters f' = excludeFilters f ++ rs /\ Forall2 (fun e r => regex_compile e = Some r) expressions rs.
Proof.
  induction expressions as [|e expressions IH]; intros f f' Hrun.
  - injection Hrun as <-. split; [done|]. split; [done|]. exists []. by rewrite app_nil_r.
  - cbn [fold_outcome] in Hrun. apply bind_Ok in Hrun as (f1 & (r & Hr & [= <-])%bind_Ok & Hrun).
    destruct (IH _ _ Hrun) as (Hi & Hc & rs & He & Hrs). split; [done|]. split; [done|]. exists (r :: rs).
    cbn [excludeFilters] in He. rewrite He, <-app_assoc. split; [done|]. constructor; [|done].
    destruct (regex_compile e); [|done]. by injection Hr as ->.
Qed.

Lemma configured_includes expressions : forall f f',
  fold_outcome (fun f r => include r f) f expressions = Ok f' ->
  excludeFilters f' = excludeFilters f /\ cache f' = cache f /\
  exists rs, includeFilters f' = includeFilters f ++ rs /\ Forall2 (fun e r => regex_compile e = Some r) expressions rs.
Proof.
  induction expressions as [|e expressions IH]; intros f f' Hrun.
  - injection Hrun as <-. split; [done|]. split; [done|]. exists []. by rewrite app_nil_r.
  - cbn [fold_outcome] in Hrun. apply bind_Ok in Hrun as (f1 & (r & Hr & [= <-])%bind_Ok & Hrun).
    destruct (IH _ _ Hrun) as (Hi & Hc & rs & He & Hrs). split; [done|]. split; [done|]. exists (r :: rs).
    cbn [includeFilters] in He. rewrite He, <-app_assoc. split; [done|]. constructor; [|done].
    destruct (regex_compile e); [|done]. by injection Hr as ->.
Qed.

Lemma matches_compiled expressions rs path :
  Forall2 (fun e r => regex_compile e = Some r) expressions rs ->
  existsb (fun e => matches e path) expressions = existsb (regex_search path) rs.
Proof. induction 1 as [|e r es rs He _ IH]; [done|]. cbn [existsb]. unfold matches at 1. by rewrite He, IH. Qed.

Lemma forallb_negb {A} (p : A -> bool) l : forallb (fun x => negb (p x)) l = negb (existsb p l).
Proof. induction l as [|x l IH]; [done|]. cbn. by rewrite IH, negb_orb. Qed.

(** The filter that is configured starts without a cached answer and answers by
    the options. *)
Lemma configured_filter o f :
  configure_filePathFilter o = Ok f -> cache_current f /\ forall path, skips_path f path = negb (path_selected o path).
Proof.
  intros (f0 & Hex & Hin)%bind_Ok. destruct (configured_excludes _ _ _ Hex) as (Hi0 & Hc0 & es & He0 & Hes).
  destruct (configured_includes _ _ _ Hin) as (He & Hc & rs & Hi & Hrs).
  rewrite Hi0 in Hi. rewrite He0 in He. cbn [newFilePathFilter includeFilters excludeFilters cache app] in Hi, He, Hc0. split.
  - intros p b Hp. rewrite Hc, Hc0 in Hp. by rewrite lookup_empty in Hp.
  - intros path. unfold skips_path, path_selected. rewrite Hi, He, forallb_negb.
    destruct Hrs as [|e r includes rs Hr Hrs].
    + cbn. by rewrite (matches_compiled _ _ path Hes), negb_involutive.
    + rewrite bool_decide_false by done. cbn [negb]. by rewrite (matches_compiled (e :: includes) (r :: rs) path) by (by constructor).
Qed.
End Paths.

(** ** What a run went through *)

(** Past the options: they were valid, the input is readable, and nothing was
    selected yet. *)
Lemma start_up_Ok access validOptions o d cli d' :
  start_up access validOptions o d = (Ok cli, d') ->
  validOptions = true /\ access (InputFile o) = true /\ exists f, cli = mkMutatorsCLIOptions f offered /\ factory_inv f.
Proof.
  unfold start_up. destruct (newMutatorsCLIOptions_run d) as (f & Hnew & Hf). rewrite D_bind_run, Hnew.
  destruct validOptions; cbn [negb].
  - intros ([] & d1 & _ & ([] & d2 & _ & ([] & d3 & Hvalid & Hret)%D_bind_Ok)%D_bind_Ok)%D_bind_Ok. split; [done|].
    unfold validateInputFile in Hvalid. destruct (access (InputFile o)); [|done]. split; [done|]. injection Hret as <- _. exists f. split; [reflexivity|exact Hf].
  - destruct (DumpCLIInterface o); [by intros ([] & d1 & _ & Hret)%D_bind_Ok|].
    destruct (DumpMutators o); [by intros ([] & d1 & _ & Hret)%D_bind_Ok|done].
Qed.

(** What is set up: the mutators of the selection, the path filter of the options. *)
Lemma set_up_Ok `{LLVMPath, Hasher, Regex} hardware_concurrency GetBitcodeInfo parseBitcode exists_file getFile createSymbolicFile
    create_directories read_commands o cli d tool d' :
  set_up hardware_concurrency GetBitcodeInfo parseBitcode exists_file getFile createSymbolicFile create_directories read_commands
    o cli d = (Ok tool, d') ->
  t_configuration tool = configuration_of hardware_concurrency o /\
  (exists d1 d2, cli_mutators cli (Mutators o) d1 = (Ok (t_mutators tool, t_mutatorsOptions tool), d2)) /\
  configure_filePathFilter o = Ok (t_filePathFilter tool).
Proof.
  unfold set_up. intros (embedded & d1 & _ & Hrun)%D_bind_Ok. apply D_bind_Ok in Hrun as (bitcode & d2 & _ & Hrun).
  apply D_bind_Ok in Hrun as (libraries & d3 & _ & Hrun). apply D_bind_Ok in Hrun as (program & d4 & _ & Hrun).
  apply D_bind_Ok in Hrun as (cache & d5 & _ & Hrun). apply D_bind_Ok in Hrun as (finder & d6 & _ & Hrun).
  apply D_bind_Ok in Hrun as ([] & d7 & _ & Hrun). apply D_bind_Ok in Hrun as (storage & d8 & _ & Hrun).
  apply D_bind_Ok in Hrun as ([ms cli'] & d9 & Hsel & Hrun). apply D_bind_Ok in Hrun as (f & d10 & Hf & Hrun).
  apply lift_Ok in Hf as [Hf _]. injection Hrun as <- _. cbn. by repeat (split; [by eauto|]).
Qed.

Section Kept.
Context `{LLVMPath, FileSystem, Regex}.

(** A location both filters let through. *)
Lemma location_kept o f location :
  configure_filePathFilter o = Ok f -> isNull location = false -> filePath_location_view f location = Ok false ->
  path_selected o (filePath location) = true.
Proof.
  intros Hf Hn Hkept. destruct (configured_filter o f Hf) as [Hc Hs].
  rewrite (filePath_location_view_Ok f location Hc Hn), Hs in Hkept. injection Hkept as Hkept. by apply negb_false_iff.
Qed.

(** A point the filters of the tool keep. *)
Lemma point_kept LoadFromCommandLine variable fuel o tool searched p :
  configure_filePathFilter o = Ok (t_filePathFilter tool) ->
  (forall f, f ∈ tool_mutationFilters LoadFromCommandLine variable fuel o tool searched -> mfilter_shouldSkip f p = Ok false) ->
  isNull (sourceLocation p) = false /\ path_selected o (filePath (sourceLocation p)) = true /\
  (t_infoAvailable tool = true ->
     exists recorded, isJunk (parse LoadFromCommandLine (compilationDatabase (t_astStorage tool))) variable fuel ∅ p = Ok (false, recorded)) /\
  (EnableAST o && t_infoAvailable tool = true ->
     exists file, file_at (t_files tool) (bitcode p) = Ok file /\
       ASTMutationFilter_shouldSkip (mutations searched) (bc_module file) p = Ok false).
Proof.
  intros Hf Hall. unfold tool_mutationFilters in Hall.
  assert (Hnull : isNull (sourceLocation p) = false) by (assert (Hd := Hall noDebugInfo_mutationFilter ltac:(left)); by injection Hd).
  split; [done|]. split; [|split].
  - apply (location_kept o (t_filePathFilter tool)); [done|done|].
    exact (Hall (filePath_mutationFilter (t_filePathFilter tool)) ltac:(right; left)).
  - intros Hinfo. rewrite Hinfo in Hall.
    assert (Hj := Hall (junk_mutationFilter LoadFromCommandLine variable fuel (compilationDatabase (t_astStorage tool)))
      ltac:(rewrite !elem_of_app; right; right; left)).
    cbn [junk_mutationFilter mfilter_shouldSkip] in Hj. apply bind_Ok in Hj as ([b recorded] & Hj & [= ->]). by exists recorded.
  - intros Hast. rewrite Hast in Hall.
    assert (Ha := Hall (ast_mutationFilter (t_files tool) (mutations searched)) ltac:(rewrite !elem_of_app; right; left; left)).
    cbn [ast_mutationFilter mfilter_shouldSkip] in Ha. apply bind_Ok in Ha as (file & Hfile & Ha). by exists file.
Qed.

Lemma function_kept o tool f :
  configure_filePathFilter o = Ok (t_filePathFilter tool) ->
  (forall filter, filter ∈ tool_functionFilters tool -> ffilter_shouldSkip filter f = Ok false) ->
  isNull (locationFromFunction f) = false /\ path_selected o (filePath (locationFromFunction f)) = true.
Proof.
  intros Hf Hall.
  assert (Hnull : isNull (locationFromFunction f) = false) by (assert (Hd := Hall noDebugInfo_functionFilter ltac:(left)); by injection Hd).
  split; [done|]. apply (location_kept o (t_filePathFilter tool)); [done|done|].
  exact (Hall (filePath_functionFilter (t_filePathFilter tool)) ltac:(right; left)).
Qed.
End Kept.

Lemma report_all_length `{LLVMPath, FileSystem, SQLite} source_files open_database json_dump getSourceInfo_of files store storage result rs :
  forall d reports d',
  report_all source_files open_database json_dump getSourceInfo_of files store storage result rs d = (Ok reports, d') ->
  length reports = length rs.
Proof.
  intros d reports d' Hrun. enough (Hgen : forall acc d, d_fold (fun reports reporter =>
      r ← report source_files open_database json_dump getSourceInfo_of files store storage result reporter; mret (reports ++ [r]))
      acc rs d = (Ok reports, d') -> length reports = length acc + length rs) by exact (Hgen [] d Hrun).
  clear Hrun d. induction rs as [|x rs IH]; intros acc d Hrun.
  - injection Hrun as <- _. cbn. lia.
  - apply D_bind_Ok in Hrun as (acc' & d1 & (r & d2 & _ & [= <- _])%D_bind_Ok & Hrun). apply IH in Hrun.
    rewrite length_app in Hrun. cbn in *. lia.
Qed.

(** ** Claims *)

(** C4: what mull-cxx reports on.  A run to the end had valid options and a
    readable input.  Every mutant it ran is of one of the mutators the names
    chosen on the command line stand for; it and its function have a debug
    location in a file the options select (an included expression matches its
    path, or none is given and no excluded one does); when there are compilation
    flags the junk detector found an expression for it in the sources, and with
    the AST search the traversal had recorded it.  All results are of such
    mutants and of tests that reach them, and there is one report for each
    reporter asked for, one at least. *)
Theorem main_run_sound `{LLVMPath, FileSystem, Regex, LibIrm, LLVMNames, Mangler, Hasher, ObjectFormat, SQLite}
    access hardware_concurrency GetBitcodeInfo parseBitcode exists_file getFile createSymbolicFile create_directories read_commands
    LoadFromCommandLine visits variable fuel compile clone load_library jit_of disk test_sandbox mutant_sandbox
    source_files open_database json_dump getSourceInfo_of now validOptions o d store result reports d' :
  Forall (fun index => index < length offered) (Mutators o) ->
  main_run access hardware_concurrency GetBitcodeInfo parseBitcode exists_file getFile createSymbolicFile create_directories read_commands
    LoadFromCommandLine visits variable fuel compile clone load_library jit_of disk test_sandbox mutant_sandbox
    source_files open_database json_dump getSourceInfo_of now validOptions o d store result reports d' ->
  validOptions = true /\ access (InputFile o) = true /\
  exists cli tool searched d1 d2 d3,
    set_up hardware_concurrency GetBitcodeInfo parseBitcode exists_file getFile createSymbolicFile create_directories read_commands
      o cli d1 = (Ok tool, d2) /\
    ast_stage LoadFromCommandLine visits o tool d2 searched d3 /\
    (forall p, p ∈ store ->
       (exists name, name ∈ chosen (Mutators o) /\ mutator p ∈ shipped_mutators /\
          expands initial_groups name (getUniqueIdentifier (mutator p))) /\
       (isNull (sourceLocation p) = false /\ path_selected o (filePath (sourceLocation p)) = true) /\
       (exists f, fn_id f = originalFunction p /\ isNull (locationFromFunction f) = false /\
          path_selected o (filePath (locationFromFunction f)) = true) /\
       (t_infoAvailable tool = true -> exists recorded,
          isJunk (parse LoadFromCommandLine (compilationDatabase (t_astStorage tool))) variable fuel ∅ p = Ok (false, recorded)) /\
       (EnableAST o && t_infoAvailable tool = true -> exists file, file_at (t_files tool) (bitcode p) = Ok file /\
          ASTMutationFilter_shouldSkip (mutations searched) (bc_module file) p = Ok false)) /\
    (forall r, r ∈ mutationResults result -> of_reachable_test store (seq 0 (length store)) r) /\
    length reports = Nat.max 1 (length (ReportersOption o)).
Proof.
  intros Hopts [cli d1 tool d2 searched d3 store' result' d4 asked recorded reports' d5 Hstart Hset Hast Hrun _ _ Hrep].
  apply start_up_Ok in Hstart as (-> & Haccess & f & -> & Hf). split; [done|]. split; [done|].
  exists (mkMutatorsCLIOptions f offered), tool, searched, d1, d2, d3. split; [done|]. split; [done|].
  apply set_up_Ok in Hset as (_ & (da & db & Hsel) & Hfilter).
  destruct (cli_mutators_run f (Mutators o) da Hf Hopts) as (r & f' & Hr & _ & _ & _ & Hsel').
  rewrite Hsel' in Hsel. injection Hsel as Hms _ _.
  destruct Hrun as [instr disk' instrumented da' db' tests st points filtered results _ _ _ _ Hpoints Hkept Hmut].
  split; [|split].
  - intros p Hp. destruct (filterMutations_from _ _ _ _ _ Hkept Hp) as [Hp' Hskip].
    destruct (findMutationPoints_from _ _ _ _ _ _ _ _ _ Hpoints Hp') as (Hmu & q & _ & Hq & Hfun & _).
    destruct (point_kept LoadFromCommandLine variable fuel o tool searched p Hfilter Hskip) as (Hn & Hpath & Hjunk & Hsearch).
    rewrite <-Hms in Hmu. apply (selected_members _ _ Hr) in Hmu as (Hm & name & Hname & Hx).
    split; [by exists name|]. split; [done|]. split; [|done]. exists (rf_function q). split; [done|].
    by apply (function_kept o tool).
  - intros x Hx. by eapply runMutations_from.
  - rewrite (report_all_length _ _ _ _ _ _ _ _ _ _ _ _ Hrep). unfold reporters.
    destruct (ReportersOption o) as [|k ks]; [done|]. cbn [map]. cbn [length]. rewrite length_map. lia.
Qed.

(** ** A run on one executable

    It embeds one bitcode file, of a test that calls [sum]; the sources are
    searched. *)
#[local] Existing Instance text_objects.
#[local] Existing Instance concatenating_hasher.
#[local] Existing Instance mini_sqlite.

Definition main_options : Options :=
  mkOptions "a.out" 0 "." "" true "/tmp/mull-cache" "" "-O1" false [16] 2 [] ["/test/"] [] TimerSandbox true [] false
    false false false false false false false.

Definition main_access (path : string) : bool := true.
Definition main_bitcode (path : string) : list BitcodeInfo := [mkBitcodeInfo "x86_64" (Some ["sum.bc"]); mkBitcodeInfo "i386" None].
Definition main_parse (data : string) : option ParsedModule :=
  Some (mkParsedModule (mkUnit (mkModule "" "/home/dev/sum.cpp" [run_test_function; sample_function]) [] []) (Some [])).
Definition main_exists (path : string) : bool := false.
Definition main_file (path : string) : option string := Some "elf".
Definition main_symbolic (buffer : string) : option SymbolicFile := Some OtherSymbolicFile.
Definition main_directories (path : string) : option string := None.
Definition main_commands (path : string) : option (list CompileCommand * bool) := Some ([], false).

Definition main_mutatorsOptions : MutatorsCLIOptions :=
  ok_or (mkMutatorsCLIOptions newMutatorsFactory []) (start_up main_access true main_options newDiagnostics).1.

Definition main_no_tool : Tool :=
  mkTool _ newConfiguration [] emptyProgram [] (mkObjectCache false "") SimpleTestFinder false sum_storage [] main_mutatorsOptions newFilePathFilter.

Definition main_set_up : D Tool :=
  set_up 1 main_bitcode main_parse main_exists main_file main_symbolic main_directories main_commands main_options main_mutatorsOptions.

Definition main_tool : Tool := ok_or main_no_tool (main_set_up newDiagnostics).1.

Definition main_warned : Diagnostics := logged newDiagnostics [LogWarn "No bitcode: i386"].

Definition main_found (file : string) : outcome (list (string * SingleASTUnitMutations)) :=
  ast_search (t_filePathFilter main_tool) (selected_kinds (t_mutators main_tool)) sum_load sum_visits
    (compilationDatabase (t_astStorage main_tool)) file.

Definition main_units : list (string * SingleASTUnitMutations) := ok_or [] (main_found "/home/dev/sum.cpp").

Definition main_searched : ASTStorage := saveMutations (t_astStorage main_tool) (collect_units main_units).

Definition main_selected : list Mutator * MutatorsCLIOptions :=
  ok_or ([], main_mutatorsOptions) (cli_mutators (t_mutatorsOptions main_tool) (Mutators main_options) main_warned).1.

Definition main_bitcode_of (f : FnId) : Module * BitcodePtr :=
  let file := file_of_function (t_files main_tool) f in (bc_module file, bc_ptr file).

Definition main_store : Store :=
  ok_or [] (search_step (t_mutators main_tool) main_bitcode_of run_under_test).

Definition main_jit (objects : list ObjectFile) (names : list string) : JITEngine :=
  mkJIT (<["sum_sum_sum.bc_original" := 100%Z]> (<["sum_sum.bc_1_0_1_cxx_add_to_sub" := 200%Z]> ∅)).

Definition main_prepared : list Bitcode * Store * list string :=
  ok_or ([], [], []) (prepare_files main_store (t_files main_tool) [0]).

Definition main_result : Result := mkResult (ts_tests run_state) run_results [0].

Definition main_record : ASTMutationStorage :=
  ok_or ∅ (junk_records sum_load sample_variables 0 main_tool main_store (mutations main_searched)).

Definition main_source (path : string) : option string := None.
Definition main_database (path : string) : @Database mini_sqlite := empty_database.
Definition main_printer (json : Json) : string := "".
Definition main_source_info (storage : ASTMutationStorage) (point : MutationPoint) : D MutationPointSourceInfo := mret newSourceInfo.

Definition main_reports : outcome (list Report) * Diagnostics :=
  report_all main_source main_database main_printer main_source_info (t_files main_tool) main_store main_record main_result
    [IDEReporter false] main_warned.

Lemma main_searching :
  findMutations (t_filePathFilter main_tool) (selected_kinds (t_mutators main_tool)) sum_load sum_visits
    (workers (parallelization (t_configuration main_tool)))
    (map (fun b => mod_sourceFileName (bc_module b)) (t_files main_tool)) (t_astStorage main_tool) main_searched.
Proof.
  apply (find_mutations _ _ _ _ _ _ _ main_units (t_astStorage main_tool)).
  - apply execute_sequentially.
    + (vm_compute; lia).
    + (vm_compute; discriminate).
    + (right; vm_compute; reflexivity).
    + change (run_task main_found [] ["/home/dev/sum.cpp"] = Ok main_units). rewrite (run_task_yields main_found (fun file => ok_or [] (main_found file))).
      * reflexivity.
      * intros f ->%list_elem_of_singleton. apply ok_or_Ok. (vm_compute; reflexivity).
  - intros f ast Hf. assert (He : astUnits (t_astStorage main_tool) !! f = None); [|congruence].
    replace (astUnits (t_astStorage main_tool)) with (∅ : gmap string (option ASTUnit)) by (vm_compute; reflexivity). apply lookup_empty.
  - reflexivity.
Defined.

Lemma main_ast_stage : ast_stage sum_load sum_visits main_options main_tool main_warned main_searched main_warned.
Proof.
  apply (ast_searched sum_load sum_visits main_options main_tool main_warned main_selected main_warned main_searched main_warned).
  - (vm_compute; reflexivity).
  - (vm_compute; reflexivity).
  - assert (He : main_selected.1 = t_mutators main_tool) by (vm_compute; reflexivity). rewrite He. exact main_searching.
  - split; [reflexivity|]. split; [reflexivity|]. exists []. by rewrite app_nil_r.
Defined.

Definition keeps_all (filters : list MutationFilter) (points : list MutationPoint) : bool :=
  forallb (fun f => forallb (fun p => match mfilter_shouldSkip f p with Ok false => true | _ => false end) points) filters.

Lemma filterMutations_keeps filters points :
  points <> [] -> keeps_all filters points = true -> filterMutations 1 filters points points.
Proof.
  intros Hne. unfold keeps_all. induction filters as [|f filters IH]; cbn [forallb]; intros Hall; [constructor|].
  apply andb_true_iff in Hall as [Hf Hall]. apply (filterMutations_step 1 f filters points points points); [|by apply IH].
  apply execute_sequentially; [done|done|by left|].
  rewrite (run_task_yields (mutation_filter_step f) (fun p => [p])).
  - f_equal. cbn [app]. clear. by induction points as [|p points IH]; [done|]; cbn; f_equal.
  - intros p Hp. pose proof (proj1 (forallb_elem _ _) Hf p Hp) as Hskip. unfold mutation_filter_step. cbv beta in Hskip.
    by destruct (mfilter_shouldSkip f p) as [[]| |].
Qed.

Definition main_objects : list ObjectFile := ["sum.bc"].

Lemma main_driver_run :
  tool_run sum_load sample_variables 0 run_compile (fun b => Ok (bc_module b)) run_missing main_jit ∅
    (fun _ => run_tests) (fun _ => sample_sandbox) main_options main_tool main_searched main_warned main_store main_result main_warned.
Proof.
  unfold tool_run. replace (t_configuration main_tool) with (configuration_of 1 main_options) by (vm_compute; reflexivity).
  eapply (driver_run _ _ _ _ _ _ _ _ _ _ _ _ _ _ _ _ _ _ _ _ _ (record_all (map bc_module (t_files main_tool))) ∅ main_objects
    main_warned main_warned run_found run_state main_store main_store run_results).
  - vm_compute. reflexivity.
  - vm_compute. reflexivity.
  - vm_compute. reflexivity.
  - vm_compute. reflexivity.
  - apply (findMutationPoints_some _ _ _ _ _ _ _ [mkUnderTest sample_function [(0, 1%Z)] []] [run_under_test]); [done|..].
    + eapply filterFunctions_step; [apply execute_sequentially; [done|done|by left|vm_compute; reflexivity]|].
      eapply filterFunctions_step; [apply execute_sequentially; [done|done|by left|vm_compute; reflexivity]|constructor].
    + apply execute_sequentially; [done|done|by left|vm_compute; reflexivity].
    + apply execute_sequentially; [done|done|by left|vm_compute; reflexivity].
  - apply filterMutations_keeps; [vm_compute; discriminate|vm_compute; reflexivity].
  - apply runMutations_normal; [vm_compute; discriminate|reflexivity|].
    apply (normal_run _ _ _ _ _ _ _ _ _ _ _ main_prepared.1.1 main_prepared.1.2 main_prepared.2 ∅ main_objects [1%Z] [run_results]).
    + vm_compute. reflexivity.
    + vm_compute. reflexivity.
    + cbn. lia.
    + vm_compute. reflexivity.
    + constructor; [|constructor]. vm_compute. reflexivity.
Defined.

(** A computation that succeeds, with the log it leaves. *)
Lemma run_ok_or {A} (a : A) (m : outcome A * Diagnostics) d' : is_ok m.1 = true -> m.2 = d' -> m = (Ok (ok_or a m.1), d').
Proof. destruct m as [[x| |] d]; cbn; [by intros _ ->|done..]. Qed.

Definition sample_main_run (result : Result) (reports : list Report) (d' : Diagnostics) : Prop :=
  main_run main_access 1 main_bitcode main_parse main_exists main_file main_symbolic main_directories main_commands
    sum_load sum_visits sample_variables 0 run_compile (fun b => Ok (bc_module b)) run_missing main_jit ∅
    (fun _ => run_tests) (fun _ => sample_sandbox) main_source main_database main_printer main_source_info "now"
    true main_options newDiagnostics main_store result reports d'.

Lemma sample_main : sample_main_run main_result [Printed] main_reports.2.
Proof.
  apply (main_ran _ _ _ _ _ _ _ _ _ _ _ _ _ _ _ _ _ _ _ _ _ _ _ _ _ true main_options newDiagnostics main_mutatorsOptions newDiagnostics
    main_tool main_warned main_searched main_warned main_store main_result main_warned main_store main_record [Printed] main_reports.2).
  - apply run_ok_or; vm_compute; reflexivity.
  - apply run_ok_or; vm_compute; reflexivity.
  - exact main_ast_stage.
  - exact main_driver_run.
  - intros p Hp. exact Hp.
  - apply ok_or_Ok. vm_compute. reflexivity.
  - change (main_reports = (Ok [Printed], main_reports.2)). apply (run_ok_or []); [vm_compute|]; reflexivity.
Defined.

(** The run finds a mutant, with the AST search and the junk detector, and kills
    it. *)
Lemma main_run_sound_witness :
  sample_main_run main_result [Printed] main_reports.2 /\ length main_store = 1 /\ mutationResults main_result = run_results /\
  forall p, p ∈ main_store -> isNull (sourceLocation p) = false /\ path_selected main_options (filePath (sourceLocation p)) = true.
Proof.
  split; [exact sample_main|]. split; [vm_compute; reflexivity|]. split; [reflexivity|].
  destruct (main_run_sound main_access 1 main_bitcode main_parse main_exists main_file main_symbolic main_directories main_commands
    sum_load sum_visits sample_variables 0 run_compile (fun b => Ok (bc_module b)) run_missing main_jit ∅
    (fun _ => run_tests) (fun _ => sample_sandbox) main_source main_database main_printer main_source_info "now"
    true main_options newDiagnostics main_store main_result [Printed] main_reports.2)
    as (_ & _ & cli & tool & searched & d1 & d2 & d3 & _ & _ & Hstore & _).
  - constructor; [|constructor]. apply (bool_decide_unpack _). vm_compute. exact I.
  - exact sample_main.
  - intros p Hp. exact (proj1 (proj2 (Hstore p Hp))).
Defined.
